(** * TaskUI: trial scheduling, countdown timing and the two paradigm runners

    A shallow embedding of the timing core of the TaskUI experiment suite:

    - [Randomization]: [src/core/randomization.py], the Go/No-Go ratio and the
      weighted trial schedule;
    - [Timing]: [src/core/timing.py], the stopwatch and the two countdowns;
    - [Rhythm]: the cue train of [src/rhythm/gui/gui.py];
    - [GoStop]: the discrete-trial runner of [src/gostop/gui/gui.py].

    Python [float] values (weights, ratios, clock readings, durations) are
    embedded as exact rationals, and the statements about them are those of
    exact arithmetic.  The trial scheduler is also embedded over binary64
    ([Randomization64]), for the statements that rounding and overflow
    change.  Clocks, key presses and random draws are oracles of the
    environment. *)

From Stdlib Require Import ZArith QArith Qround Qabs Lqa Lia.
From Stdlib Require Import PrimFloat FloatOps SpecFloat.
From stdpp Require Import gmap list strings sorting.

Local Open Scope Z_scope.

(** ** Exceptions and results *)

(** The exceptions the modelled code raises.  The [ValueError]s of
    [randomization.py] are told apart by their message. *)
Inductive exn : Type :=
  | NonZeroWeightsRequired
      (* ValueError("Non-zero weights required for both Go and No-Go digits.") *)
  | DigitsBothGoAndNoGo (overlap : list Z)
      (* ValueError("Digits cannot be both Go and No-Go: {}".format(sorted(overlap))) *)
  | GoAndNoGoDigitRequired
      (* ValueError("At least one Go digit and one No-Go digit are required.") *)
  | NonZeroWeightsForCandidates
      (* ValueError("Non-zero weights are required for Go and No-Go digits.") *)
  | WeightsLengthMismatch
      (* random.choices: ValueError, the number of weights does not match
         the population *)
  | TotalOfWeightsNotPositive
      (* random.choices: ValueError, total of weights must be greater than
         zero *)
  | TotalOfWeightsNotFinite
      (* random.choices: ValueError, total of weights must be finite *)
  | CannotConvertNaNToInteger
      (* round: ValueError, cannot convert float NaN to integer *)
  | OverflowError
      (* int too large to convert to float; cannot convert float infinity to
         integer *)
  | SleepLengthNegative
      (* ValueError of time.sleep on a negative length *)
  | IndexError
  | KeyError
  | AttributeError.

Inductive result (A : Type) : Type :=
  | Ok (a : A)
  | Raise (e : exn).
Arguments Ok {A} a.
Arguments Raise {A} e.

#[export] Instance result_ret : MRet result := fun A a => Ok a.
#[export] Instance result_bind : MBind result := fun A B k r =>
  match r with
  | Ok a => k a
  | Raise e => Raise e
  end.

(** The [ValueError]s of [randomization.py], which the specification calls
    [InvalidConfig]. *)
Definition is_InvalidConfig (e : exn) : bool :=
  match e with
  | NonZeroWeightsRequired | DigitsBothGoAndNoGo _
  | GoAndNoGoDigitRequired | NonZeroWeightsForCandidates => true
  | _ => false
  end.

(** ** Operations of Python on numbers *)

(** [a < b] *)
Definition Qltb (a b : Q) : bool :=
  match Qcompare a b with Lt => true | _ => false end.

(** [round(x)]: to the nearest integer, ties to the even one. *)
Definition round_half_even (q : Q) : Z :=
  let f := Qfloor q in
  match Qcompare (q - inject_Z f) (1 # 2) with
  | Lt => f
  | Gt => f + 1
  | Eq => if Z.even f then f else f + 1
  end.

(** [int(x)]: truncation towards zero. *)
Definition Qtruncate (x : Q) : Z :=
  if Qltb x 0 then Qceiling x else Qfloor x.

(** ** src/core/randomization.py *)

Module Randomization.

(** A trial: the dict [{"digit": digit, "is_go": flag}]. *)
Record trial : Type := Trial { digit : Z; is_go : bool }.

#[export] Instance trial_eq_dec : EqDecision trial.
Proof. solve_decision. Defined.

(** The random module is an oracle: for the k-th draw, [rnd_unit k] is what
    [random()] returns, a float in [0.0, 1.0), and [rnd_int k mod n] what
    [randbelow(n)] returns.  Every randomised function threads the index of
    the next unused draw. *)
Record rng : Type := Rng { rnd_unit : nat -> Q; rnd_int : nat -> nat }.

(** [max(x, 0.0)]: Python's [max] returns its first argument unless the
    second is strictly larger. *)
Definition clamp0 (x : Q) : Q :=
  if Qltb x 0 then 0%Q else x.

(** The builtin [sum] of a list of floats, left to right from 0. *)
Definition py_sum (l : list Q) : Q := fold_left Qplus l 0%Q.

(** [digit_weights.get(d, dflt)] *)
Definition get_weight (digit_weights : gmap Z Q) (d : Z) (dflt : Q) : Q :=
  default dflt (digit_weights !! d).

Definition normalize_weights (weights : list Q) : list Q :=
  let total := py_sum weights in
  if Qle_bool total 0 then map (fun _ => 0%Q) weights
  else map (fun w => (w / total)%Q) weights.

(** [sum(max(digit_weights.get(d, 0.0), 0.0) for d in digits)] *)
Definition class_total (digits : list Z) (digit_weights : gmap Z Q) : Q :=
  py_sum (map (fun d => clamp0 (get_weight digit_weights d 0%Q)) digits).

Definition compute_go_ratio (go_digits nogo_digits : list Z)
    (digit_weights : gmap Z Q) : result Q :=
  let total_go := class_total go_digits digit_weights in
  let total_nogo := class_total nogo_digits digit_weights in
  if Qle_bool total_go 0 || Qle_bool total_nogo 0
  then Raise NonZeroWeightsRequired
  else Ok (total_go / (total_go + total_nogo))%Q.

(** [itertools.accumulate(weights)] *)
Fixpoint accumulate_from (acc : Q) (l : list Q) : list Q :=
  match l with
  | [] => []
  | w :: rest => let a := (acc + w)%Q in a :: accumulate_from a rest
  end.

Definition accumulate (l : list Q) : list Q :=
  match l with
  | [] => []
  | w :: rest => w :: accumulate_from w rest
  end.

(** [bisect.bisect(a, x, lo, hi)]: binary search for the insertion point to
    the right of [x]; the interval halves at each step, so [hi - lo] steps
    of fuel are enough. *)
Fixpoint bisect_right (fuel : nat) (a : list Q) (x : Q) (lo hi : nat) : nat :=
  match fuel with
  | O => lo
  | S fuel' =>
      if (lo <? hi)%nat then
        let mid := ((lo + hi) / 2)%nat in
        match a !! mid with
        | Some am =>
            if Qltb x am then bisect_right fuel' a x lo mid
            else bisect_right fuel' a x (S mid) hi
        | None => lo
        end
      else lo
  end.

(** [random.choices(candidates, weights=weights, k=1)[0]], as the standard
    library computes it: the cumulative weights, their total, which must be
    positive (and finite, which an exact number is), and a bisection for
    [random() * total]. *)
Definition weighted_sample (rnd : rng) (pos : nat)
    (candidates : list Z) (weights : list Q) : result (Z * nat) :=
  let n := length candidates in
  let cum_weights := accumulate weights in
  if bool_decide (length cum_weights ≠ n) then Raise WeightsLengthMismatch
  else
    match last cum_weights with
    | None => Raise IndexError
    | Some t =>
        let total := (t + 0)%Q in
        if Qle_bool total 0 then Raise TotalOfWeightsNotPositive
        else
          let x := (rnd_unit rnd pos * total)%Q in
          match candidates !! bisect_right n cum_weights x 0 (n - 1) with
          | Some d => Ok (d, S pos)
          | None => Raise IndexError
          end
    end.

(** The conditions on which [weighted_sample] returns. *)
Definition samplable (candidates : list Z) (weights : list Q) : Prop :=
  candidates ≠ []
  ∧ length (accumulate weights) = length candidates
  ∧ ∃ t, last (accumulate weights) = Some t ∧ Qle_bool (t + 0) 0 = false.

(** The loops that fill [go_candidates]/[go_weights]: the digits of the
    class whose clamped weight, 1.0 when the map has none, is positive. *)
Fixpoint collect_candidates (digits : list Z) (digit_weights : gmap Z Q)
    : list Z * list Q :=
  match digits with
  | [] => ([], [])
  | d :: rest =>
      let w := clamp0 (get_weight digit_weights d 1%Q) in
      let '(cs, ws) := collect_candidates rest digit_weights in
      if Qltb 0 w then (d :: cs, w :: ws) else (cs, ws)
  end.

(** [for _ in range(n): trials.append({"digit": weighted_sample(..), "is_go": flag})] *)
Fixpoint sample_trials (rnd : rng) (pos : nat) (n : nat) (flag : bool)
    (candidates : list Z) (weights : list Q) (trials : list trial)
    : result (list trial * nat) :=
  match n with
  | O => Ok (trials, pos)
  | S n' =>
      '(d, pos') ← weighted_sample rnd pos candidates weights;
      sample_trials rnd pos' n' flag candidates weights
                    (trials ++ [Trial d flag])
  end.

(** [x[i], x[j] = x[j], x[i]] *)
Definition swap {A : Type} (x : list A) (i j : nat) : list A :=
  match x !! i, x !! j with
  | Some xi, Some xj => <[j := xi]> (<[i := xj]> x)
  | _, _ => x
  end.

(** [random.shuffle]: for i from len(x)-1 down to 1, swap x[i] with
    x[randbelow(i+1)]. *)
Fixpoint shuffle_from {A : Type} (rnd : rng) (pos : nat) (i : nat)
    (x : list A) : list A * nat :=
  match i with
  | O => (x, pos)
  | S i' =>
      let j := (rnd_int rnd pos mod (S i))%nat in
      shuffle_from rnd (S pos) i' (swap x i j)
  end.

Definition shuffle {A : Type} (rnd : rng) (pos : nat) (x : list A)
    : list A * nat :=
  shuffle_from rnd pos (length x - 1)%nat x.

(** [set(go_digits) & set(nogo_digits)] *)
Definition overlap_of (go_digits nogo_digits : list Z) : gset Z :=
  list_to_set go_digits ∩ list_to_set nogo_digits.

Definition generate_trial_schedule (rnd : rng)
    (go_digits nogo_digits : list Z) (digit_weights : gmap Z Q)
    (go_ratio : Q) (n_trials_per_block : Z) : result (list trial) :=
  let overlap := overlap_of go_digits nogo_digits in
  if negb (bool_decide (overlap = ∅))
  then Raise (DigitsBothGoAndNoGo (merge_sort Z.le (elements overlap)))
  else
  if bool_decide (go_digits = []) || bool_decide (nogo_digits = [])
  then Raise GoAndNoGoDigitRequired
  else
    let n_go := round_half_even (inject_Z n_trials_per_block * go_ratio) in
    let n_go := Z.max 0 (Z.min n_go n_trials_per_block) in
    let n_nogo := n_trials_per_block - n_go in
    let '(go_candidates, go_weights0) :=
      collect_candidates go_digits digit_weights in
    let '(nogo_candidates, nogo_weights0) :=
      collect_candidates nogo_digits digit_weights in
    if bool_decide (go_candidates = []) || bool_decide (nogo_candidates = [])
    then Raise NonZeroWeightsForCandidates
    else
      let go_weights := normalize_weights go_weights0 in
      let nogo_weights := normalize_weights nogo_weights0 in
      '(trials, pos) ← sample_trials rnd 0 (Z.to_nat n_go) true
                          go_candidates go_weights [];
      '(trials, pos) ← sample_trials rnd pos (Z.to_nat n_nogo) false
                          nogo_candidates nogo_weights trials;
      Ok (fst (shuffle rnd pos trials)).

(** The number of Go (resp. No-Go) entries of a schedule. *)
Definition count_go (trials : list trial) : nat :=
  length (filter (fun t => is_go t = true) trials).
Definition count_nogo (trials : list trial) : nat :=
  length (filter (fun t => is_go t = false) trials).

(** The class total in the words of the specification: the sum of the
    weights of the digits of the class whose weight is strictly positive. *)
Fixpoint positive_weight_total (digits : list Z) (w : gmap Z Q) : Q :=
  match digits with
  | [] => 0
  | d :: rest =>
      match w !! d with
      | Some x => if Qltb 0 x then x + positive_weight_total rest w
                  else positive_weight_total rest w
      | None => positive_weight_total rest w
      end
  end%Q.

(** The weights of the specification's end-to-end example. *)
Definition unit_weights : gmap Z Q :=
  {[ 0 := 1%Q; 1 := 1%Q; 2 := 1%Q; 9 := 1%Q ]}.

End Randomization.

(** ** src/core/randomization.py over binary64 *)

(** The functions of [randomization.py] once more, with a Python [float] as
    the IEEE 754 binary64 number it is: sums, products and quotients are
    rounded to nearest, a sum can overflow to [inf], and every comparison
    with [nan] is false.  The statements about [Randomization] are those of
    exact arithmetic; where rounding or overflow changes what the code does,
    the statement is about this module. *)

Module Randomization64.
Import Randomization(trial, Trial, digit, is_go, swap, overlap_of).

Local Open Scope float_scope.

(** The random module as an oracle, [random()] returning a binary64. *)
Record rng : Type := Rng { rnd_unit : nat -> float; rnd_int : nat -> nat }.

(** [float(n)] of an [int], as [n * go_ratio] converts its left operand: the
    nearest binary64, ties to even; [OverflowError] beyond the range. *)
Definition float_of_int (n : Z) : result float :=
  let x := SF2Prim (binary_normalize prec emax n 0 false) in
  if is_infinity x then Raise OverflowError else Ok x.

(** [round(x)] of a float, read off its sign, mantissa and exponent, the
    value being [m * 2^e]: the nearest integer, ties to the even one;
    [round(nan)] raises [ValueError], [round(inf)] raises [OverflowError]. *)
Definition py_round (x : float) : result Z :=
  match Prim2SF x with
  | S754_zero _ => Ok 0%Z
  | S754_finite s m e =>
      let v := round_half_even (inject_Z (Z.pos m) * Qpower 2 e) in
      Ok (if s then - v else v)%Z
  | S754_infinity _ => Raise OverflowError
  | S754_nan => Raise CannotConvertNaNToInteger
  end.

(** [max(x, 0.0)]: Python's [max] returns its first argument unless the
    second is strictly larger, so [max(nan, 0.0)] is [nan]. *)
Definition clamp0 (x : float) : float :=
  if x <? 0 then 0 else x.

(** The builtin [sum] on floats as CPython up to 3.11 computes it: left to
    right from the [int] 0. *)
Definition sum_left_to_right (l : list float) : float := fold_left add l 0.

(** The builtin [sum] on floats as CPython 3.12 and later compute it: the
    running sum [f_result] with the compensation [c] of Neumaier's
    algorithm, added at the end when it is finite and not zero. *)
Fixpoint sum_compensated_from (f_result c : float) (l : list float) : float :=
  match l with
  | [] => if negb (is_zero c) && is_finite c then f_result + c else f_result
  | x :: rest =>
      let t := f_result + x in
      let c := if abs x <=? abs f_result then c + ((f_result - t) + x)
               else c + ((x - t) + f_result) in
      sum_compensated_from t c rest
  end.

Definition sum_compensated (l : list float) : float :=
  match l with
  | [] => 0
  | x :: rest => sum_compensated_from (0 + x) 0 rest
  end.

Section Builtin.

(** The rounding of the builtin [sum] belongs to the interpreter: the
    functions take it as the parameter [sum_floats], which
    [sum_left_to_right] and [sum_compensated] instantiate. *)
Variable sum_floats : list float -> float.

(** [sum(l)]: the [int] 0 for an empty [l]. *)
Definition py_sum (l : list float) : float :=
  match l with
  | [] => 0
  | _ => sum_floats l
  end.

(** [digit_weights.get(d, dflt)] *)
Definition get_weight (digit_weights : gmap Z float) (d : Z) (dflt : float)
    : float :=
  default dflt (digit_weights !! d).

Definition normalize_weights (weights : list float) : list float :=
  let total := py_sum weights in
  if total <=? 0 then map (fun _ => 0) weights
  else map (fun w => w / total) weights.

(** [sum(max(digit_weights.get(d, 0.0), 0.0) for d in digits)] *)
Definition class_total (digits : list Z) (digit_weights : gmap Z float)
    : float :=
  py_sum (map (fun d => clamp0 (get_weight digit_weights d 0)) digits).

Definition compute_go_ratio (go_digits nogo_digits : list Z)
    (digit_weights : gmap Z float) : result float :=
  let total_go := class_total go_digits digit_weights in
  let total_nogo := class_total nogo_digits digit_weights in
  if (total_go <=? 0) || (total_nogo <=? 0)
  then Raise NonZeroWeightsRequired
  else Ok (total_go / (total_go + total_nogo)).

(** [itertools.accumulate(weights)]: running sums with [+]. *)
Fixpoint accumulate_from (acc : float) (l : list float) : list float :=
  match l with
  | [] => []
  | w :: rest => let a := acc + w in a :: accumulate_from a rest
  end.

Definition accumulate (l : list float) : list float :=
  match l with
  | [] => []
  | w :: rest => w :: accumulate_from w rest
  end.

(** [bisect.bisect(a, x, lo, hi)] *)
Fixpoint bisect_right (fuel : nat) (a : list float) (x : float) (lo hi : nat)
    : nat :=
  match fuel with
  | O => lo
  | S fuel' =>
      if (lo <? hi)%nat then
        let mid := ((lo + hi) / 2)%nat in
        match a !! mid with
        | Some am =>
            if x <? am then bisect_right fuel' a x lo mid
            else bisect_right fuel' a x (S mid) hi
        | None => lo
        end
      else lo
  end.

(** [random.choices(candidates, weights=weights, k=1)[0]]: the cumulative
    weights, their total, which must be positive and finite, and a bisection
    for [random() * total]. *)
Definition weighted_sample (rnd : rng) (pos : nat)
    (candidates : list Z) (weights : list float) : result (Z * nat) :=
  let n := length candidates in
  let cum_weights := accumulate weights in
  if bool_decide (length cum_weights ≠ n) then Raise WeightsLengthMismatch
  else
    match last cum_weights with
    | None => Raise IndexError
    | Some t =>
        let total := t + 0 in
        if total <=? 0 then Raise TotalOfWeightsNotPositive
        else if negb (is_finite total) then Raise TotalOfWeightsNotFinite
        else
          let x := rnd_unit rnd pos * total in
          match candidates !! bisect_right n cum_weights x 0 (n - 1) with
          | Some d => Ok (d, S pos)
          | None => Raise IndexError
          end
    end.

(** The conditions on which [weighted_sample] returns. *)
Definition samplable (candidates : list Z) (weights : list float) : Prop :=
  candidates ≠ []
  ∧ length (accumulate weights) = length candidates
  ∧ ∃ t, last (accumulate weights) = Some t
         ∧ (t + 0 <=? 0) = false ∧ is_finite (t + 0) = true.

(** The loops that fill [go_candidates]/[go_weights]. *)
Fixpoint collect_candidates (digits : list Z) (digit_weights : gmap Z float)
    : list Z * list float :=
  match digits with
  | [] => ([], [])
  | d :: rest =>
      let w := clamp0 (get_weight digit_weights d 1) in
      let '(cs, ws) := collect_candidates rest digit_weights in
      if 0 <? w then (d :: cs, w :: ws) else (cs, ws)
  end.

(** [for _ in range(n): trials.append({"digit": weighted_sample(..), "is_go": flag})] *)
Fixpoint sample_trials (rnd : rng) (pos : nat) (n : nat) (flag : bool)
    (candidates : list Z) (weights : list float) (trials : list trial)
    : result (list trial * nat) :=
  match n with
  | O => Ok (trials, pos)
  | S n' =>
      '(d, pos') ← weighted_sample rnd pos candidates weights;
      sample_trials rnd pos' n' flag candidates weights
                    (trials ++ [Trial d flag])
  end.

(** [random.shuffle], which draws integers only. *)
Fixpoint shuffle_from {A : Type} (rnd : rng) (pos : nat) (i : nat)
    (x : list A) : list A * nat :=
  match i with
  | O => (x, pos)
  | S i' =>
      let j := (rnd_int rnd pos mod (S i))%nat in
      shuffle_from rnd (S pos) i' (swap x i j)
  end.

Definition shuffle {A : Type} (rnd : rng) (pos : nat) (x : list A)
    : list A * nat :=
  shuffle_from rnd pos (length x - 1)%nat x.

Definition generate_trial_schedule (rnd : rng)
    (go_digits nogo_digits : list Z) (digit_weights : gmap Z float)
    (go_ratio : float) (n_trials_per_block : Z) : result (list trial) :=
  let overlap := overlap_of go_digits nogo_digits in
  if negb (bool_decide (overlap = ∅))
  then Raise (DigitsBothGoAndNoGo (merge_sort Z.le (elements overlap)))
  else
  if bool_decide (go_digits = []) || bool_decide (nogo_digits = [])
  then Raise GoAndNoGoDigitRequired
  else
    n ← float_of_int n_trials_per_block;
    n_go ← py_round (n * go_ratio);
    let n_go := Z.max 0 (Z.min n_go n_trials_per_block) in
    let n_nogo := (n_trials_per_block - n_go)%Z in
    let '(go_candidates, go_weights0) :=
      collect_candidates go_digits digit_weights in
    let '(nogo_candidates, nogo_weights0) :=
      collect_candidates nogo_digits digit_weights in
    if bool_decide (go_candidates = []) || bool_decide (nogo_candidates = [])
    then Raise NonZeroWeightsForCandidates
    else
      let go_weights := normalize_weights go_weights0 in
      let nogo_weights := normalize_weights nogo_weights0 in
      '(trials, pos) ← sample_trials rnd 0 (Z.to_nat n_go) true
                          go_candidates go_weights [];
      '(trials, pos) ← sample_trials rnd pos (Z.to_nat n_nogo) false
                          nogo_candidates nogo_weights trials;
      Ok (fst (shuffle rnd pos trials)).

End Builtin.

(** The weights of the specification's end-to-end example. *)
Definition unit_weights : gmap Z float :=
  {[ 0%Z := 1; 1%Z := 1; 2%Z := 1; 9%Z := 1 ]}.

(** Weights whose Go total overflows. *)
#[warnings="-inexact-float"]
Definition huge_weights : gmap Z float :=
  {[ 1%Z := 1e308; 2%Z := 1e308; 9%Z := 1 ]}.

(** Weights whose Go total absorbs the No-Go total. *)
Definition lopsided_weights : gmap Z float :=
  {[ 1%Z := 1e17; 2%Z := 1 ]}.

End Randomization64.

(** ** src/core/timing.py *)

Module Timing.

(** The clocks are oracles: [perf k] is what the k-th call of
    [time.perf_counter()] returns (seconds), [wall k] what the k-th call of
    [datetime.now()] returns (microseconds).  Every function that reads a
    clock threads the index of the next reading. *)
Record clocks : Type := Clocks { perf : nat -> Q; wall : nat -> Z }.

Record reads : Type := Reads { perf_reads : nat; wall_reads : nat }.

Record Stopwatch : Type := MkStopwatch { start_datetime : Z; start_perf : Q }.

(** [Stopwatch()]: both fields come from their default factories. *)
Definition new_stopwatch (c : clocks) (r : reads) : Stopwatch * reads :=
  (MkStopwatch (wall c (wall_reads r)) (perf c (perf_reads r)),
   Reads (S (perf_reads r)) (S (wall_reads r))).

(** [Stopwatch.elapsed] *)
Definition elapsed (c : clocks) (r : reads) (sw : Stopwatch) : Q * reads :=
  ((perf c (perf_reads r) - start_perf sw)%Q,
   Reads (S (perf_reads r)) (wall_reads r)).

(** [Stopwatch.timestamp_pair]: [datetime.now(), self.elapsed()] *)
Definition timestamp_pair (c : clocks) (r : reads) (sw : Stopwatch)
    : (Z * Q) * reads :=
  let now := wall c (wall_reads r) in
  let '(e, r') := elapsed c (Reads (perf_reads r) (S (wall_reads r))) sw in
  ((now, e), r').

(** What a countdown calls back: [on_tick(remaining_ms)] and
    [on_finished()]. *)
Inductive callback : Type :=
  | Tick (remaining_ms : Z)
  | Finished.

#[export] Instance callback_eq_dec : EqDecision callback.
Proof. solve_decision. Defined.

(** [max(0.0, duration_s)] *)
Definition clamp_duration (duration_s : Q) : Q :=
  if Qltb 0 duration_s then duration_s else 0%Q.

(** [max(0, int(math.ceil(seconds * 1000)))] *)
Definition ms_left (seconds : Q) : Z := Z.max 0 (Qceiling (seconds * 1000)).

(** *** start_countdown_timer *)

(** The QTimer the function returns, with the variables its
    [_handle_timeout] closure holds. *)
Record countdown_timer : Type := CountdownTimer {
  ct_duration_s : Q;
  ct_start_perf : Q;
  ct_interval_ms : Z;
  ct_on_finished : bool;      (* whether an [on_finished] was passed *)
  ct_remaining_ms : Z;
  ct_active : bool
}.

(** The body of [start_countdown_timer] up to [timer.start()]: the calls it
    makes, the running timer, and the index of the next clock reading. *)
Definition start_countdown_timer (perf : nat -> Q) (nread : nat)
    (duration_s : Q) (on_finished : bool) (interval_ms : Z)
    : list callback * countdown_timer * nat :=
  let duration_s := clamp_duration duration_s in
  let start_perf := perf nread in
  let remaining_ms := ms_left duration_s in
  ([Tick remaining_ms],
   CountdownTimer duration_s start_perf interval_ms on_finished remaining_ms true,
   S nread).

(** [_handle_timeout], run by the event loop each time the timer fires. *)
Definition handle_timeout (perf : nat -> Q) (nread : nat) (t : countdown_timer)
    : list callback * countdown_timer * nat :=
  let elapsed := (perf nread - ct_start_perf t)%Q in
  let remaining_ms := ms_left (ct_duration_s t - elapsed) in
  let t' := CountdownTimer (ct_duration_s t) (ct_start_perf t) (ct_interval_ms t)
              (ct_on_finished t) remaining_ms (ct_active t) in
  if remaining_ms <=? 0 then
    (if ct_on_finished t then [Finished] else [],
     CountdownTimer (ct_duration_s t) (ct_start_perf t) (ct_interval_ms t)
       (ct_on_finished t) remaining_ms false,
     S nread)
  else ([Tick remaining_ms], t', S nread).

(** The event loop fires the timer [n] times; a stopped timer fires no
    more. *)
Fixpoint fire_timeouts (perf : nat -> Q) (n : nat) (nread : nat)
    (t : countdown_timer) (calls : list callback)
    : list callback * countdown_timer * nat :=
  match n with
  | O => (calls, t, nread)
  | S n' =>
      if ct_active t then
        let '(cs, t', nread') := handle_timeout perf nread t in
        fire_timeouts perf n' nread' t' (calls ++ cs)
      else (calls, t, nread)
  end.

(** *** run_blocking_countdown *)

(** Why the [while True] loop was left. *)
Inductive loop_exit : Type :=
  | ByAbort       (* [check_abort()] returned true *)
  | ByDeadline.   (* [now >= end_time] *)

Record loop_state : Type := LoopState {
  nread : nat;              (* clock readings taken so far *)
  npoll : nat;              (* calls of [check_abort] made so far *)
  last_ms : option Z;
  calls : list callback     (* the callbacks invoked so far, in order *)
}.

(** [check_abort and check_abort()]; [check_abort k] is the answer to the
    k-th call. *)
Definition poll (check_abort : option (nat -> bool)) (st : loop_state)
    : bool * loop_state :=
  match check_abort with
  | None => (false, st)
  | Some f => (f (npoll st),
               LoopState (nread st) (S (npoll st)) (last_ms st) (calls st))
  end.

(** The loop; [None] when the fuel runs out first.  [time.sleep] raises on a
    negative length and otherwise only lets the clock advance. *)
Fixpoint countdown_loop (fuel : nat) (perf : nat -> Q)
    (check_abort : option (nat -> bool)) (step_s end_time : Q)
    (st : loop_state) : option (result (loop_state * loop_exit)) :=
  match fuel with
  | O => None
  | S fuel' =>
      let '(stop, st) := poll check_abort st in
      if stop then Some (Ok (st, ByAbort))
      else
        let now := perf (nread st) in
        let remaining_ms := ms_left (end_time - now) in
        let st :=
          if bool_decide (Some remaining_ms ≠ last_ms st)
          then LoopState (S (nread st)) (npoll st) (Some remaining_ms)
                 (calls st ++ [Tick remaining_ms])
          else LoopState (S (nread st)) (npoll st) (last_ms st) (calls st) in
        if Qle_bool end_time now then Some (Ok (st, ByDeadline))
        else if Qltb step_s 0 then Some (Raise SleepLengthNegative)
        else countdown_loop fuel' perf check_abort step_s end_time st
  end.

Record countdown_run : Type := CountdownRun {
  run_calls : list callback;  (* every callback invoked, in order *)
  run_exit : loop_exit;
  run_polls : nat             (* calls of [check_abort] made *)
}.

Definition run_blocking_countdown (fuel : nat) (perf : nat -> Q)
    (duration_s : Q) (on_finished : bool)
    (check_abort : option (nat -> bool)) (step_s : Q)
    : option (result countdown_run) :=
  let end_time := (perf 0%nat + clamp_duration duration_s)%Q in
  match countdown_loop fuel perf check_abort step_s end_time
          (LoopState 1 0 None []) with
  | None => None
  | Some (Raise e) => Some (Raise e)
  | Some (Ok (st, why)) =>
      if on_finished then
        let '(stop, st) := poll check_abort st in
        if stop then Some (Ok (CountdownRun (calls st) why (npoll st)))
        else Some (Ok (CountdownRun (calls st ++ [Finished]) why (npoll st)))
      else Some (Ok (CountdownRun (calls st) why (npoll st)))
  end.

(** *** Predicates on runs of the countdowns *)

Definition strictly_decreasing (l : list Z) : Prop :=
  ∀ i a b, l !! i = Some a → l !! S i = Some b → b < a.

Definition monotone (perf : nat -> Q) : Prop :=
  ∀ i j, (i ≤ j)%nat → (perf i <= perf j)%Q.

Definition never_aborts (check_abort : option (nat -> bool)) : Prop :=
  match check_abort with
  | None => True
  | Some f => ∀ k, f k = false
  end.

Definition latching (check_abort : option (nat -> bool)) : Prop :=
  match check_abort with
  | None => True
  | Some f => ∀ i j, (i ≤ j)%nat → f i = true → f j = true
  end.

(** Within [n] more iterations the clock reaches the deadline or
    [check_abort] answers true. *)
Definition stops_within (check_abort : option (nat -> bool)) (perf : nat -> Q)
    (end_time : Q) (st : loop_state) (n : nat) : Prop :=
  (end_time <= perf (nread st + n)%nat)%Q
  ∨ match check_abort with
    | Some f => f (npoll st + n)%nat = true
    | None => False
    end.

Definition is_tick (c : callback) : Prop :=
  match c with Tick _ => True | Finished => False end.

End Timing.

(** ** src/rhythm/gui/gui.py: the cue train of [ParadigmRunner] *)

Module Rhythm.
Import Timing.

Definition PART_KEYS : list string :=
  ["rest_pre"; "cued_movement"; "rest_instruction"; "internal_movement";
   "rest_post"]%string.

(** A timestamp pair of the [Logger]: the wall-clock string, kept as the
    milliseconds it prints ([strftime(...)[:23]]), and [relative_ms]. *)
Definition stamp : Type := (Z * Z)%type.

(** One entry of [timeline_absolute["blocks"]] and its twin in
    [timeline_relative["blocks"]]: the two hold the same keys and are always
    written together, so each cue event is kept as a pair.  Only the cue
    lists are written by the cue train. *)
Record block_log : Type := BlockLog {
  block_index : nat;
  cue_events : gmap string (list stamp)
}.

Record Logger : Type := MkLogger {
  stopwatch : option Stopwatch;
  paradigm_start : option stamp;
  blocks : list block_log
}.

(** [Logger.start_paradigm] *)
Definition start_paradigm (c : clocks) (r : reads) (lg : Logger)
    : Logger * reads :=
  let '(sw, r) := new_stopwatch c r in
  (MkLogger (Some sw) (Some (start_datetime sw / 1000, 0)) (blocks lg), r).

(** [Logger.init_blocks] *)
Definition init_blocks (num_blocks : nat) (lg : Logger) : Logger :=
  MkLogger (stopwatch lg) (paradigm_start lg)
    (map (fun idx => BlockLog idx (list_to_map (map (fun k => (k, [])) PART_KEYS)))
         (seq 0 num_blocks)).

(** [Logger.get_timestamp_pair] *)
Definition get_timestamp_pair (c : clocks) (r : reads) (lg : Logger)
    : stamp * Logger * reads :=
  let '(lg, r) :=
    match stopwatch lg with
    | None => start_paradigm c r lg
    | Some _ => (lg, r)
    end in
  match stopwatch lg with
  | Some sw =>
      let '((now_dt, rel_seconds), r) := timestamp_pair c r sw in
      ((now_dt / 1000, Qtruncate (rel_seconds * 1000)), lg, r)
  | None =>
      ((wall c (wall_reads r) / 1000, 0), lg,
       Reads (perf_reads r) (S (wall_reads r)))
  end.

(** [Logger.log_cue_event]: the list indexed by [block_index] and the dict
    indexed by [part_key] raise when the index or key is missing. *)
Definition log_cue_event (c : clocks) (r : reads) (lg : Logger)
    (block_index : nat) (part_key : string) : result (Logger * reads) :=
  let '(ts, lg, r) := get_timestamp_pair c r lg in
  match blocks lg !! block_index with
  | None => Raise IndexError
  | Some b =>
      match cue_events b !! part_key with
      | None => Raise KeyError
      | Some events =>
          let b' := BlockLog (Rhythm.block_index b)
                      (<[part_key := events ++ [ts]]> (cue_events b)) in
          Ok (MkLogger (stopwatch lg) (paradigm_start lg)
                (<[block_index := b']> (blocks lg)), r)
      end
  end.

(** The parameters the cue train reads from [ParameterState]. *)
Record ParameterState : Type := MkParameterState {
  cue_frequency_hz : Q;
  cue_type : string;
  cue_tone_hz : Q;
  cue_on_time_ms : Z
}.

(** The calls the runner makes on its collaborators (stimulus window, audio,
    Qt), in order. *)
Inductive effect : Type :=
  | PlayRhythmBeep (tone_hz : Q) (on_time_ms : Z)
  | SetVisualCueVisible (visible : bool)
  | SingleShotHideCue (on_time_ms : Z)
  | AbortWindowTeardown.   (* clear_to_black, hide, close, deleteLater,
                              releaseKeyboard of [request_abort] *)

(** A cue effect: a beep, or the visual cue switched on. *)
Definition is_cue (e : effect) : bool :=
  match e with
  | PlayRhythmBeep _ _ | SetVisualCueVisible true => true
  | _ => false
  end.

(** The runner with its logger, the clock readings and event-loop turns it
    has taken, and the calls it has made. *)
Record ParadigmRunner : Type := MkRunner {
  abort_requested : bool;
  logger : Logger;
  rd : reads;
  pumps : nat;               (* calls of [processEvents] so far *)
  effects : list effect
}.

(** The environment: the clocks, and whether the k-th
    [QApplication.processEvents()] delivers an Escape key press. *)
Record world : Type := World { clk : clocks; esc : nat -> bool }.

Definition read_perf (w : world) (st : ParadigmRunner) : Q * ParadigmRunner :=
  (perf (clk w) (perf_reads (rd st)),
   MkRunner (abort_requested st) (logger st)
     (Reads (S (perf_reads (rd st))) (wall_reads (rd st)))
     (pumps st) (effects st)).

Definition emit (e : effect) (st : ParadigmRunner) : ParadigmRunner :=
  MkRunner (abort_requested st) (logger st) (rd st) (pumps st)
    (effects st ++ [e]).

(** [request_abort]: sets the flag and tears the window down; its own
    [processEvents()] takes a turn of the event loop, in which the closed
    window receives no key. *)
Definition request_abort (st : ParadigmRunner) : ParadigmRunner :=
  MkRunner true (logger st) (rd st) (S (pumps st))
    (effects st ++ [AbortWindowTeardown]).

(** [QtWidgets.QApplication.processEvents()] *)
Definition process_events (w : world) (st : ParadigmRunner) : ParadigmRunner :=
  let k := pumps st in
  let st := MkRunner (abort_requested st) (logger st) (rd st) (S k) (effects st) in
  if esc w k then request_abort st else st.

(** The loop of [_wait_with_abort]; [None] when the fuel runs out first. *)
Fixpoint wait_loop (fuel : nat) (w : world) (end_time : Q)
    (st : ParadigmRunner) : option ParadigmRunner :=
  match fuel with
  | O => None
  | S fuel' =>
      let '(now, st) := read_perf w st in
      if Qltb now end_time then
        if abort_requested st then Some st
        else wait_loop fuel' w end_time (process_events w st)
      else Some st
  end.

Definition _wait_with_abort (fuel : nat) (w : world) (duration_s : Q)
    (st : ParadigmRunner) : option ParadigmRunner :=
  let '(t0, st) := read_perf w st in
  wait_loop fuel w (t0 + duration_s)%Q st.

Definition _trigger_cue (w : world) (prm : ParameterState)
    (block_index : nat) (part_key : string) (st : ParadigmRunner)
    : result ParadigmRunner :=
  '(lg, r) ← log_cue_event (clk w) (rd st) (logger st) block_index part_key;
  let st := MkRunner (abort_requested st) lg r (pumps st) (effects st) in
  if bool_decide (cue_type prm = "audio"%string)
  then Ok (emit (PlayRhythmBeep (cue_tone_hz prm) (cue_on_time_ms prm)) st)
  else Ok (emit (SingleShotHideCue (cue_on_time_ms prm))
             (emit (SetVisualCueVisible true) st)).

(** The locals of the cue loop when it is left; [polls] and [cue_polls]
    list, for the statements only, the readings [now] of the passes made
    and of the passes at which a cue was triggered. *)
Record cue_train : Type := CueTrain {
  runner : ParadigmRunner;
  next_cue_time : Q;
  polls : list Q;
  cue_polls : list Q
}.

(** The [while] loop of [_run_cue_train]. *)
Fixpoint cue_loop (fuel : nat) (w : world) (prm : ParameterState)
    (block_index : nat) (part_key : string)
    (start_time duration_s period_s : Q) (ct : cue_train)
    : option (result cue_train) :=
  match fuel with
  | O => None
  | S fuel' =>
      let '(t, st) := read_perf w (runner ct) in
      if Qltb (t - start_time) duration_s then
        if abort_requested st then
          Some (Ok (CueTrain st (next_cue_time ct) (polls ct) (cue_polls ct)))
        else
          let '(now, st) := read_perf w st in
          let fired :=
            if Qle_bool (next_cue_time ct) now then
              st ← _trigger_cue w prm block_index part_key st;
              Ok (CueTrain st (next_cue_time ct + period_s)
                    (polls ct ++ [now]) (cue_polls ct ++ [now]))
            else Ok (CueTrain st (next_cue_time ct)
                       (polls ct ++ [now]) (cue_polls ct)) in
          match fired with
          | Raise e => Some (Raise e)
          | Ok ct' =>
              cue_loop fuel' w prm block_index part_key start_time duration_s
                period_s
                (CueTrain (process_events w (runner ct'))
                   (next_cue_time ct') (polls ct') (cue_polls ct'))
          end
      else Some (Ok (CueTrain st (next_cue_time ct) (polls ct) (cue_polls ct)))
  end.

(** The cue train proper: from [period_s = 1.0 / frequency] to the end of
    the loop. *)
Definition cue_train_from_entry (fuel : nat) (w : world) (prm : ParameterState)
    (block_index : nat) (part_key : string) (duration_s : Q)
    (st : ParadigmRunner) : option (result cue_train) :=
  let period_s := (1 / cue_frequency_hz prm)%Q in
  let '(start_time, st) := read_perf w st in
  cue_loop fuel w prm block_index part_key start_time duration_s period_s
    (CueTrain st start_time [] []).

Definition _run_cue_train (fuel : nat) (w : world) (prm : ParameterState)
    (block_index : nat) (part_key : string) (duration_s : Q)
    (st : ParadigmRunner) : option (result ParadigmRunner) :=
  if Qle_bool (cue_frequency_hz prm) 0 then
    Ok <$> _wait_with_abort fuel w duration_s st
  else
    match cue_train_from_entry fuel w prm block_index part_key duration_s st with
    | None => None
    | Some (Raise e) => Some (Raise e)
    | Some (Ok ct) => Some (Ok (emit (SetVisualCueVisible false) (runner ct)))
    end.

(** The cue events logged so far for a part of a block. *)
Definition logged_cues (lg : Logger) (block_index : nat) (part_key : string)
    : list stamp :=
  match blocks lg !! block_index with
  | Some b => default [] (cue_events b !! part_key)
  | None => []
  end.

(** The invariant of the cue loop: the next cue time is the entry time plus
    one period per cue triggered, the i-th cue was triggered at a reading
    not before [start + i * period], and one event was logged per cue. *)
Definition on_schedule (start_time period_s : Q) (b : nat) (k : string)
    (base : list stamp) (ct : cue_train) : Prop :=
  (next_cue_time ct
   == start_time + inject_Z (Z.of_nat (length (cue_polls ct))) * period_s)%Q
  ∧ (∀ (i : nat) (t : Q), cue_polls ct !! i = Some t →
       (start_time + inject_Z (Z.of_nat i) * period_s <= t)%Q)
  ∧ ∃ news, logged_cues (logger (runner ct)) b k = base ++ news
            ∧ length news = length (cue_polls ct).

(** The cue times in the words of the specification: the next cue time
    starts at the phase entry; a poll whose reading has reached it gives a
    cue, and the next cue time then advances by one period. *)
Fixpoint scheduled_cues (next_cue_time period_s : Q) (polls : list Q)
    : list Q :=
  match polls with
  | [] => []
  | now :: rest =>
      if Qle_bool next_cue_time now
      then now :: scheduled_cues (next_cue_time + period_s) period_s rest
      else scheduled_cues next_cue_time period_s rest
  end.

(** The logger holds the cue list of the part: [log_cue_event] does not
    raise. *)
Definition can_log (lg : Logger) (block_index : nat) (part_key : string)
    : Prop :=
  ∃ b, blocks lg !! block_index = Some b ∧ is_Some (cue_events b !! part_key).

(** Where an abort comes from: if the flag is set after a stretch of the
    run, it was set before it, or one of the turns of the event loop taken
    in the stretch delivered an Escape press. *)
Definition abort_comes_from (w : world) (st st' : ParadigmRunner) : Prop :=
  (pumps st ≤ pumps st')%nat
  ∧ (abort_requested st' = true →
     abort_requested st = true
     ∨ ∃ p, (pumps st ≤ p < pumps st')%nat ∧ esc w p = true).

(** A world for examples: the clock advances by 1/16 s per reading and no
    key is pressed; a runner whose logger has started the paradigm with one
    block. *)
Definition demo_world : world :=
  World (Clocks (fun k => (inject_Z (Z.of_nat k) * (1 # 16))%Q)
                (fun k => Z.of_nat k * 62500))
        (fun _ => false).

Definition demo_runner : ParadigmRunner :=
  let '(lg, r) := start_paradigm (clk demo_world) (Reads 0 0)
                    (MkLogger None None []) in
  MkRunner false (init_blocks 1 lg) r 0 [].

End Rhythm.

(** ** src/gostop/gui/gui.py: [ExperimentRunner] *)

Module GoStop.
Import Randomization Timing.

(** A timestamp pair of the stopwatch: wall clock (microseconds) and elapsed
    seconds.  The log keeps two timelines with the same keys,
    [timing_absolute] and [timing_relative], always written together: here
    each key holds the pair, and the two timelines are its projections. *)
Definition stamp : Type := (Z * Q)%type.

Inductive outcome_t : Type :=
  | hit
  | miss
  | commission_error
  | correct_withholding.

(** A Python float that may be [float("nan")]. *)
Inductive pyfloat : Type :=
  | Real (q : Q)
  | NaN.

(** The pair of dicts [trial_abs]/[trial_rel] appended at stimulus onset.
    ["times"] is [(onset, response)]; the onset comes from the stopwatch and
    is never [None]. *)
Record trial_entry : Type := TrialEntry {
  trial_index : Z;
  entry_digit : Z;
  is_go_trial : bool;
  onset : stamp;
  response_abs : option Z;       (* times[1] of the absolute entry *)
  response_rel : option Q;       (* times[1] of the relative entry *)
  response_key : option string;
  outcome : option outcome_t;    (* None until the trial is scored *)
  response_time : pyfloat
}.

(** [block_abs]/[block_rel]; [trials] holds the addresses of the trial
    entries in the store [entries] of the log. *)
Record block_record : Type := Block {
  block_start : stamp;
  rest_start : option stamp;
  task_start : option stamp;
  post_rest_start : option stamp;
  trials : list nat
}.

Record status_t : Type := Status {
  completed : bool;
  abort_reason : option string;
  abort_time : option stamp
}.

(** The log.  [entries] is the store of the trial-entry dicts: the blocks
    and the runner's current-trial reference point into it. *)
Record Log : Type := MkLog {
  blocks : gmap Z block_record;
  inter_block_intervals : gmap Z stamp;
  experiment_start : stamp;
  experiment_end : option stamp;
  status : status_t;
  has_metrics : bool;
  entries : list trial_entry
}.

Definition set_blocks (v : gmap Z block_record) (l : Log) : Log :=
  MkLog v (inter_block_intervals l) (experiment_start l) (experiment_end l)
    (status l) (has_metrics l) (entries l).

Definition set_inter_block_intervals (v : gmap Z stamp) (l : Log) : Log :=
  MkLog (blocks l) v (experiment_start l) (experiment_end l) (status l)
    (has_metrics l) (entries l).

Definition set_experiment_end (v : option stamp) (l : Log) : Log :=
  MkLog (blocks l) (inter_block_intervals l) (experiment_start l) v (status l)
    (has_metrics l) (entries l).

Definition set_status (v : status_t) (l : Log) : Log :=
  MkLog (blocks l) (inter_block_intervals l) (experiment_start l)
    (experiment_end l) v (has_metrics l) (entries l).

Definition set_has_metrics (v : bool) (l : Log) : Log :=
  MkLog (blocks l) (inter_block_intervals l) (experiment_start l)
    (experiment_end l) (status l) v (entries l).

Definition set_entries (v : list trial_entry) (l : Log) : Log :=
  MkLog (blocks l) (inter_block_intervals l) (experiment_start l)
    (experiment_end l) (status l) (has_metrics l) v.

Record Config : Type := MkConfig {
  n_blocks : Z;
  trial_schedule : gmap Z (list trial);
  rest_duration_s : Q;
  post_block_rest_duration_s : Q;
  inter_block_interval_s : Q;
  stimulus_duration_s : Q;
  inter_trial_interval_s : Q;
  max_response_window_s : Q
}.

(** What a running timer calls when it fires. *)
Inductive timer_callback : Type :=
  | CbStartBlock
  | CbStartTrials
  | CbShowTrialStimulus
  | CbHideStimulus
  | CbResponseWindowExpired
  | CbShowResultsScreen
  | CbCountdown (t : countdown_timer).
      (* [_handle_timeout] of [start_countdown_timer], [on_finished] being
         [start_block] *)

(** A running QTimer.  [registered] says whether it is in
    [self.active_timers]; the timers of [QTimer.singleShot] are not. *)
Record qtimer : Type := QTimer {
  timer_id : nat;
  interval_ms : Z;
  callback : timer_callback;
  registered : bool
}.

(** The fields of the runner that the state machine reads or writes, the
    running timers, and the clock readings taken so far. *)
Record ExperimentRunner : Type := MkExperimentRunner {
  config : Config;
  timers : list qtimer;
  next_timer_id : nat;
  current_block_index : Z;
  current_trial_index : Z;
  block_trials : option (list trial);
  current_trial_entry : option nat;
  in_response_window : bool;
  response_recorded : bool;
  response_timer : option nat;
  stimulus_timer : option nat;
  experiment_aborted : bool;
  showing_results : bool;
  first_trial_in_block : bool;
  closed : bool;
  log : Log;
  stopwatch : Stopwatch;
  rds : reads
}.

Definition set_timers (v : list qtimer) (s : ExperimentRunner) : ExperimentRunner :=
  MkExperimentRunner (config s) v (next_timer_id s) (current_block_index s)
    (current_trial_index s) (block_trials s) (current_trial_entry s)
    (in_response_window s) (response_recorded s) (response_timer s)
    (stimulus_timer s) (experiment_aborted s) (showing_results s)
    (first_trial_in_block s) (closed s) (log s) (stopwatch s) (rds s).

Definition set_next_timer_id (v : nat) (s : ExperimentRunner) : ExperimentRunner :=
  MkExperimentRunner (config s) (timers s) v (current_block_index s)
    (current_trial_index s) (block_trials s) (current_trial_entry s)
    (in_response_window s) (response_recorded s) (response_timer s)
    (stimulus_timer s) (experiment_aborted s) (showing_results s)
    (first_trial_in_block s) (closed s) (log s) (stopwatch s) (rds s).

Definition set_current_block_index (v : Z) (s : ExperimentRunner) : ExperimentRunner :=
  MkExperimentRunner (config s) (timers s) (next_timer_id s) v
    (current_trial_index s) (block_trials s) (current_trial_entry s)
    (in_response_window s) (response_recorded s) (response_timer s)
    (stimulus_timer s) (experiment_aborted s) (showing_results s)
    (first_trial_in_block s) (closed s) (log s) (stopwatch s) (rds s).

Definition set_current_trial_index (v : Z) (s : ExperimentRunner) : ExperimentRunner :=
  MkExperimentRunner (config s) (timers s) (next_timer_id s)
    (current_block_index s) v (block_trials s) (current_trial_entry s)
    (in_response_window s) (response_recorded s) (response_timer s)
    (stimulus_timer s) (experiment_aborted s) (showing_results s)
    (first_trial_in_block s) (closed s) (log s) (stopwatch s) (rds s).

Definition set_block_trials (v : option (list trial)) (s : ExperimentRunner) : ExperimentRunner :=
  MkExperimentRunner (config s) (timers s) (next_timer_id s)
    (current_block_index s) (current_trial_index s) v (current_trial_entry s)
    (in_response_window s) (response_recorded s) (response_timer s)
    (stimulus_timer s) (experiment_aborted s) (showing_results s)
    (first_trial_in_block s) (closed s) (log s) (stopwatch s) (rds s).

Definition set_current_trial_entry (v : option nat) (s : ExperimentRunner) : ExperimentRunner :=
  MkExperimentRunner (config s) (timers s) (next_timer_id s)
    (current_block_index s) (current_trial_index s) (block_trials s) v
    (in_response_window s) (response_recorded s) (response_timer s)
    (stimulus_timer s) (experiment_aborted s) (showing_results s)
    (first_trial_in_block s) (closed s) (log s) (stopwatch s) (rds s).

Definition set_in_response_window (v : bool) (s : ExperimentRunner) : ExperimentRunner :=
  MkExperimentRunner (config s) (timers s) (next_timer_id s)
    (current_block_index s) (current_trial_index s) (block_trials s)
    (current_trial_entry s) v (response_recorded s) (response_timer s)
    (stimulus_timer s) (experiment_aborted s) (showing_results s)
    (first_trial_in_block s) (closed s) (log s) (stopwatch s) (rds s).

Definition set_response_recorded (v : bool) (s : ExperimentRunner) : ExperimentRunner :=
  MkExperimentRunner (config s) (timers s) (next_timer_id s)
    (current_block_index s) (current_trial_index s) (block_trials s)
    (current_trial_entry s) (in_response_window s) v (response_timer s)
    (stimulus_timer s) (experiment_aborted s) (showing_results s)
    (first_trial_in_block s) (closed s) (log s) (stopwatch s) (rds s).

Definition set_response_timer (v : option nat) (s : ExperimentRunner) : ExperimentRunner :=
  MkExperimentRunner (config s) (timers s) (next_timer_id s)
    (current_block_index s) (current_trial_index s) (block_trials s)
    (current_trial_entry s) (in_response_window s) (response_recorded s) v
    (stimulus_timer s) (experiment_aborted s) (showing_results s)
    (first_trial_in_block s) (closed s) (log s) (stopwatch s) (rds s).

Definition set_stimulus_timer (v : option nat) (s : ExperimentRunner) : ExperimentRunner :=
  MkExperimentRunner (config s) (timers s) (next_timer_id s)
    (current_block_index s) (current_trial_index s) (block_trials s)
    (current_trial_entry s) (in_response_window s) (response_recorded s)
    (response_timer s) v (experiment_aborted s) (showing_results s)
    (first_trial_in_block s) (closed s) (log s) (stopwatch s) (rds s).

Definition set_experiment_aborted (v : bool) (s : ExperimentRunner) : ExperimentRunner :=
  MkExperimentRunner (config s) (timers s) (next_timer_id s)
    (current_block_index s) (current_trial_index s) (block_trials s)
    (current_trial_entry s) (in_response_window s) (response_recorded s)
    (response_timer s) (stimulus_timer s) v (showing_results s)
    (first_trial_in_block s) (closed s) (log s) (stopwatch s) (rds s).

Definition set_showing_results (v : bool) (s : ExperimentRunner) : ExperimentRunner :=
  MkExperimentRunner (config s) (timers s) (next_timer_id s)
    (current_block_index s) (current_trial_index s) (block_trials s)
    (current_trial_entry s) (in_response_window s) (response_recorded s)
    (response_timer s) (stimulus_timer s) (experiment_aborted s) v
    (first_trial_in_block s) (closed s) (log s) (stopwatch s) (rds s).

Definition set_first_trial_in_block (v : bool) (s : ExperimentRunner) : ExperimentRunner :=
  MkExperimentRunner (config s) (timers s) (next_timer_id s)
    (current_block_index s) (current_trial_index s) (block_trials s)
    (current_trial_entry s) (in_response_window s) (response_recorded s)
    (response_timer s) (stimulus_timer s) (experiment_aborted s)
    (showing_results s) v (closed s) (log s) (stopwatch s) (rds s).

Definition set_closed (v : bool) (s : ExperimentRunner) : ExperimentRunner :=
  MkExperimentRunner (config s) (timers s) (next_timer_id s)
    (current_block_index s) (current_trial_index s) (block_trials s)
    (current_trial_entry s) (in_response_window s) (response_recorded s)
    (response_timer s) (stimulus_timer s) (experiment_aborted s)
    (showing_results s) (first_trial_in_block s) v (log s) (stopwatch s)
    (rds s).

Definition set_log (v : Log) (s : ExperimentRunner) : ExperimentRunner :=
  MkExperimentRunner (config s) (timers s) (next_timer_id s)
    (current_block_index s) (current_trial_index s) (block_trials s)
    (current_trial_entry s) (in_response_window s) (response_recorded s)
    (response_timer s) (stimulus_timer s) (experiment_aborted s)
    (showing_results s) (first_trial_in_block s) (closed s) v (stopwatch s)
    (rds s).

Definition set_rds (v : reads) (s : ExperimentRunner) : ExperimentRunner :=
  MkExperimentRunner (config s) (timers s) (next_timer_id s)
    (current_block_index s) (current_trial_index s) (block_trials s)
    (current_trial_entry s) (in_response_window s) (response_recorded s)
    (response_timer s) (stimulus_timer s) (experiment_aborted s)
    (showing_results s) (first_trial_in_block s) (closed s) (log s)
    (stopwatch s) v.

(** [l[i]] for a Python list: a negative index counts from the end. *)
Definition py_index {A : Type} (l : list A) (i : Z) : option A :=
  if 0 <=? i then l !! Z.to_nat i
  else if 0 <=? Z.of_nat (length l) + i then l !! Z.to_nat (Z.of_nat (length l) + i)
  else None.

(** [self.stopwatch.timestamp_pair()] *)
Definition now (c : clocks) (s : ExperimentRunner) : stamp * ExperimentRunner :=
  let '(ts, r) := timestamp_pair c (rds s) (stopwatch s) in
  (ts, set_rds r s).

(** [make_timer]: a registered single-shot timer. *)
Definition make_timer (ms : Z) (cb : timer_callback) (s : ExperimentRunner)
    : nat * ExperimentRunner :=
  let id := next_timer_id s in
  (id, set_next_timer_id (S id)
         (set_timers (timers s ++ [QTimer id ms cb true]) s)).

(** [QtCore.QTimer.singleShot(ms, cb)] *)
Definition single_shot (ms : Z) (cb : timer_callback) (s : ExperimentRunner)
    : ExperimentRunner :=
  let id := next_timer_id s in
  set_next_timer_id (S id) (set_timers (timers s ++ [QTimer id ms cb false]) s).

(** [if timer: timer.stop()] *)
Definition stop_timer (handle : option nat) (s : ExperimentRunner)
    : ExperimentRunner :=
  match handle with
  | None => s
  | Some id => set_timers (filter (fun t => timer_id t ≠ id) (timers s)) s
  end.

Definition clear_timers (s : ExperimentRunner) : ExperimentRunner :=
  set_timers (filter (fun t => registered t = false) (timers s)) s.

(** [block["key"] = value] on the block dict stored under [block_num]. *)
Definition update_block (block_num : Z) (f : block_record -> block_record)
    (s : ExperimentRunner) : ExperimentRunner :=
  set_log (set_blocks (alter f block_num (blocks (log s))) (log s)) s.

Definition finish_experiment (c : clocks) (s : ExperimentRunner)
    : ExperimentRunner :=
  if experiment_aborted s then s
  else
    let '(end_ts, s) := now c s in
    let lg := set_experiment_end (Some end_ts) (log s) in
    let lg := set_status (Status true (abort_reason (status lg))
                            (abort_time (status lg))) lg in
    single_shot 0 CbShowResultsScreen (set_log lg s).

Definition abort_experiment (c : clocks) (reason : string)
    (s : ExperimentRunner) : ExperimentRunner :=
  if experiment_aborted s then s
  else
    let s := set_experiment_aborted true s in
    let s := clear_timers s in
    let '(abort_ts, s) := now c s in
    let lg := set_status (Status false (Some reason) (Some abort_ts)) (log s) in
    let lg := set_experiment_end (Some abort_ts) lg in
    single_shot 0 CbShowResultsScreen (set_log lg s).

Definition start_block (c : clocks) (s : ExperimentRunner) : ExperimentRunner :=
  if experiment_aborted s then s
  else if n_blocks (config s) <=? current_block_index s
  then finish_experiment c s
  else
    let block_num := current_block_index s + 1 in
    let '(block_start_ts, s) := now c s in
    let blk := Block block_start_ts None None None [] in
    let s := set_log (set_blocks (<[block_num := blk]> (blocks (log s))) (log s)) s in
    let '(rest_ts, s) := now c s in
    let s := update_block block_num
               (fun b => Block (block_start b) (Some rest_ts) (task_start b)
                           (post_rest_start b) (trials b)) s in
    let rest_ms := Qtruncate (rest_duration_s (config s) * 1000) in
    snd (make_timer rest_ms CbStartTrials s).

Definition finish_block (c : clocks) (s : ExperimentRunner)
    : result ExperimentRunner :=
  if experiment_aborted s then Ok s
  else
    let block_num := current_block_index s + 1 in
    match blocks (log s) !! block_num with
    | None => Raise KeyError
    | Some _ =>
        if n_blocks (config s) <=? block_num then
          Ok (finish_experiment c
                (set_current_block_index (current_block_index s + 1) s))
        else
          let '(rest_ts, s) := now c s in
          let s := update_block block_num
                     (fun b => Block (block_start b) (rest_start b) (task_start b)
                                 (Some rest_ts) (trials b)) s in
          let total_interval :=
            (post_block_rest_duration_s (config s)
             + inter_block_interval_s (config s))%Q in
          let '(interval_ts, s) := now c s in
          let s := set_log (set_inter_block_intervals
                              (<[block_num := interval_ts]>
                                 (inter_block_intervals (log s))) (log s)) s in
          let s := set_current_block_index (current_block_index s + 1) s in
          let '(_, t, nread') :=
            start_countdown_timer (perf c) (perf_reads (rds s))
              total_interval true 50 in
          let s := set_rds (Reads nread' (wall_reads (rds s))) s in
          let id := next_timer_id s in
          Ok (set_next_timer_id (S id)
                (set_timers (timers s ++ [QTimer id 50 (CbCountdown t) true]) s))
    end.

Definition show_trial_stimulus (c : clocks) (s : ExperimentRunner)
    : result ExperimentRunner :=
  if experiment_aborted s then Ok s
  else
    match block_trials s with
    | None => Raise AttributeError
    | Some tl =>
        match py_index tl (current_trial_index s) with
        | None => Raise IndexError
        | Some trial_info =>
            let '(onset_ts, s) := now c s in
            let block_num := current_block_index s + 1 in
            match blocks (log s) !! block_num with
            | None => Raise KeyError
            | Some _ =>
                let e := TrialEntry (current_trial_index s + 1) (digit trial_info)
                           (is_go trial_info) onset_ts None None None None NaN in
                let a := length (entries (log s)) in
                let s := set_log (set_entries (entries (log s) ++ [e]) (log s)) s in
                let s := update_block block_num
                           (fun b => Block (block_start b) (rest_start b)
                                       (task_start b) (post_rest_start b)
                                       (trials b ++ [a])) s in
                let s := set_current_trial_entry (Some a) s in
                let s := set_in_response_window true s in
                let s := set_response_recorded false s in
                let stim_ms := Qtruncate (stimulus_duration_s (config s) * 1000) in
                let resp_ms := Qtruncate (max_response_window_s (config s) * 1000) in
                let '(stim_id, s) := make_timer stim_ms CbHideStimulus s in
                let s := set_stimulus_timer (Some stim_id) s in
                let '(resp_id, s) := make_timer resp_ms CbResponseWindowExpired s in
                Ok (set_response_timer (Some resp_id) s)
            end
        end
    end.

Definition start_next_trial (c : clocks) (s : ExperimentRunner)
    : result ExperimentRunner :=
  if experiment_aborted s then Ok s
  else
    let s := set_current_trial_index (current_trial_index s + 1) s in
    match block_trials s with
    | None => Raise AttributeError
    | Some tl =>
        if Z.of_nat (length tl) <=? current_trial_index s then finish_block c s
        else
          let s := set_in_response_window false s in
          let s := set_response_recorded false s in
          let s := set_current_trial_entry None s in
          if first_trial_in_block s && (current_trial_index s =? 0) then
            show_trial_stimulus c (set_first_trial_in_block false s)
          else
            let iti_ms := Qtruncate (inter_trial_interval_s (config s) * 1000) in
            Ok (snd (make_timer iti_ms CbShowTrialStimulus s))
    end.

Definition start_trials (c : clocks) (s : ExperimentRunner)
    : result ExperimentRunner :=
  if experiment_aborted s then Ok s
  else
    let block_num := current_block_index s + 1 in
    match blocks (log s) !! block_num with
    | None => Raise KeyError
    | Some _ =>
        let '(task_ts, s) := now c s in
        let s := update_block block_num
                   (fun b => Block (block_start b) (rest_start b) (Some task_ts)
                               (post_rest_start b) (trials b)) s in
        let s := set_current_trial_index (-1) s in
        let s := set_first_trial_in_block true s in
        match trial_schedule (config s) !! block_num with
        | None => Raise KeyError
        | Some tl => start_next_trial c (set_block_trials (Some tl) s)
        end
    end.

(** The outcome table of [record_trial_outcome]. *)
Definition classify (is_go pressed : bool) : outcome_t :=
  if pressed then (if is_go then hit else commission_error)
  else (if is_go then miss else correct_withholding).

(** The reaction time [record_trial_outcome] stores. *)
Definition reaction_time (e : trial_entry) (response_time_abs : option Z)
    (response_time_rel : option Q) (pressed : bool) : pyfloat :=
  if pressed then
    match response_time_rel, response_time_abs with
    | Some r, _ => Real (r - snd (onset e))
    | None, Some a => Real (inject_Z (a - fst (onset e)) / 1000000)
    | None, None => NaN
    end
  else NaN.

(** The current trial entry is a reference to the dicts held by the block's
    trial list: writing through it changes the logged entry. *)
Definition record_trial_outcome (s : ExperimentRunner)
    (response_time_abs : option Z) (response_time_rel : option Q)
    (pressed : bool) : result ExperimentRunner :=
  match current_trial_entry s with
  | None => Ok s
  | Some a =>
      match block_trials s with
      | None => Raise AttributeError
      | Some tl =>
          match py_index tl (current_trial_index s), entries (log s) !! a with
          | None, _ => Raise IndexError
          | Some _, None => Ok s
          | Some trial_info, Some e =>
              let e' := TrialEntry (trial_index e) (entry_digit e) (is_go_trial e)
                          (onset e) response_time_abs response_time_rel
                          (if pressed then Some "space"%string else None)
                          (Some (classify (is_go trial_info) pressed))
                          (reaction_time e response_time_abs response_time_rel
                             pressed) in
              Ok (set_log (set_entries (<[a := e']> (entries (log s))) (log s)) s)
          end
      end
  end.

Definition response_window_expired (c : clocks) (s : ExperimentRunner)
    : result ExperimentRunner :=
  if experiment_aborted s then Ok s
  else if response_recorded s || negb (in_response_window s) then Ok s
  else
    s ← record_trial_outcome s None None false;
    let s := set_in_response_window false s in
    let s := set_response_recorded true s in
    start_next_trial c s.

(** [show_results_screen]; the metrics are computed by the analysis module
    from the log and stored under ["metrics"]. *)
Definition show_results_screen (s : ExperimentRunner) : ExperimentRunner :=
  if showing_results s then s
  else
    let s := set_showing_results true s in
    let s := set_in_response_window false s in
    let s := set_response_recorded true s in
    let s := clear_timers s in
    set_log (set_has_metrics true (log s)) s.

Inductive key : Type := Key_Escape | Key_Space | Key_Other.

(** The text of [self.t("abort_by_user")], in the English table. *)
Definition abort_by_user : string := "user_pressed_esc".

Definition keyPressEvent (c : clocks) (k : key) (s : ExperimentRunner)
    : result ExperimentRunner :=
  if showing_results s then
    match k with
    | Key_Escape => Ok (set_closed true s)      (* emit_and_close *)
    | _ => Ok s
    end
  else
    match k with
    | Key_Escape => Ok (abort_experiment c abort_by_user s)
    | Key_Space =>
        if negb (in_response_window s) || response_recorded s then Ok s
        else
          let '((response_time_abs, response_time_rel), s) := now c s in
          let s := stop_timer (response_timer s) s in
          let s := stop_timer (stimulus_timer s) s in
          s ← record_trial_outcome s (Some response_time_abs)
                (Some response_time_rel) true;
          let s := set_response_recorded true s in
          let s := set_in_response_window false s in
          start_next_trial c s
    | Key_Other => Ok s
    end.

(** A running timer fires.  A single-shot timer is spent; the countdown
    timer keeps running until its handler stops it. *)
Definition on_timeout (c : clocks) (id : nat) (s : ExperimentRunner)
    : result ExperimentRunner :=
  match list_find (fun t => timer_id t = id) (timers s) with
  | None => Ok s
  | Some (i, t) =>
      match callback t with
      | CbCountdown ct =>
          let '(calls, ct', nread') :=
            handle_timeout (perf c) (perf_reads (rds s)) ct in
          let s := set_rds (Reads nread' (wall_reads (rds s))) s in
          if ct_active ct' then
            Ok (set_timers
                  (<[i := QTimer id (interval_ms t) (CbCountdown ct')
                            (registered t)]> (timers s)) s)
          else
            let s := stop_timer (Some id) s in
            if bool_decide (Finished ∈ calls) then Ok (start_block c s) else Ok s
      | cb =>
          let s := stop_timer (Some id) s in
          match cb with
          | CbStartBlock => Ok (start_block c s)
          | CbStartTrials => start_trials c s
          | CbShowTrialStimulus => show_trial_stimulus c s
          | CbHideStimulus => Ok s
          | CbResponseWindowExpired => response_window_expired c s
          | CbShowResultsScreen => Ok (show_results_screen s)
          | CbCountdown _ => Ok s
          end
      end
  end.

(** [ExperimentRunner.__init__] up to and including [show_start_screen]. *)
Definition init (c : clocks) (cfg : Config) : ExperimentRunner :=
  let '(sw, r) := new_stopwatch c (Reads 0 0) in
  let lg := MkLog ∅ ∅ (start_datetime sw, 0%Q) None (Status false None None)
              false [] in
  let s := MkExperimentRunner cfg [] 0 0 (-1) None None false false None None
             false false true false lg sw r in
  snd (make_timer 1000 CbStartBlock s).

(** What the Qt event loop delivers to the runner. *)
Inductive event : Type :=
  | Timeout (id : nat)
  | KeyPress (k : key).

(** An exception in a handler ends the run; a closed window receives
    nothing. *)
Definition handle (c : clocks) (s : ExperimentRunner) (ev : event)
    : result ExperimentRunner :=
  if closed s then Ok s
  else
    match ev with
    | Timeout id => on_timeout c id s
    | KeyPress k => keyPressEvent c k s
    end.

Fixpoint run (c : clocks) (evs : list event) (s : ExperimentRunner)
    : result ExperimentRunner :=
  match evs with
  | [] => Ok s
  | ev :: rest => s' ← handle c s ev; run c rest s'
  end.

(** The trial entries the blocks of the log refer to. *)
Definition logged_trials (lg : Log) : list trial_entry :=
  concat (map (fun kb => omap (fun a => entries lg !! a) (trials kb.2))
              (map_to_list (blocks lg))).

(** *** Predicates on the runner's state and log *)

(** A trial entry as [show_trial_stimulus] appends it. *)
Definition pending (e : trial_entry) : Prop :=
  outcome e = None ∧ response_abs e = None ∧ response_rel e = None
  ∧ response_time e = NaN.

(** A scored trial entry: its outcome is the table's for its class and for
    whether a response occurred; with a response both response times are
    present and the reaction time is their relative difference to the onset,
    without one both are absent and the reaction time is NaN. *)
Definition settled (e : trial_entry) : Prop :=
  ∃ pressed : bool,
    outcome e = Some (classify (is_go_trial e) pressed)
    ∧ if pressed
      then ∃ a r, response_abs e = Some a ∧ response_rel e = Some r
                  ∧ response_time e = Real (r - snd (onset e))
      else response_abs e = None ∧ response_rel e = None
           ∧ response_time e = NaN.

(** The timers whose callback moves the run on to a new phase. *)
Definition is_advancing (cb : timer_callback) : bool :=
  match cb with
  | CbStartBlock | CbStartTrials | CbShowTrialStimulus | CbCountdown _ => true
  | CbHideStimulus | CbResponseWindowExpired | CbShowResultsScreen => false
  end.

Definition advancing (ts : list qtimer) : list qtimer :=
  filter (fun t => is_advancing (callback t) = true) ts.

(** Entry [a] is the one a response is awaited for. *)
Definition awaited (s : ExperimentRunner) (a : nat) : Prop :=
  in_response_window s = true ∧ response_recorded s = false
  ∧ current_trial_entry s = Some a.

(** Every entry of the store is scored, or is still as appended and either
    awaited or left behind by an abort. *)
Definition entries_ok (s : ExperimentRunner) : Prop :=
  ∀ a e, entries (log s) !! a = Some e →
    settled e ∨ (pending e ∧ (awaited s a ∨ experiment_aborted s = true)).

(** While a response is awaited, the current entry is of the class of the
    current trial. *)
Definition current_matches (s : ExperimentRunner) : Prop :=
  ∀ a e tl ti,
    in_response_window s = true → current_trial_entry s = Some a →
    entries (log s) !! a = Some e → block_trials s = Some tl →
    py_index tl (current_trial_index s) = Some ti →
    is_go_trial e = is_go ti.

(** Unless aborted, at most one advancing timer runs, and none while a
    response is awaited. *)
Definition control_ok (s : ExperimentRunner) : Prop :=
  experiment_aborted s = false →
  (length (advancing (timers s)) ≤ 1)%nat
  ∧ (in_response_window s = true → advancing (timers s) = []).

Definition completed_ok (s : ExperimentRunner) : Prop :=
  completed (status (log s)) = true →
  experiment_aborted s = false ∧ in_response_window s = false
  ∧ advancing (timers s) = [].

(** The results screen is scheduled only by the end of the run. *)
Definition results_ok (s : ExperimentRunner) : Prop :=
  ∀ t, t ∈ timers s → callback t = CbShowResultsScreen →
       experiment_aborted s = true ∨ completed (status (log s)) = true.

(** The invariant of the state machine. *)
Definition Inv (s : ExperimentRunner) : Prop :=
  entries_ok s ∧ current_matches s ∧ control_ok s ∧ completed_ok s
  ∧ results_ok s.

(** The invariant between phases: the run has not ended, no response is
    awaited and no advancing timer runs. *)
Definition Idle (s : ExperimentRunner) : Prop :=
  Inv s
  ∧ (experiment_aborted s = false →
     in_response_window s = false ∧ advancing (timers s) = []
     ∧ completed (status (log s)) = false).

(** *** A run for examples *)

(** The clock advances by 0.1 s per reading; one block of two trials. *)
Definition demo_clocks : clocks :=
  Clocks (fun k => (inject_Z (Z.of_nat k) * (1 # 10))%Q)
         (fun k => Z.of_nat k * 100000).

Definition demo_config : Config :=
  MkConfig 1 {[ 1 := [Trial 3 true; Trial 9 false] ]} 1 1 1 (3 # 10) 1 (8 # 10).

(** Start screen, rest, Space on the first trial, inter-trial interval, and
    the stimulus and then the response window of the second trial running
    out. *)
Definition demo_events : list event :=
  [Timeout 0; Timeout 1; KeyPress Key_Space; Timeout 4; Timeout 5; Timeout 6].

End GoStop.

(** ** Outcomes of the trial scheduler *)

Module Scheduler.
Import Randomization.

(** The four ways [generate_trial_schedule] can end, each with the condition
    that leads to it. *)
Inductive schedule_outcome (go nogo : list Z) (w : gmap Z Q)
    : result (list trial) → Prop :=
  | outcome_overlap ds :
      ds ≠ [] → Sorted Z.le ds →
      (∀ d, d ∈ ds ↔ d ∈ go ∧ d ∈ nogo) →
      schedule_outcome go nogo w (Raise (DigitsBothGoAndNoGo ds))
  | outcome_empty :
      (∀ d, d ∈ go → d ∉ nogo) → go = [] ∨ nogo = [] →
      schedule_outcome go nogo w (Raise GoAndNoGoDigitRequired)
  | outcome_no_weight :
      (∀ d, d ∈ go → d ∉ nogo) → go ≠ [] → nogo ≠ [] →
      (∀ d, d ∈ go → (get_weight w d 1 <= 0)%Q)
      ∨ (∀ d, d ∈ nogo → (get_weight w d 1 <= 0)%Q) →
      schedule_outcome go nogo w (Raise NonZeroWeightsForCandidates)
  | outcome_schedule trials :
      (∀ d, d ∈ go → d ∉ nogo) →
      (∃ d, d ∈ go ∧ (0 < get_weight w d 1)%Q) →
      (∃ d, d ∈ nogo ∧ (0 < get_weight w d 1)%Q) →
      schedule_outcome go nogo w (Ok trials).

End Scheduler.

(** ** src/core/timing.py: the rest of the stopwatch *)

Module Clock.
Import Timing.

(** [Stopwatch.reset] *)
Definition reset (c : clocks) (r : reads) (sw : Stopwatch) : Stopwatch * reads :=
  (MkStopwatch (wall c (wall_reads r)) (perf c (perf_reads r)),
   Reads (S (perf_reads r)) (S (wall_reads r))).

(** [Stopwatch.elapsed_ms]: [int(self.elapsed() * 1000)] *)
Definition elapsed_ms (c : clocks) (r : reads) (sw : Stopwatch) : Z * reads :=
  let '(e, r) := elapsed c r sw in (Qtruncate (e * 1000), r).

Definition elapsed_since (c : clocks) (r : reads) (start_perf : Q) : Q * reads :=
  ((perf c (perf_reads r) - start_perf)%Q,
   Reads (S (perf_reads r)) (wall_reads r)).

Definition timestamp_pair_from_perf (c : clocks) (r : reads) (start_perf : Q)
    : (Z * Q) * reads :=
  let now := wall c (wall_reads r) in
  let '(e, r') := elapsed_since c (Reads (perf_reads r) (S (wall_reads r)))
                    start_perf in
  ((now, e), r').

(** What [_handle_timeout] computes at the clock reading [k] for a countdown
    of [duration_s] seconds started at [start_perf]. *)
Definition remaining_at (perf : nat -> Q) (duration_s start_perf : Q) (k : nat)
    : Z :=
  ms_left (duration_s - (perf k - start_perf)).

(** A list of remaining milliseconds that never goes up. *)
Definition non_increasing (l : list Z) : Prop :=
  ∀ i a b, l !! i = Some a → l !! S i = Some b → b ≤ a.

End Clock.

(** ** src/gostop/analysis/metrics.py *)

Module Metrics.
Import GoStop.

#[export] Instance outcome_t_eq_dec : EqDecision outcome_t.
Proof. solve_decision. Defined.

Definition by_block_number (a b : Z * block_record) : Prop := a.1 ≤ b.1.

#[export] Instance by_block_number_dec (a b : Z * block_record)
  : Decision (by_block_number a b).
Proof. unfold by_block_number. apply _. Defined.

(** [blocks.values()]: the blocks in the order of their insertion, which for
    the runner's log is that of the block numbers. *)
Definition block_values (lg : Log) : list block_record :=
  map snd (merge_sort by_block_number (map_to_list (blocks lg))).

(** [_extract_trials]: the trial dicts of every block of
    [timing_relative], through the addresses the blocks hold. *)
Definition _extract_trials (lg : Log) : list trial_entry :=
  concat (map (fun b => omap (fun a => entries lg !! a) (trials b))
              (block_values lg)).

(** [_compute_rt_seconds]: [times] of the relative entry is
    [(onset, response)]. *)
Definition _compute_rt_seconds (trial : trial_entry) : option Q :=
  match response_rel trial with
  | None => None
  | Some response => Some (response - snd (onset trial))%Q
  end.

(** [statistics.mean] of a list that is not empty. *)
Definition mean (vals : list Q) : Q :=
  (fold_left Qplus vals 0 / inject_Z (Z.of_nat (length vals)))%Q.

Definition _safe_mean (values : list (option Q)) : option Q :=
  let vals := omap id values in
  match vals with
  | [] => None
  | _ => Some (mean vals)
  end.

Definition _percent (numerator denominator : Z) : option Q :=
  if denominator <=? 0 then None
  else Some (inject_Z numerator / inject_Z denominator * 100)%Q.

Record metrics : Type := MkMetrics {
  go_hit_percent : option Q;
  nogo_commission_percent : option Q;
  mean_rt_go_hit : option Q;
  mean_rt_nogo_commission : option Q
}.

Definition go_trials_of (lg : Log) : list trial_entry :=
  filter (fun t => is_go_trial t = true) (_extract_trials lg).

Definition nogo_trials_of (lg : Log) : list trial_entry :=
  filter (fun t => is_go_trial t = false) (_extract_trials lg).

Definition go_hits_of (lg : Log) : list trial_entry :=
  filter (fun t => outcome t = Some hit) (go_trials_of lg).

Definition nogo_commissions_of (lg : Log) : list trial_entry :=
  filter (fun t => outcome t = Some commission_error) (nogo_trials_of lg).

Definition compute_go_nogo_metrics (lg : Log) : metrics :=
  let go_trials := go_trials_of lg in
  let nogo_trials := nogo_trials_of lg in
  let go_hits := go_hits_of lg in
  let nogo_commissions := nogo_commissions_of lg in
  MkMetrics
    (_percent (Z.of_nat (length go_hits)) (Z.of_nat (length go_trials)))
    (_percent (Z.of_nat (length nogo_commissions))
              (Z.of_nat (length nogo_trials)))
    (_safe_mean (map _compute_rt_seconds go_hits))
    (_safe_mean (map _compute_rt_seconds nogo_commissions)).

End Metrics.

(** ** src/gostop/gui/gui.py: the configuration checks of [MainWindow] *)

Module Setup.
Import Randomization.

(** The entries of the [config] dict that [validate_config] and
    [build_trial_schedule] read. *)
Record GuiConfig : Type := MkGuiConfig {
  go_digits : list Z;
  nogo_digits : list Z;
  digit_weights : gmap Z Q;
  output_folder : string;
  n_blocks : Z;
  n_trials_per_block : Z;
  rest_duration_s : Q;
  post_block_rest_duration_s : Q;
  inter_block_interval_s : Q;
  stimulus_duration_s : Q;
  inter_trial_interval_s : Q;
  max_response_window_s : Q
}.

(** Why [validate_config] returned [False], by the message it shows. *)
Inductive validation_error : Type :=
  | GoDigitsEmpty             (* "Go digits cannot be empty." *)
  | NoGoDigitsEmpty           (* "No-Go digits cannot be empty." *)
  | OverlappingDigits (sorted_overlap : list Z)
                              (* f"Overlapping digits: {sorted(overlap)}" *)
  | GoWeightsNotPositive      (* "Go digit weights must be > 0." *)
  | NoGoWeightsNotPositive    (* "No-Go digit weights must be > 0." *)
  | OutputFolderRequired      (* "Output folder is required." *)
  | BlocksAndTrialsNotPositive (* "Blocks and trials must be positive." *)
  | NegativeDuration          (* "Durations must be non-negative." *)
  | RatioRejected (exc : exn). (* str(exc) of the ValueError of compute_go_ratio *)

(** [True], or [False] after [show_error] with the message. *)
Inductive validation : Type :=
  | Valid
  | Invalid (why : validation_error).

(** [[config["digit_weights"][d] for d in digits if config["digit_weights"][d] > 0]]:
    the subscript raises [KeyError] for a digit the dict does not hold. *)
Fixpoint positive_weights (digit_weights : gmap Z Q) (digits : list Z)
    : result (list Q) :=
  match digits with
  | [] => Ok []
  | d :: rest =>
      match digit_weights !! d with
      | None => Raise KeyError
      | Some w =>
          ws ← positive_weights digit_weights rest;
          Ok (if Qltb 0 w then w :: ws else ws)
      end
  end.

Definition durations (config : GuiConfig) : list Q :=
  [rest_duration_s config; post_block_rest_duration_s config;
   inter_block_interval_s config; stimulus_duration_s config;
   inter_trial_interval_s config; max_response_window_s config].

Definition validate_config (config : GuiConfig) : result validation :=
  if bool_decide (go_digits config = []) then Ok (Invalid GoDigitsEmpty)
  else if bool_decide (nogo_digits config = []) then Ok (Invalid NoGoDigitsEmpty)
  else
    let overlap := overlap_of (go_digits config) (nogo_digits config) in
    if negb (bool_decide (overlap = ∅))
    then Ok (Invalid (OverlappingDigits (merge_sort Z.le (elements overlap))))
    else
      go_weights ← positive_weights (digit_weights config) (go_digits config);
      nogo_weights ← positive_weights (digit_weights config) (nogo_digits config);
      if bool_decide (go_weights = []) then Ok (Invalid GoWeightsNotPositive)
      else if bool_decide (nogo_weights = [])
      then Ok (Invalid NoGoWeightsNotPositive)
      else if bool_decide (output_folder config = ""%string)
      then Ok (Invalid OutputFolderRequired)
      else if (n_trials_per_block config <=? 0) || (n_blocks config <=? 0)
      then Ok (Invalid BlocksAndTrialsNotPositive)
      else if existsb (fun v => Qltb v 0) (durations config)
      then Ok (Invalid NegativeDuration)
      else
        match compute_go_ratio (go_digits config) (nogo_digits config)
                (digit_weights config) with
        | Raise e =>
            if is_InvalidConfig e then Ok (Invalid (RatioRejected e))
            else Raise e
        | Ok _ => Ok Valid
        end.

(** The loop of [build_trial_schedule] over [range(1, n_blocks + 1)], from
    [block_idx] on with [left] blocks to go; [rnds b] is the oracle of the
    random draws made for block [b]. *)
Fixpoint build_blocks (rnds : Z → rng) (config : GuiConfig) (ratio : Q)
    (block_idx : Z) (left : nat) (schedule : gmap Z (list trial))
    : result (gmap Z (list trial)) :=
  match left with
  | O => Ok schedule
  | S left' =>
      trials ← generate_trial_schedule (rnds block_idx) (go_digits config)
                 (nogo_digits config) (digit_weights config) ratio
                 (n_trials_per_block config);
      build_blocks rnds config ratio (block_idx + 1) left'
        (<[block_idx := trials]> schedule)
  end.

(** [build_trial_schedule]: the ratio it stores under ["go_ratio"] and the
    schedule it returns. *)
Definition build_trial_schedule (rnds : Z → rng) (config : GuiConfig)
    : result (Q * gmap Z (list trial)) :=
  ratio ← compute_go_ratio (go_digits config) (nogo_digits config)
            (digit_weights config);
  schedule ← build_blocks rnds config ratio 1 (Z.to_nat (n_blocks config)) ∅;
  Ok (ratio, schedule).

(** What a configuration that passed every check but the last satisfies. *)
Definition well_formed (config : GuiConfig) : Prop :=
  go_digits config ≠ [] ∧ nogo_digits config ≠ []
  ∧ overlap_of (go_digits config) (nogo_digits config) = ∅
  ∧ (∃ d x, d ∈ go_digits config ∧ digit_weights config !! d = Some x ∧ (0 < x)%Q)
  ∧ (∃ d x, d ∈ nogo_digits config ∧ digit_weights config !! d = Some x
            ∧ (0 < x)%Q)
  ∧ 0 < n_trials_per_block config ∧ 0 < n_blocks config.

End Setup.

(** ** src/gostop/gui/gui.py: predicates on the runs of [ExperimentRunner] *)

Module Protocol.
Import Randomization Timing GoStop.

(** The part of the log that an aborted run no longer writes: everything but
    the contents of the trial entries and the metrics.  A block record lists
    its trials by their place in the store of entries, so the blocks keep
    their time stamps and the number of their trials, and no entry is added;
    what an entry holds is not part of this. *)
Definition same_record (s s' : ExperimentRunner) : Prop :=
  status (log s') = status (log s)
  ∧ experiment_end (log s') = experiment_end (log s)
  ∧ experiment_start (log s') = experiment_start (log s)
  ∧ blocks (log s') = blocks (log s)
  ∧ inter_block_intervals (log s') = inter_block_intervals (log s)
  ∧ length (entries (log s')) = length (entries (log s)).

(** What no handler writes: the configuration and the stopwatch. *)
Definition static (s s' : ExperimentRunner) : Prop :=
  config s' = config s ∧ stopwatch s' = stopwatch s.

(** A running timer will call [cb]. *)
Definition timer_pending (cb : timer_callback) (s : ExperimentRunner) : Prop :=
  ∃ t, t ∈ timers s ∧ callback t = cb.

(** Entry [e] is the log of trial [i] (from 0) of the list [tl]. *)
Definition shows (tl : list trial) (i : nat) (e : trial_entry) : Prop :=
  ∃ ti, tl !! i = Some ti ∧ trial_index e = Z.of_nat i + 1
        ∧ entry_digit e = digit ti ∧ is_go_trial e = is_go ti.

(** The trials logged for block [b] are, in order, the first trials of its
    schedule. *)
Definition follows_schedule (s : ExperimentRunner) (b : Z) (blk : block_record)
    : Prop :=
  ∀ i a, trials blk !! i = Some a →
    ∃ tl e, trial_schedule (config s) !! b = Some tl
            ∧ entries (log s) !! a = Some e ∧ shows tl i e.

(** Block [b] is logged with all the trials of its schedule. *)
Definition block_done (s : ExperimentRunner) (b : Z) : Prop :=
  ∃ blk tl, blocks (log s) !! b = Some blk
            ∧ trial_schedule (config s) !! b = Some tl
            ∧ length (trials blk) = length tl.

(** What the log holds of the blocks: nothing beyond the block under way,
    every block before it complete, every trial as scheduled; and a run
    marked completed has been through all its blocks. *)
Definition Logged (s : ExperimentRunner) : Prop :=
  0 ≤ current_block_index s
  ∧ (∀ b blk, blocks (log s) !! b = Some blk →
       1 ≤ b ≤ current_block_index s + 1 ∧ b ≤ n_blocks (config s)
       ∧ follows_schedule s b blk)
  ∧ (∀ b, 1 ≤ b ≤ current_block_index s → block_done s b)
  ∧ (completed (status (log s)) = true →
     n_blocks (config s) ≤ current_block_index s).

(** The block under way has [k] trials logged, and the runner holds its
    schedule. *)
Definition block_under_way (s : ExperimentRunner) (k : nat) : Prop :=
  ∃ blk tl, blocks (log s) !! (current_block_index s + 1) = Some blk
            ∧ block_trials s = Some tl
            ∧ trial_schedule (config s) !! (current_block_index s + 1) = Some tl
            ∧ length (trials blk) = k.

(** Where the run stands, by what it waits for: the end of the rest before
    the trials, the end of an inter-trial interval, or a response. *)
Definition Phase (s : ExperimentRunner) : Prop :=
  experiment_aborted s = false →
  (timer_pending CbStartTrials s →
     ∃ blk, blocks (log s) !! (current_block_index s + 1) = Some blk
            ∧ trials blk = [])
  ∧ (timer_pending CbShowTrialStimulus s →
       0 ≤ current_trial_index s
       ∧ block_under_way s (Z.to_nat (current_trial_index s)))
  ∧ (in_response_window s = true →
       0 ≤ current_trial_index s
       ∧ block_under_way s (S (Z.to_nat (current_trial_index s)))).

Definition Sched (s : ExperimentRunner) : Prop := Logged s ∧ Phase s.

End Protocol.

(** ** src/gostop/gui/gui.py: the form of [MainWindow] *)

Module Form.
Import Randomization Setup.

(** A [QCheckBox], by what [isChecked()] and [isEnabled()] return. *)
Record QCheckBox : Type := MkCheckBox { isChecked : bool; isEnabled : bool }.

Definition setChecked (b : bool) (cb : QCheckBox) : QCheckBox :=
  MkCheckBox b (isEnabled cb).

Definition setEnabled (b : bool) (cb : QCheckBox) : QCheckBox :=
  MkCheckBox (isChecked cb) b.

(** A dict of widgets keyed by digit, in insertion order. *)
Definition widgets (A : Type) : Type := list (Z * A).

(** [ws[d]] *)
Fixpoint widget {A : Type} (ws : widgets A) (d : Z) : result A :=
  match ws with
  | [] => Raise KeyError
  | (k, a) :: rest => if bool_decide (k = d) then Ok a else widget rest d
  end.

(** A method call that changes the widget [ws[d]] in place. *)
Definition call {A : Type} (f : A -> A) (d : Z) (ws : widgets A) : widgets A :=
  map (fun p => if bool_decide (p.1 = d) then (p.1, f p.2) else p) ws.

(** [range(10)] *)
Definition range10 : list Z := seqZ 0 10.

(** The two [QSpinBox]es and the six [QDoubleSpinBox]es of the timing
    boxes. *)
Inductive int_spin : Type := n_blocks_spin | trials_per_block_spin.

Inductive double_spin : Type :=
  | rest_duration_spin | post_rest_spin | ibi_spin
  | stim_duration_spin | iti_spin | max_response_spin.

#[export] Instance int_spin_eq_dec : EqDecision int_spin.
Proof. solve_decision. Defined.

#[export] Instance double_spin_eq_dec : EqDecision double_spin.
Proof. solve_decision. Defined.

(** [setMinimum(1)] of the two integer spin boxes. *)
Definition int_minimum (f : int_spin) : Z := 1.

(** The lower end of the [setRange] of each double spin box; the upper end
    is 9999.0 for all of them, as for the weights. *)
Definition double_minimum (f : double_spin) : Q :=
  match f with
  | stim_duration_spin | max_response_spin => 1 # 100
  | _ => 0
  end.

Definition double_maximum : Q := 9999.

(** [max(a, b)] and [min(a, b)] of two floats: the first argument unless the
    second is strictly larger (smaller). *)
Definition py_max (a b : Q) : Q := if Qltb a b then b else a.

Definition py_min (a b : Q) : Q := if Qltb b a then b else a.

(** The value a spin box with range [lo, hi] holds when it is given [v]. *)
Definition bound (lo hi v : Q) : Q := py_max lo (py_min hi v).

(** *** The digits preview *)

Definition rgb : Type := (Z * Z * Z)%type.

Definition stops : list rgb :=
  [(68, 1, 84); (59, 82, 139); (33, 145, 140); (94, 201, 98); (253, 231, 37)].

(** [int(c1 + (c2 - c1) * frac)] *)
Definition blend (c1 c2 : Z) (frac : Q) : Z :=
  Qtruncate (inject_Z c1 + (inject_Z c2 - inject_Z c1) * frac).

Definition viridis_color (value : Q) : result rgb :=
  let t := py_max 0 (py_min 1 value) in
  let scaled := (t * inject_Z (Z.of_nat (length stops) - 1))%Q in
  let idx := Qtruncate scaled in
  let frac := (scaled - inject_Z idx)%Q in
  if Z.of_nat (length stops) - 1 <=? idx then
    match GoStop.py_index stops (-1) with
    | Some c => Ok c
    | None => Raise IndexError
    end
  else
    match GoStop.py_index stops idx, GoStop.py_index stops (idx + 1) with
    | Some (r1, g1, b1), Some (r2, g2, b2) =>
        Ok (blend r1 r2 frac, blend g1 g2 frac, blend b1 b2 frac)
    | _, _ => Raise IndexError
    end.

(** A cell of the preview: the number it prints (with one decimal), its
    background and whether its text is black. *)
Record cell : Type := Cell {
  shown : Q;
  background : rgb;
  black_text : bool
}.

(** [set_preview_cell]: every cell of [preview_cells] was built in
    [build_ui], so the lookup of the cell finds it. *)
Definition set_preview_cell (prob max_prob : Q) : result cell :=
  let norm := if Qltb 0 max_prob then (prob / max_prob)%Q else 0%Q in
  '(r, g, b) ← viridis_color norm;
  Ok (Cell (prob * 100) (r, g, b)
        (Qltb 186 (inject_Z r * (299 # 1000) + inject_Z g * (587 # 1000)
                   + inject_Z b * (114 # 1000)))).

(** The sum column: the two percentages printed and the two stretch
    factors. *)
Record sum_bar : Type := SumBar {
  go_percent : Q;
  nogo_percent : Q;
  go_stretch : Z;
  nogo_stretch : Z
}.

Definition update_sum_bar (go_frac nogo_frac : Q) : sum_bar :=
  let go_frac := py_max 0 (py_min 1 go_frac) in
  let nogo_frac := py_max 0 (py_min 1 nogo_frac) in
  let total := (go_frac + nogo_frac)%Q in
  let go_frac' := if Qltb 0 total then (go_frac / total)%Q else go_frac in
  let nogo_frac' := if Qltb 0 total then (nogo_frac / total)%Q else nogo_frac in
  let go_percent := (go_frac' * 100)%Q in
  let nogo_percent := (nogo_frac' * 100)%Q in
  SumBar go_percent nogo_percent
    (Z.max 1 (Qtruncate go_percent)) (Z.max 1 (Qtruncate nogo_percent)).

(** What [update_summary] leaves on the screen. *)
Record Summary : Type := MkSummary {
  go_probs : list Q;
  nogo_probs : list Q;
  go_cells : list cell;
  nogo_cells : list cell;
  bar : sum_bar
}.

(** [{d: self.weight_spinboxes[d].value() for d in range(10)}], from digit
    [ds] on. *)
Fixpoint spin_values (spins : widgets Q) (ds : list Z) (acc : gmap Z Q)
    : result (gmap Z Q) :=
  match ds with
  | [] => Ok acc
  | d :: rest =>
      v ← widget spins d;
      spin_values spins rest (<[d := v]> acc)
  end.

(** [weights[d]] *)
Definition subscript (weights : gmap Z Q) (d : Z) : result Q :=
  match weights !! d with
  | Some v => Ok v
  | None => Raise KeyError
  end.

(** [sum(weights[d] for d in digits if weights[d] > 0)] *)
Definition positive_total (weights : gmap Z Q) (digits : list Z) : result Q :=
  ws ← positive_weights weights digits;
  Ok (py_sum ws).

(** The probability shown for digit [d] in one row: [factor] is
    [ratio_val] in the Go row and [1 - ratio_val] in the No-Go row. *)
Definition preview_prob (factor : option Q) (total : Q) (digits : list Z)
    (weights : gmap Z Q) (d : Z) : result Q :=
  match factor with
  | None => Ok 0%Q
  | Some f =>
      if Qle_bool total 0 then Ok 0%Q
      else if bool_decide (d ∈ digits) then
        w ← subscript weights d;
        Ok (if Qltb 0 w then (w / total * f)%Q else 0%Q)
      else Ok 0%Q
  end.

(** [max(l)] of a non-empty list: the first of the largest elements. *)
Definition py_max_list (l : list Q) : Q :=
  match l with
  | [] => 0%Q
  | x :: rest => fold_left py_max rest x
  end.

Definition summarize (go_digits nogo_digits : list Z) (weights : gmap Z Q)
    : result Summary :=
  ratio_val ←
    match compute_go_ratio go_digits nogo_digits weights with
    | Ok r => Ok (Some r)
    | Raise e => if is_InvalidConfig e then Ok None else Raise e
    end;
  go_total ← positive_total weights go_digits;
  nogo_total ← positive_total weights nogo_digits;
  go_probs ← mapM (preview_prob ratio_val go_total go_digits weights) range10;
  nogo_probs ←
    mapM (preview_prob ((fun r => 1 - r)%Q <$> ratio_val) nogo_total
            nogo_digits weights) range10;
  let max_prob := py_max_list (go_probs ++ nogo_probs) in
  let max_prob := if Qltb 0 max_prob then max_prob else 1%Q in
  go_cells ← mapM (fun p => set_preview_cell p max_prob) go_probs;
  nogo_cells ← mapM (fun p => set_preview_cell p max_prob) nogo_probs;
  let go_total_prob := py_sum go_probs in
  let nogo_total_prob := py_sum nogo_probs in
  let total := (go_total_prob + nogo_total_prob)%Q in
  let go_frac := if Qltb 0 total then (go_total_prob / total)%Q else 0%Q in
  let nogo_frac := if Qltb 0 total then (nogo_total_prob / total)%Q else 0%Q in
  Ok (MkSummary go_probs nogo_probs go_cells nogo_cells
        (update_sum_bar go_frac nogo_frac)).

(** *** The window *)

(** The widgets of [MainWindow] that the configuration is read from, and
    the preview as last drawn ([None]: as built, before the first
    [update_summary]). *)
Record MainWindow : Type := MkMainWindow {
  go_checkboxes : widgets QCheckBox;
  nogo_checkboxes : widgets QCheckBox;
  weight_spinboxes : widgets Q;
  int_value : int_spin -> Z;
  double_value : double_spin -> Q;
  paradigm_name_edit : string;
  output_folder_edit : string;
  test_mode_checkbox : bool;
  preview : option Summary
}.

Definition set_go (go : widgets QCheckBox) (w : MainWindow) : MainWindow :=
  MkMainWindow go (nogo_checkboxes w) (weight_spinboxes w) (int_value w)
    (double_value w) (paradigm_name_edit w) (output_folder_edit w)
    (test_mode_checkbox w) (preview w).

Definition set_nogo (nogo : widgets QCheckBox) (w : MainWindow) : MainWindow :=
  MkMainWindow (go_checkboxes w) nogo (weight_spinboxes w) (int_value w)
    (double_value w) (paradigm_name_edit w) (output_folder_edit w)
    (test_mode_checkbox w) (preview w).

Definition set_weights (spins : widgets Q) (w : MainWindow) : MainWindow :=
  MkMainWindow (go_checkboxes w) (nogo_checkboxes w) spins (int_value w)
    (double_value w) (paradigm_name_edit w) (output_folder_edit w)
    (test_mode_checkbox w) (preview w).

Definition set_int (f : int_spin) (v : Z) (w : MainWindow) : MainWindow :=
  MkMainWindow (go_checkboxes w) (nogo_checkboxes w) (weight_spinboxes w)
    (fun f' => if bool_decide (f' = f) then v else int_value w f')
    (double_value w) (paradigm_name_edit w) (output_folder_edit w)
    (test_mode_checkbox w) (preview w).

Definition set_double (f : double_spin) (v : Q) (w : MainWindow) : MainWindow :=
  MkMainWindow (go_checkboxes w) (nogo_checkboxes w) (weight_spinboxes w)
    (int_value w)
    (fun f' => if bool_decide (f' = f) then v else double_value w f')
    (paradigm_name_edit w) (output_folder_edit w) (test_mode_checkbox w)
    (preview w).

Definition set_paradigm_name (s : string) (w : MainWindow) : MainWindow :=
  MkMainWindow (go_checkboxes w) (nogo_checkboxes w) (weight_spinboxes w)
    (int_value w) (double_value w) s (output_folder_edit w)
    (test_mode_checkbox w) (preview w).

Definition set_output_folder (s : string) (w : MainWindow) : MainWindow :=
  MkMainWindow (go_checkboxes w) (nogo_checkboxes w) (weight_spinboxes w)
    (int_value w) (double_value w) (paradigm_name_edit w) s
    (test_mode_checkbox w) (preview w).

Definition set_test_mode (b : bool) (w : MainWindow) : MainWindow :=
  MkMainWindow (go_checkboxes w) (nogo_checkboxes w) (weight_spinboxes w)
    (int_value w) (double_value w) (paradigm_name_edit w)
    (output_folder_edit w) b (preview w).

Definition set_preview (s : Summary) (w : MainWindow) : MainWindow :=
  MkMainWindow (go_checkboxes w) (nogo_checkboxes w) (weight_spinboxes w)
    (int_value w) (double_value w) (paradigm_name_edit w)
    (output_folder_edit w) (test_mode_checkbox w) (Some s).

(** [[d for d, cb in boxes.items() if cb.isChecked()]] *)
Definition checked_digits (boxes : widgets QCheckBox) : list Z :=
  (filter (fun p => isChecked p.2 = true) boxes).*1.

Definition collect_digits (w : MainWindow) : list Z * list Z :=
  (checked_digits (go_checkboxes w), checked_digits (nogo_checkboxes w)).

Definition update_summary (w : MainWindow) : result MainWindow :=
  let '(go_digits, nogo_digits) := collect_digits w in
  weights ← spin_values (weight_spinboxes w) range10 ∅;
  s ← summarize go_digits nogo_digits weights;
  Ok (set_preview s w).

(** The loop of [apply_mutex_constraints], from digit [ds] on. *)
Fixpoint apply_mutex_loop (ds : list Z) (go nogo : widgets QCheckBox)
    : result (widgets QCheckBox * widgets QCheckBox) :=
  match ds with
  | [] => Ok (go, nogo)
  | d :: rest =>
      go_cb ← widget go d;
      nogo_cb ← widget nogo d;
      if isChecked go_cb then
        apply_mutex_loop rest go (call (setEnabled false) d nogo)
      else if isChecked nogo_cb then
        apply_mutex_loop rest (call (setEnabled false) d go) nogo
      else
        apply_mutex_loop rest (call (setEnabled true) d go)
          (call (setEnabled true) d nogo)
  end.

Definition apply_mutex_constraints (w : MainWindow) : result MainWindow :=
  '(go, nogo) ← apply_mutex_loop range10 (go_checkboxes w) (nogo_checkboxes w);
  Ok (set_nogo nogo (set_go go w)).

(** What both toggle handlers do to the partner check box; its signals are
    blocked while it is unchecked, so its own handler does not run. *)
Definition release_or_lock (checked : bool) (partner : QCheckBox) : QCheckBox :=
  if checked then setEnabled false (setChecked false partner)
  else setEnabled true partner.

Definition on_go_toggled (digit : Z) (checked : bool) (w : MainWindow)
    : result MainWindow :=
  _ ← widget (nogo_checkboxes w) digit;
  update_summary
    (set_nogo (call (release_or_lock checked) digit (nogo_checkboxes w)) w).

Definition on_nogo_toggled (digit : Z) (checked : bool) (w : MainWindow)
    : result MainWindow :=
  _ ← widget (go_checkboxes w) digit;
  update_summary
    (set_go (call (release_or_lock checked) digit (go_checkboxes w)) w).

(** The first loop of [reset_defaults], from digit [ds] on: the signals of
    both boxes are blocked, so no handler runs. *)
Fixpoint reset_checkboxes (ds : list Z) (go nogo : widgets QCheckBox)
    : result (widgets QCheckBox * widgets QCheckBox) :=
  match ds with
  | [] => Ok (go, nogo)
  | i :: rest =>
      _ ← widget go i;
      _ ← widget nogo i;
      reset_checkboxes rest
        (call (fun cb => setChecked (bool_decide (i ≠ 9)) (setEnabled true cb))
           i go)
        (call (fun cb => setChecked (bool_decide (i = 9)) (setEnabled true cb))
           i nogo)
  end.

(** [for spin in self.weight_spinboxes.values(): spin.setValue(1.0)]: the
    spin boxes [before] are done, [after] are to do; a spin box whose value
    changes emits [valueChanged], which runs [update_summary]. *)
Fixpoint reset_weights (before after : widgets Q) (w : MainWindow)
    : result MainWindow :=
  match after with
  | [] => Ok w
  | (k, v) :: rest =>
      let w := set_weights (before ++ (k, 1%Q) :: rest) w in
      w ← (if Qeq_bool v 1 then Ok w else update_summary w);
      reset_weights (before ++ [(k, 1%Q)]) rest w
  end.

(** [setValue] of a spin box, [setText] of the paradigm name and
    [setChecked] of the test-mode box: each runs [update_summary] when the
    value changes. *)
Definition setValue_int (f : int_spin) (v : Z) (w : MainWindow)
    : result MainWindow :=
  if bool_decide (int_value w f = v) then Ok w
  else update_summary (set_int f v w).

Definition setValue_double (f : double_spin) (v : Q) (w : MainWindow)
    : result MainWindow :=
  if Qeq_bool (double_value w f) v then Ok w
  else update_summary (set_double f v w).

Definition setValue_weight (d : Z) (v : Q) (w : MainWindow)
    : result MainWindow :=
  old ← widget (weight_spinboxes w) d;
  if Qeq_bool old v then Ok w
  else update_summary (set_weights (call (fun _ => v) d (weight_spinboxes w)) w).

Definition setText_paradigm_name (s : string) (w : MainWindow)
    : result MainWindow :=
  if bool_decide (paradigm_name_edit w = s) then Ok w
  else update_summary (set_paradigm_name s w).

Definition setChecked_test_mode (b : bool) (w : MainWindow)
    : result MainWindow :=
  if bool_decide (test_mode_checkbox w = b) then Ok w
  else update_summary (set_test_mode b w).

(** [reset_defaults]; [cwd] is [str(Path.cwd())]. *)
Definition reset_defaults (cwd : string) (w : MainWindow) : result MainWindow :=
  '(go, nogo) ← reset_checkboxes range10 (go_checkboxes w) (nogo_checkboxes w);
  let w := set_nogo nogo (set_go go w) in
  w ← reset_weights [] (weight_spinboxes w) w;
  w ← setValue_int n_blocks_spin 4 w;
  w ← setValue_int trials_per_block_spin 75 w;
  w ← setValue_double rest_duration_spin 10 w;
  w ← setValue_double post_rest_spin 10 w;
  w ← setValue_double ibi_spin 30 w;
  w ← setValue_double stim_duration_spin (3 # 10) w;
  w ← setValue_double iti_spin 1 w;
  w ← setValue_double max_response_spin (8 # 10) w;
  w ← setText_paradigm_name "GoNoGo" w;
  let w := set_output_folder cwd w in
  w ← setChecked_test_mode false w;
  w ← apply_mutex_constraints w;
  update_summary w.

(** The part of [build_ui] that creates the widgets above, with its two
    last calls. *)
Definition build_ui (cwd : string) : result MainWindow :=
  let w :=
    MkMainWindow
      (map (fun i => (i, MkCheckBox (bool_decide (i ≠ 9)) true)) range10)
      (map (fun i => (i, MkCheckBox (bool_decide (i = 9)) true)) range10)
      (map (fun i => (i, 1%Q)) range10)
      (fun f => match f with
                | n_blocks_spin => 4
                | trials_per_block_spin => 75
                end)
      (fun f => match f with
                | rest_duration_spin | post_rest_spin => 10
                | ibi_spin => 30
                | stim_duration_spin => 3 # 10
                | iti_spin => 1
                | max_response_spin => 8 # 10
                end)%Q
      "GoNoGo" cwd false None in
  w ← apply_mutex_constraints w;
  update_summary w.

(** [gather_config(include_schedule=False)], as far as [validate_config] and
    [build_trial_schedule] read the result; [strip] is [str.strip]. *)
Definition gather_config (strip : string -> string) (cwd : string)
    (w : MainWindow) : result GuiConfig :=
  let '(go_digits, nogo_digits) := collect_digits w in
  digit_weights ← spin_values (weight_spinboxes w) range10 ∅;
  Ok (MkGuiConfig go_digits nogo_digits digit_weights
        (let text := strip (output_folder_edit w) in
         if bool_decide (text = ""%string) then cwd else text)
        (int_value w n_blocks_spin) (int_value w trials_per_block_spin)
        (double_value w rest_duration_spin) (double_value w post_rest_spin)
        (double_value w ibi_spin) (double_value w stim_duration_spin)
        (double_value w iti_spin) (double_value w max_response_spin)).

(** The exceptions above that are [ValueError]s. *)
Definition is_ValueError (e : exn) : bool :=
  match e with
  | IndexError | KeyError | AttributeError => false
  | _ => true
  end.

(** How [start_experiment] ends: after [show_error] with the message of a
    [ValueError], after a failed validation, or with the runner started on
    the configuration and its schedule. *)
Inductive start_outcome : Type :=
  | ErrorShown (exc : exn)
  | ValidationFailed (why : validation_error)
  | RunnerStarted (config : GuiConfig) (go_ratio : Q)
      (trial_schedule : gmap Z (list trial)).

Definition start_experiment (rnds : Z -> rng) (strip : string -> string)
    (cwd : string) (w : MainWindow) : result start_outcome :=
  match gather_config strip cwd w with
  | Raise e => if is_ValueError e then Ok (ErrorShown e) else Raise e
  | Ok config =>
      v ← validate_config config;
      match v with
      | Invalid why => Ok (ValidationFailed why)
      | Valid =>
          match build_trial_schedule rnds config with
          | Raise e => if is_ValueError e then Ok (ErrorShown e) else Raise e
          | Ok (ratio, schedule) => Ok (RunnerStarted config ratio schedule)
          end
      end
  end.

(** What the user does to the form.  A click on a check box reaches it only
    when it is enabled; a spin box keeps what is entered within its range;
    the text of the output folder has no handler. *)
Inductive event : Type :=
  | ClickGo (d : Z)
  | ClickNoGo (d : Z)
  | EnterWeight (d : Z) (v : Q)
  | EnterInt (f : int_spin) (v : Z)
  | EnterDouble (f : double_spin) (v : Q)
  | EnterParadigmName (s : string)
  | EnterOutputFolder (s : string)
  | ChooseOutputFolder (folder : string)
  | ClickTestMode
  | ClickLanguage
  | ClickReset.

(** A click on the Go check box of [d]: it toggles, and [toggled] runs
    [on_go_toggled] with the new state. *)
Definition click_go (d : Z) (w : MainWindow) : result MainWindow :=
  match widget (go_checkboxes w) d with
  | Raise _ => Ok w
  | Ok cb =>
      if isEnabled cb then
        let checked := negb (isChecked cb) in
        on_go_toggled d checked
          (set_go (call (setChecked checked) d (go_checkboxes w)) w)
      else Ok w
  end.

Definition click_nogo (d : Z) (w : MainWindow) : result MainWindow :=
  match widget (nogo_checkboxes w) d with
  | Raise _ => Ok w
  | Ok cb =>
      if isEnabled cb then
        let checked := negb (isChecked cb) in
        on_nogo_toggled d checked
          (set_nogo (call (setChecked checked) d (nogo_checkboxes w)) w)
      else Ok w
  end.

(** [choose_output_folder], with the folder the dialog returned. *)
Definition choose_output_folder (folder : string) (w : MainWindow)
    : result MainWindow :=
  if bool_decide (folder = ""%string) then Ok w
  else update_summary (set_output_folder folder w).

Definition handle_event (cwd : string) (ev : event) (w : MainWindow)
    : result MainWindow :=
  match ev with
  | ClickGo d => click_go d w
  | ClickNoGo d => click_nogo d w
  | EnterWeight d v =>
      match widget (weight_spinboxes w) d with
      | Raise _ => Ok w
      | Ok _ => setValue_weight d (bound 0 double_maximum v) w
      end
  | EnterInt f v => setValue_int f (Z.max (int_minimum f) v) w
  | EnterDouble f v =>
      setValue_double f (bound (double_minimum f) double_maximum v) w
  | EnterParadigmName s => setText_paradigm_name s w
  | EnterOutputFolder s => Ok (set_output_folder s w)
  | ChooseOutputFolder folder => choose_output_folder folder w
  | ClickTestMode => setChecked_test_mode (negb (test_mode_checkbox w)) w
  | ClickLanguage => update_summary w
  | ClickReset => reset_defaults cwd w
  end.

Fixpoint run_form (cwd : string) (evs : list event) (w : MainWindow)
    : result MainWindow :=
  match evs with
  | [] => Ok w
  | ev :: rest =>
      w ← handle_event cwd ev w;
      run_form cwd rest w
  end.

(** The window after [build_ui] and the events [evs]. *)
Definition after_events (cwd : string) (evs : list event) : result MainWindow :=
  w ← build_ui cwd;
  run_form cwd evs w.

(** *** Predicates on the window *)

(** The three dicts hold the digits of [range(10)], in order. *)
Definition wired (w : MainWindow) : Prop :=
  (go_checkboxes w).*1 = range10
  ∧ (nogo_checkboxes w).*1 = range10
  ∧ (weight_spinboxes w).*1 = range10.

(** No digit is checked in both rows, and a check box is enabled exactly
    when its partner is not checked. *)
Definition exclusive (w : MainWindow) : Prop :=
  ∀ d go_cb nogo_cb,
    widget (go_checkboxes w) d = Ok go_cb →
    widget (nogo_checkboxes w) d = Ok nogo_cb →
    isChecked go_cb && isChecked nogo_cb = false
    ∧ isEnabled go_cb = negb (isChecked nogo_cb)
    ∧ isEnabled nogo_cb = negb (isChecked go_cb).

(** Every spin box holds a value of its range. *)
Definition in_range (w : MainWindow) : Prop :=
  (∀ f, int_minimum f ≤ int_value w f)
  ∧ (∀ f, (double_minimum f <= double_value w f)%Q
          ∧ (double_value w f <= double_maximum)%Q)
  ∧ (∀ d v, (d, v) ∈ weight_spinboxes w →
            (0 <= v)%Q ∧ (v <= double_maximum)%Q).

(** The preview on the screen is the one [update_summary] would draw now. *)
Definition up_to_date (w : MainWindow) : Prop :=
  ∃ s, update_summary w = Ok (set_preview s w) ∧ preview w = Some s.

Definition sound (w : MainWindow) : Prop := wired w ∧ in_range w.

(** Two windows with the same state of every check box. *)
Definition same_boxes (w w' : MainWindow) : Prop :=
  go_checkboxes w' = go_checkboxes w ∧ nogo_checkboxes w' = nogo_checkboxes w.

Definition consistent (w : MainWindow) : Prop :=
  sound w ∧ exclusive w ∧ up_to_date w.

End Form.

(** * Properties *)

Module RandomizationFacts.
Import Randomization.

(** ** Sampling and shuffling *)

Lemma swap_Permutation {A : Type} (x : list A) (i j : nat) : swap x i j ≡ₚ x.
Proof.
  unfold swap. destruct (x !! i) as [xi|] eqn:Hi; [|done].
  destruct (x !! j) as [xj|] eqn:Hj; [|done].
  by apply Permutation_insert_swap.
Qed.

Lemma shuffle_from_Permutation {A : Type} (rnd : rng) (i pos : nat) (x : list A) :
  (shuffle_from rnd pos i x).1 ≡ₚ x.
Proof.
  revert pos x. induction i as [|i IH]; intros pos x; simpl; [done|].
  rewrite IH. apply swap_Permutation.
Qed.

Lemma shuffle_Permutation {A : Type} (rnd : rng) (pos : nat) (x : list A) :
  (shuffle rnd pos x).1 ≡ₚ x.
Proof. apply shuffle_from_Permutation. Qed.

Lemma bisect_right_bounds (fuel : nat) (a : list Q) (x : Q) (lo hi : nat) :
  (lo ≤ hi)%nat → (lo ≤ bisect_right fuel a x lo hi ≤ hi)%nat.
Proof.
  revert lo hi.
  induction fuel as [|fuel IH]; intros lo hi Hle; cbn [bisect_right]; [lia|].
  destruct (lo <? hi)%nat eqn:Hlt; [|lia].
  apply Nat.ltb_lt in Hlt.
  assert (Hmid : (lo ≤ (lo + hi) / 2 < hi)%nat).
  { pose proof (Nat.div_mod_eq (lo + hi) 2) as Hdm.
    pose proof (Nat.mod_upper_bound (lo + hi) 2 ltac:(lia)) as Hmod.
    generalize dependent ((lo + hi) mod 2)%nat.
    generalize dependent ((lo + hi) / 2)%nat. intros. lia. }
  destruct (a !! _) as [am|]; [|lia].
  destruct (Qltb x am).
  - pose proof (IH lo ((lo + hi) / 2)%nat (proj1 Hmid)). lia.
  - pose proof (IH (S ((lo + hi) / 2)) hi ltac:(lia)). lia.
Qed.

Lemma weighted_sample_ok (rnd : rng) (pos : nat) (cands : list Z) (ws : list Q) :
  samplable cands ws →
  ∃ d, weighted_sample rnd pos cands ws = Ok (d, S pos) ∧ d ∈ cands.
Proof.
  intros (Hne & Hlen & t & Hlast & Hpos). unfold weighted_sample.
  rewrite bool_decide_eq_false_2 by (by intros ?).
  rewrite Hlast, Hpos.
  match goal with |- context [cands !! ?i] =>
    assert (Hlt : (i < length cands)%nat) end.
  { match goal with |- (bisect_right ?f ?a ?x 0 ?hi < _)%nat =>
      pose proof (bisect_right_bounds f a x 0 hi) end.
    destruct cands; simpl in *; [done|lia]. }
  destruct (lookup_lt_is_Some_2 _ _ Hlt) as [d Hd].
  exists d. rewrite Hd. split; [done|]. by eapply list_elem_of_lookup_2.
Qed.

Lemma sample_trials_ok (rnd : rng) (n pos : nat) (flag : bool)
    (cands : list Z) (ws : list Q) (trials : list trial) :
  samplable cands ws →
  ∃ new pos',
    sample_trials rnd pos n flag cands ws trials = Ok (trials ++ new, pos')
    ∧ length new = n
    ∧ Forall (fun t => is_go t = flag ∧ digit t ∈ cands) new.
Proof.
  intros Hne. revert pos trials.
  induction n as [|n IH]; intros pos trials; simpl.
  - exists [], pos. by rewrite app_nil_r.
  - destruct (weighted_sample_ok rnd pos cands ws Hne) as (d & -> & Hd). simpl.
    destruct (IH (S pos) (trials ++ [Trial d flag])) as (new & pos' & -> & Hlen & Hall).
    exists (Trial d flag :: new), pos'. rewrite <- app_assoc. simpl.
    repeat split; [by rewrite Hlen|]. by constructor.
Qed.

Lemma count_go_app (a b : list trial) :
  count_go (a ++ b) = (count_go a + count_go b)%nat.
Proof. unfold count_go. by rewrite filter_app, length_app. Qed.

Lemma count_nogo_app (a b : list trial) :
  count_nogo (a ++ b) = (count_nogo a + count_nogo b)%nat.
Proof. unfold count_nogo. by rewrite filter_app, length_app. Qed.

Lemma count_go_nogo_length (l : list trial) :
  (count_go l + count_nogo l)%nat = length l.
Proof.
  unfold count_go, count_nogo. induction l as [|t l IH]; [done|].
  rewrite !filter_cons. destruct t as [d []]; simpl;
    repeat case_decide; simpl in *; try done; lia.
Qed.

Lemma count_flagged (flag : bool) (cands : list Z) (l : list trial) :
  Forall (fun t => is_go t = flag ∧ digit t ∈ cands) l →
  count_go l = (if flag then length l else 0%nat)
  ∧ count_nogo l = (if flag then 0%nat else length l).
Proof.
  unfold count_go, count_nogo.
  induction 1 as [|t l [Ht _] _ [IH1 IH2]]; [by destruct flag|].
  rewrite !filter_cons. destruct flag; repeat case_decide; simpl; try congruence;
    rewrite ?IH1, ?IH2; done.
Qed.

Lemma count_go_Permutation (a b : list trial) : a ≡ₚ b → count_go a = count_go b.
Proof. intros Hp. unfold count_go. by rewrite Hp. Qed.

Lemma count_nogo_Permutation (a b : list trial) :
  a ≡ₚ b → count_nogo a = count_nogo b.
Proof. intros Hp. unfold count_nogo. by rewrite Hp. Qed.

Lemma overlap_of_disjoint (go nogo : list Z) :
  (∀ d, d ∈ go → d ∉ nogo) → overlap_of go nogo = ∅.
Proof.
  intros Hd. unfold overlap_of. apply set_eq. intros d.
  rewrite elem_of_intersection, !elem_of_list_to_set, elem_of_empty.
  split; [|done]. intros [Hg Hn]. by apply (Hd d).
Qed.

Lemma overlap_of_shared (go nogo : list Z) (d : Z) :
  d ∈ go → d ∈ nogo → overlap_of go nogo ≠ ∅.
Proof.
  intros Hg Hn Hov. assert (Hin : d ∈ overlap_of go nogo).
  { unfold overlap_of. by rewrite elem_of_intersection, !elem_of_list_to_set. }
  rewrite Hov in Hin. by apply elem_of_empty in Hin.
Qed.

(** What a successful call returns: [n_go] Go trials drawn from the Go
    candidates and [n - n_go] No-Go trials. *)
Lemma generate_trial_schedule_shape (rnd : rng) (go nogo : list Z)
    (w : gmap Z Q) (r : Q) (n : Z) :
  let k := round_half_even (inject_Z n * r) in
  overlap_of go nogo = ∅ → go ≠ [] → nogo ≠ [] →
  samplable (collect_candidates go w).1
            (normalize_weights (collect_candidates go w).2) →
  samplable (collect_candidates nogo w).1
            (normalize_weights (collect_candidates nogo w).2) →
  ∃ trials,
    generate_trial_schedule rnd go nogo w r n = Ok trials
    ∧ count_go trials = Z.to_nat (Z.max 0 (Z.min k n))
    ∧ count_nogo trials = Z.to_nat (n - Z.max 0 (Z.min k n))
    ∧ Forall (fun t => digit t ∈
                if is_go t then (collect_candidates go w).1
                else (collect_candidates nogo w).1) trials.
Proof.
  intros k Hov Hgo Hnogo Hcg Hcn. unfold generate_trial_schedule. fold k.
  rewrite Hov, bool_decide_eq_true_2 by done. simpl.
  rewrite !bool_decide_eq_false_2 by done. simpl.
  destruct (collect_candidates go w) as [gc gw].
  destruct (collect_candidates nogo w) as [nc nw]. simpl in Hcg, Hcn.
  rewrite !bool_decide_eq_false_2 by (by destruct Hcg, Hcn). simpl.
  set (n_go := Z.max 0 (Z.min k n)).
  destruct (sample_trials_ok rnd (Z.to_nat n_go) 0 true gc (normalize_weights gw) [] Hcg)
    as (t1 & p1 & -> & Hl1 & Ha1). simpl.
  destruct (sample_trials_ok rnd (Z.to_nat (n - n_go)) p1 false nc
              (normalize_weights nw) t1 Hcn)
    as (t2 & p2 & -> & Hl2 & Ha2). simpl.
  eexists. split; [done|].
  pose proof (shuffle_Permutation rnd p2 (t1 ++ t2)) as Hp.
  destruct (count_flagged _ _ _ Ha1) as [Hg1 Hn1].
  destruct (count_flagged _ _ _ Ha2) as [Hg2 Hn2].
  rewrite (count_go_Permutation _ _ Hp), (count_nogo_Permutation _ _ Hp).
  rewrite count_go_app, count_nogo_app, Hg1, Hg2, Hn1, Hn2, Hl1, Hl2.
  split; [lia|]. split; [lia|].
  rewrite Hp. apply Forall_app. split.
  - eapply Forall_impl; [exact Ha1|]. by intros t [-> ?].
  - eapply Forall_impl; [exact Ha2|]. by intros t [-> ?].
Qed.

(** ** Arithmetic *)

Lemma Qltb_lt (a b : Q) : Qltb a b = true ↔ (a < b)%Q.
Proof.
  unfold Qltb. rewrite Qlt_alt. destruct (a ?= b)%Q; split; congruence.
Qed.

Lemma Qltb_ge (a b : Q) : Qltb a b = false ↔ (b <= a)%Q.
Proof.
  rewrite <- not_true_iff_false, Qltb_lt.
  split; [apply Qnot_lt_le|apply Qle_not_lt].
Qed.

Lemma Qle_bool_false (a b : Q) : Qle_bool a b = false ↔ (b < a)%Q.
Proof.
  rewrite <- not_true_iff_false, Qle_bool_iff.
  split; [apply Qnot_le_lt|apply Qlt_not_le].
Qed.

Lemma round_half_even_cases (q : Q) :
  round_half_even q = Qfloor q
  ∨ (round_half_even q = Qfloor q + 1 ∧ (inject_Z (Qfloor q) + (1 # 2) <= q)%Q).
Proof.
  unfold round_half_even.
  destruct (q - inject_Z (Qfloor q) ?= 1 # 2)%Q eqn:Hc.
  - apply Qeq_alt in Hc. destruct (Z.even (Qfloor q)); [by left|right].
    split; [done|]. lra.
  - by left.
  - apply Qgt_alt in Hc. right. split; [done|]. lra.
Qed.

Lemma round_half_even_bounds (q : Q) (n : Z) :
  (0 <= q)%Q → (q <= inject_Z n)%Q → 0 ≤ round_half_even q ≤ n.
Proof.
  intros H0 Hn.
  pose proof (Qfloor_le q) as Hfl. pose proof (Qlt_floor q) as Hlt.
  assert (Hf0 : 0 ≤ Qfloor q).
  { assert (inject_Z 0 < inject_Z (Qfloor q + 1))%Q as Hx
      by (change (inject_Z 0) with 0%Q; lra).
    rewrite <- Zlt_Qlt in Hx. lia. }
  assert (Hfn : Qfloor q ≤ n).
  { assert (inject_Z (Qfloor q) <= inject_Z n)%Q as Hx by lra.
    by rewrite <- Zle_Qle in Hx. }
  destruct (round_half_even_cases q) as [->|[-> Hhalf]]; [lia|].
  split; [lia|].
  assert (inject_Z (Qfloor q) < inject_Z n)%Q as Hx by lra.
  rewrite <- Zlt_Qlt in Hx. lia.
Qed.

Lemma clamp0_pos (x : Q) : (0 < x)%Q → clamp0 x = x.
Proof.
  intros Hx. unfold clamp0. simpl.
  destruct (Qltb x 0) eqn:Hc; [|done]. apply Qltb_lt in Hc. lra.
Qed.

Lemma clamp0_Q_spec (x : Q) :
  ((0 < x)%Q ∧ clamp0 x = x) ∨ ((x <= 0)%Q ∧ (clamp0 x == 0)%Q).
Proof.
  unfold clamp0. simpl. destruct (Qltb x 0) eqn:Hc.
  - apply Qltb_lt in Hc. right. split; lra.
  - apply Qltb_ge in Hc. destruct (Qlt_le_dec 0 x); [by left|right]. split; lra.
Qed.

Lemma collect_candidates_elem (digits : list Z) (w : gmap Z Q) (d : Z) (x : Q) :
  d ∈ digits → w !! d = Some x → (0 < x)%Q →
  d ∈ (collect_candidates digits w).1.
Proof.
  intros Hd Hw Hx. induction digits as [|d' rest IH]; [by apply elem_of_nil in Hd|].
  simpl. destruct (collect_candidates rest w) as [cs ws] eqn:Hrec. simpl in IH.
  apply elem_of_cons in Hd as [<-|Hd].
  - unfold get_weight. rewrite Hw. simpl. rewrite clamp0_pos by done.
    rewrite (proj2 (Qltb_lt 0 x)) by done. simpl. apply elem_of_cons. by left.
  - destruct (Qltb _ _); simpl; [apply elem_of_cons; right|]; by apply IH.
Qed.

Lemma collect_candidates_weights (digits : list Z) (w : gmap Z Q) :
  length (collect_candidates digits w).2 = length (collect_candidates digits w).1
  ∧ Forall (fun x => (0 < x)%Q) (collect_candidates digits w).2.
Proof.
  induction digits as [|d rest [IHl IHp]]; [by split|]. simpl.
  destruct (collect_candidates rest w) as [cs ws]. simpl in *.
  destruct (Qltb 0 _) eqn:Hpos; simpl; [|by split].
  apply Qltb_lt in Hpos. split; [by rewrite IHl|by constructor].
Qed.

Lemma accumulate_from_last (acc : Q) (l : list Q) :
  (0 < acc)%Q → Forall (fun x => (0 < x)%Q) l →
  length (accumulate_from acc l) = length l
  ∧ ∃ t, last (acc :: accumulate_from acc l) = Some t ∧ (0 < t)%Q.
Proof.
  intros Hacc Hl. revert acc Hacc.
  induction Hl as [|x l Hx _ IH]; intros acc Hacc; simpl; [by eauto|].
  destruct (IH (acc + x)%Q ltac:(lra)) as (Hlen & t & Ht & Hpos).
  split; [by rewrite Hlen|]. exists t. split; [|done]. exact Ht.
Qed.

Lemma fold_left_Qplus_acc (l : list Q) (a : Q) :
  (fold_left Qplus l a == a + fold_left Qplus l 0)%Q.
Proof.
  revert a. induction l as [|x l IH]; intros a; simpl; [lra|].
  rewrite (IH (a + x)%Q), (IH (0 + x)%Q). lra.
Qed.

Lemma class_total_cons (d : Z) (digits : list Z) (w : gmap Z Q) :
  (class_total (d :: digits) w
   == clamp0 (get_weight w d 0%Q) + class_total digits w)%Q.
Proof.
  unfold class_total, py_sum. simpl. rewrite fold_left_Qplus_acc. lra.
Qed.

(** The code's clamped sum is the specification's sum over the strictly
    positive weights. *)
Lemma class_total_positive_weight_total (digits : list Z) (w : gmap Z Q) :
  (class_total digits w == positive_weight_total digits w)%Q.
Proof.
  induction digits as [|d rest IH]; [done|].
  rewrite class_total_cons, IH. simpl. unfold get_weight.
  destruct (w !! d) as [x|]; simpl.
  - destruct (clamp0_Q_spec x) as [[Hx ->]|[Hx ->]].
    + by rewrite (proj2 (Qltb_lt 0 x)).
    + rewrite (proj2 (Qltb_ge 0 x)) by done. lra.
  - unfold clamp0. simpl. lra.
Qed.

Lemma py_sum_pos (l : list Q) :
  l ≠ [] → Forall (fun x => (0 < x)%Q) l → (0 < py_sum l)%Q.
Proof.
  intros Hne Hl. unfold py_sum. destruct Hl as [|x l Hx Hl]; [done|]. simpl.
  rewrite fold_left_Qplus_acc.
  assert (0 <= fold_left Qplus l 0)%Q; [|simpl; lra].
  clear Hne. induction Hl as [|y l Hy _ IH]; simpl; [lra|].
  rewrite fold_left_Qplus_acc. lra.
Qed.

(** In exact arithmetic the candidates of a class that has any can always
    be sampled: their normalised weights are positive. *)
Lemma collect_candidates_samplable (digits : list Z) (w : gmap Z Q) :
  (collect_candidates digits w).1 ≠ [] →
  samplable (collect_candidates digits w).1
            (normalize_weights (collect_candidates digits w).2).
Proof.
  intros Hne. destruct (collect_candidates_weights digits w) as [Hlen Hpos].
  destruct (collect_candidates digits w) as [cs ws]. simpl in *.
  assert (Hws : ws ≠ []) by (intros ->; by destruct cs).
  pose proof (py_sum_pos ws Hws Hpos) as Htot.
  assert (Hnorm : Forall (fun x => (0 < x)%Q) (normalize_weights ws)
                  ∧ length (normalize_weights ws) = length ws).
  { unfold normalize_weights. simpl.
    rewrite (proj2 (Qle_bool_false _ _)) by done.
    split; [|by rewrite length_map].
    apply Forall_forall. intros x Hx. apply list_elem_of_fmap in Hx as (y & -> & Hy).
    rewrite Forall_forall in Hpos. specialize (Hpos y Hy).
    apply Qlt_shift_div_l; lra. }
  destruct Hnorm as [Hnpos Hnlen].
  destruct (normalize_weights ws) as [|x nws] eqn:Hn.
  { simpl in Hnlen. destruct ws; [done|discriminate]. }
  apply Forall_cons in Hnpos as [Hx Hnpos].
  destruct (accumulate_from_last x nws Hx Hnpos) as (Hal & t & Ht & Htpos).
  split; [done|]. split.
  - simpl. rewrite Hal. simpl in Hnlen. lia.
  - exists t. split; [exact Ht|]. apply Qle_bool_false. lra.
Qed.

(** ** Sampling and shuffling over binary64 *)

Lemma shuffle_from_Permutation_b64 {A : Type} (rnd : Randomization64.rng)
    (i pos : nat) (x : list A) :
  (Randomization64.shuffle_from rnd pos i x).1 ≡ₚ x.
Proof.
  revert pos x. induction i as [|i IH]; intros pos x; simpl; [done|].
  rewrite IH. apply swap_Permutation.
Qed.

Lemma shuffle_Permutation_b64 {A : Type} (rnd : Randomization64.rng)
    (pos : nat) (x : list A) :
  (Randomization64.shuffle rnd pos x).1 ≡ₚ x.
Proof. apply shuffle_from_Permutation_b64. Qed.

Lemma bisect_right_bounds_b64 (fuel : nat) (a : list float) (x : float)
    (lo hi : nat) :
  (lo ≤ hi)%nat → (lo ≤ Randomization64.bisect_right fuel a x lo hi ≤ hi)%nat.
Proof.
  revert lo hi.
  induction fuel as [|fuel IH]; intros lo hi Hle;
    cbn [Randomization64.bisect_right]; [lia|].
  destruct (lo <? hi)%nat eqn:Hlt; [|lia].
  apply Nat.ltb_lt in Hlt.
  assert (Hmid : (lo ≤ (lo + hi) / 2 < hi)%nat).
  { pose proof (Nat.div_mod_eq (lo + hi) 2) as Hdm.
    pose proof (Nat.mod_upper_bound (lo + hi) 2 ltac:(lia)) as Hmod.
    generalize dependent ((lo + hi) mod 2)%nat.
    generalize dependent ((lo + hi) / 2)%nat. intros. lia. }
  destruct (a !! _); [|lia].
  destruct (PrimFloat.ltb x f).
  - pose proof (IH lo ((lo + hi) / 2)%nat (proj1 Hmid)). lia.
  - pose proof (IH (S ((lo + hi) / 2)) hi ltac:(lia)). lia.
Qed.

Lemma weighted_sample_ok_b64 (rnd : Randomization64.rng) (pos : nat)
    (cands : list Z) (ws : list float) :
  Randomization64.samplable cands ws →
  ∃ d, Randomization64.weighted_sample rnd pos cands ws = Ok (d, S pos)
       ∧ d ∈ cands.
Proof.
  intros (Hne & Hlen & t & Hlast & Hpos & Hfin).
  unfold Randomization64.weighted_sample.
  rewrite bool_decide_eq_false_2 by (by intros ?).
  rewrite Hlast, Hpos, Hfin. simpl.
  match goal with |- context [cands !! ?i] =>
    assert (Hlt : (i < length cands)%nat) end.
  { match goal with |- (Randomization64.bisect_right ?f ?a ?x 0 ?hi < _)%nat =>
      pose proof (bisect_right_bounds_b64 f a x 0 hi) end.
    destruct cands; simpl in *; [done|lia]. }
  destruct (lookup_lt_is_Some_2 _ _ Hlt) as [d Hd].
  exists d. rewrite Hd. split; [done|]. by eapply list_elem_of_lookup_2.
Qed.

(** [weighted_sample] returns on these conditions only. *)
Lemma weighted_sample_samplable_b64 (rnd : Randomization64.rng) (pos : nat)
    (cands : list Z) (ws : list float) (d : Z) (pos' : nat) :
  Randomization64.weighted_sample rnd pos cands ws = Ok (d, pos') →
  Randomization64.samplable cands ws.
Proof.
  unfold Randomization64.weighted_sample, Randomization64.samplable.
  case_bool_decide as Hlen; [done|].
  destruct (last _) as [t|] eqn:Hlast; [|done].
  destruct (PrimFloat.leb _ _) eqn:Hpos; [done|].
  destruct (is_finite _) eqn:Hfin; [|done]. simpl.
  intros Hrun. split.
  - intros ->. by rewrite lookup_nil in Hrun.
  - split; [done|]. by exists t.
Qed.

Lemma sample_trials_ok_b64 (rnd : Randomization64.rng) (n pos : nat)
    (flag : bool) (cands : list Z) (ws : list float) (trials : list trial) :
  Randomization64.samplable cands ws →
  ∃ new pos',
    Randomization64.sample_trials rnd pos n flag cands ws trials
      = Ok (trials ++ new, pos')
    ∧ length new = n
    ∧ Forall (fun t => is_go t = flag ∧ digit t ∈ cands) new.
Proof.
  intros Hne. revert pos trials.
  induction n as [|n IH]; intros pos trials; simpl.
  - exists [], pos. by rewrite app_nil_r.
  - destruct (weighted_sample_ok_b64 rnd pos cands ws Hne) as (d & -> & Hd).
    simpl.
    destruct (IH (S pos) (trials ++ [Trial d flag]))
      as (new & pos' & -> & Hlen & Hall).
    exists (Trial d flag :: new), pos'. rewrite <- app_assoc. simpl.
    repeat split; [by rewrite Hlen|]. by constructor.
Qed.

(** A draw that raises stops the loop with its exception. *)
Lemma sample_trials_raises_b64 (rnd : Randomization64.rng) (n pos : nat)
    (flag : bool) (cands : list Z) (ws : list float) (trials : list trial)
    (e : exn) :
  Randomization64.weighted_sample rnd pos cands ws = Raise e →
  Randomization64.sample_trials rnd pos (S n) flag cands ws trials = Raise e.
Proof. intros Hraise. simpl. by rewrite Hraise. Qed.

(** What a call returns over binary64 when [round] and the draws do not
    raise: [n_go] Go trials drawn from the Go candidates and [n - n_go]
    No-Go trials. *)
Lemma generate_trial_schedule_shape_b64 (sum_floats : list float → float)
    (rnd : Randomization64.rng) (go nogo : list Z) (w : gmap Z float)
    (r x : float) (n k : Z) :
  overlap_of go nogo = ∅ → go ≠ [] → nogo ≠ [] →
  Randomization64.float_of_int n = Ok x →
  Randomization64.py_round (x * r) = Ok k →
  Randomization64.samplable (Randomization64.collect_candidates go w).1
    (Randomization64.normalize_weights sum_floats
       (Randomization64.collect_candidates go w).2) →
  Randomization64.samplable (Randomization64.collect_candidates nogo w).1
    (Randomization64.normalize_weights sum_floats
       (Randomization64.collect_candidates nogo w).2) →
  ∃ trials,
    Randomization64.generate_trial_schedule sum_floats rnd go nogo w r n
      = Ok trials
    ∧ count_go trials = Z.to_nat (Z.max 0 (Z.min k n))
    ∧ count_nogo trials = Z.to_nat (n - Z.max 0 (Z.min k n))
    ∧ Forall (fun t => digit t ∈
                if is_go t then (Randomization64.collect_candidates go w).1
                else (Randomization64.collect_candidates nogo w).1) trials.
Proof.
  intros Hov Hgo Hnogo Hx Hk Hcg Hcn.
  unfold Randomization64.generate_trial_schedule.
  rewrite Hov, bool_decide_eq_true_2 by done. simpl.
  rewrite !bool_decide_eq_false_2 by done. simpl. rewrite Hx. simpl.
  rewrite Hk. simpl.
  destruct (Randomization64.collect_candidates go w) as [gc gw].
  destruct (Randomization64.collect_candidates nogo w) as [nc nw].
  simpl in Hcg, Hcn.
  rewrite !bool_decide_eq_false_2 by (by destruct Hcg, Hcn). simpl.
  set (n_go := Z.max 0 (Z.min k n)).
  destruct (sample_trials_ok_b64 rnd (Z.to_nat n_go) 0 true gc
              (Randomization64.normalize_weights sum_floats gw) [] Hcg)
    as (t1 & p1 & -> & Hl1 & Ha1). simpl.
  destruct (sample_trials_ok_b64 rnd (Z.to_nat (n - n_go)) p1 false nc
              (Randomization64.normalize_weights sum_floats nw) t1 Hcn)
    as (t2 & p2 & -> & Hl2 & Ha2). simpl.
  eexists. split; [done|].
  pose proof (shuffle_Permutation_b64 rnd p2 (t1 ++ t2)) as Hp.
  destruct (count_flagged _ _ _ Ha1) as [Hg1 Hn1].
  destruct (count_flagged _ _ _ Ha2) as [Hg2 Hn2].
  rewrite (count_go_Permutation _ _ Hp), (count_nogo_Permutation _ _ Hp).
  rewrite count_go_app, count_nogo_app, Hg1, Hg2, Hn1, Hn2, Hl1, Hl2.
  split; [lia|]. split; [lia|].
  rewrite Hp. apply Forall_app. split.
  - eapply Forall_impl; [exact Ha1|]. by intros t [-> ?].
  - eapply Forall_impl; [exact Ha2|]. by intros t [-> ?].
Qed.

(** A class that has to be drawn from and cannot be sampled makes the call
    raise. *)
Lemma generate_trial_schedule_raises_b64 (sum_floats : list float → float)
    (rnd : Randomization64.rng) (go nogo : list Z) (w : gmap Z float)
    (r x : float) (n k : Z) :
  overlap_of go nogo = ∅ → go ≠ [] → nogo ≠ [] → 0 ≤ n →
  Randomization64.float_of_int n = Ok x →
  Randomization64.py_round (x * r) = Ok k →
  (0 < Z.max 0 (Z.min k n)
   ∧ ¬ Randomization64.samplable (Randomization64.collect_candidates go w).1
         (Randomization64.normalize_weights sum_floats
            (Randomization64.collect_candidates go w).2))
  ∨ (Z.max 0 (Z.min k n) < n
     ∧ ¬ Randomization64.samplable (Randomization64.collect_candidates nogo w).1
           (Randomization64.normalize_weights sum_floats
              (Randomization64.collect_candidates nogo w).2)) →
  ∃ e, Randomization64.generate_trial_schedule sum_floats rnd go nogo w r n
       = Raise e.
Proof.
  intros Hov Hgo Hnogo Hn Hx Hk Hbad.
  unfold Randomization64.generate_trial_schedule.
  rewrite Hov, bool_decide_eq_true_2 by done. simpl.
  rewrite !bool_decide_eq_false_2 by done. simpl. rewrite Hx. simpl.
  rewrite Hk. simpl.
  destruct (Randomization64.collect_candidates go w) as [gc gw].
  destruct (Randomization64.collect_candidates nogo w) as [nc nw].
  simpl in Hbad.
  destruct (bool_decide (gc = []) || bool_decide (nc = [])); [by eauto|].
  set (n_go := Z.max 0 (Z.min k n)) in *.
  destruct (Randomization64.sample_trials rnd 0 (Z.to_nat n_go) true gc _ [])
    as [[t1 p1]|e] eqn:Hs1; [|by eauto].
  simpl.
  destruct (Randomization64.sample_trials rnd p1 (Z.to_nat (n - n_go)) false nc _ t1)
    as [[t2 p2]|e] eqn:Hs2; [|by eauto].
  exfalso. destruct Hbad as [[Hpos Hns]|[Hpos Hns]].
  - destruct (Z.to_nat n_go) as [|m] eqn:Hm; [lia|].
    simpl in Hs1.
    destruct (Randomization64.weighted_sample _ _ _ _) as [[d pos']|e] eqn:Hw;
      [|done].
    by apply weighted_sample_samplable_b64 in Hw.
  - destruct (Z.to_nat (n - n_go)) as [|m] eqn:Hm; [lia|].
    simpl in Hs2.
    destruct (Randomization64.weighted_sample _ _ _ _) as [[d pos']|e] eqn:Hw;
      [|done].
    by apply weighted_sample_samplable_b64 in Hw.
Qed.

(** The normalised unit weights of the specification's example can be
    sampled. *)
Lemma unit_weights_samplable_b64 :
  ∀ digits, digits = [0; 1; 2] ∨ digits = [9] →
  ∀ sum_floats,
    sum_floats = Randomization64.sum_left_to_right
    ∨ sum_floats = Randomization64.sum_compensated →
    Randomization64.samplable
      (Randomization64.collect_candidates digits Randomization64.unit_weights).1
      (Randomization64.normalize_weights sum_floats
         (Randomization64.collect_candidates digits
            Randomization64.unit_weights).2).
Proof.
  intros digits [-> | ->] sum_floats [-> | ->];
    (split; [by vm_compute|]; split; [by vm_compute|];
     eexists; split; [by vm_compute|]; split; by vm_compute).
Qed.

(** ** The claims about the trial scheduler *)







(** C3, as amended.  Digit lists that share a digit are rejected by
    [generate_trial_schedule], whose first step is the overlap check,
    whatever the weights, the ratio and the number of trials;
    [compute_go_ratio] has no such check and raises only when a class total
    is not positive. *)
Theorem overlapping_digits_rejected_by_schedule (rnd : rng) (go nogo : list Z)
    (w : gmap Z Q) (r : Q) (n d : Z) :
  d ∈ go → d ∈ nogo →
  (∃ ds, generate_trial_schedule rnd go nogo w r n = Raise (DigitsBothGoAndNoGo ds)
         ∧ d ∈ ds ∧ is_InvalidConfig (DigitsBothGoAndNoGo ds) = true)
  ∧ (compute_go_ratio go nogo w =
       if Qle_bool (class_total go w) 0 || Qle_bool (class_total nogo w) 0
       then Raise NonZeroWeightsRequired
       else Ok (class_total go w / (class_total go w + class_total nogo w))%Q).
Proof.
  intros Hgo Hnogo. split; [|done].
  unfold generate_trial_schedule.
  rewrite bool_decide_eq_false_2 by (by eapply overlap_of_shared). simpl.
  eexists. split; [done|]. split; [|done].
  rewrite merge_sort_Permutation. apply elem_of_elements.
  unfold overlap_of. apply elem_of_intersection. by rewrite !elem_of_list_to_set.
Qed.

Lemma overlapping_digits_rejected_by_schedule_witness :
  ∃ ds, generate_trial_schedule (Rng (fun _ => 1 # 2) (fun k => k))
          [1; 2] [2; 3]
          ({[ 1 := 1%Q; 2 := 1%Q; 3 := 1%Q ]} : gmap Z Q)
          (1 # 2) 4 = Raise (DigitsBothGoAndNoGo ds) ∧ 2 ∈ ds.
Proof.
  destruct (overlapping_digits_rejected_by_schedule
              (Rng (fun _ => 1 # 2) (fun k => k)) [1; 2] [2; 3]
              ({[ 1 := 1%Q; 2 := 1%Q; 3 := 1%Q ]} : gmap Z Q)
              (1 # 2) 4 2) as [(ds & Hrun & Hin & _) _].
  - apply list_elem_of_In. simpl. tauto.
  - apply list_elem_of_In. simpl. tauto.
  - by exists ds.
Defined.

(** C3 as stated fails: the lists [1] and [1] share their digit, and
    [compute_go_ratio] returns a ratio, 1/2, for them. *)
Lemma compute_go_ratio_accepts_overlap :
  let w : gmap Z Q := {[ 1 := 1%Q ]} in
  1 ∈ [1] ∧ ∃ r, compute_go_ratio [1] [1] w = Ok r ∧ (r == 1 # 2)%Q.
Proof.
  split; [apply list_elem_of_In; simpl; tauto|].
  eexists. split; [by vm_compute|reflexivity].
Qed.

(** C10.  A digit the weight map does not hold adds nothing to the class
    total of [compute_go_ratio] (default 0.0) and is a candidate of weight
    1.0 in [generate_trial_schedule] (default 1.0).  So the ratio of
    [0; 1] against [9] is that of [1] against [9], yet digit 0 is drawn
    into the schedule; and with an empty map [compute_go_ratio] raises
    while [generate_trial_schedule] returns a schedule. *)
Theorem missing_weight_defaults_differ :
  (∀ (digits : list Z) (w : gmap Z Q) (d : Z),
     w !! d = None →
     (class_total (d :: digits) w == class_total digits w)%Q
     ∧ ∃ cs ws, collect_candidates (d :: digits) w = (d :: cs, 1%Q :: ws))
  ∧ (let w : gmap Z Q := {[ 1 := 1%Q; 9 := 1%Q ]} in
     let rnd := Rng (fun _ => 1 # 4)%Q (fun _ => 0%nat) in
     ∃ r r',
       compute_go_ratio [0; 1] [9] w = Ok r
       ∧ compute_go_ratio [1] [9] w = Ok r' ∧ (r == r')%Q
       ∧ generate_trial_schedule rnd [0; 1] [9] w r 2
         = Ok [Trial 9 false; Trial 0 true])
  ∧ (∀ rnd : rng,
       compute_go_ratio [0] [9] (∅ : gmap Z Q) = Raise NonZeroWeightsRequired
       ∧ ∃ trials,
           generate_trial_schedule rnd [0] [9] (∅ : gmap Z Q) (1 # 2) 2
             = Ok trials
           ∧ Trial 0 true ∈ trials).
Proof.
  split; [|split].
  - intros digits w d Hd. split.
    + rewrite class_total_cons. unfold get_weight. rewrite Hd.
      unfold clamp0. simpl. lra.
    + simpl. unfold get_weight. rewrite Hd. simpl.
      destruct (collect_candidates digits w) as [cs ws]. by exists cs, ws.
  - eexists _, _. split; [by vm_compute|]. split; [by vm_compute|].
    split; [reflexivity|]. by vm_compute.
  - intros rnd. split; [by vm_compute|].
    destruct (generate_trial_schedule_shape rnd [0] [9] (∅ : gmap Z Q)
                (1 # 2) 2) as (trials & Hrun & Hcg & Hcn & Hall);
      try (by vm_compute); try (by apply collect_candidates_samplable).
    exists trials. split; [done|].
    change (Z.to_nat _) with 1%nat in Hcg.
    unfold count_go in Hcg.
    destruct (filter (λ t : trial, is_go t = true) trials) as [|t l] eqn:Hf; [done|].
    assert (Ht : t ∈ filter (λ t : trial, is_go t = true) trials)
      by (rewrite Hf; apply elem_of_cons; by left).
    apply list_elem_of_filter in Ht as [Hgo Hin].
    rewrite Forall_forall in Hall. specialize (Hall t Hin). rewrite Hgo in Hall.
    vm_compute in Hall. apply list_elem_of_In in Hall. simpl in Hall.
    destruct Hall as [Hd|[]]. destruct t as [dg g]. simpl in *. by subst.
Qed.

Lemma missing_weight_defaults_differ_witness :
  ∃ cs ws,
    collect_candidates [0; 1] ({[ 1 := 1%Q ]} : gmap Z Q) = (0 :: cs, 1%Q :: ws).
Proof.
  destruct (proj1 missing_weight_defaults_differ [1] ({[ 1 := 1%Q ]} : gmap Z Q) 0)
    as [_ Hc]; [by vm_compute|exact Hc].
Defined.

End RandomizationFacts.

Module TimingFacts.
Import Timing RandomizationFacts.

Lemma ms_left_nonpos (x : Q) : (x <= 0)%Q → ms_left x = 0.
Proof.
  intros Hx. unfold ms_left.
  assert (Qceiling (x * 1000) ≤ 0); [|lia].
  change 0 with (Qceiling 0). apply Qceiling_resp_le. lra.
Qed.

Lemma ms_left_pos (x : Q) : (0 < x)%Q → 0 < ms_left x.
Proof.
  intros Hx. unfold ms_left.
  assert (0 < Qceiling (x * 1000)); [|lia].
  pose proof (Qle_ceiling (x * 1000)) as Hc.
  assert (inject_Z 0 < inject_Z (Qceiling (x * 1000)))%Q as Hlt
    by (change (inject_Z 0) with 0%Q; lra).
  by rewrite <- Zlt_Qlt in Hlt.
Qed.

Lemma ms_left_mono (x y : Q) : (x <= y)%Q → ms_left x ≤ ms_left y.
Proof.
  intros Hxy. unfold ms_left.
  assert (Qceiling (x * 1000) ≤ Qceiling (y * 1000)); [|lia].
  apply Qceiling_resp_le. lra.
Qed.

Lemma strictly_decreasing_snoc (l : list Z) (x : Z) :
  strictly_decreasing l → (∀ m, last l = Some m → x < m) →
  strictly_decreasing (l ++ [x]).
Proof.
  intros Hl Hx i a b Ha Hb.
  destruct (decide (S i < length l)%nat) as [Hlt|Hge].
  - rewrite lookup_app_l in Ha by lia. rewrite lookup_app_l in Hb by lia. eauto.
  - assert (Hi : S i = length l).
    { apply lookup_lt_Some in Hb. rewrite length_app in Hb. simpl in Hb. lia. }
    rewrite lookup_app_l in Ha by lia.
    rewrite Hi, lookup_app_r, Nat.sub_diag in Hb by lia. simplify_eq/=.
    apply Hx. rewrite last_lookup. rewrite <- Ha. f_equal. lia.
Qed.

Lemma poll_never_aborts (check : option (nat -> bool)) (st : loop_state) :
  never_aborts check →
  (poll check st).1 = false
  ∧ nread (poll check st).2 = nread st
  ∧ last_ms (poll check st).2 = last_ms st
  ∧ calls (poll check st).2 = calls st.
Proof. destruct check as [f|]; simpl; intros Hf; rewrite ?Hf; done. Qed.

(** Without an abort the loop leaves by the deadline, having ticked a
    strictly decreasing sequence that ends in 0. *)
Lemma countdown_loop_ticks (fuel : nat) (perf : nat -> Q)
    (check : option (nat -> bool)) (step_s end_time : Q)
    (st : loop_state) (ms : list Z) (res : result (loop_state * loop_exit)) :
  never_aborts check → (0 <= step_s)%Q → monotone perf →
  calls st = map Tick ms → last_ms st = last ms → strictly_decreasing ms →
  (∀ m, last ms = Some m →
        0 < m ∧ ∀ j, (nread st ≤ j)%nat → ms_left (end_time - perf j) ≤ m) →
  countdown_loop fuel perf check step_s end_time st = Some res →
  ∃ ms' st',
    res = Ok (st', ByDeadline)
    ∧ calls st' = map Tick (ms ++ ms')
    ∧ strictly_decreasing (ms ++ ms')
    ∧ last (ms ++ ms') = Some 0.
Proof.
  intros Hna Hstep Hmono. revert st ms.
  induction fuel as [|fuel IH]; intros st ms Hcalls Hlast Hdec Hbound Hrun; [done|].
  simpl in Hrun.
  destruct (poll_never_aborts check st Hna) as (Hstop & Hnr & Hlm & Hcs).
  destruct (poll check st) as [stop st1]. simpl in *. subst stop.
  rewrite Hnr, Hlm, Hcs in Hrun.
  set (now := perf (nread st)) in *.
  set (m' := ms_left (end_time - now)) in *.
  assert (Hfresh : ∀ m, last ms = Some m → m' ≠ m → m' < m).
  { intros m Hm Hne. destruct (Hbound m Hm) as [_ Hle].
    specialize (Hle (nread st) (le_n _)). fold now m' in Hle. lia. }
  destruct (Qle_bool end_time now) eqn:Hdl.
  - (* the deadline is reached: the tick of 0 is new *)
    apply Qle_bool_iff in Hdl.
    assert (Hm0 : m' = 0) by (apply ms_left_nonpos; lra).
    assert (Hneq : Some m' ≠ last_ms st).
    { rewrite Hlast, Hm0. intros Heq. symmetry in Heq.
      destruct (Hbound 0 Heq). lia. }
    rewrite bool_decide_eq_true_2 in Hrun by done. injection Hrun as <-.
    eexists [m'], _. split; [done|]. simpl.
    split; [by rewrite Hcalls, map_app|].
    split; [|by rewrite last_snoc, Hm0].
    apply strictly_decreasing_snoc; [done|]. intros m Hm. apply Hfresh; [done|].
    intros ->. rewrite Hlast in Hneq. by rewrite Hm in Hneq.
  - apply Qle_bool_false in Hdl.
    assert (Hpos : 0 < m') by (apply ms_left_pos; lra).
    assert (Hfut : ∀ j, (S (nread st) ≤ j)%nat → ms_left (end_time - perf j) ≤ m').
    { intros j Hj. apply ms_left_mono.
      assert (now <= perf j)%Q by (apply Hmono; lia). lra. }
    rewrite (proj2 (Qltb_ge step_s 0)) in Hrun by done.
    case_bool_decide as Hneq.
    + apply (IH _ (ms ++ [m'])) in Hrun as (ms' & st' & -> & Hc & Hd & Hl).
      * exists (m' :: ms'), st'. rewrite <- app_assoc in Hc, Hd, Hl. done.
      * simpl. by rewrite Hcalls, map_app.
      * simpl. by rewrite last_snoc.
      * apply strictly_decreasing_snoc; [done|]. intros m Hm. apply Hfresh; [done|].
        intros ->. rewrite Hlast in Hneq. by rewrite Hm in Hneq.
      * intros m. rewrite last_snoc. intros [= <-]. simpl. split; [done|exact Hfut].
    + apply (IH _ ms) in Hrun as (ms' & st' & -> & Hc & Hd & Hl).
      * by exists ms', st'.
      * done.
      * done.
      * done.
      * intros m Hm. split; [by destruct (Hbound m Hm)|]. simpl.
        assert (m' = m) as <-; [|exact Hfut].
        rewrite Hlast, Hm in Hneq. by injection Hneq.
Qed.

Lemma countdown_loop_terminates (n : nat) (perf : nat -> Q)
    (check : option (nat -> bool)) (step_s end_time : Q) (st : loop_state) :
  (0 <= step_s)%Q → stops_within check perf end_time st n →
  ∃ st' why,
    countdown_loop (S n) perf check step_s end_time st = Some (Ok (st', why)).
Proof.
  intros Hstep. revert st. induction n as [|n IH]; intros st Hstop.
  - unfold stops_within in Hstop. rewrite !Nat.add_0_r in Hstop.
    cbn [countdown_loop]. destruct check as [f|]; simpl.
    + destruct (f (npoll st)) eqn:Hf; [by eauto|].
      destruct Hstop as [Hd|Hd]; [|done].
      rewrite (proj2 (Qle_bool_iff _ _)) by done. by eauto.
    + destruct Hstop as [Hd|[]].
      rewrite (proj2 (Qle_bool_iff _ _)) by done. by eauto.
  - remember (S n) as fuel eqn:Hfuel. cbn [countdown_loop].
    destruct (poll check st) as [stop st1] eqn:Hpoll.
    destruct stop; [by eauto|].
    destruct (Qle_bool end_time (perf (nread st1))); [by eauto|].
    rewrite (proj2 (Qltb_ge step_s 0)) by done. subst fuel.
    apply IH. unfold stops_within in *.
    assert (nread st1 = nread st ∧
            match check with Some _ => npoll st1 = S (npoll st) | None => True end)
      as [Hnr Hnp].
    { destruct check; simpl in Hpoll; by simplify_eq. }
    rewrite !Nat.add_succ_r in Hstop.
    destruct Hstop as [Hd|Hd]; [left|right].
    + case_bool_decide; simpl; by rewrite Hnr.
    + destruct check as [f|]; [|done].
      case_bool_decide; simpl; by rewrite Hnp.
Qed.

(** How the loop was left: by an abort, right after [check_abort] answered
    true; by the deadline, at a reading for which no millisecond is left. *)
Lemma countdown_loop_exit (fuel : nat) (perf : nat -> Q)
    (check : option (nat -> bool)) (step_s end_time : Q)
    (st st' : loop_state) (why : loop_exit) :
  Forall is_tick (calls st) →
  countdown_loop fuel perf check step_s end_time st = Some (Ok (st', why)) →
  Forall is_tick (calls st')
  ∧ (why = ByAbort →
       ∃ f k, check = Some f ∧ npoll st' = S k ∧ f k = true)
  ∧ (why = ByDeadline →
       ∃ k, (end_time <= perf k)%Q ∧ ms_left (end_time - perf k) = 0).
Proof.
  revert st. induction fuel as [|fuel IH]; intros st Hticks Hrun; [done|].
  cbn [countdown_loop] in Hrun.
  destruct (poll check st) as [stop st1] eqn:Hpoll.
  assert (Hcs : calls st1 = calls st).
  { destruct check; simpl in Hpoll; by simplify_eq. }
  destruct stop.
  - simplify_eq. split; [by rewrite Hcs|]. split; [|done]. intros _.
    destruct check as [f|]; simpl in Hpoll; [|done]. simplify_eq/=. eauto.
  - match type of Hrun with
    | context [Qle_bool ?a ?b] => destruct (Qle_bool a b) eqn:Hdl
    end.
    + simplify_eq. apply Qle_bool_iff in Hdl. split.
      * case_bool_decide; simpl; rewrite Hcs; [|done].
        apply Forall_app. split; [done|]. by constructor.
      * split; [done|]. intros _. exists (nread st1). split; [done|].
        apply ms_left_nonpos. lra.
    + destruct (Qltb step_s 0); [done|].
      apply IH in Hrun; [done|].
      case_bool_decide; simpl; rewrite Hcs; [|done].
      apply Forall_app. split; [done|]. by constructor.
Qed.

Lemma Finished_not_tick (l : list callback) : Forall is_tick l → Finished ∉ l.
Proof. rewrite Forall_forall. intros Hl Hin. exact (Hl _ Hin). Qed.

(** C7, as amended.  For an abort predicate that stays true once it has
    answered true (none at all included), [run_blocking_countdown] returns
    as soon as the clock reaches the deadline or [check_abort()] answers
    true; when the loop was left by an abort [on_finished] is not called,
    when it was left by the deadline no millisecond remained, and
    [on_finished] is called only after an exit by the deadline. *)
Theorem blocking_countdown_finishes_on_deadline_only (perf : nat -> Q)
    (duration_s step_s : Q) (on_finished : bool)
    (check_abort : option (nat -> bool)) :
  (0 <= step_s)%Q → latching check_abort →
  (∀ n, stops_within check_abort perf (perf 0%nat + clamp_duration duration_s)
          (LoopState 1 0 None []) n →
        ∃ run, run_blocking_countdown (S n) perf duration_s on_finished
                 check_abort step_s = Some (Ok run))
  ∧ (∀ fuel run,
       run_blocking_countdown fuel perf duration_s on_finished check_abort step_s
         = Some (Ok run) →
       (run_exit run = ByAbort →
          (Finished ∉ run_calls run)
          ∧ ∃ f k, check_abort = Some f ∧ f k = true)
       ∧ (run_exit run = ByDeadline →
            ∃ k, ms_left (perf 0%nat + clamp_duration duration_s - perf k) = 0)
       ∧ (Finished ∈ run_calls run →
            run_exit run = ByDeadline ∧ on_finished = true)).
Proof.
  intros Hstep Hlatch. split.
  - intros n Hstop. unfold run_blocking_countdown.
    destruct (countdown_loop_terminates n perf check_abort step_s _ _ Hstep Hstop)
      as (st' & why & ->).
    destruct on_finished; [|by eauto].
    destruct (poll check_abort st') as [[] ?]; by eauto.
  - intros fuel run Hrun. unfold run_blocking_countdown in Hrun.
    destruct (countdown_loop _ _ _ _ _ _) as [[[st why]|e]|] eqn:Hloop; [|done|done].
    apply countdown_loop_exit in Hloop as (Hticks & Hab & Hdl); [|by constructor].
    assert (Hcalls : run_exit run = why ∧
              (run_calls run = calls st
               ∨ (run_calls run = calls st ++ [Finished] ∧ on_finished = true
                  ∧ (poll check_abort st).1 = false))).
    { destruct on_finished; [|simplify_eq/=; by eauto].
      destruct (poll check_abort st) as [stop st1] eqn:Hpoll.
      assert (calls st1 = calls st) as Hcs
        by (destruct check_abort; simpl in Hpoll; by simplify_eq).
      destruct stop; simplify_eq/=; rewrite Hcs; eauto. }
    destruct Hcalls as [Hwhy Hcalls]. split; [|split].
    + intros Hex. rewrite Hex in Hwhy. symmetry in Hwhy.
      destruct (Hab Hwhy) as (f & k & -> & Hk & Hfk). split; [|by eauto].
      destruct Hcalls as [->|(_ & _ & Hpoll)]; [by apply Finished_not_tick|].
      simpl in Hpoll. rewrite Hk in Hpoll.
      rewrite (Hlatch k (S k)) in Hpoll by (done || lia). done.
    + intros Hex. rewrite Hex in Hwhy. symmetry in Hwhy.
      destruct (Hdl Hwhy) as (k & _ & Hk). by exists k.
    + intros Hin. destruct Hcalls as [Hc|(Hc & Hfin & Hpoll)].
      * rewrite Hc in Hin. by apply Finished_not_tick in Hin.
      * split; [|done]. rewrite Hwhy. destruct why; [|done].
        destruct (Hab eq_refl) as (f & k & -> & Hk & Hfk).
        simpl in Hpoll. rewrite Hk in Hpoll.
        rewrite (Hlatch k (S k)) in Hpoll by (done || lia). done.
Qed.

Lemma blocking_countdown_finishes_on_deadline_only_witness :
  ∃ run, run_blocking_countdown 4 (fun k => inject_Z (Z.of_nat k)) 2 true
           (Some (fun k => (5 <=? k)%nat)) (1 # 100) = Some (Ok run).
Proof.
  destruct (blocking_countdown_finishes_on_deadline_only
              (fun k => inject_Z (Z.of_nat k)) 2 (1 # 100) true
              (Some (fun k => (5 <=? k)%nat))) as [Hstop _].
  - done.
  - intros i j Hij Hi. apply Nat.leb_le in Hi. apply Nat.leb_le. lia.
  - apply (Hstop 3%nat). left. by vm_compute.
Defined.

(** C7 as stated fails for a predicate that answers true once and false
    afterwards: the loop is left by the abort, the second poll answers
    false, and [on_finished] is called. *)
Lemma blocking_countdown_finishes_after_abort :
  run_blocking_countdown 1 (fun k => inject_Z (Z.of_nat k)) 5 true
    (Some (fun k => (k =? 0)%nat)) (1 # 100)
  = Some (Ok (CountdownRun [Finished] ByAbort 2)).
Proof. reflexivity. Qed.

(** C8.  With [D > 0], a monotonic clock and no abort,
    [run_blocking_countdown] returns once the clock has reached the
    deadline, and what it called is a sequence of ticks, each strictly below
    the one before (non-increasing, no two consecutive equal), the last of
    them 0, followed by [on_finished]. *)
Theorem blocking_countdown_ticks_decrease (perf : nat -> Q)
    (duration_s step_s : Q) (check_abort : option (nat -> bool)) :
  (0 < duration_s)%Q → (0 <= step_s)%Q → monotone perf →
  never_aborts check_abort →
  (∀ n, (perf 0%nat + duration_s <= perf (S n))%Q →
        ∃ run, run_blocking_countdown (S n) perf duration_s true
                 check_abort step_s = Some (Ok run))
  ∧ (∀ fuel run,
       run_blocking_countdown fuel perf duration_s true check_abort step_s
         = Some (Ok run) →
       ∃ ms, run_calls run = map Tick ms ++ [Finished]
             ∧ (∀ i a b, ms !! i = Some a → ms !! S i = Some b → b ≤ a ∧ b ≠ a)
             ∧ last ms = Some 0).
Proof.
  intros Hd Hstep Hmono Hna.
  assert (Hclamp : clamp_duration duration_s = duration_s).
  { unfold clamp_duration. by rewrite (proj2 (Qltb_lt 0 duration_s)). }
  split.
  - intros n Hn. unfold run_blocking_countdown. rewrite Hclamp.
    destruct (countdown_loop_terminates n perf check_abort step_s
                (perf 0%nat + duration_s)%Q (LoopState 1 0 None []) Hstep)
      as (st' & why & ->); [by left|].
    destruct (poll check_abort st') as [[] ?]; by eauto.
  - intros fuel run Hrun. unfold run_blocking_countdown in Hrun.
    destruct (countdown_loop _ _ _ _ _ _) as [res|] eqn:Hloop; [|done].
    apply (countdown_loop_ticks _ _ _ _ _ _ []) in Hloop
      as (ms & st' & -> & Hcalls & Hdec & Hlast); try done.
    destruct (poll_never_aborts check_abort st' Hna) as (Hstop & _ & _ & Hcs).
    destruct (poll check_abort st') as [stop st1]. simpl in *. subst stop.
    simplify_eq/=. exists ms. rewrite Hcs, Hcalls. split; [done|]. split; [|done].
    intros i a b Ha Hb. specialize (Hdec i a b Ha Hb). lia.
Qed.

Lemma blocking_countdown_ticks_decrease_witness :
  ∃ run, run_blocking_countdown 3 (fun k => (inject_Z (Z.of_nat k) * (4 # 10))%Q)
           (1 # 2) true None (1 # 100) = Some (Ok run).
Proof.
  destruct (blocking_countdown_ticks_decrease
              (fun k => (inject_Z (Z.of_nat k) * (4 # 10))%Q) (1 # 2) (1 # 100) None)
    as [Hstop _].
  - reflexivity.
  - done.
  - intros i j Hij. apply Qmult_le_compat_r; [|done].
    rewrite <- Zle_Qle. lia.
  - done.
  - apply (Hstop 2%nat). by vm_compute.
Defined.

(** C6.  With [D <= 0], a monotonic clock and no abort, both countdowns
    call [on_tick(0)] once and then [on_finished] once: the blocking one
    within its first iteration, the Qt one at the first timeout, which also
    stops the timer. *)
Theorem countdown_nonpositive_duration (perf : nat -> Q) (duration_s : Q) :
  (duration_s <= 0)%Q → monotone perf →
  (∀ fuel step_s check_abort,
     never_aborts check_abort →
     ∃ polls, run_blocking_countdown (S fuel) perf duration_s true check_abort step_s
              = Some (Ok (CountdownRun [Tick 0; Finished] ByDeadline polls)))
  ∧ (∀ n nread0 interval_ms,
       let '(calls0, timer0, nread1) :=
         start_countdown_timer perf nread0 duration_s true interval_ms in
       let '(calls, timer, _) := fire_timeouts perf (S n) nread1 timer0 calls0 in
       calls0 = [Tick 0]
       ∧ calls = [Tick 0; Finished]
       ∧ ct_active timer = false).
Proof.
  intros Hd Hmono.
  assert (Hclamp : clamp_duration duration_s = 0%Q).
  { unfold clamp_duration. by rewrite (proj2 (Qltb_ge 0 duration_s)). }
  split.
  - intros fuel step_s check_abort Hna. unfold run_blocking_countdown.
    rewrite Hclamp. cbn [countdown_loop].
    destruct (poll_never_aborts check_abort (LoopState 1 0 None []) Hna)
      as (Hstop & Hnr & Hlm & Hcs).
    destruct (poll check_abort _) as [stop st1]. simpl in *. subst stop.
    rewrite Hnr, Hlm, Hcs.
    assert (Hle : (perf 0%nat + 0 <= perf 1%nat)%Q).
    { pose proof (Hmono 0%nat 1%nat ltac:(lia)). lra. }
    rewrite (proj2 (Qle_bool_iff _ _)) by done.
    rewrite ms_left_nonpos by lra. simpl.
    match goal with |- context [poll check_abort ?s] =>
      destruct (poll_never_aborts check_abort s Hna) as (Hstop' & _ & _ & Hcs');
      destruct (poll check_abort s) as [stop' st2] end.
    simpl in *. subst stop'. rewrite Hcs'. by eexists.
  - intros n nread0 interval_ms. unfold start_countdown_timer. rewrite Hclamp.
    cbn [fire_timeouts ct_active]. unfold handle_timeout.
    cbn [ct_start_perf ct_duration_s ct_on_finished ct_interval_ms ct_active].
    assert (Hms : ms_left (0 - (perf (S nread0) - perf nread0)) = 0).
    { apply ms_left_nonpos. pose proof (Hmono nread0 (S nread0) ltac:(lia)). lra. }
    rewrite Hms. change (ms_left 0) with 0. simpl.
    destruct n; done.
Qed.

Lemma countdown_nonpositive_duration_witness :
  ∃ polls, run_blocking_countdown 1 (fun k => inject_Z (Z.of_nat k)) (- (3)) true
             None (1 # 100)
           = Some (Ok (CountdownRun [Tick 0; Finished] ByDeadline polls)).
Proof.
  destruct (countdown_nonpositive_duration (fun k => inject_Z (Z.of_nat k)) (- (3)))
    as [Hblock _].
  - done.
  - intros i j Hij. rewrite <- Zle_Qle. lia.
  - apply (Hblock 0%nat (1 # 100)%Q None). done.
Defined.

End TimingFacts.

Module RhythmFacts.
Import Timing Rhythm RandomizationFacts.

Lemma process_events_logger (w : world) (st : ParadigmRunner) :
  logger (process_events w st) = logger st
  ∧ rd (process_events w st) = rd st
  ∧ ∃ extra, effects (process_events w st) = effects st ++ extra
             ∧ Forall (fun e => is_cue e = false) extra.
Proof.
  unfold process_events. destruct (esc w (pumps st)); simpl.
  - repeat split. exists [AbortWindowTeardown]. split; [done|]. by repeat constructor.
  - repeat split. exists []. by rewrite app_nil_r.
Qed.

Lemma abort_comes_from_same (w : world) (st st' : ParadigmRunner) :
  pumps st' = pumps st → abort_requested st' = abort_requested st →
  abort_comes_from w st st'.
Proof. intros Hp Ha. split; [lia|]. rewrite Ha. by left. Qed.

Lemma abort_comes_from_trans (w : world) (st1 st2 st3 : ParadigmRunner) :
  abort_comes_from w st1 st2 → abort_comes_from w st2 st3 →
  abort_comes_from w st1 st3.
Proof.
  intros [Hp1 Ha1] [Hp2 Ha2]. split; [lia|].
  intros H3. destruct (Ha2 H3) as [H2|(p & Hp & He)].
  - destruct (Ha1 H2) as [H1|(p & Hp & He)]; [by left|].
    right. exists p. split; [lia|done].
  - right. exists p. split; [lia|done].
Qed.

Lemma process_events_abort (w : world) (st : ParadigmRunner) :
  abort_comes_from w st (process_events w st).
Proof.
  unfold process_events, abort_comes_from.
  destruct (esc w (pumps st)) eqn:He; simpl.
  - split; [lia|]. intros _. right. exists (pumps st). split; [lia|done].
  - split; [lia|]. intros Hab. by left.
Qed.

Lemma wait_loop_quiet (fuel : nat) (w : world) (end_time : Q)
    (st st' : ParadigmRunner) :
  wait_loop fuel w end_time st = Some st' →
  logger st' = logger st
  ∧ ∃ extra, effects st' = effects st ++ extra
             ∧ Forall (fun e => is_cue e = false) extra.
Proof.
  revert st. induction fuel as [|fuel IH]; intros st Hrun; [done|].
  simpl in Hrun.
  destruct (Qltb _ _).
  - destruct (abort_requested st).
    + simplify_eq. simpl. split; [done|]. exists []. by rewrite app_nil_r.
    + apply IH in Hrun as (Hlg & extra & Heff & Hall).
      match type of Hlg with _ = logger (process_events w ?s) =>
        destruct (process_events_logger w s) as (Hl & _ & ex0 & He0 & Ha0) end.
      rewrite Hl in Hlg. rewrite He0 in Heff. simpl in *. split; [done|].
      exists (ex0 ++ extra). rewrite Heff, app_assoc. split; [done|].
      by apply Forall_app.
  - simplify_eq. simpl. split; [done|]. exists []. by rewrite app_nil_r.
Qed.

Lemma wait_loop_terminates (n : nat) (w : world) (end_time : Q)
    (st : ParadigmRunner) :
  (end_time <= perf (clk w) (perf_reads (rd st) + n)%nat)%Q →
  ∃ st', wait_loop (S n) w end_time st = Some st'.
Proof.
  revert st. induction n as [|n IH]; intros st Hend.
  - rewrite Nat.add_0_r in Hend. simpl.
    rewrite (proj2 (Qltb_ge _ _)) by done. by eauto.
  - remember (S n) as fuel. simpl.
    destruct (Qltb _ _); [|by eauto].
    destruct (abort_requested st); [by eauto|]. subst fuel. apply IH.
    match goal with |- context [process_events w ?s] =>
      destruct (process_events_logger w s) as (_ & -> & _) end.
    simpl. by rewrite Nat.add_succ_r in Hend.
Qed.

(** The wait lasts: every reading but the last is before the end time, and
    the loop is left on a reading that has reached the end time or on an
    abort. *)
Lemma wait_loop_waits (fuel : nat) (w : world) (end_time : Q)
    (st st' : ParadigmRunner) :
  wait_loop fuel w end_time st = Some st' →
  abort_comes_from w st st'
  ∧ wall_reads (rd st') = wall_reads (rd st)
  ∧ ∃ m, perf_reads (rd st') = S (perf_reads (rd st) + m)
         ∧ (∀ j, (j < m)%nat →
              (perf (clk w) (perf_reads (rd st) + j) < end_time)%Q)
         ∧ ((end_time <= perf (clk w) (perf_reads (rd st) + m))%Q
            ∨ abort_requested st' = true).
Proof.
  revert st. induction fuel as [|fuel IH]; intros st Hrun; [done|].
  simpl in Hrun.
  destruct (Qltb _ _) eqn:Hlt.
  - apply Qltb_lt in Hlt.
    destruct (abort_requested st) eqn:Hab.
    + simplify_eq. simpl. split; [by apply abort_comes_from_same|].
      split; [done|]. exists 0%nat. rewrite Nat.add_0_r.
      split; [done|]. split; [intros; lia|]. by right.
    + apply IH in Hrun as (Hfrom & Hwall & m & Hreads & Hbefore & Hexit).
      match type of Hfrom with abort_comes_from w (process_events w ?s) _ =>
        destruct (process_events_logger w s) as (_ & Hrd & _);
        pose proof (process_events_abort w s) as Hstep end.
      rewrite Hrd in Hwall, Hreads, Hbefore, Hexit. simpl in *.
      split.
      { eapply abort_comes_from_trans; [|exact Hfrom].
        eapply abort_comes_from_trans; [|exact Hstep].
        by apply abort_comes_from_same. }
      split; [done|]. exists (S m).
      split; [rewrite Hreads; lia|]. split.
      * intros j Hj. destruct j as [|j]; [by rewrite Nat.add_0_r|].
        replace (perf_reads (rd st) + S j)%nat
          with (S (perf_reads (rd st) + j)) by lia.
        apply Hbefore. lia.
      * by replace (perf_reads (rd st) + S m)%nat
          with (S (perf_reads (rd st) + m)) by lia.
  - apply Qltb_ge in Hlt. simplify_eq. simpl.
    split; [by apply abort_comes_from_same|]. split; [done|].
    exists 0%nat. rewrite Nat.add_0_r.
    split; [done|]. split; [intros; lia|]. by left.
Qed.

Lemma get_timestamp_pair_blocks (c : clocks) (r r' : reads) (lg lg' : Logger)
    (ts : stamp) :
  get_timestamp_pair c r lg = (ts, lg', r') →
  blocks lg' = blocks lg ∧ (perf_reads r ≤ perf_reads r')%nat.
Proof.
  unfold get_timestamp_pair.
  destruct (stopwatch lg) eqn:Hsw; simpl.
  - rewrite Hsw. intros [= <- <- <-]. simpl. split; [done|lia].
  - intros [= <- <- <-]. simpl. split; [done|lia].
Qed.

Lemma log_cue_event_logged (c : clocks) (r r' : reads) (lg lg' : Logger)
    (b : nat) (k : string) :
  log_cue_event c r lg b k = Ok (lg', r') →
  (perf_reads r ≤ perf_reads r')%nat
  ∧ can_log lg' b k
  ∧ ∃ ts, logged_cues lg' b k = logged_cues lg b k ++ [ts].
Proof.
  unfold log_cue_event.
  destruct (get_timestamp_pair c r lg) as [[ts lg1] r1] eqn:Hts.
  apply get_timestamp_pair_blocks in Hts as [Hblocks Hreads].
  unfold logged_cues, can_log. rewrite <- Hblocks.
  destruct (blocks lg1 !! b) as [blk|] eqn:Hb; [|done].
  destruct (cue_events blk !! k) as [events|] eqn:Hk; [|done].
  intros [= <- <-]. simpl.
  rewrite list_lookup_insert_eq by (by eapply lookup_lt_Some).
  split; [done|]. split.
  - eexists. split; [done|]. simpl. by rewrite lookup_insert_eq.
  - exists ts. simpl. by rewrite lookup_insert_eq.
Qed.

Lemma log_cue_event_ok (c : clocks) (r : reads) (lg : Logger)
    (b : nat) (k : string) :
  can_log lg b k → ∃ lg' r', log_cue_event c r lg b k = Ok (lg', r').
Proof.
  intros (blk & Hb & events & Hk). unfold log_cue_event.
  destruct (get_timestamp_pair c r lg) as [[ts lg1] r1] eqn:Hts.
  apply get_timestamp_pair_blocks in Hts as [Hblocks _].
  rewrite Hblocks, Hb, Hk. by eauto.
Qed.

(** A cue: one event logged, one cue effect, and nothing else changed but
    the count of clock readings. *)
Lemma trigger_cue_logged (w : world) (prm : ParameterState) (b : nat)
    (k : string) (st st' : ParadigmRunner) :
  _trigger_cue w prm b k st = Ok st' →
  abort_requested st' = abort_requested st
  ∧ pumps st' = pumps st
  ∧ (perf_reads (rd st) ≤ perf_reads (rd st'))%nat
  ∧ can_log (logger st') b k
  ∧ (∃ ts, logged_cues (logger st') b k = logged_cues (logger st) b k ++ [ts])
  ∧ ∃ extra, effects st' = effects st ++ extra
             ∧ length (filter (fun e => is_cue e = true) extra) = 1%nat.
Proof.
  unfold _trigger_cue.
  destruct (log_cue_event _ _ _ _ _) as [[lg r]|e] eqn:Hlog; [|done].
  apply log_cue_event_logged in Hlog as (Hreads & Hcan & Hts). simpl.
  case_bool_decide; intros [= <-]; simpl.
  - repeat (split; [done|]). by eexists.
  - repeat (split; [done|]).
    exists [SetVisualCueVisible true; SingleShotHideCue (cue_on_time_ms prm)].
    by rewrite <- app_assoc.
Qed.

Lemma trigger_cue_ok (w : world) (prm : ParameterState) (b : nat)
    (k : string) (st : ParadigmRunner) :
  can_log (logger st) b k → ∃ st', _trigger_cue w prm b k st = Ok st'.
Proof.
  intros Hcan. unfold _trigger_cue.
  destruct (log_cue_event_ok (clk w) (rd st) (logger st) b k Hcan)
    as (lg & r & ->). simpl.
  case_bool_decide; by eauto.
Qed.

(** One pass of the cue loop that is not the last: what [cue_loop] calls
    itself on. *)
Lemma cue_loop_pass (fuel : nat) (w : world) (prm : ParameterState)
    (b : nat) (k : string) (start_time duration_s period_s : Q)
    (ct : cue_train) (res : result cue_train) :
  cue_loop (S fuel) w prm b k start_time duration_s period_s ct = Some res →
  let r := perf_reads (rd (runner ct)) in
  let t := perf (clk w) r in
  let now := perf (clk w) (S r) in
  let st2 := MkRunner (abort_requested (runner ct)) (logger (runner ct))
               (Reads (S (S r)) (wall_reads (rd (runner ct))))
               (pumps (runner ct)) (effects (runner ct)) in
  ((duration_s <= t - start_time)%Q
   ∧ res = Ok (CueTrain (read_perf w (runner ct)).2 (next_cue_time ct)
                 (polls ct) (cue_polls ct)))
  ∨ ((t - start_time < duration_s)%Q ∧ abort_requested (runner ct) = true
     ∧ res = Ok (CueTrain (read_perf w (runner ct)).2 (next_cue_time ct)
                   (polls ct) (cue_polls ct)))
  ∨ ((t - start_time < duration_s)%Q ∧ abort_requested (runner ct) = false
     ∧ (next_cue_time ct <= now)%Q
     ∧ ∃ e, _trigger_cue w prm b k st2 = Raise e ∧ res = Raise e)
  ∨ ((t - start_time < duration_s)%Q ∧ abort_requested (runner ct) = false
     ∧ (next_cue_time ct <= now)%Q
     ∧ ∃ st3, _trigger_cue w prm b k st2 = Ok st3
         ∧ cue_loop fuel w prm b k start_time duration_s period_s
             (CueTrain (process_events w st3) (next_cue_time ct + period_s)
                (polls ct ++ [now]) (cue_polls ct ++ [now])) = Some res)
  ∨ ((t - start_time < duration_s)%Q ∧ abort_requested (runner ct) = false
     ∧ (now < next_cue_time ct)%Q
     ∧ cue_loop fuel w prm b k start_time duration_s period_s
         (CueTrain (process_events w st2) (next_cue_time ct)
            (polls ct ++ [now]) (cue_polls ct)) = Some res).
Proof.
  intros Hrun r t now st2. simpl in Hrun. fold r t in Hrun.
  destruct (Qltb (t - start_time) duration_s) eqn:Hlt.
  - apply Qltb_lt in Hlt. right.
    destruct (abort_requested (runner ct)) eqn:Hab.
    + left. simplify_eq. simpl. by rewrite Hab.
    + right. fold now st2 in Hrun.
      destruct (Qle_bool (next_cue_time ct) now) eqn:Hdue.
      * apply Qle_bool_iff in Hdue.
        destruct (_trigger_cue w prm b k st2) as [st3|e] eqn:Htrig;
          simpl in Hrun.
        -- right. left. repeat (split; [done|]). by exists st3.
        -- left. repeat (split; [done|]). exists e. by simplify_eq.
      * apply Qle_bool_false in Hdue. do 2 right. done.
  - apply Qltb_ge in Hlt. left. by simplify_eq.
Qed.

Lemma filter_not_cue (extra : list effect) :
  Forall (fun e => is_cue e = false) extra →
  filter (fun e => is_cue e = true) extra = [].
Proof.
  induction 1 as [|e extra He _ IH]; [done|].
  rewrite filter_cons. case_decide; [congruence|done].
Qed.

Lemma on_schedule_same (start_time period_s : Q) (b : nat) (k : string)
    (base : list stamp) (ct ct' : cue_train) :
  next_cue_time ct' = next_cue_time ct → cue_polls ct' = cue_polls ct →
  logger (runner ct') = logger (runner ct) →
  on_schedule start_time period_s b k base ct →
  on_schedule start_time period_s b k base ct'.
Proof. unfold on_schedule. by intros -> -> ->. Qed.

(** The cue loop, pass by pass: it keeps the schedule, an abort comes from
    an Escape press, it is left on a reading at which the duration has
    elapsed or on an abort, and the cues given are those the accumulating
    next cue time schedules for the polls made. *)
Lemma cue_loop_spec (fuel : nat) (w : world) (prm : ParameterState)
    (b : nat) (k : string) (start_time duration_s period_s : Q)
    (base : list stamp) (ct ct' : cue_train) :
  on_schedule start_time period_s b k base ct →
  cue_loop fuel w prm b k start_time duration_s period_s ct = Some (Ok ct') →
  on_schedule start_time period_s b k base ct'
  ∧ abort_comes_from w (runner ct) (runner ct')
  ∧ (perf_reads (rd (runner ct)) < perf_reads (rd (runner ct')))%nat
  ∧ ((duration_s
      <= perf (clk w) (perf_reads (rd (runner ct')) - 1) - start_time)%Q
     ∨ abort_requested (runner ct') = true)
  ∧ ∃ new_polls,
      polls ct' = polls ct ++ new_polls
      ∧ cue_polls ct'
        = cue_polls ct ++ scheduled_cues (next_cue_time ct) period_s new_polls
      ∧ Forall (fun t => ∃ i, (perf_reads (rd (runner ct)) < i
                               < perf_reads (rd (runner ct')))%nat
                              ∧ t = perf (clk w) i) new_polls
      ∧ ∃ extra,
          effects (runner ct') = effects (runner ct) ++ extra
          ∧ length (filter (fun e => is_cue e = true) extra)
            = length (scheduled_cues (next_cue_time ct) period_s new_polls).
Proof.
  revert ct. induction fuel as [|fuel IH]; intros ct Hinv Hrun; [done|].
  apply cue_loop_pass in Hrun. cbv zeta in Hrun.
  set (r := perf_reads (rd (runner ct))) in *.
  destruct Hrun as [[Hend Hres]|[(Hin & Hab & Hres)|[(Hin & Hab & Hdue & e & _ & Hres)
    |[(Hin & Hab & Hdue & st3 & Htrig & Hrun)|(Hin & Hab & Hdue & Hrun)]]]].
  - injection Hres as ->. simpl. fold r.
    split; [by eapply on_schedule_same; [..|exact Hinv]|].
    split; [by apply abort_comes_from_same|]. split; [lia|].
    split; [left; by rewrite Nat.sub_0_r|].
    exists []. rewrite !app_nil_r. split; [done|]. split; [done|].
    split; [by constructor|]. exists []. by rewrite app_nil_r.
  - injection Hres as ->. simpl. fold r.
    split; [by eapply on_schedule_same; [..|exact Hinv]|].
    split; [by apply abort_comes_from_same|]. split; [lia|].
    split; [by right|].
    exists []. rewrite !app_nil_r. split; [done|]. split; [done|].
    split; [by constructor|]. exists []. by rewrite app_nil_r.
  - done.
  - apply trigger_cue_logged in Htrig
      as (Hab3 & Hp3 & Hr3 & _ & [ts Hts] & ex3 & Hex3 & Hcue3).
    simpl in Hab3, Hp3, Hr3, Hts, Hex3.
    destruct (process_events_logger w st3) as (Hl & Hrd & ex0 & Hex0 & Hno0).
    pose proof (process_events_abort w st3) as Hstep.
    destruct Hinv as (Hnext & Hpolls & news & Hlog & Hlen).
    apply IH in Hrun as (Hinv' & Hfrom & Hreads & Hexit & np & Hnp & Hcp & Hidx
                         & extra & Hextra & Hcount); simpl in *.
    + rewrite Hrd in Hreads, Hidx.
      split; [exact Hinv'|]. split.
      { eapply abort_comes_from_trans; [|exact Hfrom].
        eapply abort_comes_from_trans; [|exact Hstep].
        by apply abort_comes_from_same. }
      split; [lia|]. split; [exact Hexit|].
      exists (perf (clk w) (S r) :: np).
      split; [by rewrite Hnp, <- app_assoc|].
      simpl. rewrite (proj2 (Qle_bool_iff _ _) Hdue).
      split; [by rewrite Hcp, <- app_assoc|]. split.
      * constructor; [exists (S r); split; [lia|done]|].
        eapply Forall_impl; [exact Hidx|].
        intros t (i & Hi & ->). exists i. split; [lia|done].
      * exists (ex3 ++ ex0 ++ extra).
        rewrite Hextra, Hex0, Hex3, <- !app_assoc. split; [done|].
        rewrite !filter_app, !length_app, Hcue3, (filter_not_cue ex0 Hno0), Hcount.
        simpl. done.
    + split; [|split].
      * simpl. rewrite Hnext, length_app. simpl.
        rewrite Nat2Z.inj_add, inject_Z_plus. simpl. ring.
      * simpl. intros i t Hi.
        destruct (decide (i < length (cue_polls ct))%nat) as [Hlt|Hge].
        -- rewrite lookup_app_l in Hi by done. by apply Hpolls.
        -- assert (i = length (cue_polls ct)) as ->.
           { apply lookup_lt_Some in Hi. rewrite length_app in Hi.
             simpl in Hi. lia. }
           rewrite lookup_app_r, Nat.sub_diag in Hi by lia. simplify_eq/=.
           by rewrite <- Hnext.
      * simpl. rewrite Hl, Hts, Hlog. exists (news ++ [ts]).
        rewrite app_assoc, !length_app, Hlen. done.
  - match type of Hrun with context [process_events w ?s] =>
      destruct (process_events_logger w s) as (Hl & Hrd & ex0 & Hex0 & Hno0);
      pose proof (process_events_abort w s) as Hstep end.
    simpl in Hl, Hrd, Hex0.
    apply IH in Hrun as (Hinv' & Hfrom & Hreads & Hexit & np & Hnp & Hcp & Hidx
                         & extra & Hextra & Hcount); simpl in *.
    + rewrite Hrd in Hreads, Hidx. simpl in Hreads, Hidx.
      split; [exact Hinv'|]. split.
      { eapply abort_comes_from_trans; [|exact Hfrom].
        eapply abort_comes_from_trans; [|exact Hstep].
        by apply abort_comes_from_same. }
      split; [lia|]. split; [exact Hexit|].
      exists (perf (clk w) (S r) :: np).
      split; [by rewrite Hnp, <- app_assoc|].
      simpl. rewrite (proj2 (Qle_bool_false _ _) Hdue).
      split; [exact Hcp|]. split.
      * constructor; [exists (S r); split; [lia|done]|].
        eapply Forall_impl; [exact Hidx|].
        intros t (i & Hi & ->). exists i. split; [lia|done].
      * exists (ex0 ++ extra).
        rewrite Hextra, Hex0, <- !app_assoc. split; [done|].
        rewrite !filter_app, !length_app, (filter_not_cue ex0 Hno0), Hcount.
        simpl. done.
    + eapply on_schedule_same; [..|exact Hinv]; simpl; done.
Qed.

(** The cue loop is left once the clock has passed the end of the phase:
    every pass takes at least two readings. *)
Lemma cue_loop_terminates (N : nat) (w : world) (prm : ParameterState)
    (b : nat) (k : string) (start_time duration_s period_s : Q) :
  (∀ m, (N ≤ m)%nat → (duration_s <= perf (clk w) m - start_time)%Q) →
  ∀ (fuel : nat) (ct : cue_train),
    can_log (logger (runner ct)) b k →
    (N ≤ perf_reads (rd (runner ct)) + fuel)%nat →
    ∃ ct', cue_loop (S fuel) w prm b k start_time duration_s period_s ct
           = Some (Ok ct').
Proof.
  intros Hend. induction fuel as [|fuel IH]; intros ct Hcan Hfuel.
  - simpl. rewrite (proj2 (Qltb_ge _ _)) by (apply Hend; lia). by eauto.
  - remember (S fuel) as fuel' eqn:Hfuel'. simpl.
    destruct (Qltb _ _); [|by eauto].
    destruct (abort_requested (runner ct)); [by eauto|].
    destruct (Qle_bool _ _).
    + match goal with |- context [_trigger_cue w prm b k ?s] =>
        destruct (trigger_cue_ok w prm b k s Hcan) as [st3 Htrig] end.
      rewrite Htrig. simpl.
      apply trigger_cue_logged in Htrig as (_ & _ & Hr3 & Hcan3 & _).
      destruct (process_events_logger w st3) as (Hl & Hrd & _).
      subst fuel'. apply IH; simpl.
      * by rewrite Hl.
      * rewrite Hrd. simpl in Hr3. lia.
    + simpl. subst fuel'. apply IH; simpl.
      * match goal with |- context [process_events w ?s] =>
          destruct (process_events_logger w s) as (-> & _) end. done.
      * match goal with |- context [process_events w ?s] =>
          destruct (process_events_logger w s) as (_ & -> & _) end.
        simpl. lia.
Qed.

Lemma cue_loop_polls_grow (fuel : nat) (w : world) (prm : ParameterState)
    (b : nat) (k : string) (start_time duration_s period_s : Q)
    (ct ct' : cue_train) :
  cue_loop fuel w prm b k start_time duration_s period_s ct = Some (Ok ct') →
  ∃ more, cue_polls ct' = cue_polls ct ++ more.
Proof.
  revert ct. induction fuel as [|fuel IH]; intros ct Hrun; [done|].
  apply cue_loop_pass in Hrun. cbv zeta in Hrun.
  destruct Hrun as [[_ Hres]|[(_ & _ & Hres)|[(_ & _ & _ & e & _ & Hres)
    |[(_ & _ & _ & st3 & _ & Hrun)|(_ & _ & _ & Hrun)]]]].
  - injection Hres as ->. exists []. by rewrite app_nil_r.
  - injection Hres as ->. exists []. by rewrite app_nil_r.
  - done.
  - apply IH in Hrun as [more Hmore]. simpl in Hmore.
    eexists. by rewrite Hmore, <- app_assoc.
  - apply IH in Hrun as [more Hmore]. simpl in Hmore. by exists more.
Qed.



End RhythmFacts.

Module GoStopFacts.
Import Randomization Timing GoStop.

Lemma advancing_app (l1 l2 : list qtimer) :
  advancing (l1 ++ l2) = advancing l1 ++ advancing l2.
Proof. apply filter_app. Qed.

Lemma advancing_filter (P : qtimer → Prop) `{∀ t, Decision (P t)}
    (l : list qtimer) :
  advancing (filter P l) = filter P (advancing l).
Proof.
  unfold advancing. induction l as [|t l IH]; [done|].
  rewrite !filter_cons.
  destruct (decide (P t)), (decide (is_advancing (callback t) = true));
    rewrite ?filter_cons, ?decide_True, ?decide_False by done; by rewrite ?IH.
Qed.

Lemma advancing_filter_nil (P : qtimer → Prop) `{∀ t, Decision (P t)}
    (l : list qtimer) :
  advancing l = [] → advancing (filter P l) = [].
Proof. intros Hl. by rewrite advancing_filter, Hl. Qed.

Lemma advancing_filter_length (P : qtimer → Prop) `{∀ t, Decision (P t)}
    (l : list qtimer) :
  (length (advancing (filter P l)) ≤ length (advancing l))%nat.
Proof. rewrite advancing_filter. apply length_filter. Qed.

(** Removing the one advancing timer leaves none. *)
Lemma advancing_fired (l : list qtimer) (t : qtimer) :
  (length (advancing l) ≤ 1)%nat → t ∈ l → is_advancing (callback t) = true →
  advancing (filter (fun t' => timer_id t' ≠ timer_id t) l) = [].
Proof.
  intros Hlen Hin Hadv. rewrite advancing_filter.
  assert (Hta : t ∈ advancing l) by (by apply list_elem_of_filter).
  destruct (advancing l) as [|t0 [|t1 rest]]; simpl in Hlen; [|clear Hlen|lia].
  { by apply elem_of_nil in Hta. }
  apply list_elem_of_singleton in Hta as <-.
  rewrite filter_cons. by rewrite decide_False by tauto.
Qed.

Lemma advancing_insert (l : list qtimer) (i : nat) (t t' : qtimer) :
  l !! i = Some t → is_advancing (callback t') = is_advancing (callback t) →
  length (advancing (<[i := t']> l)) = length (advancing l).
Proof.
  revert i. induction l as [|x l IH]; intros i Hi Hcb; [done|].
  destruct i as [|i]; simpl in *.
  - simplify_eq. unfold advancing. rewrite !filter_cons. rewrite Hcb.
    destruct (decide _); done.
  - unfold advancing in *. rewrite !filter_cons.
    destruct (decide _); simpl; by rewrite (IH i).
Qed.

Lemma Idle_Inv (s : ExperimentRunner) : Idle s → Inv s.
Proof. by intros [? _]. Qed.

(** Between phases of a run that was not aborted every entry is scored. *)
Lemma Inv_all_settled (s : ExperimentRunner) :
  Inv s → experiment_aborted s = false → in_response_window s = false →
  ∀ a e, entries (log s) !! a = Some e → settled e.
Proof.
  intros (He & _) Hab Hirw a e Hae.
  destruct (He a e Hae) as [?|[_ [(Hw & _)|Hx]]]; [done|congruence|congruence].
Qed.

Lemma Inv_between_phases (s : ExperimentRunner) :
  experiment_aborted s = false → in_response_window s = false →
  (∀ a e, entries (log s) !! a = Some e → settled e) →
  (length (advancing (timers s)) ≤ 1)%nat →
  (completed (status (log s)) = true → advancing (timers s) = []) →
  (∀ t, t ∈ timers s → callback t = CbShowResultsScreen →
        completed (status (log s)) = true) →
  Inv s.
Proof.
  intros Hab Hirw Hall Hlen Hcomp Hres. repeat split.
  - intros a e Hae. left. by eapply Hall.
  - intros a e tl ti Hw. congruence.
  - done.
  - congruence.
  - done.
  - done.
  - by apply Hcomp.
  - intros t Ht Hcb. right. by eapply Hres.
Qed.

Lemma Idle_results (s : ExperimentRunner) (t : qtimer) :
  Idle s → experiment_aborted s = false →
  t ∈ timers s → callback t ≠ CbShowResultsScreen.
Proof.
  intros [(_ & _ & _ & _ & Hres) Hidle] Hab Ht Hcb.
  destruct (Hidle Hab) as (_ & _ & Hcomp).
  destruct (Hres t Ht Hcb); congruence.
Qed.

Lemma finish_experiment_Inv (c : clocks) (s : ExperimentRunner) :
  Idle s → Inv (finish_experiment c s).
Proof.
  intros HI. unfold finish_experiment.
  destruct (experiment_aborted s) eqn:Hab; [by apply Idle_Inv|].
  destruct HI as [HI Hidle]. destruct (Hidle Hab) as (Hirw & Hadv & Hcomp).
  pose proof (Inv_all_settled s HI Hab Hirw) as Hall.
  apply Inv_between_phases; simpl; try done.
  - rewrite advancing_app, Hadv. simpl. lia.
  - intros _. by rewrite advancing_app, Hadv.
Qed.

Lemma start_block_Inv (c : clocks) (s : ExperimentRunner) :
  Idle s → Inv (start_block c s).
Proof.
  intros HI. unfold start_block.
  destruct (experiment_aborted s) eqn:Hab; [by apply Idle_Inv|].
  destruct (n_blocks (config s) <=? current_block_index s);
    [by apply finish_experiment_Inv|].
  pose proof (Idle_results s) as Hnores.
  destruct HI as [HI Hidle]. destruct (Hidle Hab) as (Hirw & Hadv & Hcomp).
  pose proof (Inv_all_settled s HI Hab Hirw) as Hall.
  apply Inv_between_phases; simpl; try done.
  - rewrite advancing_app, Hadv. simpl. lia.
  - congruence.
  - intros t Ht Hcb. apply elem_of_app in Ht as [Ht|Ht].
    + exfalso. eapply Hnores; [by split|done|done|done].
    + apply list_elem_of_singleton in Ht. by subst.
Qed.

Lemma finish_block_Inv (c : clocks) (s s' : ExperimentRunner) :
  Idle s → finish_block c s = Ok s' → Inv s'.
Proof.
  intros HI. unfold finish_block.
  destruct (experiment_aborted s) eqn:Hab; [intros [= <-]; by apply Idle_Inv|].
  destruct (blocks (log s) !! _); [|done].
  destruct (n_blocks (config s) <=? _).
  { intros [= <-]. apply finish_experiment_Inv.
    destruct HI as [HI Hidle]. split; [|exact Hidle]. exact HI. }
  intros [= <-].
  pose proof (Idle_results s) as Hnores.
  destruct HI as [HI Hidle]. destruct (Hidle Hab) as (Hirw & Hadv & Hcomp).
  pose proof (Inv_all_settled s HI Hab Hirw) as Hall.
  apply Inv_between_phases; simpl; try done.
  - rewrite advancing_app, Hadv. simpl. lia.
  - congruence.
  - intros t Ht Hcb. apply elem_of_app in Ht as [Ht|Ht].
    + exfalso. eapply Hnores; [by split|done|done|done].
    + apply list_elem_of_singleton in Ht. by subst.
Qed.

Lemma show_trial_stimulus_Inv (c : clocks) (s s' : ExperimentRunner) :
  Idle s → show_trial_stimulus c s = Ok s' → Inv s'.
Proof.
  intros HI. unfold show_trial_stimulus.
  destruct (experiment_aborted s) eqn:Hab; [intros [= <-]; by apply Idle_Inv|].
  destruct (block_trials s) as [tl|] eqn:Htl; [|done].
  destruct (py_index tl (current_trial_index s)) as [ti|] eqn:Hti; [|done].
  simpl. destruct (blocks (log s) !! _); [|done]. intros [= <-].
  pose proof (Idle_results s) as Hnores.
  destruct HI as [HI Hidle]. destruct (Hidle Hab) as (Hirw & Hadv & Hcomp).
  pose proof (Inv_all_settled s HI Hab Hirw) as Hall.
  split; [|split; [|split; [|split]]].
  - intros a e. simpl. intros Hae.
    apply lookup_app_Some in Hae as [Hae|[Hlen Hae]]; [left; by eapply Hall|].
    apply list_lookup_singleton_Some in Hae as [Ha <-].
    right. split; [done|]. left. repeat split. simpl. f_equal. lia.
  - intros a e tl' ti'. simpl. intros _ [= <-] Hae Htl' Hti'.
    rewrite lookup_app_r, Nat.sub_diag in Hae by lia. simpl in Hae.
    injection Hae as <-. simpl. congruence.
  - intros _. simpl. rewrite !advancing_app, Hadv. simpl. split; [lia|done].
  - intros Hc. simpl in Hc. congruence.
  - intros t. simpl. intros Ht Hcb. exfalso.
    rewrite !elem_of_app, !list_elem_of_singleton in Ht.
    destruct Ht as [[Ht| ->]| ->]; [|done|done].
    eapply Hnores; [by split|done|done|done].
Qed.

Lemma start_next_trial_Inv (c : clocks) (s s' : ExperimentRunner) :
  Idle s → start_next_trial c s = Ok s' → Inv s'.
Proof.
  intros HI. unfold start_next_trial.
  destruct (experiment_aborted s) eqn:Hab; [intros [= <-]; by apply Idle_Inv|].
  simpl. destruct (block_trials s) as [tl|] eqn:Htl; [|done].
  pose proof (Idle_results s) as Hnores.
  destruct HI as [HI Hidle]. destruct (Hidle Hab) as (Hirw & Hadv & Hcomp).
  pose proof (Inv_all_settled s HI Hab Hirw) as Hall.
  assert (Hidle' : ∀ s1 : ExperimentRunner,
            experiment_aborted s1 = false → in_response_window s1 = false →
            entries (log s1) = entries (log s) → timers s1 = timers s →
            status (log s1) = status (log s) → Idle s1).
  { intros s1 Hab1 Hirw1 Hent Htim Hst. split.
    - apply Inv_between_phases; rewrite ?Hent, ?Htim, ?Hst; try done.
      + rewrite Hadv. simpl. lia.
      + intros t Ht Hcb. exfalso. eapply Hnores; [by split|done|done|done].
    - intros _. by rewrite Htim, Hst. }
  destruct (Z.of_nat (length tl) <=? _).
  { apply finish_block_Inv. by apply Hidle'. }
  destruct (first_trial_in_block s && _).
  { apply show_trial_stimulus_Inv. by apply Hidle'. }
  intros [= <-].
  apply Inv_between_phases; simpl; try done.
  - rewrite advancing_app, Hadv. simpl. lia.
  - congruence.
  - intros t Ht Hcb. apply elem_of_app in Ht as [Ht|Ht].
    + exfalso. eapply Hnores; [by split|done|done|done].
    + apply list_elem_of_singleton in Ht. by subst.
Qed.

Lemma start_trials_Inv (c : clocks) (s s' : ExperimentRunner) :
  Idle s → start_trials c s = Ok s' → Inv s'.
Proof.
  intros HI. unfold start_trials.
  destruct (experiment_aborted s) eqn:Hab; [intros [= <-]; by apply Idle_Inv|].
  destruct (blocks (log s) !! _); [|done]. simpl.
  destruct (trial_schedule (config s) !! _) as [tl|]; [|done].
  apply start_next_trial_Inv.
  pose proof (Idle_results s) as Hnores.
  destruct HI as [HI Hidle]. destruct (Hidle Hab) as (Hirw & Hadv & Hcomp).
  pose proof (Inv_all_settled s HI Hab Hirw) as Hall.
  split; [|done].
  apply Inv_between_phases; simpl; try done.
  - rewrite Hadv. simpl. lia.
  - intros t Ht Hcb. exfalso. eapply Hnores; [by split|done|done|done].
Qed.

(** Scoring the awaited entry ends the response window with every entry
    scored (or left behind by an abort). *)
Lemma record_trial_outcome_Idle (s s1 : ExperimentRunner)
    (response_time_abs : option Z) (response_time_rel : option Q)
    (pressed : bool) :
  Inv s → in_response_window s = true → response_recorded s = false →
  (if pressed then is_Some response_time_abs ∧ is_Some response_time_rel
   else response_time_abs = None ∧ response_time_rel = None) →
  record_trial_outcome s response_time_abs response_time_rel pressed = Ok s1 →
  Idle (set_in_response_window false (set_response_recorded true s1)).
Proof.
  intros (He & Hm & Hc & Hd & Hr) Hirw Hrr Hargs Hrec.
  assert (Hcomp : completed (status (log s)) = false).
  { destruct (completed (status (log s))) eqn:Hcomp; [|done].
    destruct (Hd Hcomp) as (_ & ? & _). congruence. }
  assert (Hsame : timers s1 = timers s ∧ experiment_aborted s1 = experiment_aborted s
                  ∧ status (log s1) = status (log s)
                  ∧ ∀ a e, entries (log s1) !! a = Some e →
                      settled e ∨ (pending e ∧ experiment_aborted s = true)).
  { unfold record_trial_outcome in Hrec.
    destruct (current_trial_entry s) as [a|] eqn:Hcur.
    2:{ injection Hrec as <-. repeat split. intros a e Hae.
        destruct (He a e Hae) as [?|[Hp [(_ & _ & Hx)|Hx]]]; [by left|congruence|by right]. }
    destruct (block_trials s) as [tl|] eqn:Htl; [|done].
    destruct (py_index tl (current_trial_index s)) as [ti|] eqn:Hti; [|done].
    destruct (entries (log s) !! a) as [e0|] eqn:Hea.
    2:{ injection Hrec as <-. repeat split. intros a' e Hae.
        destruct (He a' e Hae) as [?|[Hp [(_ & _ & Hx)|Hx]]];
          [by left|congruence|by right]. }
    injection Hrec as <-. simpl. repeat split. intros a' e Hae.
    destruct (decide (a' = a)) as [->|Hne].
    - rewrite list_lookup_insert_eq in Hae by (by eapply lookup_lt_Some).
      injection Hae as <-. left. exists pressed. simpl.
      rewrite (Hm a e0 tl ti Hirw Hcur Hea Htl Hti). split; [done|].
      destruct pressed.
      + destruct Hargs as [[ra ->] [rr ->]]. by exists ra, rr.
      + by destruct Hargs as [-> ->].
    - rewrite list_lookup_insert_ne in Hae by done.
      destruct (He a' e Hae) as [?|[Hp [(_ & _ & Hx)|Hx]]];
        [by left|congruence|by right]. }
  destruct Hsame as (Htim & Hab & Hst & Hent).
  split.
  - split; [|split; [|split; [|split]]].
    + intros a e. simpl. intros Hae.
      destruct (Hent a e Hae) as [?|[? Hx]]; [by left|right].
      split; [done|]. right. by rewrite Hab.
    + intros a e tl ti. simpl. congruence.
    + intros Hab1. simpl in *. rewrite Htim. rewrite Hab in Hab1.
      destruct (Hc Hab1) as [Hlen Hnone]. split; [done|congruence].
    + intros Hc1. simpl in Hc1. rewrite Hst in Hc1. congruence.
    + intros t. simpl. rewrite Htim, Hab, Hst. apply Hr.
  - simpl. rewrite Hab, Htim, Hst. intros Hab1.
    destruct (Hc Hab1) as [_ Hnone]. split; [done|]. split; [by apply Hnone|done].
Qed.

Lemma stop_timer_Inv (handle : option nat) (s : ExperimentRunner) :
  Inv s → Inv (stop_timer handle s).
Proof.
  destruct handle as [id|]; [|done]. intros (He & Hm & Hc & Hd & Hr).
  split; [|split; [|split; [|split]]]; try done.
  - intros Hab. simpl in *. destruct (Hc Hab) as [Hlen Hnone]. split.
    + etrans; [apply advancing_filter_length|done].
    + intros Hw. apply advancing_filter_nil. by apply Hnone.
  - intros Hcomp. simpl in *. destruct (Hd Hcomp) as (? & ? & Hadv).
    split; [done|]. split; [done|]. by apply advancing_filter_nil.
  - intros t. simpl. intros Ht. apply list_elem_of_filter in Ht as [_ Ht].
    by apply Hr.
Qed.

Lemma now_Inv (c : clocks) (s : ExperimentRunner) : Inv s → Inv (now c s).2.
Proof. done. Qed.

Lemma response_window_expired_Inv (c : clocks) (s s' : ExperimentRunner) :
  Inv s → response_window_expired c s = Ok s' → Inv s'.
Proof.
  intros HI. unfold response_window_expired.
  destruct (experiment_aborted s); [by intros [= <-]|].
  destruct (response_recorded s) eqn:Hrr; [by intros [= <-]|].
  destruct (in_response_window s) eqn:Hirw; [|by intros [= <-]]. simpl.
  destruct (record_trial_outcome s None None false) as [s1|] eqn:Hrec; [|done].
  simpl. apply start_next_trial_Inv.
  by apply (record_trial_outcome_Idle s s1 None None false).
Qed.

Lemma show_results_screen_Inv (s : ExperimentRunner) :
  Inv s →
  experiment_aborted s = true ∨ completed (status (log s)) = true →
  Inv (show_results_screen s).
Proof.
  intros HI Hend. unfold show_results_screen.
  destruct (showing_results s); [done|].
  destruct HI as (He & Hm & Hc & Hd & Hr).
  split; [|split; [|split; [|split]]].
  - intros a e. simpl. intros Hae.
    destruct (He a e Hae) as [?|[Hp [(Hw & _)|Hx]]]; [by left| |by right; split; [|right]].
    destruct Hend as [Hab|Hcomp]; [by right; split; [|right]|].
    destruct (Hd Hcomp) as (_ & ? & _). congruence.
  - intros a e tl ti. simpl. congruence.
  - intros Hab. simpl in *. destruct (Hc Hab) as [Hlen _]. split; [|done].
    etrans; [apply advancing_filter_length|done].
  - intros Hcomp. simpl in *. destruct (Hd Hcomp) as (? & ? & Hadv).
    split; [done|]. split; [done|]. by apply advancing_filter_nil.
  - intros t. simpl. intros Ht. apply list_elem_of_filter in Ht as [_ Ht].
    by apply Hr.
Qed.

Lemma abort_experiment_Inv (c : clocks) (reason : string) (s : ExperimentRunner) :
  Inv s → Inv (abort_experiment c reason s).
Proof.
  intros HI. unfold abort_experiment.
  destruct (experiment_aborted s); [done|].
  destruct HI as (He & Hm & Hc & Hd & Hr).
  split; [|split; [|split; [|split]]].
  - intros a e. simpl. intros Hae.
    destruct (He a e Hae) as [?|[Hp _]]; [by left|right]. split; [done|by right].
  - exact Hm.
  - intros Hab. simpl in Hab. done.
  - intros Hcomp. simpl in Hcomp. done.
  - intros t _ _. by left.
Qed.

Lemma keyPressEvent_Inv (c : clocks) (k : key) (s s' : ExperimentRunner) :
  Inv s → keyPressEvent c k s = Ok s' → Inv s'.
Proof.
  intros HI. unfold keyPressEvent.
  destruct (showing_results s).
  { destruct k; by intros [= <-]. }
  destruct k; [intros [= <-]; by apply abort_experiment_Inv| |by intros [= <-]].
  destruct (in_response_window s) eqn:Hirw; [|by intros [= <-]].
  destruct (response_recorded s) eqn:Hrr; [by intros [= <-]|]. simpl.
  match goal with |- context [record_trial_outcome ?s0 ?a ?r true] =>
    destruct (record_trial_outcome s0 a r true) as [s1|] eqn:Hrec; [|done];
    apply (record_trial_outcome_Idle s0 s1 a r true) in Hrec end.
  - simpl. by apply start_next_trial_Inv.
  - do 2 apply stop_timer_Inv. exact HI.
  - destruct (response_timer s); simpl; by destruct (stimulus_timer s).
  - destruct (response_timer s); simpl; by destruct (stimulus_timer s).
  - by eauto.
Qed.

(** When the advancing timer fires the run is between phases. *)
Lemma advancing_fired_Idle (s : ExperimentRunner) (t : qtimer) :
  Inv s → t ∈ timers s → is_advancing (callback t) = true →
  Idle (stop_timer (Some (timer_id t)) s).
Proof.
  intros HI Ht Hadv. split; [by apply stop_timer_Inv|].
  simpl. intros Hab. destruct HI as (He & Hm & Hc & Hd & Hr).
  destruct (Hc Hab) as [Hlen Hnone].
  assert (Hta : t ∈ advancing (timers s)) by (by apply list_elem_of_filter).
  assert (Hirw : in_response_window s = false).
  { destruct (in_response_window s); [|done].
    rewrite Hnone in Hta by done. by apply elem_of_nil in Hta. }
  split; [done|]. split; [by apply advancing_fired|].
  destruct (completed (status (log s))) eqn:Hcomp; [|done].
  destruct (Hd Hcomp) as (_ & _ & Hx). rewrite Hx in Hta.
  by apply elem_of_nil in Hta.
Qed.

Lemma countdown_tick_Inv (s : ExperimentRunner) (i : nat) (t t' : qtimer)
    (r : reads) :
  Inv s → timers s !! i = Some t →
  is_advancing (callback t) = true → is_advancing (callback t') = true →
  Inv (set_timers (<[i := t']> (timers s)) (set_rds r s)).
Proof.
  intros (He & Hm & Hc & Hd & Hr) Hi Hadv Hadv'.
  assert (Hlen : length (advancing (<[i := t']> (timers s)))
                 = length (advancing (timers s)))
    by (apply (advancing_insert _ _ t); congruence).
  assert (Hta : t ∈ advancing (timers s)).
  { apply list_elem_of_filter. split; [done|]. by eapply list_elem_of_lookup_2. }
  split; [|split; [|split; [|split]]]; try done.
  - intros Hab. simpl in *. destruct (Hc Hab) as [Hle Hnone].
    split; [lia|]. intros Hw. rewrite Hnone in Hta by done.
    by apply elem_of_nil in Hta.
  - intros Hcomp. simpl in *. destruct (Hd Hcomp) as (_ & _ & Hx).
    rewrite Hx in Hta. by apply elem_of_nil in Hta.
  - intros t0. simpl. intros Ht0 Hcb.
    apply list_elem_of_lookup in Ht0 as [j Hj].
    destruct (decide (j = i)) as [->|Hne].
    + rewrite list_lookup_insert_eq in Hj by (by eapply lookup_lt_Some).
      injection Hj as <-. by rewrite Hcb in Hadv'.
    + rewrite list_lookup_insert_ne in Hj by done.
      apply (Hr t0); [by eapply list_elem_of_lookup_2|done].
Qed.

Lemma on_timeout_Inv (c : clocks) (id : nat) (s s' : ExperimentRunner) :
  Inv s → on_timeout c id s = Ok s' → Inv s'.
Proof.
  intros HI. unfold on_timeout.
  destruct (list_find _ (timers s)) as [[i t]|] eqn:Hfind; [|by intros [= <-]].
  apply list_find_Some in Hfind as (Hi & Hid & _).
  assert (Ht : t ∈ timers s) by (by eapply list_elem_of_lookup_2).
  subst id.
  destruct (callback t) as [| | | | | |ct] eqn:Hcb.
  - intros [= <-]. apply start_block_Inv.
    apply (advancing_fired_Idle s t); [done|done|by rewrite Hcb].
  - apply start_trials_Inv.
    apply (advancing_fired_Idle s t); [done|done|by rewrite Hcb].
  - apply show_trial_stimulus_Inv.
    apply (advancing_fired_Idle s t); [done|done|by rewrite Hcb].
  - intros [= <-]. by apply (stop_timer_Inv (Some (timer_id t)) s).
  - apply response_window_expired_Inv.
    by apply (stop_timer_Inv (Some (timer_id t)) s).
  - intros [= <-]. apply show_results_screen_Inv;
      [by apply (stop_timer_Inv (Some (timer_id t)) s)|].
    destruct HI as (_ & _ & _ & _ & Hr). by apply (Hr t).
  - destruct (handle_timeout _ _ ct) as [[calls ct'] nread'].
    destruct (ct_active ct').
    + intros [= <-]. apply (countdown_tick_Inv s i t); [done|done|by rewrite Hcb|done].
    + assert (HIdle : Idle (stop_timer (Some (timer_id t))
                              (set_rds (Reads nread' (wall_reads (rds s))) s))).
      { apply (advancing_fired_Idle s t); [done|done|by rewrite Hcb]. }
      case_bool_decide; intros [= <-]; [by apply start_block_Inv|by apply Idle_Inv].
Qed.

Lemma init_Inv (c : clocks) (cfg : Config) : Inv (init c cfg).
Proof.
  apply Inv_between_phases; simpl; try done.
  intros t Ht Hcb. apply list_elem_of_singleton in Ht. by subst.
Qed.

Lemma handle_Inv (c : clocks) (s s' : ExperimentRunner) (ev : event) :
  Inv s → handle c s ev = Ok s' → Inv s'.
Proof.
  intros HI. unfold handle. destruct (closed s); [by intros [= <-]|].
  destruct ev; [by apply on_timeout_Inv|by apply keyPressEvent_Inv].
Qed.

Lemma run_Inv (c : clocks) (evs : list event) (s s' : ExperimentRunner) :
  Inv s → run c evs s = Ok s' → Inv s'.
Proof.
  revert s. induction evs as [|ev evs IH]; intros s HI; simpl; [by intros [= <-]|].
  destruct (handle c s ev) as [s1|] eqn:Hstep; [|done]. simpl.
  apply IH. by eapply handle_Inv.
Qed.

Lemma logged_trials_in_store (lg : Log) (e : trial_entry) :
  e ∈ logged_trials lg → ∃ a, entries lg !! a = Some e.
Proof.
  unfold logged_trials. intros He.
  apply list_elem_of_In, in_concat in He as (l & Hl & He).
  apply list_elem_of_In, list_elem_of_fmap in Hl as ([k b] & -> & _).
  apply list_elem_of_In, list_elem_of_omap in He as (a & _ & Ha). by exists a.
Qed.

(** C4.  The outcome is the table's entry for [(is_go, pressed)]; a call of
    [record_trial_outcome] stores it in the current entry together with the
    reaction time, which is the relative response time minus the relative
    onset when a response occurred and NaN otherwise; and when a run has
    completed, every logged trial is scored: with both response times and
    outcome [hit] or [commission_error], or with neither and outcome [miss]
    or [correct_withholding]. *)
Theorem trial_outcomes_recorded :
  (classify true true = hit ∧ classify false true = commission_error
   ∧ classify true false = miss ∧ classify false false = correct_withholding)
  ∧ (∀ (s : ExperimentRunner) (response_time_abs : option Z)
       (response_time_rel : option Q) (pressed : bool)
       (a : nat) (e : trial_entry) (tl : list trial) (ti : trial),
       current_trial_entry s = Some a → entries (log s) !! a = Some e →
       block_trials s = Some tl →
       py_index tl (current_trial_index s) = Some ti →
       ∃ s' e',
         record_trial_outcome s response_time_abs response_time_rel pressed
           = Ok s'
         ∧ entries (log s') !! a = Some e'
         ∧ outcome e' = Some (classify (is_go ti) pressed)
         ∧ (pressed = false → response_time e' = NaN)
         ∧ (∀ r, pressed = true → response_time_rel = Some r →
                 response_time e' = Real (r - snd (onset e))))
  ∧ (∀ (c : clocks) (cfg : Config) (evs : list event) (s : ExperimentRunner),
       run c evs (init c cfg) = Ok s →
       completed (status (log s)) = true →
       Forall (fun e =>
                 outcome e ≠ None
                 ∧ ((∃ a r, response_abs e = Some a ∧ response_rel e = Some r
                            ∧ response_time e = Real (r - snd (onset e))
                            ∧ outcome e = Some (if is_go_trial e then hit
                                                else commission_error))
                    ∨ (response_abs e = None ∧ response_rel e = None
                       ∧ response_time e = NaN
                       ∧ outcome e = Some (if is_go_trial e then miss
                                           else correct_withholding))))
              (logged_trials (log s))).
Proof.
  split; [done|]. split.
  - intros s ra rr pressed a e tl ti Hcur Hae Htl Hti.
    unfold record_trial_outcome. rewrite Hcur, Htl, Hti, Hae.
    eexists _, _. split; [done|]. simpl.
    rewrite list_lookup_insert_eq by (by eapply lookup_lt_Some).
    split; [done|]. simpl. split; [done|]. split.
    + by intros ->.
    + by intros r -> ->.
  - intros c cfg evs s Hrun Hcomp.
    pose proof (run_Inv c evs _ s (init_Inv c cfg) Hrun) as HI.
    destruct HI as (He & _ & _ & Hd & _).
    destruct (Hd Hcomp) as (Hab & Hirw & _).
    apply Forall_forall. intros e Hin.
    apply logged_trials_in_store in Hin as [a Hae].
    destruct (He a e Hae) as [(pressed & Hout & Hresp)|[_ [(Hw & _)|Hx]]];
      [|congruence|congruence].
    split; [by rewrite Hout|]. destruct pressed.
    + left. destruct Hresp as (ra & rr & ? & ? & ?). by exists ra, rr.
    + right. by destruct Hresp as (? & ? & ?).
Qed.

Lemma trial_outcomes_recorded_witness :
  ∃ s, run demo_clocks demo_events (init demo_clocks demo_config) = Ok s
       ∧ length (logged_trials (log s)) = 2%nat
       ∧ Forall (fun e => outcome e ≠ None) (logged_trials (log s)).
Proof.
  destruct (run demo_clocks demo_events (init demo_clocks demo_config))
    as [s|] eqn:Hrun; [|by vm_compute in Hrun].
  exists s. split; [done|].
  split; [by vm_compute in Hrun; injection Hrun as <-|].
  eapply Forall_impl.
  - apply (proj2 (proj2 trial_outcomes_recorded) demo_clocks demo_config
             demo_events s Hrun).
    by vm_compute in Hrun; injection Hrun as <-.
  - by intros e [? _].
Defined.

(** C5 fails on the code.  The response window of the last trial expires
    and [finish_experiment] writes [experiment_end] and marks the run
    completed; the results screen is only scheduled, so an Escape key that
    arrives first still reaches [abort_experiment], which writes
    [experiment_end] again, with a later stamp, and marks the run aborted. *)
Theorem experiment_end_written_twice :
  ∃ s1 s2 t1 t2,
    run demo_clocks demo_events (init demo_clocks demo_config) = Ok s1
    ∧ experiment_end (log s1) = Some t1
    ∧ completed (status (log s1)) = true
    ∧ showing_results s1 = false
    ∧ handle demo_clocks s1 (KeyPress Key_Escape) = Ok s2
    ∧ experiment_end (log s2) = Some t2
    ∧ fst t1 < fst t2
    ∧ completed (status (log s2)) = false
    ∧ abort_reason (status (log s2)) = Some abort_by_user.
Proof.
  destruct (run demo_clocks demo_events (init demo_clocks demo_config))
    as [s1|] eqn:Hrun; [|by vm_compute in Hrun].
  vm_compute in Hrun. injection Hrun as <-.
  eexists _, _, _, _. split; [done|]. repeat split; try by vm_compute.
Qed.

End GoStopFacts.

Module SchedulerFacts.
Import Randomization RandomizationFacts Scheduler.

(** ** More on the trial scheduler *)

Lemma collect_candidates_spec (digits : list Z) (w : gmap Z Q) (d : Z) :
  d ∈ (collect_candidates digits w).1
  ↔ d ∈ digits ∧ (0 < get_weight w d 1)%Q.
Proof.
  induction digits as [|d' rest IH]; simpl.
  - split; [by intros ?%elem_of_nil|by intros [?%elem_of_nil _]].
  - destruct (collect_candidates rest w) as [cs ws]. simpl in IH.
    destruct (clamp0_Q_spec (get_weight w d' 1)) as [[Hpos Hc]|[Hle Hc]].
    + rewrite Hc, (proj2 (Qltb_lt _ _)) by done. simpl.
      rewrite !elem_of_cons, IH. split.
      * intros [->|[? ?]]; [split; [by left|done]|split; [by right|done]].
      * intros [[->|?] ?]; [by left|by right].
    + rewrite (proj2 (Qltb_ge 0 _)) by (rewrite Hc; lra). simpl.
      rewrite elem_of_cons, IH. split.
      * intros [? ?]. split; [by right|done].
      * intros [[->|?] ?]; [lra|done].
Qed.

Lemma collect_candidates_nil (digits : list Z) (w : gmap Z Q) :
  (collect_candidates digits w).1 = []
  ↔ ∀ d, d ∈ digits → (get_weight w d 1 <= 0)%Q.
Proof.
  split.
  - intros Hnil d Hd. destruct (Qlt_le_dec 0 (get_weight w d 1)) as [Hpos|]; [|done].
    assert (d ∈ (collect_candidates digits w).1) as Hin
      by (by apply collect_candidates_spec).
    rewrite Hnil in Hin. by apply elem_of_nil in Hin.
  - intros Hall. destruct (collect_candidates digits w).1 as [|d cs] eqn:Hc; [done|].
    assert (d ∈ (collect_candidates digits w).1) as Hin
      by (rewrite Hc; apply elem_of_cons; by left).
    apply collect_candidates_spec in Hin as [Hd Hpos].
    specialize (Hall d Hd). lra.
Qed.

Lemma overlap_of_spec (go nogo : list Z) (d : Z) :
  d ∈ overlap_of go nogo ↔ d ∈ go ∧ d ∈ nogo.
Proof. unfold overlap_of. by rewrite elem_of_intersection, !elem_of_list_to_set. Qed.

Lemma overlap_of_empty (go nogo : list Z) :
  overlap_of go nogo = ∅ ↔ ∀ d, d ∈ go → d ∉ nogo.
Proof.
  split; [|apply overlap_of_disjoint].
  intros Hov d Hg Hn. by apply (overlap_of_shared go nogo d).
Qed.

Lemma candidates_nonempty_positive (digits : list Z) (w : gmap Z Q) :
  (collect_candidates digits w).1 ≠ [] →
  ∃ d, d ∈ digits ∧ (0 < get_weight w d 1)%Q.
Proof.
  destruct (collect_candidates digits w).1 as [|d cs] eqn:Hc; [done|]. intros _.
  exists d. apply collect_candidates_spec. rewrite Hc. apply elem_of_cons. by left.
Qed.

Lemma generate_trial_schedule_cases (rnd : rng) (go nogo : list Z)
    (w : gmap Z Q) (r : Q) (n : Z) :
  schedule_outcome go nogo w (generate_trial_schedule rnd go nogo w r n).
Proof.
  unfold generate_trial_schedule.
  destruct (decide (overlap_of go nogo = ∅)) as [Hov|Hov].
  2:{ rewrite bool_decide_eq_false_2 by done. simpl.
      apply outcome_overlap.
      - intros Hnil. apply Hov. apply set_eq. intros d.
        rewrite elem_of_empty. split; [|done]. intros Hd.
        apply elem_of_elements in Hd. rewrite <- merge_sort_Permutation in Hd.
        rewrite Hnil in Hd. by apply elem_of_nil in Hd.
      - apply (Sorted_merge_sort Z.le).
      - intros d. rewrite merge_sort_Permutation, elem_of_elements.
        apply overlap_of_spec. }
  rewrite bool_decide_eq_true_2 by done. simpl.
  pose proof (proj1 (overlap_of_empty go nogo) Hov) as Hdisj.
  destruct (decide (go = [])) as [Hgo|Hgo].
  { rewrite (bool_decide_eq_true_2 (go = [])) by done. simpl.
    apply outcome_empty; [done|by left]. }
  destruct (decide (nogo = [])) as [Hnogo|Hnogo].
  { rewrite (bool_decide_eq_true_2 (nogo = [])) by done. rewrite orb_true_r.
    apply outcome_empty; [done|by right]. }
  rewrite !bool_decide_eq_false_2 by done. simpl.
  pose proof (collect_candidates_nil go w) as Hgn.
  pose proof (collect_candidates_nil nogo w) as Hnn.
  pose proof (candidates_nonempty_positive go w) as Hgw.
  pose proof (candidates_nonempty_positive nogo w) as Hnw.
  pose proof (collect_candidates_samplable go w) as Hgs.
  pose proof (collect_candidates_samplable nogo w) as Hns.
  destruct (collect_candidates go w) as [gc gw].
  destruct (collect_candidates nogo w) as [nc nw]. simpl in *.
  destruct (decide (gc = [])) as [Hgc|Hgc].
  { rewrite (bool_decide_eq_true_2 (gc = [])) by done. simpl.
    apply outcome_no_weight; try done. left. by apply Hgn. }
  destruct (decide (nc = [])) as [Hnc|Hnc].
  { rewrite (bool_decide_eq_true_2 (nc = [])) by done. rewrite orb_true_r.
    apply outcome_no_weight; try done. right. by apply Hnn. }
  rewrite !bool_decide_eq_false_2 by done. simpl.
  destruct (sample_trials_ok rnd
              (Z.to_nat (Z.max 0 (Z.min (round_half_even (inject_Z n * r)) n)))
              0 true gc (normalize_weights gw) [] (Hgs Hgc))
    as (t1 & p1 & -> & _ & _). simpl.
  match goal with |- context [sample_trials rnd p1 ?k false nc ?ws t1] =>
    destruct (sample_trials_ok rnd k p1 false nc ws t1 (Hns Hnc))
      as (t2 & p2 & -> & _ & _) end.
  simpl. apply outcome_schedule; auto.
Qed.

(** What a returned schedule is made of. *)
Lemma generate_trial_schedule_Ok (rnd : rng) (go nogo : list Z)
    (w : gmap Z Q) (r : Q) (n : Z) (trials : list trial) :
  generate_trial_schedule rnd go nogo w r n = Ok trials →
  let n_go := Z.max 0 (Z.min (round_half_even (inject_Z n * r)) n) in
  count_go trials = Z.to_nat n_go
  ∧ count_nogo trials = Z.to_nat (n - n_go)
  ∧ Forall (fun t => digit t ∈ (if is_go t then go else nogo)
                     ∧ (0 < get_weight w (digit t) 1)%Q) trials.
Proof.
  intros Hrun n_go.
  pose proof (generate_trial_schedule_cases rnd go nogo w r n) as Hcase.
  rewrite Hrun in Hcase. inversion Hcase as [| | |? Hdisj Hg Hn]; subst.
  destruct (generate_trial_schedule_shape rnd go nogo w r n)
    as (trials' & Hrun' & Hcg & Hcn & Hall).
  - by apply overlap_of_disjoint.
  - destruct Hg as (d & Hd & _). intros ->. by apply elem_of_nil in Hd.
  - destruct Hn as (d & Hd & _). intros ->. by apply elem_of_nil in Hd.
  - apply collect_candidates_samplable. intros Hnil.
    destruct Hg as (d & Hd & Hpos).
    pose proof (proj2 (collect_candidates_spec go w d) (conj Hd Hpos)) as Hin.
    rewrite Hnil in Hin. by apply elem_of_nil in Hin.
  - apply collect_candidates_samplable. intros Hnil.
    destruct Hn as (d & Hd & Hpos).
    pose proof (proj2 (collect_candidates_spec nogo w d) (conj Hd Hpos)) as Hin.
    rewrite Hnil in Hin. by apply elem_of_nil in Hin.
  - rewrite Hrun in Hrun'. injection Hrun' as <-.
    split; [done|]. split; [done|].
    eapply Forall_impl; [exact Hall|]. intros t Ht. simpl in Ht.
    destruct (is_go t); by apply collect_candidates_spec in Ht.
Qed.

(** X1.  [generate_trial_schedule] ends in one of four ways, each exactly
    under its condition: the [ValueError] that lists the sorted shared
    digits when the lists share any; else the one for an empty list; else
    the one for a class none of whose digits has a positive weight (1.0 when
    the map has none); else a schedule.  The sampling itself never fails. *)
Theorem generate_trial_schedule_outcomes (rnd : rng) (go nogo : list Z)
    (w : gmap Z Q) (r : Q) (n : Z) :
  schedule_outcome go nogo w (generate_trial_schedule rnd go nogo w r n).
Proof. apply generate_trial_schedule_cases. Qed.

(** X2.  In a returned schedule every Go trial shows a Go digit and every
    No-Go trial a No-Go digit, and the digit's weight (1.0 when the map has
    none) is strictly positive: a digit of weight zero or less is never
    shown. *)
Theorem schedule_digits_from_their_class (rnd : rng) (go nogo : list Z)
    (w : gmap Z Q) (r : Q) (n : Z) (trials : list trial) :
  generate_trial_schedule rnd go nogo w r n = Ok trials →
  ∀ t, t ∈ trials →
    digit t ∈ (if is_go t then go else nogo)
    ∧ (digit t ∉ (if is_go t then nogo else go))
    ∧ (0 < get_weight w (digit t) 1)%Q.
Proof.
  intros Hrun t Ht.
  destruct (generate_trial_schedule_Ok _ _ _ _ _ _ _ Hrun) as (_ & _ & Hall).
  rewrite Forall_forall in Hall. destruct (Hall t Ht) as [Hin Hpos].
  split; [done|]. split; [|done].
  pose proof (generate_trial_schedule_cases rnd go nogo w r n) as Hcase.
  rewrite Hrun in Hcase. inversion Hcase as [| | |? Hdisj _ _]; subst.
  destruct (is_go t); [by apply Hdisj|]. intros Hg. by apply (Hdisj _ Hg).
Qed.

Lemma schedule_digits_from_their_class_witness :
  Forall (fun t =>
      digit t ∈ (if is_go t then [0; 1] else [9])
      ∧ (digit t ∉ (if is_go t then [9] else [0; 1]))
      ∧ (0 < get_weight unit_weights (digit t) 1)%Q)
    [Trial 9 false; Trial 0 true].
Proof.
  apply Forall_forall.
  apply (schedule_digits_from_their_class
           (Rng (fun _ => 1 # 4)%Q (fun _ => 0%nat)) [0; 1] [9]
           unit_weights (2 # 3) 2).
  by vm_compute.
Defined.

(** X3.  A returned schedule has [max(n, 0)] trials, whatever the ratio: the
    Go count is [round(n * go_ratio)] clamped to [0 .. n].  So a ratio of 1
    or more gives Go trials only, a ratio of 0 or less No-Go trials only,
    and [n <= 0] the empty schedule. *)
Theorem schedule_counts_clamped (rnd : rng) (go nogo : list Z)
    (w : gmap Z Q) (r : Q) (n : Z) (trials : list trial) :
  generate_trial_schedule rnd go nogo w r n = Ok trials →
  length trials = Z.to_nat n
  ∧ (n ≤ 0 → trials = [])
  ∧ ((1 <= r)%Q → count_go trials = Z.to_nat n ∧ count_nogo trials = 0%nat)
  ∧ ((r <= 0)%Q → count_go trials = 0%nat ∧ count_nogo trials = Z.to_nat n).
Proof.
  intros Hrun.
  destruct (generate_trial_schedule_Ok _ _ _ _ _ _ _ Hrun) as (Hcg & Hcn & _).
  set (k := round_half_even (inject_Z n * r)) in *.
  assert (Hlen : length trials = Z.to_nat n).
  { rewrite <- count_go_nogo_length, Hcg, Hcn. lia. }
  split; [done|]. split; [|split].
  - intros Hn. apply nil_length_inv. rewrite Hlen. lia.
  - intros Hr. destruct (Z.le_gt_cases n 0) as [Hn|Hn].
    { rewrite Hcg, Hcn. lia. }
    assert (n ≤ k); [|rewrite Hcg, Hcn; lia].
    assert (Hq : (inject_Z n <= inject_Z n * r)%Q).
    { assert (0 < inject_Z n)%Q
        by (replace 0%Q with (inject_Z 0) by done; rewrite <- Zlt_Qlt; lia).
      nra. }
    assert (n ≤ Qfloor (inject_Z n * r)) as Hfl.
    { transitivity (Qfloor (inject_Z n)); [by rewrite Qfloor_Z|].
      by apply Qfloor_resp_le. }
    unfold k. destruct (round_half_even_cases (inject_Z n * r)) as [->|[-> _]]; lia.
  - intros Hr. destruct (Z.le_gt_cases n 0) as [Hn|Hn].
    { rewrite Hcg, Hcn. lia. }
    assert (k ≤ 0); [|rewrite Hcg, Hcn; lia].
    assert (Hq : (inject_Z n * r <= 0)%Q).
    { assert (0 < inject_Z n)%Q
        by (replace 0%Q with (inject_Z 0) by done; rewrite <- Zlt_Qlt; lia).
      nra. }
    assert (Qfloor (inject_Z n * r) ≤ 0) as Hfl.
    { change 0 with (Qfloor 0). by apply Qfloor_resp_le. }
    unfold k. destruct (round_half_even_cases (inject_Z n * r)) as [->|[-> Hh]]; [lia|].
    assert (inject_Z (Qfloor (inject_Z n * r)) < inject_Z 0)%Q as Hx
      by (change (inject_Z 0) with 0%Q; lra).
    rewrite <- Zlt_Qlt in Hx. lia.
Qed.

Lemma schedule_counts_clamped_witness :
  ∃ trials,
    generate_trial_schedule (Rng (fun _ => 1 # 4)%Q (fun k => k)) [0; 1] [9]
      unit_weights (3 # 2) 3 = Ok trials
    ∧ count_go trials = 3%nat ∧ count_nogo trials = 0%nat.
Proof.
  destruct (generate_trial_schedule (Rng (fun _ => 1 # 4)%Q (fun k => k)) [0; 1] [9]
              unit_weights (3 # 2) 3) as [trials|] eqn:Hrun;
    [|by vm_compute in Hrun].
  exists trials. split; [done|].
  by apply (schedule_counts_clamped _ _ _ _ _ _ _ Hrun).
Defined.

(** ** Weights and ratios *)

Lemma py_sum_cons (x : Q) (l : list Q) : (py_sum (x :: l) == x + py_sum l)%Q.
Proof. unfold py_sum. simpl. rewrite fold_left_Qplus_acc. lra. Qed.

Lemma py_sum_nonneg (l : list Q) :
  Forall (fun x => (0 <= x)%Q) l → (0 <= py_sum l)%Q.
Proof.
  induction 1 as [|x l Hx _ IH]; [done|]. rewrite py_sum_cons. lra.
Qed.

Lemma py_sum_ge_elem (l : list Q) (x : Q) :
  Forall (fun x => (0 <= x)%Q) l → x ∈ l → (x <= py_sum l)%Q.
Proof.
  induction 1 as [|y l Hy Hl IH]; [by intros ?%elem_of_nil|].
  rewrite py_sum_cons. pose proof (py_sum_nonneg l Hl).
  intros [->|Hx]%elem_of_cons; [lra|]. specialize (IH Hx). lra.
Qed.

Lemma py_sum_map_div (l : list Q) (t : Q) :
  ¬ (t == 0)%Q → (py_sum (map (fun w => w / t) l) == py_sum l / t)%Q.
Proof.
  intros Ht. induction l as [|x l IH]; simpl.
  - unfold py_sum. simpl. field. done.
  - rewrite !py_sum_cons, IH. field. done.
Qed.

(** X4.  [normalize_weights] keeps the number and the order of the weights.
    When their sum is positive each weight is divided by it, so the results
    add up to 1 and, for weights that are not negative, lie between 0 and
    1; when the sum is zero or less every result is 0.0. *)
Theorem normalize_weights_sum_to_one (weights : list Q) :
  length (normalize_weights weights) = length weights
  ∧ ((py_sum weights <= 0)%Q →
       normalize_weights weights = map (fun _ => 0%Q) weights)
  ∧ ((0 < py_sum weights)%Q →
       (py_sum (normalize_weights weights) == 1)%Q
       ∧ (∀ i w, weights !! i = Some w →
            normalize_weights weights !! i = Some (w / py_sum weights)%Q)
       ∧ (Forall (fun w => (0 <= w)%Q) weights →
          Forall (fun w => (0 <= w)%Q ∧ (w <= 1)%Q) (normalize_weights weights))).
Proof.
  unfold normalize_weights. simpl. split; [|split].
  - destruct (Qle_bool _ _); by rewrite length_map.
  - intros Hle. by rewrite (proj2 (Qle_bool_iff _ _)).
  - intros Hpos. rewrite (proj2 (Qle_bool_false _ _)) by done.
    split; [|split].
    + rewrite py_sum_map_div by lra. field. lra.
    + intros i w Hi. by rewrite list_lookup_fmap, Hi.
    + intros Hnn. apply Forall_forall. intros x Hx.
      apply list_elem_of_fmap in Hx as (y & -> & Hy).
      pose proof (py_sum_ge_elem weights y Hnn Hy) as Hyle.
      rewrite Forall_forall in Hnn. specialize (Hnn y Hy). split.
      * apply Qle_shift_div_l; lra.
      * apply Qle_shift_div_r; lra.
Qed.

Lemma normalize_weights_sum_to_one_witness :
  (py_sum (normalize_weights [2; 1; 1]%Q) == 1)%Q.
Proof.
  destruct (normalize_weights_sum_to_one [2; 1; 1]%Q) as (_ & _ & Hpos).
  destruct Hpos as (Hsum & _ & _); [reflexivity|exact Hsum].
Defined.

End SchedulerFacts.

Module ClockFacts.
Import Timing RandomizationFacts TimingFacts Clock.

(** ** The stopwatch *)

Lemma Qtruncate_nonneg (x : Q) :
  (0 <= x)%Q → Qtruncate x = Qfloor x ∧ 0 ≤ Qtruncate x.
Proof.
  intros Hx. unfold Qtruncate. rewrite (proj2 (Qltb_ge x 0)) by done.
  split; [done|]. change 0 with (Qfloor 0). by apply Qfloor_resp_le.
Qed.



End ClockFacts.

Module CountdownFacts.
Import Timing RandomizationFacts TimingFacts Clock.

(** ** The Qt countdown *)

(** The calls of a running timer fired [k] times: a tick per firing while
    milliseconds remain, and at the first firing with none left the timer
    stops and [on_finished], when there is one, is called. *)
Lemma fire_timeouts_trace (perf : nat -> Q) (d s0 : Q) (fin : bool)
    (k n : nat) (t : countdown_timer) (calls : list callback) :
  ct_duration_s t = d → ct_start_perf t = s0 → ct_on_finished t = fin →
  ct_active t = true →
  ∃ j t' n',
    fire_timeouts perf k n t calls
    = (calls ++ map (fun i => Tick (remaining_at perf d s0 (n + i))) (seq 0 j)
         ++ (if ct_active t' then [] else if fin then [Finished] else []),
       t', n')
    ∧ (∀ i, (i < j)%nat → 0 < remaining_at perf d s0 (n + i))
    ∧ ((ct_active t' = true ∧ j = k ∧ n' = (n + k)%nat)
       ∨ (ct_active t' = false ∧ (j < k)%nat
          ∧ remaining_at perf d s0 (n + j) = 0 ∧ n' = S (n + j))).
Proof.
  revert n t calls. induction k as [|k IH]; intros n t calls Hd Hs Hf Hact.
  - exists 0%nat, t, n. simpl. rewrite Hact, app_nil_r.
    split; [done|]. split; [lia|]. left. split; [done|]. split; lia.
  - cbn [fire_timeouts]. rewrite Hact. unfold handle_timeout.
    rewrite Hd, Hs, Hf. fold (remaining_at perf d s0 n).
    destruct (remaining_at perf d s0 n <=? 0) eqn:Hle.
    + apply Z.leb_le in Hle.
      assert (remaining_at perf d s0 n = 0) as H0
        by (unfold remaining_at, ms_left in *; lia).
      exists 0%nat,
        (CountdownTimer d s0 (ct_interval_ms t) fin (remaining_at perf d s0 n) false),
        (S n).
      split.
      * destruct k; simpl; reflexivity.
      * split; [lia|]. right. simpl. rewrite Nat.add_0_r.
        split; [done|]. split; [lia|]. done.
    + apply Z.leb_gt in Hle.
      match goal with |- context [fire_timeouts perf k (S n) ?t1 ?c1] =>
        destruct (IH (S n) t1 c1 eq_refl eq_refl eq_refl Hact)
          as (j & t' & n' & -> & Hpos & Hend) end.
      exists (S j), t', n'. split.
      * cbn [seq map]. rewrite <- seq_shift, map_map, Nat.add_0_r.
        rewrite <- !app_assoc. simpl. do 5 f_equal.
        apply map_ext. intros i. by rewrite Nat.add_succ_r.
      * split.
        -- intros [|i] Hi; [by rewrite Nat.add_0_r|].
           specialize (Hpos i ltac:(lia)).
           by replace (n + S i)%nat with (S n + i)%nat by lia.
        -- replace (n + S j)%nat with (S n + j)%nat by lia.
           destruct Hend as [(? & ? & ?)|(? & ? & ? & ?)]; [left|right];
             repeat split; try done; lia.
Qed.

Lemma ms_left_zero (x : Q) : ms_left x = 0 ↔ (x <= 0)%Q.
Proof.
  split; [|apply ms_left_nonpos].
  intros H0. destruct (Qlt_le_dec 0 x) as [Hpos|]; [|done].
  apply ms_left_pos in Hpos. lia.
Qed.

Lemma ms_left_nonneg (x : Q) : 0 ≤ ms_left x.
Proof. unfold ms_left. lia. Qed.

Lemma non_increasing_cons (x : Z) (l : list Z) :
  (∀ y, head l = Some y → y ≤ x) → non_increasing l → non_increasing (x :: l).
Proof.
  intros Hx Hl [|i] a b Ha Hb; simpl in *.
  - simplify_eq. apply Hx. by destruct l.
  - eauto.
Qed.

Lemma non_increasing_map_seq (f : nat → Z) (j : nat) :
  (∀ i, f (S i) ≤ f i) → non_increasing (map f (seq 0 j)).
Proof.
  intros Hf i a b Ha Hb. rewrite list_lookup_fmap in Ha, Hb.
  destruct (seq 0 j !! i) as [x|] eqn:Hx; [|done].
  destruct (seq 0 j !! S i) as [y|] eqn:Hy; [|done].
  apply lookup_seq in Hx as [-> _]. apply lookup_seq in Hy as [-> _].
  simplify_eq/=. apply Hf.
Qed.




(** ** The blocking countdown, whatever the abort predicate *)

Lemma poll_keeps (check : option (nat -> bool)) (st : loop_state) :
  nread (poll check st).2 = nread st
  ∧ last_ms (poll check st).2 = last_ms st
  ∧ calls (poll check st).2 = calls st.
Proof. by destruct check. Qed.

(** With a monotonic clock the loop ticks a strictly decreasing sequence of
    values between 0 and any bound on what is left at entry. *)
Lemma countdown_loop_ticks_bounded (fuel : nat) (perf : nat -> Q)
    (check : option (nat -> bool)) (step_s end_time : Q) (bound : Z)
    (st st' : loop_state) (ms : list Z) (why : loop_exit) :
  monotone perf →
  calls st = map Tick ms → last_ms st = last ms → strictly_decreasing ms →
  Forall (fun m => 0 ≤ m ≤ bound) ms →
  ms_left (end_time - perf (nread st)) ≤ bound →
  (∀ m, last ms = Some m →
        ∀ j, (nread st ≤ j)%nat → ms_left (end_time - perf j) ≤ m) →
  countdown_loop fuel perf check step_s end_time st = Some (Ok (st', why)) →
  ∃ ms',
    calls st' = map Tick (ms ++ ms')
    ∧ strictly_decreasing (ms ++ ms')
    ∧ Forall (fun m => 0 ≤ m ≤ bound) (ms ++ ms').
Proof.
  intros Hmono. revert st ms.
  induction fuel as [|fuel IH]; intros st ms Hcalls Hlast Hdec Hrange Hb Hbound Hrun;
    [done|].
  cbn [countdown_loop] in Hrun.
  destruct (poll_keeps check st) as (Hnr & Hlm & Hcs).
  destruct (poll check st) as [stop st1]. simpl in Hnr, Hlm, Hcs.
  destruct stop.
  { simplify_eq. exists []. by rewrite app_nil_r, Hcs. }
  rewrite Hnr, Hlm, Hcs in Hrun.
  set (now := perf (nread st)) in *.
  set (m' := ms_left (end_time - now)) in *.
  assert (Hm' : 0 ≤ m' ≤ bound) by (split; [apply ms_left_nonneg|done]).
  assert (Hfresh : Some m' ≠ last ms → strictly_decreasing (ms ++ [m'])).
  { intros Hne. apply strictly_decreasing_snoc; [done|]. intros m Hm.
    pose proof (Hbound m Hm (nread st) (le_n _)) as Hle. fold now m' in Hle.
    assert (m' ≠ m) by (intros ->; by rewrite Hm in Hne). lia. }
  assert (Hfut : ∀ j, (S (nread st) ≤ j)%nat → ms_left (end_time - perf j) ≤ m').
  { intros j Hj. apply ms_left_mono.
    assert (now <= perf j)%Q by (apply Hmono; lia). lra. }
  destruct (Qle_bool end_time now) eqn:Hdl.
  - case_bool_decide as Hneq; simplify_eq/=.
    + exists [m']. split; [by rewrite Hcalls, map_app|].
      split; [apply Hfresh; by rewrite <- Hlast|].
      apply Forall_app. split; [done|]. by constructor.
    + exists []. by rewrite app_nil_r.
  - destruct (Qltb step_s 0); [done|].
    case_bool_decide as Hneq.
    + apply (IH _ (ms ++ [m'])) in Hrun as (ms' & Hc & Hd & Hr).
      * exists (m' :: ms'). by rewrite <- app_assoc in Hc, Hd, Hr.
      * simpl. by rewrite Hcalls, map_app.
      * simpl. by rewrite last_snoc.
      * apply Hfresh. by rewrite <- Hlast.
      * apply Forall_app. split; [done|]. by constructor.
      * simpl. etrans; [apply Hfut; lia|lia].
      * intros m. rewrite last_snoc. intros [= <-]. simpl. exact Hfut.
    + apply (IH _ ms) in Hrun as (ms' & Hc & Hd & Hr).
      * by exists ms'.
      * done.
      * done.
      * done.
      * done.
      * simpl. etrans; [apply Hfut; lia|lia].
      * intros m Hm. simpl. assert (m' = m) as <-; [|exact Hfut].
        rewrite Hlast, Hm in Hneq. by injection Hneq.
Qed.

Lemma strictly_decreasing_length (l : list Z) (bound : Z) :
  strictly_decreasing l → Forall (fun m => 0 ≤ m ≤ bound) l →
  (length l ≤ Z.to_nat bound + 1)%nat.
Proof.
  intros Hdec Hr.
  assert (Hi : ∀ i m, l !! i = Some m → m + Z.of_nat i ≤ bound).
  { induction i as [|i IH]; intros m Hm.
    - rewrite Forall_forall in Hr.
      destruct (Hr m (list_elem_of_lookup_2 _ _ _ Hm)). lia.
    - destruct (lookup_lt_is_Some_2 l i) as [a Ha].
      { apply lookup_lt_Some in Hm. lia. }
      specialize (IH a Ha). specialize (Hdec i a m Ha Hm). lia. }
  destruct (length l) as [|n] eqn:Hn; [lia|].
  destruct (lookup_lt_is_Some_2 l n) as [m Hm]; [lia|].
  specialize (Hi n m Hm). rewrite Forall_forall in Hr.
  destruct (Hr m (list_elem_of_lookup_2 _ _ _ Hm)). lia.
Qed.



(** X12.  A negative [step_s] makes the countdown raise the [ValueError] of
    [time.sleep] at the end of its first iteration, after the first tick,
    unless that iteration leaves the loop: by an abort at the first poll or
    because the clock is already at the deadline (as it is for [D <= 0]
    with a monotonic clock). *)
Theorem blocking_countdown_negative_step (fuel : nat) (perf : nat -> Q)
    (duration_s step_s : Q) (on_finished : bool)
    (check_abort : option (nat -> bool)) :
  (step_s < 0)%Q →
  match check_abort with Some f => f 0%nat = false | None => True end →
  (perf 1%nat < perf 0%nat + clamp_duration duration_s)%Q →
  run_blocking_countdown (S fuel) perf duration_s on_finished check_abort step_s
  = Some (Raise SleepLengthNegative).
Proof.
  intros Hstep Hpoll Hnow. unfold run_blocking_countdown. cbn [countdown_loop].
  assert (Hp : ∃ st1, poll check_abort (LoopState 1 0 None []) = (false, st1)
                      ∧ nread st1 = 1%nat).
  { destruct check_abort as [f|]; simpl; [rewrite Hpoll|]; by eexists. }
  destruct Hp as (st1 & -> & ->).
  rewrite (proj2 (Qle_bool_false _ _)) by done.
  by rewrite (proj2 (Qltb_lt _ _)).
Qed.

Lemma blocking_countdown_negative_step_witness :
  run_blocking_countdown 1 (fun k => inject_Z (Z.of_nat k))%Q 5 true None (- (1 # 100))
  = Some (Raise SleepLengthNegative).
Proof.
  apply (blocking_countdown_negative_step 0 (fun k => inject_Z (Z.of_nat k))%Q
           5 (- (1 # 100)) true None); done.
Defined.

End CountdownFacts.

Module MetricsFacts.
Import Timing GoStop RandomizationFacts GoStopFacts Metrics.

(** ** The Go/No-Go metrics *)

Lemma extract_trials_logged (lg : Log) : _extract_trials lg ≡ₚ logged_trials lg.
Proof.
  unfold _extract_trials, logged_trials, block_values.
  rewrite map_map.
  by rewrite (merge_sort_Permutation by_block_number).
Qed.

Lemma percent_of_part (k n : nat) :
  (k ≤ n)%nat →
  (_percent (Z.of_nat k) (Z.of_nat n) = None ↔ n = 0%nat)
  ∧ ∀ p, _percent (Z.of_nat k) (Z.of_nat n) = Some p →
         (0 <= p)%Q ∧ (p <= 100)%Q
         ∧ (p * inject_Z (Z.of_nat n) == 100 * inject_Z (Z.of_nat k))%Q.
Proof.
  intros Hkn. unfold _percent. destruct (Z.of_nat n <=? 0) eqn:Hn.
  - apply Z.leb_le in Hn. split; [split; [lia|done]|done].
  - apply Z.leb_gt in Hn. split; [split; [done|lia]|].
    intros p [= <-].
    assert (Hnq : (0 < inject_Z (Z.of_nat n))%Q)
      by (replace 0%Q with (inject_Z 0) by done; rewrite <- Zlt_Qlt; lia).
    assert (Hkq : (0 <= inject_Z (Z.of_nat k))%Q)
      by (replace 0%Q with (inject_Z 0) by done; rewrite <- Zle_Qle; lia).
    assert (Hkn' : (inject_Z (Z.of_nat k) <= inject_Z (Z.of_nat n))%Q)
      by (rewrite <- Zle_Qle; lia).
    split; [|split].
    + apply Qmult_le_0_compat; [|done]. apply Qle_shift_div_l; lra.
    + assert (inject_Z (Z.of_nat k) / inject_Z (Z.of_nat n) <= 1)%Q; [|lra].
      apply Qle_shift_div_r; lra.
    + field. lra.
Qed.

Lemma fold_left_Qplus_bounds (vals : list Q) (lo hi : Q) :
  Forall (fun v => (lo <= v)%Q ∧ (v <= hi)%Q) vals →
  (lo * inject_Z (Z.of_nat (length vals)) <= fold_left Qplus vals 0)%Q
  ∧ (fold_left Qplus vals 0 <= hi * inject_Z (Z.of_nat (length vals)))%Q.
Proof.
  induction 1 as [|v vals [Hlo Hhi] _ [IHlo IHhi]].
  - cbn [fold_left length]. change (inject_Z (Z.of_nat 0)) with 0%Q. split; lra.
  - cbn [fold_left length]. rewrite fold_left_Qplus_acc.
    rewrite Nat2Z.inj_succ, <- Z.add_1_r, inject_Z_plus.
    change (inject_Z 1) with 1%Q. split; lra.
Qed.

Lemma mean_bounds (vals : list Q) (lo hi : Q) :
  vals ≠ [] → Forall (fun v => (lo <= v)%Q ∧ (v <= hi)%Q) vals →
  (lo <= mean vals)%Q ∧ (mean vals <= hi)%Q.
Proof.
  intros Hne Hall. destruct (fold_left_Qplus_bounds vals lo hi Hall) as [Hlo Hhi].
  assert (Hn : (0 < inject_Z (Z.of_nat (length vals)))%Q).
  { replace 0%Q with (inject_Z 0) by done. rewrite <- Zlt_Qlt.
    destruct vals; [done|simpl; lia]. }
  unfold mean. split.
  - apply Qle_shift_div_l; lra.
  - apply Qle_shift_div_r; lra.
Qed.

Lemma safe_mean_spec (values : list (option Q)) :
  (_safe_mean values = None ↔ Forall (fun v => v = None) values)
  ∧ ∀ m lo hi, _safe_mean values = Some m →
      (∀ v, Some v ∈ values → (lo <= v)%Q ∧ (v <= hi)%Q) →
      (lo <= m)%Q ∧ (m <= hi)%Q.
Proof.
  unfold _safe_mean.
  assert (Hin : ∀ v, v ∈ omap id values ↔ Some v ∈ values).
  { intros v. rewrite list_elem_of_omap. split.
    - by intros ([x|] & Hx & [= ->]).
    - intros Hv. by exists (Some v). }
  split.
  - destruct (omap id values) as [|v vals] eqn:Hvals.
    + split; [|done]. intros _. apply Forall_forall. intros [v|] Hv; [|done].
      apply Hin in Hv. by apply elem_of_nil in Hv.
    + split; [done|]. intros Hall. rewrite Forall_forall in Hall.
      assert (Some v ∈ values) as Hv by (apply Hin; apply elem_of_cons; by left).
      by specialize (Hall _ Hv).
  - intros m lo hi Hm Hrange.
    destruct (omap id values) as [|v vals] eqn:Hvals; [done|].
    injection Hm as <-. apply mean_bounds; [done|].
    apply Forall_forall. intros x Hx. apply Hrange. by apply Hin.
Qed.

(** X13.  The two rates of [compute_go_nogo_metrics]: the hit rate is [None]
    exactly when the log holds no Go trial and otherwise the share of the Go
    trials with outcome [hit], a percentage between 0 and 100; likewise the
    commission rate over the No-Go trials. *)
Theorem metrics_rates (lg : Log) :
  let m := compute_go_nogo_metrics lg in
  (go_hit_percent m = None ↔ go_trials_of lg = [])
  ∧ (nogo_commission_percent m = None ↔ nogo_trials_of lg = [])
  ∧ (∀ p, go_hit_percent m = Some p →
       (0 <= p)%Q ∧ (p <= 100)%Q
       ∧ (p * inject_Z (Z.of_nat (length (go_trials_of lg)))
          == 100 * inject_Z (Z.of_nat (length (go_hits_of lg))))%Q)
  ∧ (∀ p, nogo_commission_percent m = Some p →
       (0 <= p)%Q ∧ (p <= 100)%Q
       ∧ (p * inject_Z (Z.of_nat (length (nogo_trials_of lg)))
          == 100 * inject_Z (Z.of_nat (length (nogo_commissions_of lg))))%Q).
Proof.
  simpl.
  destruct (percent_of_part (length (go_hits_of lg)) (length (go_trials_of lg)))
    as [Hg0 Hg]; [apply length_filter|].
  destruct (percent_of_part (length (nogo_commissions_of lg))
              (length (nogo_trials_of lg))) as [Hn0 Hn]; [apply length_filter|].
  split; [by rewrite Hg0, length_zero_iff_nil|].
  split; [by rewrite Hn0, length_zero_iff_nil|]. done.
Qed.

(** X14.  The two mean reaction times of [compute_go_nogo_metrics]: the mean
    over the hits is [None] exactly when no hit carries a response time, and
    otherwise lies between any two bounds that hold for the reaction time
    (response minus onset) of every hit that has one; likewise for the
    commission errors. *)
Theorem metrics_mean_reaction_times (lg : Log) :
  let m := compute_go_nogo_metrics lg in
  (mean_rt_go_hit m = None
   ↔ Forall (fun t => response_rel t = None) (go_hits_of lg))
  ∧ (mean_rt_nogo_commission m = None
     ↔ Forall (fun t => response_rel t = None) (nogo_commissions_of lg))
  ∧ (∀ v lo hi, mean_rt_go_hit m = Some v →
       (∀ t r, t ∈ go_hits_of lg → response_rel t = Some r →
          (lo <= r - snd (onset t))%Q ∧ (r - snd (onset t) <= hi)%Q) →
       (lo <= v)%Q ∧ (v <= hi)%Q)
  ∧ (∀ v lo hi, mean_rt_nogo_commission m = Some v →
       (∀ t r, t ∈ nogo_commissions_of lg → response_rel t = Some r →
          (lo <= r - snd (onset t))%Q ∧ (r - snd (onset t) <= hi)%Q) →
       (lo <= v)%Q ∧ (v <= hi)%Q).
Proof.
  simpl.
  assert (Hgen : ∀ l : list trial_entry,
    (_safe_mean (map _compute_rt_seconds l) = None
     ↔ Forall (fun t => response_rel t = None) l)
    ∧ (∀ v lo hi, _safe_mean (map _compute_rt_seconds l) = Some v →
         (∀ t r, t ∈ l → response_rel t = Some r →
            (lo <= r - snd (onset t))%Q ∧ (r - snd (onset t) <= hi)%Q) →
         (lo <= v)%Q ∧ (v <= hi)%Q)).
  { intros l. destruct (safe_mean_spec (map _compute_rt_seconds l)) as [Hnone Hsome].
    split.
    - rewrite Hnone, Forall_fmap. apply Forall_iff. intros t.
      unfold compose, _compute_rt_seconds. by destruct (response_rel t).
    - intros v lo hi Hv Hrange. apply (Hsome v lo hi Hv).
      intros x Hx. apply list_elem_of_fmap in Hx as (t & Ht & Hin).
      unfold _compute_rt_seconds in Ht.
      destruct (response_rel t) as [r|] eqn:Hr; [|done].
      injection Ht as ->. by apply Hrange. }
  destruct (Hgen (go_hits_of lg)) as [Hg1 Hg2].
  destruct (Hgen (nogo_commissions_of lg)) as [Hn1 Hn2].
  done.
Qed.

Lemma scored_by_key_press (s : ExperimentRunner) (t : trial_entry) :
  Inv s → t ∈ _extract_trials (log s) →
  outcome t = Some hit ∨ outcome t = Some commission_error →
  ∃ r, response_rel t = Some r ∧ response_time t = Real (r - snd (onset t)).
Proof.
  intros (He & _) Hin Hout. rewrite extract_trials_logged in Hin.
  apply logged_trials_in_store in Hin as [a Ha].
  destruct (He a t Ha) as [(pressed & Hcl & Hresp)|[(Hnone & _) _]].
  - destruct pressed.
    + destruct Hresp as (ra & r & _ & Hr & Hrt). by exists r.
    + unfold classify in Hcl. destruct (is_go_trial t), Hout; congruence.
  - destruct Hout; congruence.
Qed.

(** X15.  On the log of any run of the runner (any configuration, clocks and
    events), the analysis agrees with what the runner recorded: for every
    hit and every commission error the reaction time [_compute_rt_seconds]
    derives from the time pair is the [response_time] stored in the entry,
    so a mean reaction time is [None] only when there is no such trial. *)
Theorem metrics_agree_with_runner (c : clocks) (cfg : Config)
    (evs : list event) (s : ExperimentRunner) :
  run c evs (init c cfg) = Ok s →
  let m := compute_go_nogo_metrics (log s) in
  (∀ t, t ∈ go_hits_of (log s) ∨ t ∈ nogo_commissions_of (log s) →
     ∃ r, _compute_rt_seconds t = Some r ∧ response_time t = Real r)
  ∧ (mean_rt_go_hit m = None ↔ go_hits_of (log s) = [])
  ∧ (mean_rt_nogo_commission m = None ↔ nogo_commissions_of (log s) = []).
Proof.
  intros Hrun. simpl.
  pose proof (run_Inv c evs _ s (init_Inv c cfg) Hrun) as HI.
  assert (Hrt : ∀ t, t ∈ go_hits_of (log s) ∨ t ∈ nogo_commissions_of (log s) →
            ∃ r, response_rel t = Some r
                 ∧ response_time t = Real (r - snd (onset t))).
  { intros t Ht. apply (scored_by_key_press s t HI).
    - destruct Ht as [Ht|Ht];
        apply list_elem_of_filter in Ht as [_ Ht];
        by apply list_elem_of_filter in Ht as [_ Ht].
    - destruct Ht as [Ht|Ht]; apply list_elem_of_filter in Ht as [Ht _];
        [by left|by right]. }
  assert (Hnone : ∀ l : list trial_entry,
            (∀ t, t ∈ l → ∃ r, response_rel t = Some r
                               ∧ response_time t = Real (r - snd (onset t))) →
            _safe_mean (map _compute_rt_seconds l) = None ↔ l = []).
  { intros l Hl. rewrite (proj1 (safe_mean_spec _)), Forall_fmap. split.
    - destruct l as [|t l]; [done|]. intros Hall.
      apply Forall_cons in Hall as [Ht _].
      destruct (Hl t) as (r & Hr & _); [apply elem_of_cons; by left|].
      unfold compose, _compute_rt_seconds in Ht. by rewrite Hr in Ht.
    - by intros ->. }
  split; [|split].
  - intros t Ht. destruct (Hrt t Ht) as (r & Hr & Htime).
    exists (r - snd (onset t))%Q. unfold _compute_rt_seconds. by rewrite Hr.
  - apply Hnone. intros t Ht. apply Hrt. by left.
  - apply Hnone. intros t Ht. apply Hrt. by right.
Qed.

Lemma metrics_agree_with_runner_witness :
  ∃ s, run demo_clocks demo_events (init demo_clocks demo_config) = Ok s
       ∧ length (go_hits_of (log s)) = 1%nat
       ∧ ∀ t, t ∈ go_hits_of (log s) ∨ t ∈ nogo_commissions_of (log s) →
           ∃ r, _compute_rt_seconds t = Some r ∧ response_time t = Real r.
Proof.
  destruct (run demo_clocks demo_events (init demo_clocks demo_config))
    as [s|] eqn:Hrun; [|by vm_compute in Hrun].
  exists s. split; [done|]. split.
  - vm_compute in Hrun. by injection Hrun as <-.
  - apply (metrics_agree_with_runner demo_clocks demo_config demo_events s Hrun).
Defined.

End MetricsFacts.

Module SetupFacts.
Import Randomization RandomizationFacts Scheduler SchedulerFacts Setup.

(** ** Validation and the schedule of a session *)

Lemma positive_weights_spec (w : gmap Z Q) (digits : list Z) (ws : list Q) :
  positive_weights w digits = Ok ws →
  (∀ d, d ∈ digits → is_Some (w !! d))
  ∧ (ws ≠ [] → ∃ d x, d ∈ digits ∧ w !! d = Some x ∧ (0 < x)%Q).
Proof.
  revert ws. induction digits as [|d rest IH]; intros ws; simpl.
  - intros [= <-]. split; [by intros ? ?%elem_of_nil|done].
  - destruct (w !! d) as [x|] eqn:Hd; [|done].
    destruct (positive_weights w rest) as [ws'|] eqn:Hrest; [|done]. simpl.
    intros [= <-]. destruct (IH ws' eq_refl) as [Hall Hpos]. split.
    + intros d' [->|Hin]%elem_of_cons; [by rewrite Hd|by apply Hall].
    + destruct (Qltb 0 x) eqn:Hx.
      * intros _. apply Qltb_lt in Hx. exists d, x.
        split; [apply elem_of_cons; by left|done].
      * intros Hne. destruct (Hpos Hne) as (d' & x' & Hin & Hw & Hx').
        exists d', x'. split; [apply elem_of_cons; by right|done].
Qed.

Lemma compute_go_ratio_Ok (go nogo : list Z) (w : gmap Z Q) (r : Q) :
  compute_go_ratio go nogo w = Ok r →
  (0 < class_total go w)%Q ∧ (0 < class_total nogo w)%Q
  ∧ (0 < r)%Q ∧ (r < 1)%Q.
Proof.
  unfold compute_go_ratio.
  destruct (Qle_bool (class_total go w) 0) eqn:Hg; [done|].
  destruct (Qle_bool (class_total nogo w) 0) eqn:Hn; [done|]. simpl.
  apply Qle_bool_false in Hg, Hn. intros [= <-].
  split; [done|]. split; [done|]. split.
  - apply Qlt_shift_div_l; lra.
  - apply Qlt_shift_div_r; lra.
Qed.

Lemma class_total_pos (digits : list Z) (w : gmap Z Q) (d : Z) (x : Q) :
  d ∈ digits → w !! d = Some x → (0 < x)%Q → (0 < class_total digits w)%Q.
Proof.
  intros Hd Hw Hx.
  assert (Hnn : ∀ l, (0 <= class_total l w)%Q).
  { induction l as [|d' l IH]; [done|]. rewrite class_total_cons.
    destruct (clamp0_Q_spec (get_weight w d' 0)) as [[? ->]|[_ ->]]; lra. }
  induction digits as [|d' rest IH]; [by apply elem_of_nil in Hd|].
  rewrite class_total_cons. apply elem_of_cons in Hd as [<-|Hd].
  - unfold get_weight. rewrite Hw. simpl. rewrite clamp0_pos by done.
    specialize (Hnn rest). lra.
  - specialize (IH Hd).
    destruct (clamp0_Q_spec (get_weight w d' 0)) as [[? ->]|[_ ->]]; lra.
Qed.

Lemma validate_config_Valid (config : GuiConfig) :
  validate_config config = Ok Valid →
  well_formed config
  ∧ output_folder config ≠ ""%string
  ∧ Forall (fun v => (0 <= v)%Q) (durations config)
  ∧ (∀ d, d ∈ go_digits config ++ nogo_digits config →
          is_Some (digit_weights config !! d)).
Proof.
  unfold validate_config.
  remember (existsb (fun v => Qltb v 0) (durations config)) as negative eqn:Hdur.
  case_bool_decide as Hgo; [done|]. case_bool_decide as Hnogo; [done|].
  case_bool_decide as Hov; [|done]. simpl.
  destruct (positive_weights _ (go_digits config)) as [gw|] eqn:Hgw; [|done].
  destruct (positive_weights _ (nogo_digits config)) as [nw|] eqn:Hnw; [|done].
  simpl. case_bool_decide as Hgne; [done|]. case_bool_decide as Hnne; [done|].
  case_bool_decide as Hout; [done|].
  destruct (n_trials_per_block config <=? 0) eqn:Hn; [done|].
  destruct (n_blocks config <=? 0) eqn:Hb; [done|]. cbn [orb].
  destruct negative; [done|]. intros _. symmetry in Hdur.
  apply Z.leb_gt in Hn, Hb.
  destruct (positive_weights_spec _ _ _ Hgw) as [Hgall Hgpos].
  destruct (positive_weights_spec _ _ _ Hnw) as [Hnall Hnpos].
  split; [by repeat split; auto|]. split; [done|]. split.
  - apply Forall_forall. intros v Hv. apply Qltb_ge.
    destruct (Qltb v 0) eqn:Hneg; [|done].
    assert (existsb (fun v => Qltb v 0) (durations config) = true) as Hex.
    { apply existsb_exists. exists v. split; [by apply list_elem_of_In|done]. }
    congruence.
  - intros d [Hd|Hd]%elem_of_app; auto.
Qed.

Lemma well_formed_schedule (rnd : rng) (config : GuiConfig) (r : Q) :
  well_formed config → (0 < r)%Q → (r < 1)%Q →
  ∃ trials,
    generate_trial_schedule rnd (go_digits config) (nogo_digits config)
      (digit_weights config) r (n_trials_per_block config) = Ok trials
    ∧ Z.of_nat (length trials) = n_trials_per_block config
    ∧ Z.of_nat (count_go trials)
      = round_half_even (inject_Z (n_trials_per_block config) * r).
Proof.
  intros (Hgo & Hnogo & Hov & (dg & xg & Hdg & Hwg & Hxg)
          & (dn & xn & Hdn & Hwn & Hxn) & Hn & _) Hr0 Hr1.
  set (n := n_trials_per_block config) in *.
  assert (Hq0 : (0 <= inject_Z n * r)%Q).
  { apply Qmult_le_0_compat; [|lra]. replace 0%Q with (inject_Z 0) by done.
    rewrite <- Zle_Qle. lia. }
  assert (Hqn : (inject_Z n * r <= inject_Z n)%Q).
  { assert (0 < inject_Z n)%Q
      by (replace 0%Q with (inject_Z 0) by done; rewrite <- Zlt_Qlt; lia).
    nra. }
  pose proof (round_half_even_bounds _ _ Hq0 Hqn) as Hb.
  destruct (generate_trial_schedule_shape rnd (go_digits config)
              (nogo_digits config) (digit_weights config) r n)
    as (trials & Hrun & Hcg & Hcn & _); try done.
  - apply collect_candidates_samplable. intros Hnil.
    pose proof (collect_candidates_elem _ _ dg xg Hdg Hwg Hxg) as Hin.
    rewrite Hnil in Hin. by apply elem_of_nil in Hin.
  - apply collect_candidates_samplable. intros Hnil.
    pose proof (collect_candidates_elem _ _ dn xn Hdn Hwn Hxn) as Hin.
    rewrite Hnil in Hin. by apply elem_of_nil in Hin.
  - exists trials. split; [done|].
    rewrite <- count_go_nogo_length, Hcg, Hcn. lia.
Qed.

Lemma build_blocks_spec (rnds : Z → rng) (config : GuiConfig) (r : Q)
    (left : nat) (block_idx : Z) (schedule : gmap Z (list trial)) :
  well_formed config → (0 < r)%Q → (r < 1)%Q →
  ∃ schedule',
    build_blocks rnds config r block_idx left schedule = Ok schedule'
    ∧ (∀ b, block_idx ≤ b < block_idx + Z.of_nat left →
          schedule' !! b
          = Some (default [] (match generate_trial_schedule (rnds b)
                                      (go_digits config) (nogo_digits config)
                                      (digit_weights config) r
                                      (n_trials_per_block config) with
                              | Ok trials => Some trials
                              | Raise _ => None
                              end)))
    ∧ (∀ b, ¬ (block_idx ≤ b < block_idx + Z.of_nat left) →
          schedule' !! b = schedule !! b).
Proof.
  intros Hwf Hr0 Hr1. revert block_idx schedule.
  induction left as [|left IH]; intros block_idx schedule; simpl.
  - exists schedule. split; [done|]. split; [lia|done].
  - destruct (well_formed_schedule (rnds block_idx) config r Hwf Hr0 Hr1)
      as (trials & Hgen & _). rewrite Hgen. simpl.
    destruct (IH (block_idx + 1) (<[block_idx := trials]> schedule))
      as (schedule' & -> & Hin & Hout).
    exists schedule'. split; [done|]. split.
    + intros b Hb. destruct (decide (b = block_idx)) as [->|Hne].
      * rewrite Hout by lia. by rewrite lookup_insert_eq, Hgen.
      * apply Hin. lia.
    + intros b Hb. rewrite Hout by lia. apply lookup_insert_ne. lia.
Qed.

Lemma build_trial_schedule_spec (rnds : Z → rng) (config : GuiConfig) :
  validate_config config = Ok Valid →
  ∃ ratio schedule,
    build_trial_schedule rnds config = Ok (ratio, schedule)
    ∧ (0 < ratio)%Q ∧ (ratio < 1)%Q
    ∧ (∀ b, is_Some (schedule !! b) ↔ 1 ≤ b ≤ n_blocks config)
    ∧ (∀ b trials, schedule !! b = Some trials →
         Z.of_nat (length trials) = n_trials_per_block config
         ∧ Z.of_nat (count_go trials)
           = round_half_even (inject_Z (n_trials_per_block config) * ratio)).
Proof.
  intros Hvalid. pose proof Hvalid as Hv.
  apply validate_config_Valid in Hv as (Hwf & _).
  unfold build_trial_schedule.
  destruct (compute_go_ratio _ _ _) as [ratio|e] eqn:Hratio.
  2:{ unfold compute_go_ratio in Hratio.
      destruct Hwf as (_ & _ & _ & (dg & xg & Hdg & Hwg & Hxg)
                       & (dn & xn & Hdn & Hwn & Hxn) & _).
      pose proof (class_total_pos _ _ _ _ Hdg Hwg Hxg) as Hg.
      pose proof (class_total_pos _ _ _ _ Hdn Hwn Hxn) as Hn.
      rewrite (proj2 (Qle_bool_false _ _)), (proj2 (Qle_bool_false _ _)) in Hratio
        by done. done. }
  destruct (compute_go_ratio_Ok _ _ _ _ Hratio) as (_ & _ & Hr0 & Hr1). simpl.
  destruct (build_blocks_spec rnds config ratio (Z.to_nat (n_blocks config)) 1 ∅
              Hwf Hr0 Hr1) as (schedule & -> & Hin & Hout). simpl.
  assert (Hnb : 0 < n_blocks config) by (by destruct Hwf as (_&_&_&_&_&_&?)).
  exists ratio, schedule. split; [done|]. split; [done|]. split; [done|].
  split.
  - intros b. destruct (decide (1 ≤ b < 1 + Z.of_nat (Z.to_nat (n_blocks config))))
      as [Hb|Hb].
    + rewrite Hin by done. split; [lia|by eauto].
    + rewrite Hout, lookup_empty by done. split; [by intros [? ?]|lia].
  - intros b trials Hb.
    destruct (decide (1 ≤ b < 1 + Z.of_nat (Z.to_nat (n_blocks config))))
      as [Hrange|Hrange].
    + rewrite Hin in Hb by done.
      destruct (well_formed_schedule (rnds b) config ratio Hwf Hr0 Hr1)
        as (trials' & Hgen & Hlen & Hcount).
      rewrite Hgen in Hb. simpl in Hb. by simplify_eq.
    + by rewrite Hout, lookup_empty in Hb.
Qed.

Lemma positive_weights_Ok (w : gmap Z Q) (digits : list Z) :
  (∀ d, d ∈ digits → is_Some (w !! d)) →
  ∃ ws, positive_weights w digits = Ok ws
        ∧ ((∃ d x, d ∈ digits ∧ w !! d = Some x ∧ (0 < x)%Q) → ws ≠ []).
Proof.
  induction digits as [|d rest IH]; intros Hall; simpl.
  - exists []. split; [done|]. by intros (d & x & ?%elem_of_nil & _).
  - destruct (Hall d) as [x Hx]; [apply elem_of_cons; by left|]. rewrite Hx.
    destruct IH as (ws & -> & Hne).
    { intros d' Hd'. apply Hall. apply elem_of_cons. by right. }
    simpl. eexists. split; [done|].
    intros (d' & x' & [->|Hin]%elem_of_cons & Hw & Hpos).
    + rewrite Hx in Hw. injection Hw as ->. by rewrite (proj2 (Qltb_lt 0 x')).
    + destruct (Qltb 0 x); [done|]. apply Hne. by exists d', x'.
Qed.

(** X17.  [validate_config] accepts exactly the configurations with Go and
    No-Go digits that are not empty and share none, a weight for every
    listed digit and a positive one in each class, an output folder,
    positive numbers of blocks and trials and no negative duration.  Its
    last check, the call of [compute_go_ratio], never rejects anything, and
    the only exception it lets out is the [KeyError] of a listed digit
    without a weight. *)
Theorem validate_config_accepts (config : GuiConfig) :
  (validate_config config = Ok Valid
   ↔ well_formed config
     ∧ output_folder config ≠ ""%string
     ∧ Forall (fun v => (0 <= v)%Q) (durations config)
     ∧ (∀ d, d ∈ go_digits config ++ nogo_digits config →
             is_Some (digit_weights config !! d)))
  ∧ (∀ e, validate_config config ≠ Ok (Invalid (RatioRejected e)))
  ∧ (∀ e, validate_config config = Raise e →
          e = KeyError
          ∧ ∃ d, d ∈ go_digits config ++ nogo_digits config
                 ∧ digit_weights config !! d = None).
Proof.
  split; [split; [apply validate_config_Valid|]|].
  - intros ((Hgo & Hnogo & Hov & Hgpos & Hnpos & Hn & Hb) & Hout & Hdur & Hall).
    unfold validate_config.
    remember (existsb (fun v => Qltb v 0) (durations config)) as negative eqn:Hneg.
    rewrite !bool_decide_eq_false_2 by done.
    rewrite bool_decide_eq_true_2 by done. simpl.
    destruct (positive_weights_Ok (digit_weights config) (go_digits config))
      as (gw & -> & Hgw); [intros d Hd; apply Hall, elem_of_app; by left|].
    destruct (positive_weights_Ok (digit_weights config) (nogo_digits config))
      as (nw & -> & Hnw); [intros d Hd; apply Hall, elem_of_app; by right|].
    simpl. rewrite !bool_decide_eq_false_2 by auto.
    rewrite (proj2 (Z.leb_gt _ _) Hn), (proj2 (Z.leb_gt _ _) Hb). cbn [orb].
    assert (negative = false) as ->.
    { rewrite Hneg. apply not_true_iff_false. intros Hex.
      apply existsb_exists in Hex as (v & Hv & Hlt).
      rewrite Forall_forall in Hdur. apply list_elem_of_In in Hv.
      specialize (Hdur v Hv). apply Qltb_lt in Hlt. lra. }
    destruct Hgpos as (dg & xg & Hdg & Hwg & Hxg).
    destruct Hnpos as (dn & xn & Hdn & Hwn & Hxn).
    pose proof (class_total_pos _ _ _ _ Hdg Hwg Hxg) as Hg.
    pose proof (class_total_pos _ _ _ _ Hdn Hwn Hxn) as Hnn.
    unfold compute_go_ratio.
    by rewrite (proj2 (Qle_bool_false _ _)), (proj2 (Qle_bool_false _ _)).
  - assert (Hcases : ∀ r, validate_config config = r →
              (∀ e, r ≠ Ok (Invalid (RatioRejected e)))
              ∧ (∀ e, r = Raise e →
                   e = KeyError
                   ∧ ∃ d, d ∈ go_digits config ++ nogo_digits config
                          ∧ digit_weights config !! d = None));
      [|split; intros e; by destruct (Hcases _ eq_refl) as [H1 H2]; auto].
    intros r. unfold validate_config.
    remember (existsb (fun v => Qltb v 0) (durations config)) as negative eqn:Hneg.
    case_bool_decide as Hgo; [by intros <-|].
    case_bool_decide as Hnogo; [by intros <-|].
    case_bool_decide as Hov; [|by intros <-]. simpl.
    assert (Hkey : ∀ digits,
              (∃ ws, positive_weights (digit_weights config) digits = Ok ws)
              ∨ (positive_weights (digit_weights config) digits = Raise KeyError
                 ∧ ∃ d, d ∈ digits ∧ digit_weights config !! d = None)).
    { induction digits as [|d rest IH]; simpl; [by eauto|].
      destruct (digit_weights config !! d) as [x|] eqn:Hd.
      - destruct IH as [[ws ->]|[-> (d' & Hin & Hnone)]]; simpl; [by eauto|].
        right. split; [done|]. exists d'. split; [apply elem_of_cons; by right|done].
      - right. split; [done|]. exists d. split; [apply elem_of_cons; by left|done]. }
    destruct (Hkey (go_digits config)) as [[gw Hgw]|[Hgw (d & Hd & Hnone)]];
      rewrite Hgw; simpl.
    2:{ intros <-. split; [done|]. intros e [= <-]. split; [done|].
        exists d. split; [apply elem_of_app; by left|done]. }
    destruct (Hkey (nogo_digits config)) as [[nw Hnw]|[Hnw (d & Hd & Hnone)]];
      rewrite Hnw; simpl.
    2:{ intros <-. split; [done|]. intros e [= <-]. split; [done|].
        exists d. split; [apply elem_of_app; by right|done]. }
    case_bool_decide as Hgne; [by intros <-|].
    case_bool_decide as Hnne; [by intros <-|].
    case_bool_decide as Hout; [by intros <-|].
    destruct (_ || _); [by intros <-|].
    destruct negative; [by intros <-|].
    destruct (proj2 (positive_weights_spec _ _ _ Hgw) Hgne)
      as (dg & xg & Hdg & Hwg & Hxg).
    destruct (proj2 (positive_weights_spec _ _ _ Hnw) Hnne)
      as (dn & xn & Hdn & Hwn & Hxn).
    pose proof (class_total_pos _ _ _ _ Hdg Hwg Hxg) as Hg.
    pose proof (class_total_pos _ _ _ _ Hdn Hwn Hxn) as Hnn.
    unfold compute_go_ratio.
    rewrite (proj2 (Qle_bool_false _ _)), (proj2 (Qle_bool_false _ _)) by done.
    simpl. by intros <-.
Qed.

End SetupFacts.

Module RunnerFacts.
Import Randomization Timing GoStop RandomizationFacts GoStopFacts Protocol.

(** ** Frames of the handlers *)

Lemma stop_timer_frame (handle : option nat) (s : ExperimentRunner) :
  ∃ ts, stop_timer handle s = set_timers ts s
        ∧ ∀ t, t ∈ ts → t ∈ timers s.
Proof.
  destruct handle as [id|]; simpl.
  - eexists. split; [done|]. by intros t [_ ?]%list_elem_of_filter.
  - exists (timers s). split; [by destruct s|done].
Qed.

(** What [record_trial_outcome] does to the state: nothing, or it rewrites
    the current entry, keeping its index, digit, class and onset. *)
Lemma record_trial_outcome_cases (s s1 : ExperimentRunner)
    (response_time_abs : option Z) (response_time_rel : option Q)
    (pressed : bool) :
  record_trial_outcome s response_time_abs response_time_rel pressed = Ok s1 →
  s1 = s
  ∨ ∃ a e tl ti,
      current_trial_entry s = Some a ∧ entries (log s) !! a = Some e
      ∧ block_trials s = Some tl
      ∧ py_index tl (current_trial_index s) = Some ti
      ∧ s1 = set_log
               (set_entries
                  (<[a := TrialEntry (trial_index e) (entry_digit e)
                            (is_go_trial e) (onset e) response_time_abs
                            response_time_rel
                            (if pressed then Some "space"%string else None)
                            (Some (classify (is_go ti) pressed))
                            (reaction_time e response_time_abs
                               response_time_rel pressed)]>
                     (entries (log s))) (log s)) s.
Proof.
  unfold record_trial_outcome.
  destruct (current_trial_entry s) as [a|] eqn:Hcur; [|intros [= <-]; by left].
  destruct (block_trials s) as [tl|] eqn:Htl; [|done].
  destruct (py_index tl (current_trial_index s)) as [ti|] eqn:Hti; [|done].
  destruct (entries (log s) !! a) as [e|] eqn:Hea; [|intros [= <-]; by left].
  intros [= <-]. right. by exists a, e, tl, ti.
Qed.

Lemma finish_experiment_static (c : clocks) (s : ExperimentRunner) :
  static s (finish_experiment c s).
Proof. unfold finish_experiment. by destruct (experiment_aborted s). Qed.

Lemma start_block_static (c : clocks) (s : ExperimentRunner) :
  static s (start_block c s).
Proof.
  unfold start_block. destruct (experiment_aborted s); [done|].
  destruct (_ <=? _); [apply finish_experiment_static|done].
Qed.

Lemma finish_block_static (c : clocks) (s s' : ExperimentRunner) :
  finish_block c s = Ok s' → static s s'.
Proof.
  unfold finish_block. destruct (experiment_aborted s); [by intros [= <-]|].
  destruct (blocks (log s) !! _); [|done].
  destruct (_ <=? _); intros [= <-]; [|done].
  apply (finish_experiment_static c
           (set_current_block_index (current_block_index s + 1) s)).
Qed.

Lemma show_trial_stimulus_static (c : clocks) (s s' : ExperimentRunner) :
  show_trial_stimulus c s = Ok s' → static s s'.
Proof.
  unfold show_trial_stimulus. destruct (experiment_aborted s); [by intros [= <-]|].
  destruct (block_trials s) as [tl|]; [|done].
  destruct (py_index tl _); [|done]. simpl.
  destruct (blocks (log s) !! _); [|done]. by intros [= <-].
Qed.

Lemma start_next_trial_static (c : clocks) (s s' : ExperimentRunner) :
  start_next_trial c s = Ok s' → static s s'.
Proof.
  unfold start_next_trial. destruct (experiment_aborted s); [by intros [= <-]|].
  simpl. destruct (block_trials s) as [tl|]; [|done].
  destruct (_ <=? _); [apply finish_block_static|].
  destruct (_ && _); [apply show_trial_stimulus_static|by intros [= <-]].
Qed.

Lemma start_trials_static (c : clocks) (s s' : ExperimentRunner) :
  start_trials c s = Ok s' → static s s'.
Proof.
  unfold start_trials. destruct (experiment_aborted s); [by intros [= <-]|].
  destruct (blocks (log s) !! _); [|done]. simpl.
  destruct (trial_schedule (config s) !! _); [|done].
  apply start_next_trial_static.
Qed.

Lemma record_trial_outcome_static (s s1 : ExperimentRunner)
    (response_time_abs : option Z) (response_time_rel : option Q)
    (pressed : bool) :
  record_trial_outcome s response_time_abs response_time_rel pressed = Ok s1 →
  static s s1.
Proof.
  intros [->|(a & e & tl & ti & _ & _ & _ & _ & ->)]%record_trial_outcome_cases;
    done.
Qed.

Lemma response_window_expired_static (c : clocks) (s s' : ExperimentRunner) :
  response_window_expired c s = Ok s' → static s s'.
Proof.
  unfold response_window_expired. destruct (experiment_aborted s); [by intros [= <-]|].
  destruct (_ || _); [by intros [= <-]|].
  destruct (record_trial_outcome s None None false) as [s1|] eqn:Hrec; [|done].
  simpl. intros Hnext. apply record_trial_outcome_static in Hrec as [Hc Hs].
  apply start_next_trial_static in Hnext as [Hc' Hs']. simpl in *.
  split; congruence.
Qed.

Lemma keyPressEvent_static (c : clocks) (k : key) (s s' : ExperimentRunner) :
  keyPressEvent c k s = Ok s' → static s s'.
Proof.
  unfold keyPressEvent. destruct (showing_results s).
  { destruct k; by intros [= <-]. }
  destruct k; [| |by intros [= <-]].
  { intros [= <-]. unfold abort_experiment. by destruct (experiment_aborted s). }
  destruct (_ || _); [by intros [= <-]|]. simpl.
  match goal with |- context [record_trial_outcome ?s0 ?a ?r true] =>
    destruct (record_trial_outcome s0 a r true) as [s1|] eqn:Hrec; [|done];
    assert (static s s0) as [Hc0 Hs0]
  end.
  { destruct (response_timer s); simpl; by destruct (stimulus_timer s). }
  simpl. intros Hnext. apply record_trial_outcome_static in Hrec as [Hc Hs].
  apply start_next_trial_static in Hnext as [Hc' Hs']. simpl in *.
  split; congruence.
Qed.

Lemma on_timeout_static (c : clocks) (id : nat) (s s' : ExperimentRunner) :
  on_timeout c id s = Ok s' → static s s'.
Proof.
  unfold on_timeout.
  destruct (list_find _ (timers s)) as [[i t]|]; [|by intros [= <-]].
  destruct (callback t) as [| | | | | |ct].
  - intros [= <-]. apply (start_block_static c (stop_timer (Some id) s)).
  - apply (start_trials_static c (stop_timer (Some id) s)).
  - apply (show_trial_stimulus_static c (stop_timer (Some id) s)).
  - by intros [= <-].
  - apply (response_window_expired_static c (stop_timer (Some id) s)).
  - intros [= <-]. unfold show_results_screen. simpl.
    by destruct (showing_results s).
  - destruct (handle_timeout _ _ ct) as [[calls ct'] nread'].
    destruct (ct_active ct'); [by intros [= <-]|].
    case_bool_decide; intros [= <-]; [|done].
    apply (start_block_static c
             (stop_timer (Some id) (set_rds (Reads nread' (wall_reads (rds s))) s))).
Qed.

Lemma run_static (c : clocks) (evs : list event) (s s' : ExperimentRunner) :
  run c evs s = Ok s' → static s s'.
Proof.
  revert s. induction evs as [|ev evs IH]; intros s; simpl; [by intros [= <-]|].
  destruct (handle c s ev) as [s1|] eqn:Hstep; [|done]. simpl. intros Hrun.
  destruct (IH s1 Hrun) as [Hc Hs].
  assert (static s s1) as [Hc1 Hs1].
  { unfold handle in Hstep. destruct (closed s); [by simplify_eq|].
    destruct ev; [by eapply on_timeout_static|by eapply keyPressEvent_static]. }
  split; congruence.
Qed.

(** ** What an abort leaves behind *)

Lemma aborted_handle (c : clocks) (s s' : ExperimentRunner) (ev : event) :
  experiment_aborted s = true → handle c s ev = Ok s' →
  experiment_aborted s' = true ∧ same_record s s'.
Proof.
  intros Hab. unfold handle, same_record.
  destruct (closed s); [by intros [= <-]|].
  destruct ev as [id|k].
  - unfold on_timeout.
    destruct (list_find _ (timers s)) as [[i t]|]; [|by intros [= <-]].
    destruct (callback t) as [| | | | | |ct].
    + unfold start_block. simpl. rewrite Hab. by intros [= <-].
    + unfold start_trials. simpl. rewrite Hab. by intros [= <-].
    + unfold show_trial_stimulus. simpl. rewrite Hab. by intros [= <-].
    + by intros [= <-].
    + unfold response_window_expired. simpl. rewrite Hab. by intros [= <-].
    + unfold show_results_screen. simpl.
      destruct (showing_results s); by intros [= <-].
    + destruct (handle_timeout _ _ ct) as [[calls ct'] nread'].
      destruct (ct_active ct'); [by intros [= <-]|].
      case_bool_decide; [|by intros [= <-]].
      unfold start_block. simpl. rewrite Hab. by intros [= <-].
  - unfold keyPressEvent. destruct (showing_results s).
    { destruct k; by intros [= <-]. }
    destruct k; [|..|by intros [= <-]].
    + unfold abort_experiment. rewrite Hab. by intros [= <-].
    + destruct (negb (in_response_window s) || response_recorded s);
        [by intros [= <-]|]. simpl.
      destruct (stop_timer_frame (response_timer s) (set_rds
                  (Reads (S (perf_reads (rds s))) (S (wall_reads (rds s)))) s))
        as (ts1 & -> & _). simpl.
      destruct (stop_timer_frame (stimulus_timer s) (set_timers ts1
                  (set_rds (Reads (S (perf_reads (rds s)))
                              (S (wall_reads (rds s)))) s)))
        as (ts2 & Hst & _). simpl in Hst. rewrite Hst. clear Hst.
      match goal with |- context [record_trial_outcome ?s0 ?a ?r true] =>
        destruct (record_trial_outcome s0 a r true) as [s1|] eqn:Hrec; [|done]
      end.
      apply record_trial_outcome_cases in Hrec
        as [->|(a & e & tl & ti & _ & _ & _ & _ & ->)];
        simpl; unfold start_next_trial; simpl; rewrite Hab; intros [= <-];
        simpl; rewrite ?length_insert; done.
Qed.

Lemma aborted_run (c : clocks) (evs : list event) (s s' : ExperimentRunner) :
  experiment_aborted s = true → run c evs s = Ok s' →
  experiment_aborted s' = true ∧ same_record s s'.
Proof.
  revert s. induction evs as [|ev evs IH]; intros s Hab; simpl.
  - intros [= <-]. by repeat split.
  - destruct (handle c s ev) as [s1|] eqn:Hstep; [|done]. simpl.
    destruct (aborted_handle c s s1 ev Hab Hstep)
      as (Hab1 & H1 & H2 & H3 & H4 & H5 & H6).
    intros Hrun.
    destruct (IH s1 Hab1 Hrun) as (Hab' & H1' & H2' & H3' & H4' & H5' & H6').
    split; [done|]. unfold same_record. by rewrite H1', H2', H3', H4', H5', H6'.
Qed.

(** X18.  An Escape key while the run is neither aborted nor showing its
    results aborts it for good.  Whatever events follow, the log says
    [completed = False], carries the abort reason and the abort time, and
    [experiment_end] is the abort time, the timestamp pair read when the key
    arrived; the start of the experiment and the inter-block intervals are
    as the key press found them, no block and no trial entry is added, and
    every block keeps its time stamps and the number of its trials.  What
    the trial entries hold is not frozen: the entry of a trial that was
    awaiting its response can still be scored by a Space key that arrives
    before the results screen. *)
Theorem abort_is_recorded_for_good (c : clocks) (evs : list event)
    (s s' : ExperimentRunner) :
  closed s = false → showing_results s = false → experiment_aborted s = false →
  run c (KeyPress Key_Escape :: evs) s = Ok s' →
  let abort_time := (timestamp_pair c (rds s) (stopwatch s)).1 in
  experiment_aborted s' = true
  ∧ status (log s') = Status false (Some abort_by_user) (Some abort_time)
  ∧ experiment_end (log s') = Some abort_time
  ∧ experiment_start (log s') = experiment_start (log s)
  ∧ inter_block_intervals (log s') = inter_block_intervals (log s)
  ∧ (∀ b, match blocks (log s') !! b, blocks (log s) !! b with
          | Some blk', Some blk =>
              block_start blk' = block_start blk
              ∧ rest_start blk' = rest_start blk
              ∧ task_start blk' = task_start blk
              ∧ post_rest_start blk' = post_rest_start blk
              ∧ length (trials blk') = length (trials blk)
          | None, None => True
          | _, _ => False
          end)
  ∧ length (entries (log s')) = length (entries (log s)).
Proof.
  intros Hcl Hshow Hab. simpl. unfold handle, keyPressEvent.
  rewrite Hcl, Hshow. simpl. unfold abort_experiment. rewrite Hab. simpl.
  intros Hrun.
  apply aborted_run in Hrun as (Hab' & H1 & H2 & H3 & H4 & H5 & H6); [|done].
  simpl in *. split; [done|]. split; [by rewrite H1|]. split; [by rewrite H2|].
  split; [by rewrite H3|]. split; [by rewrite H5|]. split; [|by rewrite H6].
  intros b. rewrite H4. by destruct (blocks (log s) !! b).
Qed.

Lemma abort_is_recorded_for_good_witness :
  ∃ s s',
    run demo_clocks [Timeout 0; Timeout 1] (init demo_clocks demo_config) = Ok s
    ∧ run demo_clocks [KeyPress Key_Escape; KeyPress Key_Space] s = Ok s'
    ∧ in_response_window s = true
    ∧ experiment_aborted s' = true
    ∧ length (entries (log s')) = length (entries (log s))
    ∧ map outcome (entries (log s)) = [None]
    ∧ map outcome (entries (log s')) = [Some hit].
Proof.
  destruct (run demo_clocks [Timeout 0; Timeout 1] (init demo_clocks demo_config))
    as [s|] eqn:Hs; [|by vm_compute in Hs].
  destruct (run demo_clocks [KeyPress Key_Escape; KeyPress Key_Space] s)
    as [s'|] eqn:Hs'.
  - exists s, s'. split; [reflexivity|]. split; [exact Hs'|].
    destruct (abort_is_recorded_for_good demo_clocks [KeyPress Key_Space] s s')
      as (Hab & _ & _ & _ & _ & _ & Hlen).
    + vm_compute in Hs. by injection Hs as <-.
    + vm_compute in Hs. by injection Hs as <-.
    + vm_compute in Hs. by injection Hs as <-.
    + exact Hs'.
    + split; [vm_compute in Hs; by injection Hs as <-|].
      split; [exact Hab|]. split; [exact Hlen|].
      vm_compute in Hs. injection Hs as <-.
      vm_compute in Hs'. injection Hs' as <-. by vm_compute.
  - exfalso. vm_compute in Hs. injection Hs as <-. by vm_compute in Hs'.
Defined.

End RunnerFacts.

Module ProtocolFacts.
Import Randomization Timing GoStop RandomizationFacts GoStopFacts Protocol
  RunnerFacts.

(** ** The log follows the schedule *)

Lemma pending_advancing (cb : timer_callback) (s : ExperimentRunner) :
  is_advancing cb = true → timer_pending cb s → advancing (timers s) ≠ [].
Proof.
  intros Hadv (t & Ht & Hcb) Hnil.
  assert (t ∈ advancing (timers s)) as Hin
    by (apply list_elem_of_filter; by rewrite Hcb).
  rewrite Hnil in Hin. by apply elem_of_nil in Hin.
Qed.

(** Between phases nothing is waited for. *)
Lemma Idle_Phase (s : ExperimentRunner) : Idle s → Phase s.
Proof.
  intros [_ Hidle] Hab. destruct (Hidle Hab) as (Hirw & Hadv & _).
  split; [|split].
  - intros Hp. by apply pending_advancing in Hp.
  - intros Hp. by apply pending_advancing in Hp.
  - congruence.
Qed.

(** A state that differs from an idle one in neither the timers nor the
    flags the phases are read from. *)
Lemma Phase_no_wait (s : ExperimentRunner) :
  advancing (timers s) = [] → in_response_window s = false → Phase s.
Proof.
  intros Hadv Hirw _. split; [|split].
  - intros Hp. by apply pending_advancing in Hp.
  - intros Hp. by apply pending_advancing in Hp.
  - congruence.
Qed.

Lemma Phase_other_wait (s : ExperimentRunner) :
  in_response_window s = false →
  (∀ t, t ∈ timers s →
     callback t ≠ CbStartTrials ∧ callback t ≠ CbShowTrialStimulus) →
  Phase s.
Proof.
  intros Hirw Hts _. split; [|split].
  - intros (t & Ht & Hcb). by destruct (Hts t Ht).
  - intros (t & Ht & Hcb). by destruct (Hts t Ht).
  - congruence.
Qed.

Lemma not_advancing_other (l : list qtimer) (t : qtimer) :
  advancing l = [] → t ∈ l →
  callback t ≠ CbStartTrials ∧ callback t ≠ CbShowTrialStimulus.
Proof.
  intros Hadv Ht.
  assert (is_advancing (callback t) ≠ true) as Hna.
  { intros Ha. assert (t ∈ advancing l) as Hin by (by apply list_elem_of_filter).
    rewrite Hadv in Hin. by apply elem_of_nil in Hin. }
  split; intros Hcb; by rewrite Hcb in Hna.
Qed.

Lemma follows_schedule_entries (s s' : ExperimentRunner) (b : Z)
    (blk : block_record) :
  config s' = config s →
  (∀ a e, entries (log s) !! a = Some e →
     ∃ e', entries (log s') !! a = Some e'
           ∧ trial_index e' = trial_index e ∧ entry_digit e' = entry_digit e
           ∧ is_go_trial e' = is_go_trial e) →
  follows_schedule s b blk → follows_schedule s' b blk.
Proof.
  intros Hcfg Hent Hf i a Hia.
  destruct (Hf i a Hia) as (tl & e & Htl & Hae & ti & Hti & Hidx & Hd & Hg).
  destruct (Hent a e Hae) as (e' & Hae' & Hi' & Hd' & Hg').
  exists tl, e'. rewrite Hcfg. split; [done|]. split; [done|].
  exists ti. by rewrite Hi', Hd', Hg'.
Qed.

(** [Logged] depends on the configuration, the block index, the blocks and,
    through the fields the schedule fixes, the entries. *)
Lemma Logged_frame (s s' : ExperimentRunner) :
  config s' = config s → current_block_index s' = current_block_index s →
  blocks (log s') = blocks (log s) →
  (completed (status (log s')) = true → completed (status (log s)) = true) →
  (∀ a e, entries (log s) !! a = Some e →
     ∃ e', entries (log s') !! a = Some e'
           ∧ trial_index e' = trial_index e ∧ entry_digit e' = entry_digit e
           ∧ is_go_trial e' = is_go_trial e) →
  Logged s → Logged s'.
Proof.
  intros Hcfg Hcbi Hblk Hst Hent (H0 & Hb & Hd & Hc).
  unfold Logged. rewrite Hcbi, Hblk, Hcfg. split; [done|]. split; [|split].
  - intros b blk Hbb. destruct (Hb b blk Hbb) as (? & ? & Hf).
    split; [done|]. split; [done|]. by eapply follows_schedule_entries.
  - intros b Hrange. destruct (Hd b Hrange) as (blk & tl & ? & ? & ?).
    exists blk, tl. by rewrite Hblk, Hcfg.
  - intros Hcomp. by apply Hc, Hst.
Qed.

Lemma Logged_same_log (s s' : ExperimentRunner) :
  config s' = config s → current_block_index s' = current_block_index s →
  blocks (log s') = blocks (log s) → entries (log s') = entries (log s) →
  (completed (status (log s')) = true → completed (status (log s)) = true) →
  Logged s → Logged s'.
Proof.
  intros Hcfg Hcbi Hblk Hent Hst. apply Logged_frame; try done.
  intros a e Hae. exists e. by rewrite Hent.
Qed.

Lemma finish_experiment_Sched (c : clocks) (s : ExperimentRunner) :
  Idle s → Logged s →
  (experiment_aborted s = false → n_blocks (config s) ≤ current_block_index s) →
  Sched (finish_experiment c s).
Proof.
  intros HI HL Hlast. unfold finish_experiment.
  destruct (experiment_aborted s) eqn:Hab; [split; [done|by apply Idle_Phase]|].
  destruct HI as [_ Hidle]. destruct (Hidle Hab) as (Hirw & Hadv & _).
  split.
  - destruct HL as (H0 & Hb & Hd & _). split; [done|]. split; [|split].
    + intros b blk Hbb. destruct (Hb b blk Hbb) as (? & ? & Hf).
      split; [done|]. split; [done|].
      eapply (follows_schedule_entries s); [done| |done].
      intros a e Hae. by exists e.
    + exact Hd.
    + intros _. by apply Hlast.
  - apply Phase_no_wait; simpl; [|done]. by rewrite advancing_app, Hadv.
Qed.

Lemma start_block_Sched (c : clocks) (s : ExperimentRunner) :
  Idle s → Logged s → Sched (start_block c s).
Proof.
  intros HI HL. unfold start_block.
  destruct (experiment_aborted s) eqn:Hab; [split; [done|by apply Idle_Phase]|].
  destruct (n_blocks (config s) <=? current_block_index s) eqn:Hlast.
  { apply Z.leb_le in Hlast. by apply finish_experiment_Sched. }
  apply Z.leb_gt in Hlast.
  destruct HI as [_ Hidle]. destruct (Hidle Hab) as (Hirw & Hadv & Hcomp).
  destruct HL as (H0 & Hb & Hd & _).
  set (bn := current_block_index s + 1).
  split.
  - split; [done|]. simpl. fold bn. split; [|split].
    + intros b blk. destruct (decide (b = bn)) as [->|Hne].
      * rewrite lookup_alter_eq, lookup_insert_eq. simpl. intros [= <-].
        split; [lia|]. split; [lia|]. by intros i a ?.
      * rewrite lookup_alter_ne, lookup_insert_ne by done. intros Hbb.
        destruct (Hb b blk Hbb) as (? & ? & Hf). split; [done|]. split; [done|].
        eapply (follows_schedule_entries s); [done| |done].
        intros a e Hae. by exists e.
    + intros b Hrange. destruct (Hd b Hrange) as (blk & tl & ? & ? & ?).
      exists blk, tl. simpl. fold bn.
      rewrite lookup_alter_ne, lookup_insert_ne by lia. done.
    + congruence.
  - intros _. simpl. fold bn. split; [|split].
    + intros _. eexists. rewrite lookup_alter_eq, lookup_insert_eq. simpl.
      split; [done|done].
    + intros (t & Ht & Hcb). exfalso. apply elem_of_app in Ht as [Ht|Ht].
      * assert (t ∈ advancing (timers s)) as Hin
          by (apply list_elem_of_filter; by rewrite Hcb).
        rewrite Hadv in Hin. by apply elem_of_nil in Hin.
      * apply list_elem_of_singleton in Ht. by subst.
    + congruence.
Qed.

Lemma finish_block_Sched (c : clocks) (s s' : ExperimentRunner) :
  Idle s → Logged s →
  (experiment_aborted s = false → block_done s (current_block_index s + 1)) →
  finish_block c s = Ok s' → Sched s'.
Proof.
  intros HI HL Hdone. unfold finish_block.
  destruct (experiment_aborted s) eqn:Hab;
    [intros [= <-]; split; [done|by apply Idle_Phase]|].
  specialize (Hdone eq_refl).
  destruct (blocks (log s) !! _) as [blk0|] eqn:Hblk0; [|done].
  assert (Hfalse : completed (status (log s)) = false).
  { destruct HI as [_ Hidle]. by destruct (Hidle Hab) as (_ & _ & ?). }
  assert (HL' : ∀ s1 : ExperimentRunner,
            config s1 = config s →
            current_block_index s1 = current_block_index s + 1 →
            entries (log s1) = entries (log s) →
            status (log s1) = status (log s) →
            (∀ b, b ≠ current_block_index s + 1 →
                  blocks (log s1) !! b = blocks (log s) !! b) →
            (∃ blk1, blocks (log s1) !! (current_block_index s + 1) = Some blk1
                     ∧ trials blk1 = trials blk0) →
            Logged s1).
  { intros s1 Hcfg Hcbi Hent Hst Hother (blk1 & Hblk1 & Htr).
    destruct HL as (H0 & Hb & Hd & _). unfold Logged. rewrite Hcbi, Hcfg, Hst.
    split; [lia|]. split; [|split; [|congruence]].
    - intros b blk. destruct (decide (b = current_block_index s + 1)) as [->|Hne].
      + rewrite Hblk1. intros [= <-].
        destruct (Hb _ _ Hblk0) as (? & ? & Hf). split; [lia|]. split; [done|].
        intros i a Hia. rewrite Htr in Hia.
        destruct (Hf i a Hia) as (tl & e & ? & ? & ?). exists tl, e.
        by rewrite Hcfg, Hent.
      + rewrite Hother by done. intros Hbb.
        destruct (Hb b blk Hbb) as (? & ? & Hf). split; [lia|]. split; [done|].
        eapply (follows_schedule_entries s); [done| |done].
        intros a e Hae. exists e. by rewrite Hent.
    - intros b Hrange. destruct (decide (b = current_block_index s + 1)) as [->|Hne].
      + destruct Hdone as (blk & tl & Hbb & Htl & Hlen).
        exists blk1, tl. rewrite Hcfg. split; [done|]. split; [done|].
        rewrite Htr. by simplify_eq.
      + destruct (Hd b ltac:(lia)) as (blk & tl & ? & ? & ?).
        exists blk, tl. by rewrite Hother, Hcfg. }
  destruct (n_blocks (config s) <=? _) eqn:Hlast.
  { apply Z.leb_le in Hlast. intros [= <-]. pose proof HI as [HInv Hidle].
    apply finish_experiment_Sched.
    - split; [exact HInv|exact Hidle].
    - apply HL'; simpl; try done. by exists blk0.
    - done. }
  intros [= <-].
  destruct HI as [_ Hidle]. destruct (Hidle Hab) as (Hirw & Hadv & _).
  split.
  - apply HL'; simpl; try done.
    + intros b Hne. by rewrite lookup_alter_ne.
    + eexists. rewrite lookup_alter_eq, Hblk0. simpl. done.
  - apply Phase_other_wait; simpl; [done|].
    intros t [Ht| ->%list_elem_of_singleton]%elem_of_app; [|done].
    by apply (not_advancing_other (timers s)).
Qed.

Lemma py_index_nonneg {A : Type} (l : list A) (i : Z) :
  0 ≤ i → py_index l i = l !! Z.to_nat i.
Proof. intros Hi. unfold py_index. by rewrite (proj2 (Z.leb_le 0 i)). Qed.

Lemma show_trial_stimulus_Sched (c : clocks) (s s' : ExperimentRunner) :
  Idle s → Logged s →
  (experiment_aborted s = false →
     0 ≤ current_trial_index s
     ∧ block_under_way s (Z.to_nat (current_trial_index s))) →
  show_trial_stimulus c s = Ok s' → Sched s'.
Proof.
  intros HI HL Hpre. unfold show_trial_stimulus.
  destruct (experiment_aborted s) eqn:Hab;
    [intros [= <-]; split; [done|by apply Idle_Phase]|].
  destruct (Hpre eq_refl) as (Hidx & blk0 & tl & Hblk0 & Htl & Hsched & Hlen).
  rewrite Htl, py_index_nonneg by done.
  destruct (tl !! Z.to_nat (current_trial_index s)) as [ti|] eqn:Hti; [|done].
  simpl. rewrite Hblk0. intros [= <-].
  destruct HL as (H0 & Hb & Hd & Hc).
  set (bn := current_block_index s + 1) in *.
  split.
  - split; [done|]. simpl. fold bn. split; [|split; [|exact Hc]].
    + intros b blk. destruct (decide (b = bn)) as [->|Hne].
      * rewrite lookup_alter_eq, Hblk0. simpl. intros [= <-]. simpl.
        destruct (Hb _ _ Hblk0) as (? & ? & Hf). split; [done|]. split; [done|].
        intros i a Hia. apply lookup_app_Some in Hia as [Hia|[Hge Hia]].
        -- destruct (Hf i a Hia) as (tl' & e & ? & Hae & ?). exists tl', e.
           split; [done|]. split; [|done]. by apply lookup_app_l_Some.
        -- apply list_lookup_singleton_Some in Hia as [Hi <-].
           assert (i = Z.to_nat (current_trial_index s)) as -> by lia.
           exists tl. eexists. split; [done|].
           split; [by simpl; rewrite lookup_app_r, Nat.sub_diag|].
           exists ti. simpl. split; [done|]. split; [lia|done].
      * rewrite lookup_alter_ne by done. intros Hbb.
        destruct (Hb b blk Hbb) as (? & ? & Hf). split; [done|]. split; [done|].
        eapply (follows_schedule_entries s); [done| |done].
        intros a e Hae. exists e. split; [|done]. by apply lookup_app_l_Some.
    + intros b Hrange. destruct (Hd b Hrange) as (blk & tl' & ? & ? & ?).
      exists blk, tl'. simpl. fold bn. by rewrite lookup_alter_ne by lia.
  - intros _. simpl. fold bn.
    destruct HI as [_ Hidle]. destruct (Hidle Hab) as (_ & Hadv & _).
    assert (Hother : ∀ t, t ∈ (timers s ++ [QTimer (next_timer_id s)
                (Qtruncate (stimulus_duration_s (config s) * 1000))
                CbHideStimulus true]) ++
              [QTimer (S (next_timer_id s))
                 (Qtruncate (max_response_window_s (config s) * 1000))
                 CbResponseWindowExpired true] →
              callback t ≠ CbStartTrials ∧ callback t ≠ CbShowTrialStimulus).
    { intros t [[Ht| ->%list_elem_of_singleton]%elem_of_app
                | ->%list_elem_of_singleton]%elem_of_app; [|done|done].
      by apply (not_advancing_other (timers s)). }
    split; [|split].
    + intros (t & Ht & Hcb). by destruct (Hother t Ht).
    + intros (t & Ht & Hcb). by destruct (Hother t Ht).
    + intros _. split; [done|]. unfold block_under_way. simpl. fold bn.
      eexists _, tl.
      rewrite lookup_alter_eq, Hblk0. simpl. split; [done|]. split; [done|].
      split; [done|]. simpl. rewrite length_app. simpl. lia.
Qed.

Lemma start_next_trial_Sched (c : clocks) (s s' : ExperimentRunner) :
  Idle s → Logged s →
  (experiment_aborted s = false →
     -1 ≤ current_trial_index s
     ∧ ∃ blk tl, blocks (log s) !! (current_block_index s + 1) = Some blk
                 ∧ block_trials s = Some tl
                 ∧ trial_schedule (config s) !! (current_block_index s + 1)
                   = Some tl
                 ∧ Z.of_nat (length (trials blk)) = current_trial_index s + 1
                 ∧ (length (trials blk) ≤ length tl)%nat) →
  start_next_trial c s = Ok s' → Sched s'.
Proof.
  intros HI HL Hpre. unfold start_next_trial.
  destruct (experiment_aborted s) eqn:Hab;
    [intros [= <-]; split; [done|by apply Idle_Phase]|].
  destruct (Hpre eq_refl) as (Hidx & blk & tl & Hblk & Htl & Hsched & Hk & Hle).
  simpl. rewrite Htl.
  destruct HI as [HInv Hidle]. destruct (Hidle Hab) as (Hirw & Hadv & Hcomp).
  assert (Hidle' : ∀ s1 : ExperimentRunner,
            experiment_aborted s1 = false → in_response_window s1 = false →
            log s1 = log s → timers s1 = timers s → Idle s1).
  { intros s1 Hab1 Hirw1 Hlog Htim.
    pose proof (Idle_results s) as Hnores.
    pose proof (Inv_all_settled s HInv Hab Hirw) as Hall. split.
    - apply Inv_between_phases; rewrite ?Hlog, ?Htim; try done.
      + rewrite Hadv. simpl. lia.
      + intros t Ht Hcb. exfalso. eapply Hnores; [by split|done|done|done].
    - intros _. by rewrite Htim, Hlog. }
  destruct (Z.of_nat (length tl) <=? current_trial_index s + 1) eqn:Hfin.
  { apply Z.leb_le in Hfin. apply finish_block_Sched.
    - by apply Hidle'.
    - by apply (Logged_same_log s).
    - intros _. exists blk, tl. simpl. split; [done|]. split; [done|]. lia. }
  apply Z.leb_gt in Hfin.
  destruct (first_trial_in_block s && (current_trial_index s + 1 =? 0)) eqn:Hfirst.
  { apply andb_true_iff in Hfirst as [_ H0]. apply Z.eqb_eq in H0.
    apply show_trial_stimulus_Sched.
    - by apply Hidle'.
    - by apply (Logged_same_log s).
    - intros _. simpl. split; [lia|]. exists blk, tl. repeat split; try done. lia. }
  intros [= <-]. split; [by apply (Logged_same_log s)|].
  intros _. simpl. split; [|split].
  - intros (t & Ht & Hcb). exfalso.
    apply elem_of_app in Ht as [Ht| ->%list_elem_of_singleton]; [|done].
    by destruct (not_advancing_other (timers s) t Hadv Ht).
  - intros _. split; [lia|]. exists blk, tl. repeat split; try done. lia.
  - done.
Qed.

Lemma start_trials_Sched (c : clocks) (s s' : ExperimentRunner) :
  Idle s → Logged s →
  (experiment_aborted s = false →
     ∃ blk, blocks (log s) !! (current_block_index s + 1) = Some blk
            ∧ trials blk = []) →
  start_trials c s = Ok s' → Sched s'.
Proof.
  intros HI HL Hpre. unfold start_trials.
  destruct (experiment_aborted s) eqn:Hab;
    [intros [= <-]; split; [done|by apply Idle_Phase]|].
  destruct (Hpre eq_refl) as (blk & Hblk & Htr). rewrite Hblk. simpl.
  destruct (trial_schedule (config s) !! _) as [tl|] eqn:Hsched; [|done].
  destruct HI as [HInv Hidle]. destruct (Hidle Hab) as (Hirw & Hadv & Hcomp).
  destruct HL as (H0 & Hb & Hd & Hc).
  set (bn := current_block_index s + 1) in *.
  apply start_next_trial_Sched.
  - pose proof (Idle_results s) as Hnores.
    pose proof (Inv_all_settled s HInv Hab Hirw) as Hall. split; [|done].
    apply Inv_between_phases; simpl; try done.
    + rewrite Hadv. simpl. lia.
    + intros t Ht Hcb. exfalso. eapply Hnores; [by split|done|done|done].
  - split; [done|]. simpl. fold bn. split; [|split; [|exact Hc]].
    + intros b blk'. destruct (decide (b = bn)) as [->|Hne].
      * rewrite lookup_alter_eq, Hblk. simpl. intros [= <-]. simpl.
        destruct (Hb _ _ Hblk) as (? & ? & Hf). split; [done|]. split; [done|].
        rewrite Htr. by intros i a ?.
      * rewrite lookup_alter_ne by done. intros Hbb.
        destruct (Hb b blk' Hbb) as (? & ? & Hf). split; [done|]. split; [done|].
        eapply (follows_schedule_entries s); [done| |done].
        intros a e Hae. by exists e.
    + intros b Hrange. destruct (Hd b Hrange) as (blk' & tl' & ? & ? & ?).
      exists blk', tl'. simpl. fold bn. by rewrite lookup_alter_ne by lia.
  - intros _. simpl. fold bn. split; [lia|]. eexists _, tl.
    rewrite lookup_alter_eq, Hblk. simpl. rewrite Htr. simpl.
    repeat split; try done. simpl. lia.
Qed.

(** [Phase] is kept when timers are only removed, the response window is
    only closed, and the fields it reads stay. *)
Lemma Phase_frame (s s' : ExperimentRunner) :
  experiment_aborted s' = experiment_aborted s →
  (∀ t, t ∈ timers s' →
     t ∈ timers s
     ∨ (callback t ≠ CbStartTrials ∧ callback t ≠ CbShowTrialStimulus)) →
  (in_response_window s' = true → in_response_window s = true) →
  config s' = config s → current_block_index s' = current_block_index s →
  current_trial_index s' = current_trial_index s →
  block_trials s' = block_trials s → blocks (log s') = blocks (log s) →
  Phase s → Phase s'.
Proof.
  intros Hab Hts Hirw Hcfg Hcbi Hidx Htl Hblk HP Hab'. rewrite Hab in Hab'.
  destruct (HP Hab') as (H1 & H2 & H3).
  assert (Hpend : ∀ cb, cb = CbStartTrials ∨ cb = CbShowTrialStimulus →
            timer_pending cb s' → timer_pending cb s).
  { intros cb Hadv (t & Ht & Hcb). destruct (Hts t Ht) as [Ht0|[Hn1 Hn2]].
    - by exists t.
    - destruct Hadv; congruence. }
  unfold block_under_way. rewrite Hcfg, Hcbi, Hidx, Htl, Hblk.
  split; [|split]; eauto.
Qed.

Lemma Sched_frame (s s' : ExperimentRunner) :
  experiment_aborted s' = experiment_aborted s →
  (∀ t, t ∈ timers s' →
     t ∈ timers s
     ∨ (callback t ≠ CbStartTrials ∧ callback t ≠ CbShowTrialStimulus)) →
  (in_response_window s' = true → in_response_window s = true) →
  config s' = config s → current_block_index s' = current_block_index s →
  current_trial_index s' = current_trial_index s →
  block_trials s' = block_trials s → blocks (log s') = blocks (log s) →
  entries (log s') = entries (log s) → status (log s') = status (log s) →
  Sched s → Sched s'.
Proof.
  intros ? ? ? ? ? ? ? ? ? Hst [HL HP]. split.
  - apply (Logged_same_log s); try done. by rewrite Hst.
  - by apply (Phase_frame s).
Qed.

Lemma stop_timer_Sched (handle : option nat) (s : ExperimentRunner) :
  Sched s → Sched (stop_timer handle s).
Proof.
  destruct (stop_timer_frame handle s) as (ts & -> & Hts).
  apply Sched_frame; try done. intros t Ht. left. by apply Hts.
Qed.

(** Scoring the awaited trial and moving on. *)
Lemma response_Sched (c : clocks) (s s1 s' : ExperimentRunner)
    (response_time_abs : option Z) (response_time_rel : option Q)
    (pressed : bool) :
  Inv s → Sched s → in_response_window s = true → response_recorded s = false →
  (if pressed then is_Some response_time_abs ∧ is_Some response_time_rel
   else response_time_abs = None ∧ response_time_rel = None) →
  record_trial_outcome s response_time_abs response_time_rel pressed = Ok s1 →
  start_next_trial c (set_in_response_window false (set_response_recorded true s1))
    = Ok s' →
  Sched s'.
Proof.
  intros HInv [HL HP] Hirw Hrr Hargs Hrec.
  pose proof (record_trial_outcome_Idle s s1 _ _ _ HInv Hirw Hrr Hargs Hrec) as HIdle.
  assert (Hsame : experiment_aborted s1 = experiment_aborted s
            ∧ config s1 = config s
            ∧ current_block_index s1 = current_block_index s
            ∧ current_trial_index s1 = current_trial_index s
            ∧ block_trials s1 = block_trials s
            ∧ blocks (log s1) = blocks (log s)
            ∧ status (log s1) = status (log s)
            ∧ ∀ a e, entries (log s) !! a = Some e →
                ∃ e', entries (log s1) !! a = Some e'
                      ∧ trial_index e' = trial_index e
                      ∧ entry_digit e' = entry_digit e
                      ∧ is_go_trial e' = is_go_trial e).
  { apply record_trial_outcome_cases in Hrec
      as [->|(a & e & tl & ti & _ & Hae & _ & _ & ->)].
    - repeat split; try done. intros a e Hae. by exists e.
    - simpl. repeat split; try done. intros a' e' Hae'.
      destruct (decide (a' = a)) as [->|Hne].
      + rewrite list_lookup_insert_eq by (by eapply lookup_lt_Some).
        eexists. split; [done|]. simpl. by simplify_eq.
      + rewrite list_lookup_insert_ne by done. by exists e'. }
  destruct Hsame as (Hab & Hcfg & Hcbi & Hidx & Htl & Hblk & Hst & Hent).
  apply start_next_trial_Sched; [done| |].
  - apply (Logged_frame s); simpl; try done. by rewrite Hst.
  - simpl. rewrite Hab, Hcfg, Hcbi, Hidx, Htl, Hblk. intros Hab'.
    destruct (HP Hab') as (_ & _ & Hresp).
    destruct (Hresp Hirw) as (H0 & blk & tl & Hb & Ht & Hs & Hlen).
    split; [lia|]. exists blk, tl. repeat split; try done; [lia|].
    destruct HL as (_ & Hfol & _). destruct (Hfol _ _ Hb) as (_ & _ & Hf).
    destruct (lookup_lt_is_Some_2 (trials blk) (Z.to_nat (current_trial_index s)))
      as [a Ha]; [lia|].
    destruct (Hf _ _ Ha) as (tl' & e & Hs' & _ & ti & Hti & _).
    rewrite Hs in Hs'. injection Hs' as <-.
    apply lookup_lt_Some in Hti. lia.
Qed.

Lemma response_window_expired_Sched (c : clocks) (s s' : ExperimentRunner) :
  Inv s → Sched s → response_window_expired c s = Ok s' → Sched s'.
Proof.
  intros HInv HS. unfold response_window_expired.
  destruct (experiment_aborted s); [by intros [= <-]|].
  destruct (response_recorded s) eqn:Hrr; [by intros [= <-]|].
  destruct (in_response_window s) eqn:Hirw; [|by intros [= <-]]. simpl.
  destruct (record_trial_outcome s None None false) as [s1|] eqn:Hrec; [|done].
  simpl. by apply (response_Sched c s s1 s' None None false).
Qed.

Lemma show_results_screen_Sched (s : ExperimentRunner) :
  Sched s → Sched (show_results_screen s).
Proof.
  intros HS. unfold show_results_screen. destruct (showing_results s); [done|].
  revert HS. apply Sched_frame; simpl; try done.
  intros t [_ Ht]%list_elem_of_filter. by left.
Qed.

Lemma abort_experiment_Sched (c : clocks) (reason : string)
    (s : ExperimentRunner) :
  Sched s → Sched (abort_experiment c reason s).
Proof.
  intros [HL HP]. unfold abort_experiment.
  destruct (experiment_aborted s); [done|]. split.
  - by apply (Logged_same_log s).
  - by intros ?.
Qed.

Lemma keyPressEvent_Sched (c : clocks) (k : key) (s s' : ExperimentRunner) :
  Inv s → Sched s → keyPressEvent c k s = Ok s' → Sched s'.
Proof.
  intros HInv HS. unfold keyPressEvent.
  destruct (showing_results s).
  { destruct k; intros [= <-]; [|done|done]. revert HS.
    apply Sched_frame; simpl; try done. intros t Ht. by left. }
  destruct k; [intros [= <-]; by apply abort_experiment_Sched| |by intros [= <-]].
  destruct (in_response_window s) eqn:Hirw; [|by intros [= <-]].
  destruct (response_recorded s) eqn:Hrr; [by intros [= <-]|]. simpl.
  match goal with |- context [record_trial_outcome ?s0 ?a ?r true] =>
    destruct (record_trial_outcome s0 a r true) as [s1|] eqn:Hrec; [|done];
    simpl; apply (response_Sched c s0 s1 s' a r true)
  end.
  - do 2 apply stop_timer_Inv. exact HInv.
  - do 2 apply stop_timer_Sched. revert HS.
    apply Sched_frame; simpl; try done. intros t Ht. by left.
  - destruct (response_timer s); simpl; by destruct (stimulus_timer s).
  - destruct (response_timer s); simpl; by destruct (stimulus_timer s).
  - by eauto.
  - done.
Qed.

Lemma on_timeout_Sched (c : clocks) (id : nat) (s s' : ExperimentRunner) :
  Inv s → Sched s → on_timeout c id s = Ok s' → Sched s'.
Proof.
  intros HInv HS. unfold on_timeout.
  destruct (list_find _ (timers s)) as [[i t]|] eqn:Hfind; [|by intros [= <-]].
  apply list_find_Some in Hfind as (Hi & Hid & _).
  assert (Ht : t ∈ timers s) by (by eapply list_elem_of_lookup_2).
  subst id.
  pose proof (stop_timer_Sched (Some (timer_id t)) s HS) as [HL0 HP0].
  destruct (callback t) as [| | | | | |ct] eqn:Hcb.
  - intros [= <-]. apply start_block_Sched; [|done].
    apply (advancing_fired_Idle s t); [done|done|by rewrite Hcb].
  - apply start_trials_Sched; [|done|].
    + apply (advancing_fired_Idle s t); [done|done|by rewrite Hcb].
    + simpl. intros Hab. destruct HS as [_ HP]. destruct (HP Hab) as (Hrest & _).
      apply Hrest. by exists t.
  - apply show_trial_stimulus_Sched; [|done|].
    + apply (advancing_fired_Idle s t); [done|done|by rewrite Hcb].
    + simpl. intros Hab. destruct HS as [_ HP]. destruct (HP Hab) as (_ & Hiti & _).
      apply Hiti. by exists t.
  - by intros [= <-].
  - apply response_window_expired_Sched; [|done].
    by apply (stop_timer_Inv (Some (timer_id t)) s).
  - intros [= <-]. by apply show_results_screen_Sched.
  - destruct (handle_timeout _ _ ct) as [[calls ct'] nread'].
    destruct (ct_active ct').
    + intros [= <-]. revert HS. apply Sched_frame; simpl; try done.
      intros t0 Ht0. apply list_elem_of_lookup in Ht0 as [j Hj].
      destruct (decide (j = i)) as [->|Hne].
      * rewrite list_lookup_insert_eq in Hj by (by eapply lookup_lt_Some).
        injection Hj as <-. by right.
      * rewrite list_lookup_insert_ne in Hj by done.
        left. by eapply list_elem_of_lookup_2.
    + assert (HIdle : Idle (stop_timer (Some (timer_id t))
                              (set_rds (Reads nread' (wall_reads (rds s))) s))).
      { apply (advancing_fired_Idle s t); [done|done|by rewrite Hcb]. }
      case_bool_decide; intros [= <-]; [by apply start_block_Sched|done].
Qed.

Lemma init_Sched (c : clocks) (cfg : Config) : Sched (init c cfg).
Proof.
  split.
  - split; [done|]. split; [by intros b blk ?|].
    split; [intros b; simpl; lia|done].
  - apply Phase_other_wait; simpl; [done|].
    by intros t ->%list_elem_of_singleton.
Qed.

Lemma handle_Sched (c : clocks) (s s' : ExperimentRunner) (ev : event) :
  Inv s → Sched s → handle c s ev = Ok s' → Sched s'.
Proof.
  intros HInv HS. unfold handle. destruct (closed s); [by intros [= <-]|].
  destruct ev; [by apply on_timeout_Sched|by apply keyPressEvent_Sched].
Qed.

Lemma run_Sched (c : clocks) (evs : list event) (s s' : ExperimentRunner) :
  Inv s → Sched s → run c evs s = Ok s' → Sched s'.
Proof.
  revert s. induction evs as [|ev evs IH]; intros s HInv HS; simpl;
    [by intros [= <-]|].
  destruct (handle c s ev) as [s1|] eqn:Hstep; [|done]. simpl.
  apply IH; [by eapply handle_Inv|by eapply handle_Sched].
Qed.

Lemma run_from_init (c : clocks) (cfg : Config) (evs : list event)
    (s : ExperimentRunner) :
  run c evs (init c cfg) = Ok s → Inv s ∧ Sched s ∧ config s = cfg.
Proof.
  intros Hrun. split; [|split].
  - by apply (run_Inv c evs _ s (init_Inv c cfg)).
  - by apply (run_Sched c evs _ s (init_Inv c cfg) (init_Sched c cfg)).
  - by destruct (run_static c evs _ s Hrun) as [-> _].
Qed.

(** X19.  At every point of every run, whatever the clocks and the events,
    the log follows the schedule: a logged block has a number between 1 and
    [n_blocks], and its i-th trial entry (from 0) has [trial_index = i + 1]
    and the digit and the class of the i-th trial scheduled for that
    block. *)
Theorem log_follows_schedule (c : clocks) (cfg : Config) (evs : list event)
    (s : ExperimentRunner) :
  run c evs (init c cfg) = Ok s →
  ∀ b blk, blocks (log s) !! b = Some blk →
    1 ≤ b ≤ n_blocks cfg
    ∧ ∀ i a, trials blk !! i = Some a →
        ∃ tl ti e,
          trial_schedule cfg !! b = Some tl ∧ tl !! i = Some ti
          ∧ entries (log s) !! a = Some e
          ∧ trial_index e = Z.of_nat i + 1
          ∧ entry_digit e = digit ti ∧ is_go_trial e = is_go ti.
Proof.
  intros Hrun b blk Hb.
  destruct (run_from_init c cfg evs s Hrun) as (_ & [(_ & Hlog & _) _] & <-).
  destruct (Hlog b blk Hb) as (Hlo & Hhi & Hf). split; [lia|].
  intros i a Hia. destruct (Hf i a Hia) as (tl & e & Htl & Hae & ti & Hti & ?).
  by exists tl, ti, e.
Qed.

Lemma log_follows_schedule_witness :
  ∃ s, run demo_clocks demo_events (init demo_clocks demo_config) = Ok s
       ∧ ∀ b blk, blocks (log s) !! b = Some blk → 1 ≤ b ≤ 1.
Proof.
  destruct (run demo_clocks demo_events (init demo_clocks demo_config))
    as [s|] eqn:Hrun; [|by vm_compute in Hrun].
  exists s. split; [done|]. intros b blk Hb.
  by destruct (log_follows_schedule demo_clocks demo_config demo_events s Hrun
                 b blk Hb).
Defined.

(** X20.  A run whose log says [completed = True] has gone through the whole
    schedule: the log holds a block for every number from 1 to [n_blocks]
    and no other, and each of them has as many trial entries as its
    schedule has trials, every one of them scored. *)
Theorem completed_run_is_complete (c : clocks) (cfg : Config)
    (evs : list event) (s : ExperimentRunner) :
  run c evs (init c cfg) = Ok s →
  completed (status (log s)) = true →
  (∀ b, is_Some (blocks (log s) !! b) ↔ 1 ≤ b ≤ n_blocks cfg)
  ∧ (∀ b blk, blocks (log s) !! b = Some blk →
       ∃ tl, trial_schedule cfg !! b = Some tl
             ∧ length (trials blk) = length tl
             ∧ ∀ a, a ∈ trials blk →
                 ∃ e, entries (log s) !! a = Some e ∧ outcome e ≠ None).
Proof.
  intros Hrun Hcomp.
  destruct (run_from_init c cfg evs s Hrun)
    as (HInv & [(H0 & Hlog & Hdone & Hall) _] & <-).
  specialize (Hall Hcomp).
  assert (Hblock : ∀ b, 1 ≤ b ≤ n_blocks (config s) → block_done s b).
  { intros b Hb. apply Hdone. lia. }
  split.
  - intros b. split.
    + intros [blk Hb]. destruct (Hlog b blk Hb) as (? & ? & _). lia.
    + intros Hb. destruct (Hblock b Hb) as (blk & _ & -> & _). by eexists.
  - intros b blk Hb. destruct (Hlog b blk Hb) as (Hlo & Hhi & Hf).
    destruct (Hblock b ltac:(lia)) as (blk' & tl & Hb' & Htl & Hlen).
    rewrite Hb in Hb'. injection Hb' as <-.
    exists tl. split; [done|]. split; [done|].
    intros a Ha. apply list_elem_of_lookup in Ha as [i Hi].
    destruct (Hf i a Hi) as (_ & e & _ & Hae & _). exists e. split; [done|].
    destruct HInv as (He & _ & _ & Hd & _).
    destruct (Hd Hcomp) as (Hab & Hirw & _).
    destruct (He a e Hae) as [(pressed & Hout & _)|[_ [(Hw & _)|Hx]]];
      [by rewrite Hout|congruence|congruence].
Qed.

Lemma completed_run_is_complete_witness :
  ∃ s, run demo_clocks demo_events (init demo_clocks demo_config) = Ok s
       ∧ ∀ b, is_Some (blocks (log s) !! b) ↔ 1 ≤ b ≤ 1.
Proof.
  destruct (run demo_clocks demo_events (init demo_clocks demo_config))
    as [s|] eqn:Hrun; [|by vm_compute in Hrun].
  exists s. split; [done|].
  apply (completed_run_is_complete demo_clocks demo_config demo_events s Hrun).
  vm_compute in Hrun. by injection Hrun as <-.
Defined.

End ProtocolFacts.

(** ** The form of [MainWindow] *)

Module FormFacts.
Import Randomization RandomizationFacts Scheduler SchedulerFacts Setup SetupFacts
  ClockFacts Form.

Lemma py_max_spec (a b : Q) :
  ((a < b)%Q ∧ py_max a b = b) ∨ ((b <= a)%Q ∧ py_max a b = a).
Proof.
  unfold py_max. destruct (Qltb a b) eqn:H.
  - left. by apply Qltb_lt in H.
  - right. by apply Qltb_ge in H.
Qed.

Lemma py_min_spec (a b : Q) :
  ((b < a)%Q ∧ py_min a b = b) ∨ ((a <= b)%Q ∧ py_min a b = a).
Proof.
  unfold py_min. destruct (Qltb b a) eqn:H.
  - left. by apply Qltb_lt in H.
  - right. by apply Qltb_ge in H.
Qed.

Lemma bound_spec (lo hi v : Q) :
  (lo <= hi)%Q → (lo <= bound lo hi v)%Q ∧ (bound lo hi v <= hi)%Q.
Proof.
  intros Hle. unfold bound.
  destruct (py_min_spec hi v) as [[? ->]|[? ->]];
    destruct (py_max_spec lo v) as [[? Hm]|[? Hm]];
    destruct (py_max_spec lo hi) as [[? Hm']|[? Hm']];
    rewrite ?Hm, ?Hm'; split; lra.
Qed.

Lemma unit_interval (v : Q) :
  (0 <= py_max 0 (py_min 1 v))%Q ∧ (py_max 0 (py_min 1 v) <= 1)%Q
  ∧ ((v <= 0)%Q → (py_max 0 (py_min 1 v) == 0)%Q)
  ∧ ((1 <= v)%Q → (py_max 0 (py_min 1 v) == 1)%Q)
  ∧ ((0 <= v)%Q → (v <= 1)%Q → (py_max 0 (py_min 1 v) == v)%Q).
Proof.
  destruct (py_min_spec 1 v) as [[? ->]|[? ->]].
  - destruct (py_max_spec 0 v) as [[? ->]|[? ->]]; repeat split; intros; lra.
  - destruct (py_max_spec 0 1) as [[? ->]|[? ->]]; repeat split; intros; lra.
Qed.

Lemma blend_between (c1 c2 : Z) (frac : Q) :
  0 ≤ c1 → 0 ≤ c2 → (0 <= frac)%Q → (frac <= 1)%Q →
  Z.min c1 c2 ≤ blend c1 c2 frac ≤ Z.max c1 c2.
Proof.
  intros H1 H2 Hf0 Hf1. unfold blend.
  set (x := (inject_Z c1 + (inject_Z c2 - inject_Z c1) * frac)%Q).
  assert (Hlo : (inject_Z (Z.min c1 c2) <= x)%Q).
  { unfold x. destruct (Z.min_spec c1 c2) as [[Hlt ->]|[Hge ->]].
    - assert (inject_Z c1 <= inject_Z c2)%Q by (rewrite <- Zle_Qle; lia). nra.
    - assert (inject_Z c2 <= inject_Z c1)%Q by (rewrite <- Zle_Qle; lia). nra. }
  assert (Hhi : (x <= inject_Z (Z.max c1 c2))%Q).
  { unfold x. destruct (Z.max_spec c1 c2) as [[Hlt ->]|[Hge ->]].
    - assert (inject_Z c1 <= inject_Z c2)%Q by (rewrite <- Zle_Qle; lia). nra.
    - assert (inject_Z c2 <= inject_Z c1)%Q by (rewrite <- Zle_Qle; lia). nra. }
  assert (Hx0 : (0 <= x)%Q).
  { assert (inject_Z 0 <= inject_Z (Z.min c1 c2))%Q by (rewrite <- Zle_Qle; lia).
    change (inject_Z 0) with 0%Q in *. lra. }
  destruct (Qtruncate_nonneg x Hx0) as [-> _]. split.
  - rewrite <- (Qfloor_Z (Z.min c1 c2)). by apply Qfloor_resp_le.
  - apply Z.lt_succ_r. rewrite Zlt_Qlt.
    eapply Qle_lt_trans; [apply Qfloor_le|].
    eapply Qle_lt_trans; [exact Hhi|]. rewrite <- Zlt_Qlt. lia.
Qed.

Lemma viridis_color_spec (value : Q) :
  ∃ (i : nat) r1 g1 b1 r2 g2 b2 r g b,
    viridis_color value = Ok (r, g, b)
    ∧ stops !! i = Some (r1, g1, b1) ∧ stops !! S i = Some (r2, g2, b2)
    ∧ Z.min r1 r2 ≤ r ≤ Z.max r1 r2
    ∧ Z.min g1 g2 ≤ g ≤ Z.max g1 g2
    ∧ Z.min b1 b2 ≤ b ≤ Z.max b1 b2
    ∧ (0 ≤ r ≤ 255 ∧ 0 ≤ g ≤ 255 ∧ 0 ≤ b ≤ 255)
    ∧ ((value <= 0)%Q → (r, g, b) = (68, 1, 84))
    ∧ ((1 <= value)%Q → (r, g, b) = (253, 231, 37)).
Proof.
  unfold viridis_color.
  destruct (unit_interval value) as (Ht0 & Ht1 & Hzero & Hone & _).
  set (t := py_max 0 (py_min 1 value)) in *.
  change (Z.of_nat (length stops) - 1) with 4.
  set (scaled := (t * inject_Z 4)%Q).
  assert (Hs0 : (0 <= scaled)%Q) by (unfold scaled; change (inject_Z 4) with 4%Q; lra).
  assert (Hs4 : (scaled <= 4)%Q) by (unfold scaled; change (inject_Z 4) with 4%Q; lra).
  destruct (Qtruncate_nonneg scaled Hs0) as [Htr Hidx0]. rewrite !Htr in *.
  set (idx := Qfloor scaled) in *.
  assert (Hidx4 : idx ≤ 4).
  { unfold idx. rewrite <- (Qfloor_Z 4). by apply Qfloor_resp_le. }
  pose proof (Qfloor_le scaled) as Hfl. pose proof (Qlt_floor scaled) as Hfu.
  fold idx in Hfl, Hfu.
  destruct (Z.leb_spec 4 idx) as [Hge|Hlt].
  - assert (idx = 4) as Hidx by lia. simpl.
    exists 3%nat, 94, 201, 98, 253, 231, 37, 253, 231, 37.
    repeat split; try done; try lia.
    intros Hv. exfalso. specialize (Hzero Hv).
    rewrite Hidx in Hfl. change (inject_Z 4) with 4%Q in Hfl.
    unfold scaled in Hfl. change (inject_Z 4) with 4%Q in Hfl. lra.
  - set (frac := (scaled - inject_Z idx)%Q).
    assert (Hf0 : (0 <= frac)%Q) by (unfold frac; lra).
    assert (Hf1 : (frac <= 1)%Q).
    { unfold frac. rewrite inject_Z_plus in Hfu. change (inject_Z 1) with 1%Q in Hfu.
      lra. }
    assert (Hnot1 : ¬ (1 <= value)%Q).
    { intros Hv. specialize (Hone Hv).
      assert (scaled == 4)%Q as Hsc
        by (unfold scaled; change (inject_Z 4) with 4%Q; lra).
      assert (idx = 4); [|lia]. unfold idx. rewrite Hsc. apply (Qfloor_Z 4). }
    assert (Hfirst : (value <= 0)%Q → idx = 0 ∧ (frac == 0)%Q).
    { intros Hv. specialize (Hzero Hv).
      assert (scaled == 0)%Q as Hsc
        by (unfold scaled; change (inject_Z 4) with 4%Q; lra).
      assert (idx = 0) as Hi by (unfold idx; rewrite Hsc; apply (Qfloor_Z 0)).
      split; [done|]. unfold frac. rewrite Hi, Hsc. reflexivity. }
    assert (Hblend0 : ∀ c1 c2, 0 ≤ c1 → (frac == 0)%Q → blend c1 c2 frac = c1).
    { intros c1 c2 Hc1 Hfz. unfold blend.
      assert (inject_Z c1 + (inject_Z c2 - inject_Z c1) * frac == inject_Z c1)%Q
        as Heq by (rewrite Hfz; ring).
      assert (0 <= inject_Z c1 + (inject_Z c2 - inject_Z c1) * frac)%Q as Hnn.
      { rewrite Heq. change 0%Q with (inject_Z 0). rewrite <- Zle_Qle. lia. }
      destruct (Qtruncate_nonneg _ Hnn) as [-> _]. rewrite Heq. apply Qfloor_Z. }
    assert (idx = 0 ∨ idx = 1 ∨ idx = 2 ∨ idx = 3) as Hcases by lia.
    destruct Hcases as [Hi|[Hi|[Hi|Hi]]]; rewrite Hi; simpl;
      [exists 0%nat, 68, 1, 84, 59, 82, 139
      |exists 1%nat, 59, 82, 139, 33, 145, 140
      |exists 2%nat, 33, 145, 140, 94, 201, 98
      |exists 3%nat, 94, 201, 98, 253, 231, 37];
      eexists _, _, _; (split; [reflexivity|]);
      (split; [reflexivity|]); (split; [reflexivity|]);
      match goal with
      | |- context [blend ?r1 ?r2 _] =>
          match goal with
          | |- context [(blend r1 r2 _, blend ?g1 ?g2 _, blend ?b1 ?b2 _)] =>
              pose proof (blend_between r1 r2 frac) as Hr;
              pose proof (blend_between g1 g2 frac) as Hg;
              pose proof (blend_between b1 b2 frac) as Hb
          end
      end;
      specialize (Hr ltac:(lia) ltac:(lia) Hf0 Hf1);
      specialize (Hg ltac:(lia) ltac:(lia) Hf0 Hf1);
      specialize (Hb ltac:(lia) ltac:(lia) Hf0 Hf1);
      fold frac;
      (split; [exact Hr|]); (split; [exact Hg|]); (split; [exact Hb|]);
      (split; [lia|]);
      (split; [|by intros ?]);
      intros Hv; destruct (Hfirst Hv) as [Hi0 Hfz]; try lia;
      by rewrite !Hblend0 by (lia || done).
Qed.


(** *** Dicts of widgets *)

Lemma call_keys {A : Type} (f : A → A) (d : Z) (ws : widgets A) :
  (call f d ws).*1 = ws.*1.
Proof.
  unfold call. induction ws as [|[k a] rest IH]; [done|].
  rewrite map_cons, !fmap_cons. f_equal; [by case_bool_decide|exact IH].
Qed.

Lemma widget_call {A : Type} (f : A → A) (d : Z) (ws : widgets A) (d' : Z) :
  widget (call f d ws) d'
  = match widget ws d' with
    | Ok a => Ok (if bool_decide (d' = d) then f a else a)
    | Raise e => Raise e
    end.
Proof.
  induction ws as [|[k a] rest IH]; [done|].
  unfold call in *. rewrite map_cons. cbn [widget fst snd].
  destruct (decide (k = d)) as [->|Hkd].
  - rewrite (bool_decide_eq_true_2 (d = d)) by done. cbn [widget fst snd].
    destruct (decide (d = d')) as [<-|Hd].
    + by rewrite !(bool_decide_eq_true_2 (d = d)) by done.
    + rewrite !(bool_decide_eq_false_2 (d = d')) by done. exact IH.
  - rewrite (bool_decide_eq_false_2 (k = d)) by done. cbn [widget fst snd].
    destruct (decide (k = d')) as [<-|Hd].
    + rewrite !(bool_decide_eq_true_2 (k = k)) by done.
      by rewrite (bool_decide_eq_false_2 (k = d)) by done.
    + rewrite !(bool_decide_eq_false_2 (k = d')) by done. exact IH.
Qed.

Lemma widget_keys {A : Type} (ws : widgets A) (d : Z) :
  d ∈ ws.*1 → ∃ a, widget ws d = Ok a.
Proof.
  induction ws as [|[k a] rest IH]; simpl.
  - by intros ?%elem_of_nil.
  - intros [->|Hin]%elem_of_cons.
    + rewrite bool_decide_eq_true_2 by done. by eauto.
    + case_bool_decide; [by eauto|by apply IH].
Qed.

Lemma widget_elem {A : Type} (ws : widgets A) (d : Z) (a : A) :
  widget ws d = Ok a → (d, a) ∈ ws.
Proof.
  induction ws as [|[k b] rest IH]; simpl; [done|].
  case_bool_decide as Hk.
  - intros [= <-]. subst k. apply elem_of_cons. by left.
  - intros H. apply elem_of_cons. right. by apply IH.
Qed.

Lemma elem_widget {A : Type} (ws : widgets A) (d : Z) (a : A) :
  NoDup ws.*1 → (d, a) ∈ ws → widget ws d = Ok a.
Proof.
  induction ws as [|[k b] rest IH]; simpl.
  - by intros _ ?%elem_of_nil.
  - intros [Hk Hnd]%NoDup_cons [[= -> ->]|Hin]%elem_of_cons.
    + by rewrite bool_decide_eq_true_2.
    + rewrite bool_decide_eq_false_2; [by apply IH|].
      intros ->. apply Hk. apply list_elem_of_fmap. by exists (d, a).
Qed.

Lemma widget_in_keys {A : Type} (ws : widgets A) (d : Z) (a : A) :
  widget ws d = Ok a → d ∈ ws.*1.
Proof.
  intros H%widget_elem. apply list_elem_of_fmap. by exists (d, a).
Qed.

Lemma range10_spec (d : Z) : d ∈ range10 ↔ 0 ≤ d < 10.
Proof. unfold range10. rewrite elem_of_seqZ. lia. Qed.

Lemma NoDup_range10 : NoDup range10.
Proof. apply NoDup_seqZ. Qed.

Lemma checked_digits_spec (boxes : widgets QCheckBox) (d : Z) :
  NoDup boxes.*1 →
  d ∈ checked_digits boxes ↔ ∃ cb, widget boxes d = Ok cb ∧ isChecked cb = true.
Proof.
  intros Hnd. unfold checked_digits. rewrite list_elem_of_fmap. split.
  - intros ([k cb] & -> & [Hc Hin]%list_elem_of_filter). simpl in *.
    exists cb. split; [by apply elem_widget|done].
  - intros (cb & Hw & Hc). exists (d, cb). split; [done|].
    apply list_elem_of_filter. split; [done|by apply widget_elem].
Qed.

Lemma checked_digits_sublist (boxes : widgets QCheckBox) :
  checked_digits boxes `sublist_of` boxes.*1.
Proof. unfold checked_digits. apply fmap_sublist, sublist_filter. Qed.

Lemma checked_digits_call_enabled (b : bool) (d : Z) (boxes : widgets QCheckBox) :
  checked_digits (call (setEnabled b) d boxes) = checked_digits boxes.
Proof.
  unfold checked_digits, call, widgets in *.
  induction boxes as [|[k cb] rest IH]; [done|].
  rewrite map_cons, !filter_cons.
  case_bool_decide; cbn [fst snd setEnabled isChecked];
    destruct (decide (isChecked cb = true)); rewrite ?fmap_cons, IH; done.
Qed.

(** *** [mapM] in the result monad *)

Lemma mapM_Ok {A B : Type} (f : A → result B) (g : A → B) (l : list A) :
  (∀ x, x ∈ l → f x = Ok (g x)) → mapM f l = Ok (map g l).
Proof.
  induction l as [|x l IH]; intros Hf; [done|]. simpl.
  rewrite Hf by (apply elem_of_cons; by left). simpl.
  rewrite IH by (intros y Hy; apply Hf, elem_of_cons; by right). done.
Qed.

Lemma spin_values_spec (spins : widgets Q) (ds : list Z) (acc : gmap Z Q) :
  (∀ d, d ∈ ds → d ∈ spins.*1) →
  ∃ weights,
    spin_values spins ds acc = Ok weights
    ∧ (∀ d, d ∈ ds → ∃ v, widget spins d = Ok v ∧ weights !! d = Some v)
    ∧ (∀ d, d ∉ ds → weights !! d = acc !! d).
Proof.
  revert acc. induction ds as [|d0 rest IH]; intros acc Hin; simpl.
  - exists acc. split; [done|]. split; [by intros d ?%elem_of_nil|done].
  - destruct (widget_keys spins d0) as [v0 Hv0]; [apply Hin, elem_of_cons; by left|].
    rewrite Hv0. simpl.
    destruct (IH (<[d0:=v0]> acc)) as (weights & Hrun & Hds & Hother).
    { intros d Hd. apply Hin, elem_of_cons. by right. }
    exists weights. split; [done|]. split.
    + intros d [->|Hd]%elem_of_cons; [|by apply Hds].
      destruct (decide (d0 ∈ rest)) as [Hr|Hr]; [by apply Hds|].
      exists v0. split; [done|]. by rewrite Hother, lookup_insert_eq.
    + intros d Hd. rewrite Hother by (intros ?; apply Hd, elem_of_cons; by right).
      apply lookup_insert_ne. intros ->. apply Hd, elem_of_cons. by left.
Qed.


(** *** The numbers of the preview *)

Lemma positive_total_spec (weights : gmap Z Q) (digits : list Z) :
  (∀ d, d ∈ digits → is_Some (weights !! d)) →
  ∃ t, positive_total weights digits = Ok t
       ∧ (t == class_total digits weights)%Q.
Proof.
  unfold positive_total. induction digits as [|d rest IH]; intros Hall.
  - exists 0%Q. by split.
  - destruct (Hall d) as [x Hx]; [apply elem_of_cons; by left|].
    destruct IH as (t & Ht & Heq).
    { intros d' Hd'. apply Hall, elem_of_cons. by right. }
    simpl. rewrite Hx.
    destruct (positive_weights weights rest) as [ws|] eqn:Hws; [|done].
    simpl in *. injection Ht as <-. eexists. split; [done|].
    rewrite class_total_cons. unfold get_weight. rewrite Hx. simpl.
    destruct (Qltb 0 x) eqn:Hpos.
    + apply Qltb_lt in Hpos. rewrite py_sum_cons, Heq, clamp0_pos by done.
      reflexivity.
    + apply Qltb_ge in Hpos.
      destruct (clamp0_Q_spec x) as [[? _]|[_ ->]]; [lra|]. rewrite Heq. ring.
Qed.

Lemma py_sum_sublist (f : Z → Q) (sub l : list Z) :
  NoDup l → sub `sublist_of` l →
  (py_sum (map (fun d => if bool_decide (d ∈ sub) then f d else 0%Q) l)
   == py_sum (map f sub))%Q.
Proof.
  intros Hnd Hsub. induction Hsub as [|x l1 l2 Hsub IH|x l1 l2 Hsub IH].
  - reflexivity.
  - apply NoDup_cons in Hnd as [Hx Hnd]. rewrite !map_cons, !py_sum_cons.
    rewrite bool_decide_eq_true_2 by (apply elem_of_cons; by left).
    rewrite <- (IH Hnd).
    assert (map (fun d => if bool_decide (d ∈ x :: l1) then f d else 0%Q) l2
            = map (fun d => if bool_decide (d ∈ l1) then f d else 0%Q) l2) as ->;
      [|reflexivity].
    apply map_ext_in. intros d Hd%list_elem_of_In.
    assert (d ≠ x) by (by intros ->).
    destruct (decide (d ∈ l1)) as [Hin|Hin].
    + rewrite !bool_decide_eq_true_2; [done..|]. apply elem_of_cons. by right.
    + rewrite !bool_decide_eq_false_2; [done..|].
      by intros [?|?]%elem_of_cons.
  - apply NoDup_cons in Hnd as [Hx Hnd]. rewrite map_cons, py_sum_cons.
    rewrite bool_decide_eq_false_2.
    + rewrite (IH Hnd). ring.
    + intros Hin. apply Hx. by eapply elem_of_sublist.
Qed.

Lemma py_sum_shares (weights : gmap Z Q) (total f : Q) (digits : list Z) :
  (py_sum (map (fun d => match weights !! d with
                         | Some w => if Qltb 0 w then w / total * f else 0
                         | None => 0
                         end) digits)
   == class_total digits weights / total * f)%Q.
Proof.
  induction digits as [|d rest IH].
  - unfold class_total. simpl. unfold py_sum. simpl. unfold Qdiv. ring.
  - rewrite map_cons, py_sum_cons, IH, class_total_cons. unfold get_weight.
    destruct (weights !! d) as [x|]; simpl.
    + destruct (Qltb 0 x) eqn:Hpos.
      * apply Qltb_lt in Hpos. rewrite clamp0_pos by done. unfold Qdiv. ring.
      * apply Qltb_ge in Hpos.
        destruct (clamp0_Q_spec x) as [[? _]|[_ ->]]; [lra|]. unfold Qdiv. ring.
    + destruct (clamp0_Q_spec 0) as [[? _]|[_ ->]]; [lra|]. unfold Qdiv. ring.
Qed.

Lemma range10_lookup (i : nat) (d : Z) : range10 !! i = Some d → d = Z.of_nat i.
Proof. unfold range10. intros [? ?]%lookup_seqZ. lia. Qed.

(** One row of the preview when the ratio exists. *)
Lemma preview_row (f total : Q) (sub : list Z) (weights : gmap Z Q) :
  (0 < total)%Q →
  (∀ d, d ∈ range10 → is_Some (weights !! d)) →
  sub `sublist_of` range10 →
  ∃ probs,
    mapM (preview_prob (Some f) total sub weights) range10 = Ok probs
    ∧ length probs = 10%nat
    ∧ (py_sum probs == class_total sub weights / total * f)%Q
    ∧ ((0 <= f)%Q → Forall (fun p => (0 <= p)%Q) probs)
    ∧ (∀ (i : nat) p, probs !! i = Some p → ¬ (p == 0)%Q →
         Z.of_nat i ∈ sub
         ∧ ∃ x, weights !! Z.of_nat i = Some x ∧ (0 < x)%Q).
Proof.
  intros Htotal Hdom Hsub.
  set (h := fun d => match weights !! d with
                     | Some w => if Qltb 0 w then (w / total * f)%Q else 0%Q
                     | None => 0%Q
                     end).
  set (g := fun d => if bool_decide (d ∈ sub) then h d else 0%Q).
  exists (map g range10). split; [|split; [|split; [|split]]].
  - apply mapM_Ok. intros d Hd. unfold preview_prob, g, h.
    rewrite (proj2 (Qle_bool_false _ _)) by done.
    case_bool_decide; [|done]. unfold subscript.
    by destruct (Hdom d Hd) as [x ->].
  - by rewrite length_map.
  - unfold g. rewrite (py_sum_sublist h sub range10 NoDup_range10 Hsub).
    apply py_sum_shares.
  - intros Hf. apply Forall_forall. intros p Hp.
    apply list_elem_of_In, in_map_iff in Hp as (d & <- & _).
    unfold g, h. case_bool_decide; [|lra].
    destruct (weights !! d) as [x|]; [|lra].
    destruct (Qltb 0 x) eqn:Hpos; [|lra]. apply Qltb_lt in Hpos.
    apply Qmult_le_0_compat; [|done]. apply Qlt_le_weak.
    apply Qlt_shift_div_l; [done|]. lra.
  - intros i p Hi Hp. rewrite list_lookup_fmap in Hi.
    destruct (range10 !! i) as [d|] eqn:Hd; [|done].
    apply range10_lookup in Hd as ->. simpl in Hi. injection Hi as <-.
    unfold g, h in Hp. case_bool_decide as Hin; [|by destruct Hp].
    split; [done|].
    destruct (weights !! Z.of_nat i) as [x|]; [|by destruct Hp].
    destruct (Qltb 0 x) eqn:Hpos; [|by destruct Hp].
    exists x. split; [done|]. by apply Qltb_lt.
Qed.


Lemma bind_Ok {A B : Type} (m : result A) (k : A → result B) (a : A) :
  m = Ok a → m ≫= k = k a.
Proof. by intros ->. Qed.

Lemma set_preview_cells (max_prob : Q) (probs : list Q) :
  ∃ cells,
    mapM (fun p => set_preview_cell p max_prob) probs = Ok cells
    ∧ shown <$> cells = (fun p => p * 100)%Q <$> probs
    ∧ Forall (fun c => let '(r, g, b) := background c in
                       0 ≤ r ≤ 255 ∧ 0 ≤ g ≤ 255 ∧ 0 ≤ b ≤ 255) cells.
Proof.
  induction probs as [|p rest (cells & IH & Hshown & Hrgb)].
  - exists []. by repeat split.
  - set (norm := if Qltb 0 max_prob then (p / max_prob)%Q else 0%Q).
    destruct (viridis_color_spec norm)
      as (i & r1 & g1 & b1 & r2 & g2 & b2 & r & g & b & Hv & _ & _ & _ & _ & _
          & Hgamut & _).
    assert (Hcell : ∃ c, set_preview_cell p max_prob = Ok c
                         ∧ shown c = (p * 100)%Q ∧ background c = (r, g, b)).
    { unfold set_preview_cell. cbv zeta. fold norm. rewrite Hv. cbn.
      eexists. by split. }
    destruct Hcell as (c & Hc & Hs & Hb).
    exists (c :: cells). split; [|split].
    + cbn [mapM]. rewrite Hc. cbn. rewrite IH. reflexivity.
    + cbn. by rewrite Hshown, Hs.
    + constructor; [by rewrite Hb|done].
Qed.

Lemma update_sum_bar_shares (a b : Q) :
  (0 <= a)%Q → (0 <= b)%Q → (a + b == 1)%Q →
  (go_percent (update_sum_bar a b) == a * 100)%Q
  ∧ (nogo_percent (update_sum_bar a b) == b * 100)%Q.
Proof.
  intros Ha Hb Hab. unfold update_sum_bar. cbn [go_percent nogo_percent].
  destruct (unit_interval a) as (_ & _ & _ & _ & Ha').
  destruct (unit_interval b) as (_ & _ & _ & _ & Hb').
  specialize (Ha' Ha ltac:(lra)). specialize (Hb' Hb ltac:(lra)).
  set (a' := py_max 0 (py_min 1 a)) in *. set (b' := py_max 0 (py_min 1 b)) in *.
  assert (Hone : (a' + b' == 1)%Q) by lra.
  destruct (Qltb 0 (a' + b')) eqn:Hpos; [|apply Qltb_ge in Hpos; lra].
  unfold Qdiv. rewrite Hone, Ha', Hb'. split; field.
Qed.

Lemma update_sum_bar_stretch (a b : Q) :
  1 ≤ go_stretch (update_sum_bar a b) ∧ 1 ≤ nogo_stretch (update_sum_bar a b).
Proof. unfold update_sum_bar. cbn [go_stretch nogo_stretch]. lia. Qed.

Lemma compute_go_ratio_Raise (go nogo : list Z) (w : gmap Z Q) (e : exn) :
  compute_go_ratio go nogo w = Raise e → e = NonZeroWeightsRequired.
Proof. unfold compute_go_ratio. destruct (_ || _); congruence. Qed.

Lemma blank_sum_bar :
  let gp := map (fun _ : Z => 0%Q) range10 in
  let frac := if Qltb 0 (py_sum gp + py_sum gp)
              then (py_sum gp / (py_sum gp + py_sum gp))%Q else 0%Q in
  (go_percent (update_sum_bar frac frac) == 0)%Q
  ∧ (nogo_percent (update_sum_bar frac frac) == 0)%Q.
Proof. by vm_compute. Qed.

(** What [summarize] draws, for digits taken from [range(10)] and a weight
    for each of them. *)
Lemma summarize_spec (go nogo : list Z) (weights : gmap Z Q) :
  (∀ d, d ∈ range10 → is_Some (weights !! d)) →
  go `sublist_of` range10 → nogo `sublist_of` range10 →
  ∃ s,
    summarize go nogo weights = Ok s
    ∧ length (go_probs s) = 10%nat ∧ length (nogo_probs s) = 10%nat
    ∧ shown <$> go_cells s = (fun p => p * 100)%Q <$> go_probs s
    ∧ shown <$> nogo_cells s = (fun p => p * 100)%Q <$> nogo_probs s
    ∧ Forall (fun p => (0 <= p)%Q) (go_probs s ++ nogo_probs s)
    ∧ (∀ (i : nat) p, go_probs s !! i = Some p → ¬ (p == 0)%Q →
         Z.of_nat i ∈ go ∧ ∃ x, weights !! Z.of_nat i = Some x ∧ (0 < x)%Q)
    ∧ (∀ (i : nat) p, nogo_probs s !! i = Some p → ¬ (p == 0)%Q →
         Z.of_nat i ∈ nogo ∧ ∃ x, weights !! Z.of_nat i = Some x ∧ (0 < x)%Q)
    ∧ match compute_go_ratio go nogo weights with
      | Ok r =>
          (py_sum (go_probs s) == r)%Q ∧ (py_sum (nogo_probs s) == 1 - r)%Q
          ∧ (go_percent (bar s) == r * 100)%Q
          ∧ (nogo_percent (bar s) == (1 - r) * 100)%Q
      | Raise _ =>
          Forall (fun p => (p == 0)%Q) (go_probs s ++ nogo_probs s)
          ∧ (go_percent (bar s) == 0)%Q ∧ (nogo_percent (bar s) == 0)%Q
      end.
Proof.
  intros Hdom Hgo Hnogo. unfold summarize.
  assert (Hsub : ∀ sub d, sub `sublist_of` range10 → d ∈ sub →
                          is_Some (weights !! d)).
  { intros sub d Hs Hd. apply Hdom. by eapply elem_of_sublist. }
  destruct (positive_total_spec weights go (fun d => Hsub go d Hgo))
    as (tg & Htg & Htg_eq).
  destruct (positive_total_spec weights nogo (fun d => Hsub nogo d Hnogo))
    as (tn & Htn & Htn_eq).
  destruct (compute_go_ratio go nogo weights) as [r|e] eqn:Hratio.
  - destruct (compute_go_ratio_Ok _ _ _ _ Hratio) as (Hg & Hn & Hr0 & Hr1).
    destruct (preview_row r tg go weights) as (gp & Hgp & Hglen & Hgsum & Hgnn & Hgpos);
      [lra|done|done|].
    destruct (preview_row (1 - r) tn nogo weights)
      as (np & Hnp & Hnlen & Hnsum & Hnnn & Hnpos); [lra|done|done|].
    set (max_prob := if Qltb 0 (py_max_list (gp ++ np))
                     then py_max_list (gp ++ np) else 1%Q).
    destruct (set_preview_cells max_prob gp) as (gc & Hgc & Hgshown & _).
    destruct (set_preview_cells max_prob np) as (nc & Hnc & Hnshown & _).
    cbn [mbind result_bind]. rewrite Htg. cbn [mbind result_bind]. rewrite Htn.
    cbn [mbind result_bind]. rewrite Hgp. cbn [mbind result_bind fmap option_fmap option_map].
    rewrite Hnp. cbn [mbind result_bind]. fold max_prob.
    rewrite Hgc. cbn [mbind result_bind]. rewrite Hnc. cbn [mbind result_bind].
    eexists. split; [reflexivity|]. cbn [go_probs nogo_probs go_cells nogo_cells bar].
    assert (Hgs : (py_sum gp == r)%Q).
    { rewrite Hgsum, <- Htg_eq. field. lra. }
    assert (Hns : (py_sum np == 1 - r)%Q).
    { rewrite Hnsum, <- Htn_eq. field. lra. }
    assert (Htot : (py_sum gp + py_sum np == 1)%Q) by lra.
    repeat (split; [done|]).
    split; [apply Forall_app; split; [apply Hgnn|apply Hnnn]; lra|].
    split; [done|]. split; [done|]. split; [done|]. split; [done|].
    destruct (Qltb 0 (py_sum gp + py_sum np)) eqn:Hpos;
      [|apply Qltb_ge in Hpos; lra].
    assert (Ha : (py_sum gp / (py_sum gp + py_sum np) == r)%Q).
    { unfold Qdiv. rewrite Htot, Hgs. field. }
    assert (Hb : (py_sum np / (py_sum gp + py_sum np) == 1 - r)%Q).
    { unfold Qdiv. rewrite Htot, Hns. field. }
    destruct (update_sum_bar_shares
                (py_sum gp / (py_sum gp + py_sum np))
                (py_sum np / (py_sum gp + py_sum np))) as [Hgo_bar Hnogo_bar];
      [lra|lra|lra|].
    rewrite Hgo_bar, Hnogo_bar, Ha, Hb. by split.
  - apply compute_go_ratio_Raise in Hratio as ->.
    cbn [is_InvalidConfig mbind result_bind]. rewrite Htg.
    cbn [mbind result_bind]. rewrite Htn. cbn [mbind result_bind].
    rewrite (mapM_Ok _ (fun _ => 0%Q)) by done.
    cbn [mbind result_bind fmap option_fmap option_map].
    rewrite (mapM_Ok _ (fun _ => 0%Q)) by done.
    cbn [mbind result_bind].
    set (gp := map (fun _ : Z => 0%Q) range10).
    set (max_prob := if Qltb 0 (py_max_list (gp ++ gp))
                     then py_max_list (gp ++ gp) else 1%Q).
    destruct (set_preview_cells max_prob gp) as (gc & Hgc & Hgshown & _).
    rewrite Hgc. cbn [mbind result_bind].
    eexists. split; [reflexivity|]. cbn [go_probs nogo_probs go_cells nogo_cells bar].
    assert (Hzero : Forall (fun p => (p == 0)%Q) gp).
    { apply Forall_forall. intros p Hp.
      by apply list_elem_of_In, in_map_iff in Hp as (d & <- & _). }
    assert (Hnz : ∀ (i : nat) p, gp !! i = Some p → ¬ (p == 0)%Q → False).
    { intros i p Hi Hp. apply Hp. rewrite Forall_forall in Hzero.
      apply Hzero. by eapply list_elem_of_lookup_2. }
    split; [reflexivity|]. split; [reflexivity|].
    split; [exact Hgshown|]. split; [exact Hgshown|].
    split.
    { apply Forall_app. split; (eapply Forall_impl; [exact Hzero|]);
        intros p Hp; simpl in Hp; lra. }
    split; [intros i p Hi Hp; by destruct (Hnz i p)|].
    split; [intros i p Hi Hp; by destruct (Hnz i p)|].
    split; [apply Forall_app; split; exact Hzero|]. exact blank_sum_bar.
Qed.


(** *** [update_summary] *)

Lemma update_summary_spec (w : MainWindow) :
  wired w →
  ∃ weights s,
    spin_values (weight_spinboxes w) range10 ∅ = Ok weights
    ∧ (∀ d, d ∈ range10 →
         ∃ v, widget (weight_spinboxes w) d = Ok v ∧ weights !! d = Some v)
    ∧ (∀ d, d ∉ range10 → weights !! d = None)
    ∧ (collect_digits w).1 `sublist_of` range10
    ∧ (collect_digits w).2 `sublist_of` range10
    ∧ summarize (collect_digits w).1 (collect_digits w).2 weights = Ok s
    ∧ update_summary w = Ok (set_preview s w).
Proof.
  intros (Hgo & Hnogo & Hspin).
  destruct (spin_values_spec (weight_spinboxes w) range10 ∅)
    as (weights & Hweights & Hin & Hout); [by rewrite Hspin|].
  assert (Hg : (collect_digits w).1 `sublist_of` range10).
  { rewrite <- Hgo. apply checked_digits_sublist. }
  assert (Hn : (collect_digits w).2 `sublist_of` range10).
  { rewrite <- Hnogo. apply checked_digits_sublist. }
  destruct (summarize_spec (collect_digits w).1 (collect_digits w).2 weights)
    as (s & Hs & _); [|done|done|].
  { intros d Hd. destruct (Hin d Hd) as (v & _ & ->). by eexists. }
  exists weights, s. split; [exact Hweights|]. split; [exact Hin|]. split.
  { intros d Hd. by rewrite Hout, lookup_empty. }
  split; [exact Hg|]. split; [exact Hn|]. split; [exact Hs|].
  unfold update_summary. unfold collect_digits in *. cbn [fst snd] in Hs.
  rewrite Hweights. cbn [mbind result_bind]. by rewrite Hs.
Qed.

Lemma update_summary_frame (w w1 : MainWindow) (s : Summary) :
  go_checkboxes w1 = go_checkboxes w →
  nogo_checkboxes w1 = nogo_checkboxes w →
  weight_spinboxes w1 = weight_spinboxes w →
  update_summary w = Ok (set_preview s w) →
  update_summary w1 = Ok (set_preview s w1).
Proof.
  intros Hg Hn Hs Hup. unfold update_summary, collect_digits in *.
  rewrite Hg, Hn, Hs.
  destruct (spin_values _ _ _) as [ws|]; [|done]. cbn [mbind result_bind] in *.
  destruct (summarize _ _ ws) as [s'|]; [|done]. cbn [mbind result_bind] in *.
  unfold set_preview in Hup. by injection Hup as <-.
Qed.

Lemma refresh (w : MainWindow) :
  sound w →
  ∃ s, update_summary w = Ok (set_preview s w)
       ∧ sound (set_preview s w) ∧ up_to_date (set_preview s w).
Proof.
  intros [Hwired Hrange].
  destruct (update_summary_spec w Hwired) as (weights & s & _ & _ & _ & _ & _ & _ & Hup).
  exists s. split; [done|]. split; [done|]. exists s. split; [|done].
  by apply (update_summary_frame w).
Qed.

(** A step that ends with [update_summary], or changes nothing that
    [update_summary] reads. *)
Lemma refreshed (w w1 : MainWindow) :
  sound w1 → same_boxes w w1 →
  ∃ w', update_summary w1 = Ok w' ∧ sound w' ∧ same_boxes w w' ∧ up_to_date w'.
Proof.
  intros Hs Hb. destruct (refresh w1 Hs) as (s & -> & Hs' & Hup).
  by exists (set_preview s w1).
Qed.

Lemma up_to_date_frame (w w1 : MainWindow) :
  go_checkboxes w1 = go_checkboxes w →
  nogo_checkboxes w1 = nogo_checkboxes w →
  weight_spinboxes w1 = weight_spinboxes w →
  preview w1 = preview w →
  up_to_date w → up_to_date w1.
Proof.
  intros Hg Hn Hs Hp (s & Hup & Hprev). exists s. split; [|by rewrite Hp].
  by apply (update_summary_frame w).
Qed.

(** *** The setters *)

Lemma setValue_int_consistent (f : int_spin) (v : Z) (w : MainWindow) :
  sound w → int_minimum f ≤ v →
  ∃ w', setValue_int f v w = Ok w' ∧ sound w' ∧ same_boxes w w'
        ∧ (up_to_date w → up_to_date w').
Proof.
  intros Hs Hv. unfold setValue_int. case_bool_decide.
  - by exists w.
  - destruct (refreshed w (set_int f v w)) as (w' & -> & ? & ? & ?); [|done|by eauto].
    destruct Hs as (Hw & Hi & Hd & Hws). split; [done|]. split; [|done].
    intros f'. simpl. case_bool_decide; [by destruct f, f'|apply Hi].
Qed.

Lemma setValue_double_consistent (f : double_spin) (v : Q) (w : MainWindow) :
  sound w → (double_minimum f <= v)%Q → (v <= double_maximum)%Q →
  ∃ w', setValue_double f v w = Ok w' ∧ sound w' ∧ same_boxes w w'
        ∧ (up_to_date w → up_to_date w').
Proof.
  intros Hs Hlo Hhi. unfold setValue_double. destruct (Qeq_bool _ _).
  - by exists w.
  - destruct (refreshed w (set_double f v w)) as (w' & -> & ? & ? & ?);
      [|done|by eauto].
    destruct Hs as (Hw & Hi & Hd & Hws). split; [done|]. split; [done|].
    split; [|done]. intros f'. simpl. case_bool_decide; [by subst|apply Hd].
Qed.

Lemma elem_of_call {A : Type} (f : A → A) (d : Z) (ws : widgets A) (k : Z) (a : A) :
  (k, a) ∈ call f d ws → (k, a) ∈ ws ∨ ∃ a0, (k, a0) ∈ ws ∧ a = f a0.
Proof.
  unfold call. intros ([k0 a0] & Heq & Hin)%list_elem_of_fmap. simpl in Heq.
  case_bool_decide; injection Heq as -> ->; [right; by exists a0|by left].
Qed.

Lemma setValue_weight_consistent (d : Z) (v : Q) (w : MainWindow) :
  sound w → (0 <= v)%Q → (v <= double_maximum)%Q →
  d ∈ range10 →
  ∃ w', setValue_weight d v w = Ok w' ∧ sound w' ∧ same_boxes w w'
        ∧ (up_to_date w → up_to_date w').
Proof.
  intros Hs Hlo Hhi Hd. unfold setValue_weight. pose proof Hs as Hsound.
  destruct Hs as ((Hg & Hn & Hsp) & Hi & Hdb & Hws).
  destruct (widget_keys (weight_spinboxes w) d) as [old ->]; [by rewrite Hsp|].
  cbn [mbind result_bind]. destruct (Qeq_bool old v).
  - by exists w.
  - destruct (refreshed w (set_weights (call (fun _ => v) d (weight_spinboxes w)) w))
      as (w' & -> & ? & ? & ?); [|done|by eauto].
    split; [split; [done|split; [done|]]|split; [done|split; [done|]]].
    + simpl. by rewrite call_keys.
    + intros k a [Hin|(a0 & _ & ->)]%elem_of_call; [by eapply Hws|done].
Qed.

Lemma setText_paradigm_name_consistent (s : string) (w : MainWindow) :
  sound w →
  ∃ w', setText_paradigm_name s w = Ok w' ∧ sound w' ∧ same_boxes w w'
        ∧ (up_to_date w → up_to_date w').
Proof.
  intros Hs. unfold setText_paradigm_name. case_bool_decide.
  - by exists w.
  - destruct (refreshed w (set_paradigm_name s w)) as (w' & -> & ? & ? & ?);
      [done|done|by eauto].
Qed.

Lemma setChecked_test_mode_consistent (b : bool) (w : MainWindow) :
  sound w →
  ∃ w', setChecked_test_mode b w = Ok w' ∧ sound w' ∧ same_boxes w w'
        ∧ (up_to_date w → up_to_date w').
Proof.
  intros Hs. unfold setChecked_test_mode. case_bool_decide.
  - by exists w.
  - destruct (refreshed w (set_test_mode b w)) as (w' & -> & ? & ? & ?);
      [done|done|by eauto].
Qed.

Lemma exclusive_same_boxes (w w' : MainWindow) :
  same_boxes w w' → exclusive w → exclusive w'.
Proof. intros [Hg Hn] He. unfold exclusive. by rewrite Hg, Hn. Qed.


(** *** The check boxes *)

Lemma toggled_exclusive (d : Z) (cb : QCheckBox) (w : MainWindow)
    (go nogo : widgets QCheckBox) :
  exclusive w →
  (widget (go_checkboxes w) d = Ok cb ∧ isEnabled cb = true
   ∧ go = call (setChecked (negb (isChecked cb))) d (go_checkboxes w)
   ∧ nogo = call (release_or_lock (negb (isChecked cb))) d (nogo_checkboxes w))
  ∨ (widget (nogo_checkboxes w) d = Ok cb ∧ isEnabled cb = true
     ∧ nogo = call (setChecked (negb (isChecked cb))) d (nogo_checkboxes w)
     ∧ go = call (release_or_lock (negb (isChecked cb))) d (go_checkboxes w)) →
  exclusive (set_nogo nogo (set_go go w)).
Proof.
  intros Hex Hcase d' g n Hg Hn.
  cbn [set_go set_nogo go_checkboxes nogo_checkboxes] in Hg, Hn.
  destruct Hcase as [(Hcb & Hen & -> & ->)|(Hcb & Hen & -> & ->)];
    rewrite widget_call in Hg, Hn;
    destruct (widget (go_checkboxes w) d') as [g0|] eqn:Hg0; try done;
    destruct (widget (nogo_checkboxes w) d') as [n0|] eqn:Hn0; try done;
    injection Hg as <-; injection Hn as <-;
    destruct (Hex d' g0 n0 Hg0 Hn0) as (H1 & H2 & H3);
    (case_bool_decide as Hd; [subst d'|done]).
  - rewrite Hcb in Hg0. injection Hg0 as <-.
    destruct cb as [c e], n0 as [c' e']. simpl in *. subst.
    by destruct c, c'.
  - rewrite Hcb in Hn0. injection Hn0 as <-.
    destruct g0 as [c e], cb as [c' e']. simpl in *. subst.
    by destruct c, c'.
Qed.

Lemma click_go_consistent (d : Z) (w : MainWindow) :
  consistent w → ∃ w', click_go d w = Ok w' ∧ consistent w'.
Proof.
  intros (Hs & Hex & Hup). unfold click_go.
  destruct (widget (go_checkboxes w) d) as [cb|] eqn:Hcb; [|by exists w].
  destruct (isEnabled cb) eqn:Hen; [|by exists w].
  unfold on_go_toggled. cbn [set_go nogo_checkboxes].
  pose proof Hs as ((Hg & Hn & Hsp) & Hrange).
  destruct (widget_keys (nogo_checkboxes w) d) as [ncb ->].
  { rewrite Hn, <- Hg. by eapply widget_in_keys. }
  cbn [mbind result_bind].
  set (go := call (setChecked (negb (isChecked cb))) d (go_checkboxes w)).
  set (nogo := call (release_or_lock (negb (isChecked cb))) d (nogo_checkboxes w)).
  change (set_nogo nogo (set_go go w)) with (set_nogo nogo (set_go go w)).
  assert (Hs1 : sound (set_nogo nogo (set_go go w))).
  { split; [|done]. split; [|split; [|done]]; cbn; unfold go, nogo;
      by rewrite call_keys. }
  destruct (refreshed (set_nogo nogo (set_go go w)) (set_nogo nogo (set_go go w)))
    as (w' & Hrun & Hs' & Hsame & Hup'); [done|done|].
  exists w'. split; [exact Hrun|]. split; [done|]. split; [|done].
  apply (exclusive_same_boxes _ _ Hsame).
  apply (toggled_exclusive d cb); [done|]. left. by repeat split.
Qed.

Lemma click_nogo_consistent (d : Z) (w : MainWindow) :
  consistent w → ∃ w', click_nogo d w = Ok w' ∧ consistent w'.
Proof.
  intros (Hs & Hex & Hup). unfold click_nogo.
  destruct (widget (nogo_checkboxes w) d) as [cb|] eqn:Hcb; [|by exists w].
  destruct (isEnabled cb) eqn:Hen; [|by exists w].
  unfold on_nogo_toggled. cbn [set_nogo go_checkboxes].
  pose proof Hs as ((Hg & Hn & Hsp) & Hrange).
  destruct (widget_keys (go_checkboxes w) d) as [gcb ->].
  { rewrite Hg, <- Hn. by eapply widget_in_keys. }
  cbn [mbind result_bind].
  set (nogo := call (setChecked (negb (isChecked cb))) d (nogo_checkboxes w)).
  set (go := call (release_or_lock (negb (isChecked cb))) d (go_checkboxes w)).
  assert (Hs1 : sound (set_go go (set_nogo nogo w))).
  { split; [|done]. split; [|split; [|done]]; cbn; unfold go, nogo;
      by rewrite call_keys. }
  destruct (refreshed (set_go go (set_nogo nogo w)) (set_go go (set_nogo nogo w)))
    as (w' & Hrun & Hs' & Hsame & Hup'); [done|done|].
  exists w'. split; [exact Hrun|]. split; [done|]. split; [|done].
  apply (exclusive_same_boxes _ _ Hsame).
  change (set_go go (set_nogo nogo w)) with (set_nogo nogo (set_go go w)).
  apply (toggled_exclusive d cb); [done|]. right. by repeat split.
Qed.


Lemma call_same {A : Type} (d : Z) (ws : widgets A) : call (fun a => a) d ws = ws.
Proof.
  unfold call. induction ws as [|[k a] rest IH]; [done|].
  rewrite map_cons, IH. by case_bool_decide.
Qed.

(** One pass of [apply_mutex_constraints] leaves the check state of every
    box and sets the enabled state of the boxes of the digits it visits. *)
Lemma apply_mutex_loop_spec (ds : list Z) :
  NoDup ds → ∀ go nogo : widgets QCheckBox,
  (∀ d, d ∈ ds → d ∈ go.*1 ∧ d ∈ nogo.*1) →
  ∃ go' nogo',
    apply_mutex_loop ds go nogo = Ok (go', nogo')
    ∧ go'.*1 = go.*1 ∧ nogo'.*1 = nogo.*1
    ∧ ∀ d g n, widget go d = Ok g → widget nogo d = Ok n →
        ∃ g' n', widget go' d = Ok g' ∧ widget nogo' d = Ok n'
          ∧ isChecked g' = isChecked g ∧ isChecked n' = isChecked n
          ∧ (d ∉ ds → g' = g ∧ n' = n)
          ∧ (d ∈ ds →
               if isChecked g then isEnabled g' = isEnabled g ∧ isEnabled n' = false
               else if isChecked n
                    then isEnabled g' = false ∧ isEnabled n' = isEnabled n
                    else isEnabled g' = true ∧ isEnabled n' = true).
Proof.
  induction ds as [|i rest IH]; intros Hnd go nogo Hkeys.
  - exists go, nogo. repeat (split; [done|]). intros d g n Hg Hn.
    exists g, n. repeat (split; [done|]). by intros ?%elem_of_nil.
  - apply NoDup_cons in Hnd as [Hi Hnd].
    destruct (Hkeys i) as [Hig Hin]; [apply elem_of_cons; by left|].
    destruct (widget_keys go i Hig) as [gi Hgi].
    destruct (widget_keys nogo i Hin) as [ni Hni].
    set (fg := fun cb : QCheckBox =>
                 if isChecked gi then cb
                 else if isChecked ni then setEnabled false cb
                      else setEnabled true cb).
    set (fn := fun cb : QCheckBox =>
                 if isChecked gi then setEnabled false cb
                 else if isChecked ni then cb else setEnabled true cb).
    assert (Hstep : apply_mutex_loop (i :: rest) go nogo
                    = apply_mutex_loop rest (call fg i go) (call fn i nogo)).
    { cbn [apply_mutex_loop]. rewrite Hgi, Hni. cbn [mbind result_bind].
      unfold fg, fn. destruct (isChecked gi); [by rewrite call_same|].
      destruct (isChecked ni); [by rewrite call_same|done]. }
    destruct (IH Hnd (call fg i go) (call fn i nogo))
      as (go' & nogo' & Hrun & Hkg & Hkn & Hspec).
    { intros d Hd. rewrite !call_keys. apply Hkeys, elem_of_cons. by right. }
    exists go', nogo'. rewrite Hstep, Hkg, Hkn, !call_keys.
    repeat (split; [done|]). intros d g n Hg Hn.
    destruct (Hspec d (if bool_decide (d = i) then fg g else g)
                (if bool_decide (d = i) then fn n else n))
      as (g' & n' & Hg' & Hn' & Hcg & Hcn & Hout & Hin');
      [by rewrite widget_call, Hg|by rewrite widget_call, Hn|].
    exists g', n'. split; [done|]. split; [done|].
    destruct (decide (d = i)) as [->|Hne].
    + rewrite bool_decide_eq_true_2 in Hcg, Hcn, Hout by done.
      rewrite Hgi in Hg. rewrite Hni in Hn. injection Hg as ->. injection Hn as ->.
      destruct (Hout Hi) as [-> ->].
      split; [by unfold fg; repeat case_match|].
      split; [by unfold fn; repeat case_match|].
      split; [intros Hd; destruct Hd; apply elem_of_cons; by left|].
      intros _. unfold fg, fn. by repeat case_match.
    + rewrite bool_decide_eq_false_2 in Hcg, Hcn, Hout, Hin' by done.
      split; [done|]. split; [done|]. split.
      * intros Hd. apply Hout. intros ?. apply Hd, elem_of_cons. by right.
      * intros [?|Hd]%elem_of_cons; [done|]. by apply Hin'.
Qed.

(** From boxes that are all enabled and never both checked,
    [apply_mutex_constraints] makes an exclusive window. *)
Lemma apply_mutex_constraints_exclusive (w : MainWindow) :
  sound w →
  (∀ d g n, widget (go_checkboxes w) d = Ok g →
            widget (nogo_checkboxes w) d = Ok n →
            isEnabled g = true ∧ isEnabled n = true
            ∧ isChecked g && isChecked n = false) →
  ∃ go nogo,
    apply_mutex_constraints w = Ok (set_nogo nogo (set_go go w))
    ∧ sound (set_nogo nogo (set_go go w))
    ∧ exclusive (set_nogo nogo (set_go go w)).
Proof.
  intros ((Hg & Hn & Hsp) & Hrange) Hfresh. unfold apply_mutex_constraints.
  destruct (apply_mutex_loop_spec range10 NoDup_range10
              (go_checkboxes w) (nogo_checkboxes w))
    as (go & nogo & -> & Hkg & Hkn & Hspec); [by rewrite Hg, Hn|].
  cbn [mbind result_bind]. exists go, nogo. split; [done|]. split.
  { split; [|done]. split; [|split; [|done]]; cbn; congruence. }
  intros d g' n' Hg' Hn'. cbn [set_go set_nogo go_checkboxes nogo_checkboxes] in *.
  assert (Hd : d ∈ range10).
  { rewrite <- Hg, <- Hkg. by eapply widget_in_keys. }
  destruct (widget_keys (go_checkboxes w) d) as [g Hgd]; [by rewrite Hg|].
  destruct (widget_keys (nogo_checkboxes w) d) as [n Hnd]; [by rewrite Hn|].
  destruct (Hspec d g n Hgd Hnd) as (g1 & n1 & Hg1 & Hn1 & Hcg & Hcn & _ & Hin).
  rewrite Hg1 in Hg'. rewrite Hn1 in Hn'. injection Hg' as <-. injection Hn' as <-.
  destruct (Hfresh d g n Hgd Hnd) as (Heg & Hen & Hboth). specialize (Hin Hd).
  rewrite Hcg, Hcn. destruct (isChecked g), (isChecked n); simpl in *;
    destruct Hin as [-> ->]; by rewrite ?Heg, ?Hen.
Qed.

Lemma reset_checkboxes_spec (ds : list Z) :
  ∀ go nogo : widgets QCheckBox,
  (∀ d, d ∈ ds → d ∈ go.*1 ∧ d ∈ nogo.*1) →
  ∃ go' nogo',
    reset_checkboxes ds go nogo = Ok (go', nogo')
    ∧ go'.*1 = go.*1 ∧ nogo'.*1 = nogo.*1
    ∧ ∀ d g n, d ∈ ds → widget go' d = Ok g → widget nogo' d = Ok n →
        g = MkCheckBox (bool_decide (d ≠ 9)) true
        ∧ n = MkCheckBox (bool_decide (d = 9)) true.
Proof.
  induction ds as [|i rest IH]; intros go nogo Hkeys.
  - exists go, nogo. repeat (split; [done|]). by intros d g n ?%elem_of_nil.
  - destruct (Hkeys i) as [Hig Hin]; [apply elem_of_cons; by left|].
    destruct (widget_keys go i Hig) as [gi Hgi].
    destruct (widget_keys nogo i Hin) as [ni Hni].
    cbn [reset_checkboxes]. rewrite Hgi, Hni. cbn [mbind result_bind].
    set (fg := fun cb => setChecked (bool_decide (i ≠ 9)) (setEnabled true cb)).
    set (fn := fun cb => setChecked (bool_decide (i = 9)) (setEnabled true cb)).
    destruct (IH (call fg i go) (call fn i nogo))
      as (go' & nogo' & Hrun & Hkg & Hkn & Hspec).
    { intros d Hd. rewrite !call_keys. apply Hkeys, elem_of_cons. by right. }
    exists go', nogo'. rewrite Hrun, Hkg, Hkn, !call_keys.
    repeat (split; [done|]). intros d g n Hd Hg Hn.
    destruct (decide (d ∈ rest)) as [Hr|Hr]; [by apply Hspec|].
    apply elem_of_cons in Hd as [->|?]; [|done].
    (* the digit [i] is not visited again: its boxes are as this step left
       them *)
    assert (Hfix : ∀ (l : list Z) (go1 nogo1 go2 nogo2 : widgets QCheckBox),
              reset_checkboxes l go1 nogo1 = Ok (go2, nogo2) → i ∉ l →
              widget go2 i = widget go1 i ∧ widget nogo2 i = widget nogo1 i).
    { clear. induction l as [|j l IHl]; intros go1 nogo1 go2 nogo2 Hrun Hj.
      - by injection Hrun as <- <-.
      - cbn [reset_checkboxes] in Hrun.
        destruct (widget go1 j); [|done]. destruct (widget nogo1 j); [|done].
        cbn [mbind result_bind] in Hrun.
        apply IHl in Hrun as [-> ->];
          [|intros ?; apply Hj, elem_of_cons; by right].
        rewrite !widget_call. rewrite !bool_decide_eq_false_2
          by (intros ->; apply Hj, elem_of_cons; by left).
        by destruct (widget go1 i), (widget nogo1 i). }
    destruct (Hfix _ _ _ _ _ Hrun Hr) as [Hgo' Hnogo'].
    rewrite Hgo', widget_call, Hgi, bool_decide_eq_true_2 in Hg by done.
    rewrite Hnogo', widget_call, Hni, bool_decide_eq_true_2 in Hn by done.
    injection Hg as <-. injection Hn as <-. done.
Qed.

Lemma reset_weights_sound (after : widgets Q) :
  ∀ (before : widgets Q) (w : MainWindow),
  weight_spinboxes w = before ++ after → sound w →
  ∃ w', reset_weights before after w = Ok w' ∧ sound w' ∧ same_boxes w w'.
Proof.
  induction after as [|[k v] rest IH]; intros before w Hws Hs.
  - by exists w.
  - cbn [reset_weights].
    set (w1 := set_weights (before ++ (k, 1%Q) :: rest) w).
    assert (Hs1 : sound w1).
    { destruct Hs as ((Hg & Hn & Hsp) & Hi & Hd & Hw).
      split; [split; [done|split; [done|]]|split; [done|split; [done|]]].
      - cbn. rewrite Hws in Hsp. by rewrite fmap_app, fmap_cons in *.
      - cbn. intros d x [Hin|[[= -> ->]|Hin]%elem_of_cons]%elem_of_app.
        + apply (Hw d). rewrite Hws. apply elem_of_app. by left.
        + done.
        + apply (Hw d). rewrite Hws. apply elem_of_app. right.
          apply elem_of_cons. by right. }
    assert (Hnext : ∃ w2, (if Qeq_bool v 1 then Ok w1 else update_summary w1) = Ok w2
                          ∧ sound w2 ∧ same_boxes w w2
                          ∧ weight_spinboxes w2 = before ++ (k, 1%Q) :: rest).
    { destruct (Qeq_bool v 1); [by exists w1|].
      destruct (refresh w1 Hs1) as (s & -> & Hs2 & _).
      by exists (set_preview s w1). }
    destruct Hnext as (w2 & -> & Hs2 & Hsame & Hws2). cbn [mbind result_bind].
    destruct (IH (before ++ [(k, 1%Q)]) w2) as (w' & -> & Hs' & Hsame');
      [by rewrite Hws2, <- app_assoc|done|].
    exists w'. split; [done|]. split; [done|].
    destruct Hsame as [H1 H2], Hsame' as [H3 H4]. split; congruence.
Qed.

Lemma same_boxes_trans (w1 w2 w3 : MainWindow) :
  same_boxes w1 w2 → same_boxes w2 w3 → same_boxes w1 w3.
Proof. intros [H1 H2] [H3 H4]. split; congruence. Qed.


Lemma widget_map_range {A : Type} (f : Z → A) (l : list Z) (d : Z) (a : A) :
  widget (map (fun i => (i, f i)) l) d = Ok a → a = f d.
Proof.
  induction l as [|i rest IH]; [done|]. cbn [map widget].
  case_bool_decide; [intros [= <-]; by subst|exact IH].
Qed.

Lemma reset_defaults_consistent (cwd : string) (w : MainWindow) :
  sound w → ∃ w', reset_defaults cwd w = Ok w' ∧ consistent w'.
Proof.
  intros Hs. pose proof Hs as ((Hg & Hn & Hsp) & Hi & Hd & Hw).
  unfold reset_defaults.
  destruct (reset_checkboxes_spec range10 (go_checkboxes w) (nogo_checkboxes w))
    as (go & nogo & -> & Hkg & Hkn & Hfresh); [by rewrite Hg, Hn|].
  cbn [mbind result_bind].
  set (w1 := set_nogo nogo (set_go go w)).
  assert (Hs1 : sound w1).
  { split; [|done]. split; [|split; [|done]]; cbn; congruence. }
  destruct (reset_weights_sound (weight_spinboxes w1) [] w1)
    as (w2 & -> & Hs2 & Hb2); [done|done|]. cbn [mbind result_bind].
  destruct (setValue_int_consistent n_blocks_spin 4 w2 Hs2)
    as (w3 & -> & Hs3 & Hb3 & _); [by unfold int_minimum|].
  cbn [mbind result_bind].
  destruct (setValue_int_consistent trials_per_block_spin 75 w3 Hs3)
    as (w4 & -> & Hs4 & Hb4 & _); [by unfold int_minimum|].
  cbn [mbind result_bind].
  destruct (setValue_double_consistent rest_duration_spin 10 w4 Hs4)
    as (w5 & -> & Hs5 & Hb5 & _);
    [unfold double_minimum; lra|unfold double_maximum; lra|].
  cbn [mbind result_bind].
  destruct (setValue_double_consistent post_rest_spin 10 w5 Hs5)
    as (w6 & -> & Hs6 & Hb6 & _);
    [unfold double_minimum; lra|unfold double_maximum; lra|].
  cbn [mbind result_bind].
  destruct (setValue_double_consistent ibi_spin 30 w6 Hs6)
    as (w7 & -> & Hs7 & Hb7 & _);
    [unfold double_minimum; lra|unfold double_maximum; lra|].
  cbn [mbind result_bind].
  destruct (setValue_double_consistent stim_duration_spin (3 # 10) w7 Hs7)
    as (w8 & -> & Hs8 & Hb8 & _);
    [unfold double_minimum; lra|unfold double_maximum; lra|].
  cbn [mbind result_bind].
  destruct (setValue_double_consistent iti_spin 1 w8 Hs8)
    as (w9 & -> & Hs9 & Hb9 & _);
    [unfold double_minimum; lra|unfold double_maximum; lra|].
  cbn [mbind result_bind].
  destruct (setValue_double_consistent max_response_spin (8 # 10) w9 Hs9)
    as (w10 & -> & Hs10 & Hb10 & _);
    [unfold double_minimum; lra|unfold double_maximum; lra|].
  cbn [mbind result_bind].
  destruct (setText_paradigm_name_consistent "GoNoGo" w10 Hs10)
    as (w11 & -> & Hs11 & Hb11 & _).
  cbn [mbind result_bind].
  destruct (setChecked_test_mode_consistent false (set_output_folder cwd w11))
    as (w12 & -> & Hs12 & Hb12 & _); [done|].
  cbn [mbind result_bind].
  assert (Hb : same_boxes w1 w12).
  { unfold same_boxes in *.
    cbn [set_output_folder go_checkboxes nogo_checkboxes] in Hb12.
    destruct Hb2, Hb3, Hb4, Hb5, Hb6, Hb7, Hb8, Hb9, Hb10, Hb11, Hb12.
    split; congruence. }
  destruct (apply_mutex_constraints_exclusive w12 Hs12)
    as (go' & nogo' & -> & Hs13 & Hex).
  { destruct Hb as [-> ->]. intros d g n Hgd Hnd.
    destruct (Hfresh d g n) as [-> ->]; [|done|done|].
    - rewrite <- Hg, <- Hkg. by eapply widget_in_keys.
    - simpl. repeat split. by repeat case_bool_decide. }
  cbn [mbind result_bind].
  destruct (refresh _ Hs13) as (s & -> & Hs' & Hup).
  eexists. split; [done|]. split; [exact Hs'|]. split; [exact Hex|exact Hup].
Qed.

Lemma build_ui_consistent (cwd : string) :
  ∃ w, build_ui cwd = Ok w ∧ consistent w.
Proof.
  unfold build_ui.
  match goal with
  | |- context [apply_mutex_constraints ?w] => set (w0 := w)
  end.
  assert (Hs0 : sound w0).
  { split; [by repeat split|]. split; [|split].
    - intros []; unfold int_minimum; simpl; lia.
    - intros []; unfold double_minimum, double_maximum; simpl; split; lra.
    - intros d v Hin. unfold w0 in Hin. cbn [weight_spinboxes] in Hin.
      apply list_elem_of_In, in_map_iff in Hin as (i & [= <- <-] & _).
      unfold double_maximum. split; lra. }
  destruct (apply_mutex_constraints_exclusive w0 Hs0)
    as (go' & nogo' & -> & Hs1 & Hex).
  { intros d g n Hg Hn.
    apply (widget_map_range (fun i => MkCheckBox (bool_decide (i ≠ 9)) true)) in Hg.
    apply (widget_map_range (fun i => MkCheckBox (bool_decide (i = 9)) true)) in Hn.
    subst. simpl. repeat split. by repeat case_bool_decide. }
  cbn [mbind result_bind].
  destruct (refresh _ Hs1) as (s & -> & Hs' & Hup).
  eexists. split; [done|]. split; [exact Hs'|]. split; [exact Hex|exact Hup].
Qed.

Lemma handle_event_consistent (cwd : string) (ev : event) (w : MainWindow) :
  consistent w → ∃ w', handle_event cwd ev w = Ok w' ∧ consistent w'.
Proof.
  intros Hc. pose proof Hc as (Hs & Hex & Hup).
  assert (Hkeep : ∀ r : result MainWindow,
            (∃ w', r = Ok w' ∧ sound w' ∧ same_boxes w w'
                   ∧ (up_to_date w → up_to_date w')) →
            ∃ w', r = Ok w' ∧ consistent w').
  { intros r (w' & -> & Hs' & Hb & Hup'). exists w'. split; [done|].
    split; [done|]. split; [by eapply exclusive_same_boxes|by apply Hup']. }
  destruct ev as [d|d|d v|f v|f v|s|s|folder| | |]; cbn [handle_event].
  - by apply click_go_consistent.
  - by apply click_nogo_consistent.
  - destruct (widget (weight_spinboxes w) d) as [old|] eqn:Hold; [|by exists w].
    apply Hkeep.
    destruct (bound_spec 0 double_maximum v) as [Hlo Hhi];
      [unfold double_maximum; lra|].
    apply setValue_weight_consistent; [done..|].
    destruct Hs as ((_ & _ & <-) & _). by eapply widget_in_keys.
  - apply Hkeep. apply setValue_int_consistent; [done|lia].
  - apply Hkeep.
    destruct (bound_spec (double_minimum f) double_maximum v) as [Hlo Hhi];
      [destruct f; unfold double_minimum, double_maximum; lra|].
    by apply setValue_double_consistent.
  - apply Hkeep. by apply setText_paradigm_name_consistent.
  - exists (set_output_folder s w). split; [done|]. split; [done|].
    split; [done|]. by apply (up_to_date_frame w).
  - unfold choose_output_folder. case_bool_decide; [by exists w|].
    apply Hkeep.
    destruct (refreshed w (set_output_folder folder w)) as (w' & -> & ? & ? & ?);
      [done|done|by eauto].
  - apply Hkeep. by apply setChecked_test_mode_consistent.
  - apply Hkeep.
    destruct (refreshed w w) as (w' & -> & ? & ? & ?); [done|done|by eauto].
  - by apply reset_defaults_consistent.
Qed.

Lemma run_form_consistent (cwd : string) (evs : list event) (w : MainWindow) :
  consistent w → ∃ w', run_form cwd evs w = Ok w' ∧ consistent w'.
Proof.
  revert w. induction evs as [|ev rest IH]; intros w Hc; [by exists w|].
  cbn [run_form].
  destruct (handle_event_consistent cwd ev w Hc) as (w1 & -> & Hc1).
  cbn [mbind result_bind]. by apply IH.
Qed.

Lemma after_events_consistent (cwd : string) (evs : list event) :
  ∃ w, after_events cwd evs = Ok w ∧ consistent w.
Proof.
  unfold after_events. destruct (build_ui_consistent cwd) as (w0 & -> & Hc0).
  cbn [mbind result_bind]. by apply run_form_consistent.
Qed.


(** *** What the form hands to the runner *)

Lemma consistent_digits (w : MainWindow) :
  consistent w →
  (collect_digits w).1 `sublist_of` range10
  ∧ (collect_digits w).2 `sublist_of` range10
  ∧ ∀ d, d ∈ (collect_digits w).1 → d ∉ (collect_digits w).2.
Proof.
  intros (((Hg & Hn & _) & _) & Hex & _). unfold collect_digits. cbn [fst snd].
  split; [rewrite <- Hg; apply checked_digits_sublist|].
  split; [rewrite <- Hn; apply checked_digits_sublist|].
  intros d Hdg Hdn.
  apply checked_digits_spec in Hdg as (g & Hgd & Hcg);
    [|rewrite Hg; apply NoDup_range10].
  apply checked_digits_spec in Hdn as (n & Hnd & Hcn);
    [|rewrite Hn; apply NoDup_range10].
  destruct (Hex d g n Hgd Hnd) as (Hboth & _). by rewrite Hcg, Hcn in Hboth.
Qed.

Lemma gather_config_spec (strip : string → string) (cwd : string)
    (w : MainWindow) :
  consistent w →
  ∃ config,
    gather_config strip cwd w = Ok config
    ∧ go_digits config = (collect_digits w).1
    ∧ nogo_digits config = (collect_digits w).2
    ∧ (∀ d, d ∈ range10 → is_Some (digit_weights config !! d))
    ∧ (output_folder config = ""%string → cwd = ""%string)
    ∧ 1 ≤ n_blocks config ∧ 1 ≤ n_trials_per_block config
    ∧ Forall (fun v => (0 <= v)%Q) (durations config).
Proof.
  intros Hc. pose proof Hc as (((Hg & Hn & Hsp) & Hi & Hd & Hw) & Hex & Hup).
  unfold gather_config. unfold collect_digits.
  destruct (spin_values_spec (weight_spinboxes w) range10 ∅)
    as (weights & -> & Hin & _); [by rewrite Hsp|].
  cbn [mbind result_bind]. eexists. split; [reflexivity|].
  cbn [go_digits nogo_digits digit_weights output_folder n_blocks
       n_trials_per_block fst snd].
  split; [done|]. split; [done|]. split.
  { intros d Hd'. destruct (Hin d Hd') as (v & _ & ->). by eexists. }
  split; [by case_bool_decide|].
  split; [apply (Hi n_blocks_spin)|]. split; [apply (Hi trials_per_block_spin)|].
  unfold durations. cbn.
  repeat (constructor;
          [match goal with
           | |- (0 <= double_value w ?f)%Q =>
               destruct (Hd f) as [Hlo _]; unfold double_minimum in Hlo; lra
           end|]).
  constructor.
Qed.

Lemma validate_gathered (config : GuiConfig) :
  go_digits config `sublist_of` range10 →
  nogo_digits config `sublist_of` range10 →
  (∀ d, d ∈ go_digits config → d ∉ nogo_digits config) →
  (∀ d, d ∈ range10 → is_Some (digit_weights config !! d)) →
  1 ≤ n_blocks config → 1 ≤ n_trials_per_block config →
  Forall (fun v => (0 <= v)%Q) (durations config) →
  validate_config config = Ok Valid
  ∨ ∃ why, validate_config config = Ok (Invalid why)
           ∧ (why = GoDigitsEmpty ∨ why = NoGoDigitsEmpty
              ∨ why = GoWeightsNotPositive ∨ why = NoGoWeightsNotPositive
              ∨ (why = OutputFolderRequired ∧ output_folder config = ""%string)).
Proof.
  intros Hgo Hnogo Hdisj Hdom Hb Ht Hdur. unfold validate_config.
  remember (existsb (fun v => Qltb v 0) (durations config)) as negative eqn:Hneg.
  case_bool_decide as Hg; [right; eexists; split; [done|]; by left|].
  case_bool_decide as Hn; [right; eexists; split; [done|]; by right; left|].
  rewrite (bool_decide_eq_true_2 (overlap_of _ _ = ∅))
    by (by apply overlap_of_empty).
  cbn [negb].
  destruct (positive_weights_Ok (digit_weights config) (go_digits config))
    as (gw & Hgw_eq & _).
  { intros d Hd. apply Hdom. by eapply elem_of_sublist. }
  destruct (positive_weights_Ok (digit_weights config) (nogo_digits config))
    as (nw & Hnw_eq & _).
  { intros d Hd. apply Hdom. by eapply elem_of_sublist. }
  rewrite Hgw_eq, Hnw_eq. cbn [mbind result_bind].
  case_bool_decide as Hgne;
    [right; eexists; split; [done|]; by right; right; left|].
  case_bool_decide as Hnne;
    [right; eexists; split; [done|]; by right; right; right; left|].
  case_bool_decide as Hout;
    [right; eexists; split; [done|]; by right; right; right; right|].
  rewrite (proj2 (Z.leb_gt _ _)), (proj2 (Z.leb_gt _ _)) by lia. cbn [orb].
  assert (negative = false) as ->.
  { rewrite Hneg. apply not_true_iff_false. intros Hex.
    apply existsb_exists in Hex as (v & Hv & Hlt).
    rewrite Forall_forall in Hdur. apply list_elem_of_In in Hv.
    specialize (Hdur v Hv). apply Qltb_lt in Hlt. lra. }
  left.
  assert (Hpw : ∀ digits ws,
            positive_weights (digit_weights config) digits = Ok ws → ws ≠ [] →
            (0 < class_total digits (digit_weights config))%Q).
  { intros digits ws Hws Hne.
    destruct (proj2 (positive_weights_spec _ _ _ Hws) Hne) as (d & x & ? & ? & ?).
    by eapply class_total_pos. }
  unfold compute_go_ratio.
  rewrite (proj2 (Qle_bool_false _ _)), (proj2 (Qle_bool_false _ _)); [done|..].
  - by eapply (Hpw _ nw).
  - by eapply (Hpw _ gw).
Qed.


(** X21.  Whatever the user does to the form (clicks on the digit check
    boxes, edits of the spin boxes and text fields, resets), no handler
    raises and the two rows of check boxes stay exclusive: no digit is
    checked as both Go and No-Go, a check box is enabled exactly when its
    partner is unchecked, and [collect_digits] returns two ascending lists of
    digits of [range(10)] that share no digit. *)
Theorem form_digits_stay_exclusive (cwd : string) (evs : list event) :
  ∃ w,
    after_events cwd evs = Ok w
    ∧ (∀ d, 0 ≤ d < 10 →
         ∃ go_cb nogo_cb,
           widget (go_checkboxes w) d = Ok go_cb
           ∧ widget (nogo_checkboxes w) d = Ok nogo_cb
           ∧ isChecked go_cb && isChecked nogo_cb = false
           ∧ isEnabled go_cb = negb (isChecked nogo_cb)
           ∧ isEnabled nogo_cb = negb (isChecked go_cb))
    ∧ (collect_digits w).1 `sublist_of` range10
    ∧ (collect_digits w).2 `sublist_of` range10
    ∧ (∀ d, d ∈ (collect_digits w).1 → d ∉ (collect_digits w).2).
Proof.
  destruct (after_events_consistent cwd evs) as (w & Hrun & Hc).
  exists w. split; [done|]. split; [|by apply consistent_digits].
  destruct Hc as (((Hg & Hn & _) & _) & Hex & _). intros d Hd.
  destruct (widget_keys (go_checkboxes w) d) as [g Hgd];
    [rewrite Hg; by apply range10_spec|].
  destruct (widget_keys (nogo_checkboxes w) d) as [n Hnd];
    [rewrite Hn; by apply range10_spec|].
  exists g, n. split; [done|]. split; [done|]. exact (Hex d g n Hgd Hnd).
Qed.

(** X22.  From the form in any state the user can bring it to,
    [start_experiment] raises nothing and never takes one of its
    [except ValueError] branches.  It either stops at [validate_config] with
    one of four messages (Go digits empty, No-Go digits empty, Go weights or
    No-Go weights not positive; "Output folder is required" only when the
    working directory itself is the empty string), never with the overlap,
    blocks-and-trials, duration or ratio message, or it starts the runner on
    a schedule that holds the blocks [1 .. n_blocks], each of
    [n_trials_per_block] trials. *)
Theorem form_start_experiment (rnds : Z → rng) (strip : string → string)
    (cwd : string) (evs : list event) :
  ∃ w,
    after_events cwd evs = Ok w
    ∧ ((∃ why,
          start_experiment rnds strip cwd w = Ok (ValidationFailed why)
          ∧ (why = GoDigitsEmpty ∨ why = NoGoDigitsEmpty
             ∨ why = GoWeightsNotPositive ∨ why = NoGoWeightsNotPositive
             ∨ (why = OutputFolderRequired ∧ cwd = ""%string)))
       ∨ (∃ config ratio schedule,
            start_experiment rnds strip cwd w
            = Ok (RunnerStarted config ratio schedule)
            ∧ gather_config strip cwd w = Ok config
            ∧ (∀ b, is_Some (schedule !! b) ↔ 1 ≤ b ≤ n_blocks config)
            ∧ (∀ b trials, schedule !! b = Some trials →
                 Z.of_nat (length trials) = n_trials_per_block config))).
Proof.
  destruct (after_events_consistent cwd evs) as (w & Hrun & Hc).
  exists w. split; [done|].
  destruct (gather_config_spec strip cwd w Hc)
    as (config & Hcfg & Hgo & Hnogo & Hdom & Hout & Hb & Ht & Hdur).
  destruct (consistent_digits w Hc) as (Hsg & Hsn & Hdisj).
  unfold start_experiment. rewrite Hcfg.
  destruct (validate_gathered config) as [Hvalid|(why & Hwhy & Hcases)];
    [by rewrite Hgo|by rewrite Hnogo|by rewrite Hgo, Hnogo|done..|
     |].
  - right. rewrite Hvalid. cbn [mbind result_bind].
    destruct (build_trial_schedule_spec rnds config Hvalid)
      as (ratio & schedule & -> & Hr0 & Hr1 & Hblocks & Htrials).
    exists config, ratio, schedule. split; [reflexivity|]. split; [reflexivity|].
    split; [exact Hblocks|]. intros b trials Hbt. by destruct (Htrials b trials Hbt).
  - left. rewrite Hwhy. cbn [mbind result_bind]. exists why. split; [done|].
    destruct Hcases as [?|[?|[?|[?|[? Hempty]]]]]; auto.
    right; right; right; right. split; [done|]. by apply Hout.
Qed.

(** X23.  After any sequence of user actions the preview on the screen is
    the one [update_summary] draws for the check boxes and weights as they
    are now.  Each row has ten probabilities, none negative, and a digit
    that is not checked in the row or has no positive weight shows 0; each
    cell prints its probability times 100.  When [compute_go_ratio] gives a
    ratio r the Go row sums to r and the No-Go row to 1 - r, and the sum
    column shows 100 r and 100 (1 - r); when it raises, every probability and
    both sums are 0. *)
Theorem form_preview_is_current (cwd : string) (evs : list event) :
  ∃ w s weights,
    after_events cwd evs = Ok w
    ∧ preview w = Some s
    ∧ spin_values (weight_spinboxes w) range10 ∅ = Ok weights
    ∧ summarize (collect_digits w).1 (collect_digits w).2 weights = Ok s
    ∧ length (go_probs s) = 10%nat ∧ length (nogo_probs s) = 10%nat
    ∧ shown <$> go_cells s = (fun p => p * 100)%Q <$> go_probs s
    ∧ shown <$> nogo_cells s = (fun p => p * 100)%Q <$> nogo_probs s
    ∧ Forall (fun p => (0 <= p)%Q) (go_probs s ++ nogo_probs s)
    ∧ (∀ (i : nat) p, go_probs s !! i = Some p → ¬ (p == 0)%Q →
         Z.of_nat i ∈ (collect_digits w).1
         ∧ ∃ x, weights !! Z.of_nat i = Some x ∧ (0 < x)%Q)
    ∧ (∀ (i : nat) p, nogo_probs s !! i = Some p → ¬ (p == 0)%Q →
         Z.of_nat i ∈ (collect_digits w).2
         ∧ ∃ x, weights !! Z.of_nat i = Some x ∧ (0 < x)%Q)
    ∧ match compute_go_ratio (collect_digits w).1 (collect_digits w).2 weights with
      | Ok r =>
          (py_sum (go_probs s) == r)%Q ∧ (py_sum (nogo_probs s) == 1 - r)%Q
          ∧ (go_percent (bar s) == r * 100)%Q
          ∧ (nogo_percent (bar s) == (1 - r) * 100)%Q
      | Raise _ =>
          Forall (fun p => (p == 0)%Q) (go_probs s ++ nogo_probs s)
          ∧ (go_percent (bar s) == 0)%Q ∧ (nogo_percent (bar s) == 0)%Q
      end.
Proof.
  destruct (after_events_consistent cwd evs)
    as (w & Hrun & (Hwired & _) & _ & (s & Hup & Hprev)).
  destruct (update_summary_spec w Hwired)
    as (weights & s' & Hweights & Hin & _ & Hsg & Hsn & Hsum & Hup').
  rewrite Hup in Hup'. unfold set_preview in Hup'. injection Hup' as <-.
  exists w, s, weights. split; [done|]. split; [done|]. split; [done|].
  split; [done|].
  destruct (summarize_spec (collect_digits w).1 (collect_digits w).2 weights)
    as (s' & Hs' & Hspec); [|done|done|].
  { intros d Hd. destruct (Hin d Hd) as (v & _ & ->). by eexists. }
  rewrite Hsum in Hs'. injection Hs' as <-. exact Hspec.
Qed.

(** X24.  [viridis_color] never raises and returns a colour between two
    neighbouring stops of its table, channel by channel, hence a valid RGB
    triple; a value of 0 or less gives the first stop and a value of 1 or
    more the last. *)
Theorem viridis_color_between_stops (value : Q) :
  ∃ (i : nat) r1 g1 b1 r2 g2 b2 r g b,
    viridis_color value = Ok (r, g, b)
    ∧ stops !! i = Some (r1, g1, b1) ∧ stops !! S i = Some (r2, g2, b2)
    ∧ Z.min r1 r2 ≤ r ≤ Z.max r1 r2
    ∧ Z.min g1 g2 ≤ g ≤ Z.max g1 g2
    ∧ Z.min b1 b2 ≤ b ≤ Z.max b1 b2
    ∧ (0 ≤ r ≤ 255 ∧ 0 ≤ g ≤ 255 ∧ 0 ≤ b ≤ 255)
    ∧ ((value <= 0)%Q → (r, g, b) = (68, 1, 84))
    ∧ ((1 <= value)%Q → (r, g, b) = (253, 231, 37)).
Proof. apply viridis_color_spec. Qed.

End FormFacts.
